(** * tau-bench error analysis: crash scanner and failure classifier

    A shallow embedding of [phase2/error_analysis/analyze_crashes.py] and
    [phase2/error_analysis/classify_errors.py], and the properties of
    them that the specification states.

    Conventions of the embedding.
    - The interpreter is Python 3.11 with its defaults: the character
      database is Unicode 14.0, and a conversion between [str] and [int]
      is limited to 4300 digits.
    - A Python [str] is the list of its code points ([pystr]).
    - A value loaded from a JSON file is a [json]; a Python [dict] is an
      association list in insertion order, with unique keys.  The
      operations on such values ([get], [in], indexing, [len], [<]) are
      those of Python, with the exceptions that Python raises on a value
      of the wrong type.
    - A Python exception is a value [exn]; a computation that can raise
      has type [res A], and one that also acts on the files of the
      output directory, calls the provider or waits has type [M A].
      The message of an exception is modelled for the exceptions of the
      provider only; an exception that an operation of Python raises
      carries its class, and its message is left empty.
    - A file holds a JSON document; what [json.dump] writes is what
      [json.load] reads, and a write completes: an error or an
      interruption in the middle of a write, which leaves a truncated
      file, is outside the model.  An interruption of the process is
      modelled where it waits for the provider.  The content [data] of
      a trajectory file is the same each time the file is read.
    - [random.sample], [json.dumps], [repr], [str.upper] and the depth
      of nesting that is left to [json.loads] are parameters
      ([Runtime]).
    - [print] calls only write to the terminal and are left out; the
      flag [DEBUG] is off. *)

From Stdlib Require Import String Ascii List ZArith QArith Bool Lia.
From Stdlib Require Import DecimalString.
From Stdlib Require Import Sorted Permutation DecimalPos.
Import ListNotations.

Set Implicit Arguments.
#[local] Set Warnings "-register-all".
Local Open Scope Z_scope.

(* ================================================================== *)
(** * Python strings *)
(* ================================================================== *)

Definition char := N.
Definition pystr := list char.

(** The literal ["..."] of the source, for a literal in ASCII. *)
Definition str (s : string) : pystr :=
  map N_of_ascii (list_ascii_of_string s).

(** [str.isspace] for one code point, which is also the class [\s] of
    [re] on a [str] pattern. *)
Definition isspace (c : char) : bool :=
  ((9 <=? c) && (c <=? 13) || (28 <=? c) && (c <=? 32)
   || (c =? 133) || (c =? 160) || (c =? 5760)
   || (8192 <=? c) && (c <=? 8202)
   || (c =? 8232) || (c =? 8233) || (c =? 8239) || (c =? 8287)
   || (c =? 12288))%N.

(** An ASCII digit: the digits of a number of JSON. *)
Definition isdigit (c : char) : bool := ((48 <=? c) && (c <=? 57))%N.

(** The decimal digits of Unicode (category [Nd]), which are the class
    [\d] of [re] on a [str] pattern and the digits that [int] reads.
    They come in runs of ten, from the digit zero to the digit nine; the
    list holds the code point of each digit zero, for version 14.0 of
    the character database, which is the one of Python 3.11. *)
Definition decimal_zeros : list N :=
  [48; 1632; 1776; 1984; 2406; 2534; 2662; 2790; 2918; 3046; 3174; 3302;
   3430; 3558; 3664; 3792; 3872; 4160; 4240; 6112; 6160; 6470; 6608; 6784;
   6800; 6992; 7088; 7232; 7248; 42528; 43216; 43264; 43472; 43504; 43600;
   44016; 65296; 66720; 68912; 69734; 69872; 69942; 70096; 70384; 70736;
   70864; 71248; 71360; 71472; 71904; 72016; 72784; 73040; 73120; 92768;
   92864; 93008; 120782; 120792; 120802; 120812; 120822; 123200; 123632;
   125264; 130032]%N.

(** The value of a decimal digit. *)
Definition decimal_digit (c : char) : option Z :=
  match List.find (fun z => (z <=? c) && (c <? z + 10))%N decimal_zeros with
  | Some z => Some (Z.of_N (c - z))
  | None => None
  end.

Definition isdecimal (c : char) : bool :=
  match decimal_digit c with Some _ => true | None => false end.

Fixpoint dropwhile (p : char -> bool) (s : pystr) : pystr :=
  match s with
  | [] => []
  | c :: s' => if p c then dropwhile p s' else s
  end.

Fixpoint takewhile (p : char -> bool) (s : pystr) : pystr :=
  match s with
  | [] => []
  | c :: s' => if p c then c :: takewhile p s' else []
  end.

Definition lstrip (s : pystr) : pystr := dropwhile isspace s.
Definition rstrip (s : pystr) : pystr := rev (dropwhile isspace (rev s)).

(** [s.strip()] *)
Definition strip (s : pystr) : pystr := rstrip (lstrip s).

(** [s.startswith(p)] *)
Fixpoint startswith (s p : pystr) {struct p} : bool :=
  match p, s with
  | [], _ => true
  | _ :: _, [] => false
  | a :: p', b :: s' => (a =? b)%N && startswith s' p'
  end.

(** [s.find(sub)], with [None] for [-1]. *)
Fixpoint find (s sub : pystr) : option nat :=
  if startswith s sub then Some 0%nat
  else match s with
       | [] => None
       | _ :: s' => option_map S (find s' sub)
       end.

(** [sub in s] *)
Definition contains (s sub : pystr) : bool :=
  match find s sub with Some _ => true | None => false end.

(** [s.split(sep)[0]] for a non-empty [sep]. *)
Definition split_head (s sep : pystr) : pystr :=
  match find s sep with
  | Some i => firstn i s
  | None => s
  end.

(** [s[:n]] for [n >= 0]. *)
Definition slice_to (n : nat) (s : pystr) : pystr := firstn n s.

Definition pystr_eqb (a b : pystr) : bool :=
  if list_eq_dec N.eq_dec a b then true else false.

(** The value of a non-empty run of ASCII digits. *)
Definition digit_val (c : char) : Z := Z.of_N c - 48.

Definition int_of_digits (s : pystr) : Z :=
  fold_left (fun acc c => 10 * acc + digit_val c) s 0.

(** The value of a non-empty run of decimal digits of Unicode. *)
Definition int_of_decimals (s : pystr) : Z :=
  fold_left (fun acc c => 10 * acc + match decimal_digit c with
                                     | Some d => d
                                     | None => 0
                                     end) s 0.

(** The limit on the number of digits in a conversion between [str] and
    [int] ([sys.get_int_max_str_digits()]), at its default. *)
Definition max_str_digits : nat := 4300.

(** [str(n)] for an [int]. *)
Definition str_of_int (n : Z) : pystr :=
  str (NilEmpty.string_of_int (Z.to_int n)).

(* ================================================================== *)
(** * Python exceptions *)
(* ================================================================== *)

Inductive exn_class :=
| TypeError | AttributeError | KeyError | IndexError | ValueError
| JSONDecodeError | RecursionError
| ApiError          (* any exception of the provider's SDK *)
| SystemExit | KeyboardInterrupt.

Record exn := Exn { exn_cls : exn_class; exn_msg : pystr }.

(** [isinstance(e, Exception)]: what [except Exception] catches. *)
Definition is_Exception (e : exn) : bool :=
  match exn_cls e with
  | SystemExit | KeyboardInterrupt => false
  | _ => true
  end.

Inductive res (A : Type) :=
| Ok (a : A)
| Raise (e : exn).
Arguments Ok {A} a.
Arguments Raise {A} e.

Definition rbind {A B} (x : res A) (k : A -> res B) : res B :=
  match x with
  | Ok a => k a
  | Raise e => Raise e
  end.

Declare Scope res_scope.
Delimit Scope res_scope with res.
Notation "x <- e ;; k" := (rbind e (fun x => k))
  (at level 61, e at next level, right associativity) : res_scope.
Notation "e ;;; k" := (rbind e (fun _ => k))
  (at level 61, right associativity) : res_scope.

(** An exception of the class [c] that an operation of Python raises;
    its message is not modelled. *)
Definition raise_cls {A} (c : exn_class) : res A := Raise (Exn c []).

(* ================================================================== *)
(** * Regular expressions of the crash scanner *)
(* ================================================================== *)

(** The candidates of a greedy [\d+] at the head of [s], longest first:
    each is a non-empty prefix of the run of digits, with what follows
    it. *)
Fixpoint digit_prefixes (s : pystr) : list (pystr * pystr) :=
  match s with
  | [] => []
  | c :: s' =>
      if isdecimal c
      then map (fun dr => (c :: fst dr, snd dr)) (digit_prefixes s')
           ++ [([c], s')]
      else []
  end.

(** A match of [(\d+)post] at the head of [s]: group 1. *)
Definition match_digits_then (post s : pystr) : option pystr :=
  match List.find (fun dr => startswith (snd dr) post) (digit_prefixes s) with
  | Some dr => Some (fst dr)
  | None => None
  end.

(** A match of [pre(\d+)post] at the head of [s]: group 1. *)
Definition match_number_at (pre post s : pystr) : option pystr :=
  if startswith s pre
  then match_digits_then post (skipn (List.length pre) s)
  else None.

(** [re.search(pre(\d+)post, s)] for literal [pre] and [post]: group 1 of
    the leftmost match. *)
Fixpoint search_number (pre post s : pystr) : option pystr :=
  match match_number_at pre post s with
  | Some d => Some d
  | None => match s with
            | [] => None
            | _ :: s' => search_number pre post s'
            end
  end.

(* ================================================================== *)
(** * analyze_crashes.py *)
(* ================================================================== *)

(** The dict that [classify_crash] returns. *)
Record crash := {
  crash_type : pystr;
  tokens_used : option Z;
  token_limit : option Z;
  error_short : pystr;
}.

(** [{n}] of an f-string for an [int] or [None]. *)
Definition fmt_opt_int (o : option Z) : pystr :=
  match o with
  | Some n => str_of_int n
  | None => str "None"
  end.

(** The truth value of an [int] or [None]. *)
Definition opt_int_truthy (o : option Z) : bool :=
  match o with
  | Some n => negb (n =? 0)
  | None => false
  end.

(** The match holds more digits than [int] converts. *)
Definition too_long (m : option pystr) : bool :=
  match m with
  | Some d => (max_str_digits <? List.length d)%nat
  | None => false
  end.

(** [int(m.group(1)) if m else None] for the group [(\d+)] of a match:
    [int] raises [ValueError] on more digits than the limit. *)
Definition int_of_match (m : option pystr) : res (option Z) :=
  if too_long m then raise_cls ValueError
  else Ok (option_map int_of_decimals m).

Definition classify_crash (error_msg : pystr) : res crash :=
  if contains error_msg (str "ContextWindowExceeded") then
    let tokens_match :=
      search_number (str "your request has ") (str " input tokens") error_msg in
    let limit_match :=
      search_number (str "maximum context length is ") (str " tokens") error_msg in
    (tokens_used <- int_of_match tokens_match ;;
     token_limit <- int_of_match limit_match ;;
     Ok {| crash_type := str "context_window";
           tokens_used := tokens_used;
           token_limit := token_limit;
           error_short :=
             if opt_int_truthy tokens_used
             then str "Context window exceeded (" ++ fmt_opt_int tokens_used
                  ++ str "/" ++ fmt_opt_int token_limit ++ str " tokens)"
             else str "Context window exceeded" |})%res
  else if contains error_msg (str "Timeout")
          || contains error_msg (str "APITimeout") then
    Ok {| crash_type := str "api_timeout";
          tokens_used := None;
          token_limit := None;
          error_short := str "API request timed out" |}
  else
    let first_line := slice_to 120 (split_head error_msg [10%N]) in
    Ok {| crash_type := str "other";
          tokens_used := None;
          token_limit := None;
          error_short := first_line |}.


(* ================================================================== *)
(** * JSON values and the Python operations on them *)
(* ================================================================== *)

(** The non-finite floats that [json.loads] accepts as the literals
    [NaN], [Infinity] and [-Infinity]. *)
Inductive nonfinite := NaN | PosInf | NegInf.

(** A value that [json.load] returns, or that the scripts build from such
    values.  A finite float is a rational number.  A float that the
    decoder reads has the value of its literal: the rounding of a
    literal to the nearest double is not modelled.  The one computation
    on floats, the percentage of [compute_summary], is modelled with
    the rounding of doubles ([round1]). *)
Inductive json :=
| JNull
| JBool (b : bool)
| JInt (z : Z)
| JFloat (q : Q)
| JNonFinite (x : nonfinite)
| JStr (s : pystr)
| JArr (l : list json)
| JObj (o : list (pystr * json)).

Definition dict := list (pystr * json).

Fixpoint rmap {A B} (f : A -> res B) (l : list A) : res (list B) :=
  match l with
  | [] => Ok []
  | x :: l' =>
      match f x with
      | Ok y => match rmap f l' with
                | Ok ys => Ok (y :: ys)
                | Raise e => Raise e
                end
      | Raise e => Raise e
      end
  end.

(** A comprehension [[x for x in l if p(x)]], where [p] can raise. *)
Fixpoint rfilter {A} (p : A -> res bool) (l : list A) : res (list A) :=
  match l with
  | [] => Ok []
  | x :: l' =>
      match p x with
      | Ok b => match rfilter p l' with
                | Ok ys => Ok (if b then x :: ys else ys)
                | Raise e => Raise e
                end
      | Raise e => Raise e
      end
  end.

Fixpoint dict_lookup (k : pystr) (o : dict) : option json :=
  match o with
  | [] => None
  | (k', v) :: o' => if pystr_eqb k' k then Some v else dict_lookup k o'
  end.

(** [d[k] = v] on a dict with [str] keys: an existing key keeps its
    place. *)
Fixpoint dict_set (k : pystr) (v : json) (o : dict) : dict :=
  match o with
  | [] => [(k, v)]
  | (k', v') :: o' =>
      if pystr_eqb k' k then (k', v) :: o' else (k', v') :: dict_set k v o'
  end.

(** [bool(v)] *)
Definition truthy (v : json) : bool :=
  match v with
  | JNull => false
  | JBool b => b
  | JInt z => negb (z =? 0)
  | JFloat q => negb (Qeq_bool q 0)
  | JNonFinite _ => true
  | JStr s => match s with [] => false | _ => true end
  | JArr l => match l with [] => false | _ => true end
  | JObj o => match o with [] => false | _ => true end
  end.

(** [x or y] *)
Definition py_or (x y : json) : json := if truthy x then x else y.

(** [v.get(k, dflt)] *)
Definition py_get (v : json) (k : pystr) (dflt : json) : res json :=
  match v with
  | JObj o => Ok (match dict_lookup k o with Some x => x | None => dflt end)
  | _ => raise_cls AttributeError
  end.

(** [v[k]] for a [str] key. *)
Definition py_getitem (v : json) (k : pystr) : res json :=
  match v with
  | JObj o => match dict_lookup k o with
              | Some x => Ok x
              | None => raise_cls KeyError
              end
  | _ => raise_cls TypeError
  end.

(** [v[0]] *)
Definition py_first (v : json) : res json :=
  match v with
  | JArr (x :: _) => Ok x
  | JArr [] => raise_cls IndexError
  | JStr (c :: _) => Ok (JStr [c])
  | JStr [] => raise_cls IndexError
  | JObj _ => raise_cls KeyError
  | _ => raise_cls TypeError
  end.

(** [k in v] for a [str] [k]. *)
Definition py_in (k : pystr) (v : json) : res bool :=
  match v with
  | JObj o => Ok (match dict_lookup k o with Some _ => true | None => false end)
  | JStr s => Ok (contains s k)
  | JArr l =>
      Ok (existsb (fun x => match x with
                            | JStr t => pystr_eqb t k
                            | _ => false
                            end) l)
  | _ => raise_cls TypeError
  end.

(** The elements that [for x in v] visits. *)
Definition py_iter (v : json) : res (list json) :=
  match v with
  | JArr l => Ok l
  | JObj o => Ok (map (fun kv => JStr (fst kv)) o)
  | JStr s => Ok (map (fun c => JStr [c]) s)
  | _ => raise_cls TypeError
  end.

(** [len(v)] *)
Definition py_len (v : json) : res nat :=
  match v with
  | JArr l => Ok (List.length l)
  | JObj o => Ok (List.length o)
  | JStr s => Ok (List.length s)
  | _ => raise_cls TypeError
  end.

(** [v == s] for a [str] literal [s]. *)
Definition eq_str (v : json) (s : pystr) : bool :=
  match v with
  | JStr t => pystr_eqb t s
  | _ => false
  end.

(** The value of a number in a comparison; [True] is [1] and [False]
    is [0]. *)
Definition num_value (v : json) : option Q :=
  match v with
  | JBool b => Some (if b then 1 else 0)%Q
  | JInt z => Some (inject_Z z)
  | JFloat q => Some q
  | _ => None
  end.

(** [v == 0.0] *)
Definition eq_zero (v : json) : bool :=
  match num_value v with
  | Some q => Qeq_bool q 0
  | None => false
  end.

(** [hash(v)] is defined: [v] can be a key of a dict or a member of a
    set. *)
Definition hashable (v : json) : bool :=
  match v with
  | JArr _ | JObj _ => false
  | _ => true
  end.

(** Equality of two hashable values as keys. *)
Definition key_eqb (a b : json) : bool :=
  match num_value a, num_value b with
  | Some p, Some q => Qeq_bool p q
  | None, None =>
      match a, b with
      | JNull, JNull => true
      | JStr s, JStr t => pystr_eqb s t
      | JNonFinite x, JNonFinite y =>
          match x, y with
          | NaN, NaN | PosInf, PosInf | NegInf, NegInf => true
          | _, _ => false
          end
      | _, _ => false
      end
  | _, _ => false
  end.

Fixpoint str_ltb (a b : pystr) : bool :=
  match a, b with
  | _, [] => false
  | [], _ :: _ => true
  | x :: a', y :: b' => (x <? y)%N || ((x =? y)%N && str_ltb a' b')
  end.

(** [a < b]: numbers among themselves, strings among themselves.  A
    comparison with [NaN] is [False]. *)
Definition py_lt (a b : json) : res bool :=
  match a, b with
  | JStr s, JStr t => Ok (str_ltb s t)
  | JNonFinite x, JNonFinite y =>
      Ok (match x, y with NegInf, PosInf => true | _, _ => false end)
  | JNonFinite x, _ =>
      match num_value b with
      | Some _ => Ok (match x with NegInf => true | _ => false end)
      | None => raise_cls TypeError
      end
  | _, JNonFinite y =>
      match num_value a with
      | Some _ => Ok (match y with PosInf => true | _ => false end)
      | None => raise_cls TypeError
      end
  | _, _ =>
      match num_value a, num_value b with
      | Some p, Some q => Ok (negb (Qle_bool q p))
      | _, _ => raise_cls TypeError
      end
  end.

(** A dict whose keys are values of a JSON file, in insertion order. *)
Definition kdict := list (json * json).

Fixpoint kdict_lookup (k : json) (d : kdict) : option json :=
  match d with
  | [] => None
  | (k', v) :: d' => if key_eqb k' k then Some v else kdict_lookup k d'
  end.

Fixpoint kdict_set (k v : json) (d : kdict) : kdict :=
  match d with
  | [] => [(k, v)]
  | (k', v') :: d' =>
      if key_eqb k' k then (k', v) :: d' else (k', v') :: kdict_set k v d'
  end.

(** [sorted(l, key=...)]: a stable sort with [<] on the keys, written as
    an insertion sort.  It is the result of [list.sort] whenever the keys
    are totally ordered by [<], and it raises when two keys cannot be
    compared. *)
Fixpoint insert_by (key : json -> res json) (x : json) (l : list json)
  : res (list json) :=
  match l with
  | [] => Ok [x]
  | y :: l' =>
      (kx <- key x ;; ky <- key y ;;
       b <- py_lt kx ky ;;
       if b then Ok (x :: y :: l')
       else (r <- insert_by key x l' ;; Ok (y :: r)))%res
  end.

Definition sorted_by (key : json -> res json) (l : list json)
  : res (list json) :=
  fold_left (fun acc x => (a <- acc ;; insert_by key x a)%res) l (Ok []).

(* ================================================================== *)
(** * json.loads *)
(* ================================================================== *)

(** The decoder of the standard library, as the scripts call it (no
    hooks, strict), with the three ways in which it fails: a text that
    is not JSON raises [JSONDecodeError]; an integer of more digits than
    the limit of [int] raises [ValueError]; an array or an object nested
    deeper than the recursion limit of the interpreter leaves room for
    raises [RecursionError].  The text is read from left to right, and
    the first of these that is met is raised.  The depth that is left,
    [depth], depends on the recursion limit and on the call stack, and
    is a parameter.

    The recursive functions also take a bound [fuel] on the number of
    nested calls; [json_parse] gives one more than twice the length of
    the text, and no larger bound changes a result
    ([json_parse_fuel_enough]). *)

Definition is_json_ws (c : char) : bool :=
  ((c =? 32) || (c =? 9) || (c =? 10) || (c =? 13))%N.

Definition skip_ws (s : pystr) : pystr := dropwhile is_json_ws s.

Definition hex_val (c : char) : option N :=
  (if (48 <=? c) && (c <=? 57) then Some (c - 48)
   else if (97 <=? c) && (c <=? 102) then Some (c - 87)
   else if (65 <=? c) && (c <=? 70) then Some (c - 55)
   else None)%N.

(** The four hexadecimal digits of a [\uXXXX] escape. *)
Definition hex4 (s : pystr) : option (N * pystr) :=
  match s with
  | a :: b :: c :: d :: r =>
      match hex_val a, hex_val b, hex_val c, hex_val d with
      | Some x, Some y, Some z, Some w =>
          Some (((x * 16 + y) * 16 + z) * 16 + w, r)%N
      | _, _, _, _ => None
      end
  | _ => None
  end.

Definition simple_escape (c : char) : option char :=
  (if c =? 34 then Some 34           (* quote *)
   else if c =? 92 then Some 92      (* backslash *)
   else if c =? 47 then Some 47      (* slash *)
   else if c =? 98 then Some 8       (* b *)
   else if c =? 102 then Some 12     (* f *)
   else if c =? 110 then Some 10     (* n *)
   else if c =? 114 then Some 13     (* r *)
   else if c =? 116 then Some 9      (* t *)
   else None)%N.

(** The code point of a [\u] escape whose digits start [s], joined with
    a low surrogate that follows a high one. *)
Definition unicode_escape (s : pystr) : option (char * pystr) :=
  match hex4 s with
  | None => None
  | Some (u, r) =>
      if ((55296 <=? u) && (u <=? 56319))%N && startswith r [92; 117]%N then
        match hex4 (skipn 2 r) with
        | Some (u2, r') =>
            if ((56320 <=? u2) && (u2 <=? 57343))%N
            then Some (65536 + ((u - 55296) * 1024 + (u2 - 56320)), r')%N
            else Some (u, r)
        | None => None
        end
      else Some (u, r)
  end.

(** The text of a string after its opening quote: the decoded string and
    what follows the closing quote. *)
Fixpoint parse_string_body (fuel : nat) (s : pystr) : option (pystr * pystr) :=
  match fuel with
  | O => None
  | S fuel' =>
      match s with
      | [] => None
      | c :: s' =>
          if (c =? 34)%N then Some ([], s')
          else if (c =? 92)%N then
            match s' with
            | [] => None
            | e :: s'' =>
                if (e =? 117)%N then
                  match unicode_escape s'' with
                  | Some (u, r) =>
                      match parse_string_body fuel' r with
                      | Some (t, r') => Some (u :: t, r')
                      | None => None
                      end
                  | None => None
                  end
                else
                  match simple_escape e with
                  | Some x =>
                      match parse_string_body fuel' s'' with
                      | Some (t, r') => Some (x :: t, r')
                      | None => None
                      end
                  | None => None
                  end
            end
          else if (c <? 32)%N then None
          else
            match parse_string_body fuel' s' with
            | Some (t, r') => Some (c :: t, r')
            | None => None
            end
      end
  end.

(** The digits at the head of [s] and what follows them. *)
Definition span_digits (s : pystr) : pystr * pystr :=
  (takewhile isdigit s, dropwhile isdigit s).

(** The integer part [0|[1-9]\d*]. *)
Definition int_part (s : pystr) : option (pystr * pystr) :=
  match s with
  | c :: s' =>
      if (c =? 48)%N then Some ([c], s')
      else if isdigit c then Some (span_digits s)
      else None
  | [] => None
  end.

(** The optional fraction [\.\d+]. *)
Definition frac_part (s : pystr) : option (pystr * pystr) :=
  if startswith s [46%N] then
    match span_digits (skipn 1 s) with
    | ([], _) => None
    | (d, r) => Some (d, r)
    end
  else None.

(** The optional exponent [[eE][-+]?\d+]. *)
Definition exp_part (s : pystr) : option (Z * pystr) :=
  if startswith s [101%N] || startswith s [69%N] then
    let s' := skipn 1 s in
    let neg := startswith s' [45%N] in
    let s'' := if neg || startswith s' [43%N] then skipn 1 s' else s' in
    match span_digits s'' with
    | ([], _) => None
    | (d, r) => Some (if neg then - int_of_digits d else int_of_digits d, r)
    end
  else None.

(** The value [m * 10^e]. *)
Definition decimal_value (m e : Z) : Q :=
  if 0 <=? e then inject_Z (m * 10 ^ e)
  else Qmake m (Z.to_pos (10 ^ (- e))).

Definition parse_number (s : pystr) : res (json * pystr) :=
  let neg := startswith s [45%N] in
  let s1 := if neg then skipn 1 s else s in
  let sign (z : Z) := if neg then - z else z in
  match int_part s1 with
  | None => raise_cls JSONDecodeError
  | Some (i, s2) =>
      let fr := frac_part s2 in
      let s3 := match fr with Some (_, r) => r | None => s2 end in
      let ex := exp_part s3 in
      let s4 := match ex with Some (_, r) => r | None => s3 end in
      match fr, ex with
      | None, None =>
          if (max_str_digits <? List.length i)%nat then raise_cls ValueError
          else Ok (JInt (sign (int_of_digits i)), s2)
      | _, _ =>
          let f := match fr with Some (d, _) => d | None => [] end in
          let e := match ex with Some (e, _) => e | None => 0 end in
          Ok (JFloat (decimal_value (sign (int_of_digits (i ++ f)))
                                    (e - Z.of_nat (List.length f))), s4)
      end
  end.

(** The literals, and the numbers after them. *)
Definition parse_scalar (s : pystr) : res (json * pystr) :=
  if startswith s (str "null") then Ok (JNull, skipn 4 s)
  else if startswith s (str "true") then Ok (JBool true, skipn 4 s)
  else if startswith s (str "false") then Ok (JBool false, skipn 5 s)
  else if startswith s (str "NaN") then Ok (JNonFinite NaN, skipn 3 s)
  else if startswith s (str "Infinity")
    then Ok (JNonFinite PosInf, skipn 8 s)
  else if startswith s (str "-Infinity")
    then Ok (JNonFinite NegInf, skipn 9 s)
  else parse_number s.

(** The string whose opening quote is the head of [s]. *)
Definition parse_string (s : pystr) : res (pystr * pystr) :=
  match parse_string_body (List.length s) (skipn 1 s) with
  | Some tr => Ok tr
  | None => raise_cls JSONDecodeError
  end.

(** A value at the head of [s], with [depth] levels of nesting left:
    the decoder enters one level at the bracket of an array or of an
    object, before it reads what the bracket encloses. *)
Fixpoint parse_value (fuel depth : nat) (s : pystr) {struct fuel}
  : res (json * pystr) :=
  match fuel with
  | O => raise_cls JSONDecodeError
  | S fuel' =>
      if startswith s [34%N] then
        (tr <- parse_string s ;; Ok (JStr (fst tr), snd tr))%res
      else if startswith s [123%N] then
        match depth with
        | O => raise_cls RecursionError
        | S depth' =>
            let s' := skip_ws (skipn 1 s) in
            if startswith s' [125%N] then Ok (JObj [], skipn 1 s')
            else
              (or <- parse_members fuel' depth' s' [] ;;
               Ok (JObj (fst or), snd or))%res
        end
      else if startswith s [91%N] then
        match depth with
        | O => raise_cls RecursionError
        | S depth' =>
            let s' := skip_ws (skipn 1 s) in
            if startswith s' [93%N] then Ok (JArr [], skipn 1 s')
            else
              (lr <- parse_elements fuel' depth' s' ;;
               Ok (JArr (fst lr), snd lr))%res
        end
      else parse_scalar s
  end

(** The members of an object from the first key on, added to [acc]: a
    key that comes again replaces the value it had. *)
with parse_members (fuel depth : nat) (s : pystr) (acc : dict) {struct fuel}
  : res (dict * pystr) :=
  match fuel with
  | O => raise_cls JSONDecodeError
  | S fuel' =>
      if startswith s [34%N] then
        (ks <- parse_string s ;;
         let s3 := skip_ws (snd ks) in
         if startswith s3 [58%N] then
           vs <- parse_value fuel' depth (skip_ws (skipn 1 s3)) ;;
           let acc' := dict_set (fst ks) (fst vs) acc in
           let s5 := skip_ws (snd vs) in
           if startswith s5 [125%N] then Ok (acc', skipn 1 s5)
           else if startswith s5 [44%N]
             then parse_members fuel' depth (skip_ws (skipn 1 s5)) acc'
           else raise_cls JSONDecodeError
         else raise_cls JSONDecodeError)%res
      else raise_cls JSONDecodeError
  end

(** The elements of an array from the first one on. *)
with parse_elements (fuel depth : nat) (s : pystr) {struct fuel}
  : res (list json * pystr) :=
  match fuel with
  | O => raise_cls JSONDecodeError
  | S fuel' =>
      (vs <- parse_value fuel' depth s ;;
       let s2 := skip_ws (snd vs) in
       if startswith s2 [93%N] then Ok ([fst vs], skipn 1 s2)
       else if startswith s2 [44%N] then
         lr <- parse_elements fuel' depth (skip_ws (skipn 1 s2)) ;;
         Ok (fst vs :: fst lr, snd lr)
       else raise_cls JSONDecodeError)%res
  end.

(** [json.loads(s)] for a [str]. *)
Definition json_parse (depth : nat) (s : pystr) : res json :=
  (vr <- parse_value (S (2 * List.length s)) depth (skip_ws s) ;;
   match skip_ws (snd vr) with
   | [] => Ok (fst vr)
   | _ :: _ => raise_cls JSONDecodeError
   end)%res.

(** [json.loads(v)] for any value: only a [str] is accepted. *)
Definition json_loads (depth : nat) (v : json) : res json :=
  match v with
  | JStr s => json_parse depth s
  | _ => raise_cls TypeError
  end.

(** [scan_file] calls [classify_crash] on [info["error"]] whatever its
    type is; the annotation [str] is not checked.  On a list or a dict
    the tests [in] are membership tests, [re.search] raises [TypeError]
    and [split] raises [AttributeError]. *)
Definition classify_crash_value (error_msg : json) : res crash :=
  match error_msg with
  | JStr s => classify_crash s
  | _ =>
      (b <- py_in (str "ContextWindowExceeded") error_msg ;;
       if b then raise_cls TypeError
       else
         t1 <- py_in (str "Timeout") error_msg ;;
         t2 <- (if t1 then Ok true else py_in (str "APITimeout") error_msg) ;;
         if t2 then
           Ok {| crash_type := str "api_timeout";
                 tokens_used := None;
                 token_limit := None;
                 error_short := str "API request timed out" |}
         else raise_cls AttributeError)%res
  end.

(** An element of [crashes] in the result of [scan_file]: the dict of
    [classify_crash] with the keys that [scan_file] adds. *)
Record crash_entry := {
  ce_crash : crash;
  ce_task_id : json;
  ce_trial : json;
  ce_config_label : pystr;
}.

(** An element of [traj_lengths]. *)
Record traj_length := {
  tl_task_id : json;
  tl_trial : json;
  tl_turns : nat;
  tl_reward : json;
}.

Record scan_result := {
  total_entries : nat;
  normal_entries : Z;
  crashes : list crash_entry;
  longest_trajs : list traj_length;
}.

(** [l.sort(key=lambda x: x["turns"], reverse=True)]: stable, largest
    first. *)
Fixpoint insert_turns (x : traj_length) (l : list traj_length)
  : list traj_length :=
  match l with
  | [] => [x]
  | y :: l' =>
      if (tl_turns y <? tl_turns x)%nat then x :: y :: l'
      else y :: insert_turns x l'
  end.

Definition sort_turns (l : list traj_length) : list traj_length :=
  fold_left (fun acc x => insert_turns x acc) l [].

(** One turn of the loop of [scan_file]. *)
Definition scan_entry (config_label : pystr) (entry : json)
  (acc : list crash_entry * list traj_length)
  : res (list crash_entry * list traj_length) :=
  (info <- py_get entry (str "info") (JObj []) ;;
   task_id <- py_get entry (str "task_id") (JStr (str "?")) ;;
   trial <- py_get entry (str "trial") (JStr (str "?")) ;;
   reward <- py_get entry (str "reward") (JFloat 0) ;;
   traj <- py_get entry (str "traj") (JArr []) ;;
   is_crash <- py_in (str "error") info ;;
   if is_crash then
     err <- py_getitem info (str "error") ;;
     c <- classify_crash_value err ;;
     Ok (fst acc ++ [{| ce_crash := c; ce_task_id := task_id;
                        ce_trial := trial;
                        ce_config_label := config_label |}],
         snd acc)
   else
     n <- py_len traj ;;
     Ok (fst acc,
         snd acc ++ [{| tl_task_id := task_id; tl_trial := trial;
                        tl_turns := n; tl_reward := reward |}]))%res.

(** [scan_file], on the parsed content [data] of the file. *)
Definition scan_file (data : json) (config_label : pystr) : res scan_result :=
  (entries <- py_iter data ;;
   acc <- fold_left (fun a e => (x <- a ;; scan_entry config_label e x))
            entries (Ok ([], [])) ;;
   n <- py_len data ;;
   Ok {| total_entries := n;
         normal_entries := Z.of_nat n - Z.of_nat (List.length (fst acc));
         crashes := fst acc;
         longest_trajs := firstn 10 (sort_turns (snd acc)) |})%res.

(** The entry that [save_json] writes for one crash. *)
Definition save_json_crash (c : crash_entry) : res json :=
  let entry :=
    [(str "config", JStr (ce_config_label c));
     (str "task_id", ce_task_id c);
     (str "trial", ce_trial c);
     (str "crash_type", JStr (crash_type (ce_crash c)));
     (str "error_short", JStr (error_short (ce_crash c)))] in
  match tokens_used (ce_crash c) with
  | None => Ok (JObj entry)
  | Some used =>
      match token_limit (ce_crash c) with
      | Some limit =>
          Ok (JObj (entry ++ [(str "tokens_used", JInt used);
                              (str "token_limit", JInt limit);
                              (str "over_by", JInt (used - limit))]))
      | None => raise_cls TypeError
      end
  end.

(** The list [output["crashes"]] of [save_json]. *)
Definition save_json_crashes (all_results : list scan_result)
  : res (list json) :=
  rmap save_json_crash (flat_map crashes all_results).

(* ================================================================== *)
(** * Regular expressions of the classifier *)
(* ================================================================== *)

Definition lbrace : char := 123%N.
Definition rbrace : char := 125%N.
Definition dquote : char := 34%N.
Definition newline : char := 10%N.

(** An ASCII literal in which every apostrophe stands for a double
    quote. *)
Definition qstr (s : string) : pystr :=
  map (fun c => if (c =? 39)%N then dquote else c) (str s).

(** [re.search] with a pattern that is matched at the head of a text:
    the leftmost position with a match. *)
Fixpoint search_leftmost (m : pystr -> option pystr) (s : pystr)
  : option pystr :=
  match m s with
  | Some g => Some g
  | None => match s with
            | [] => None
            | _ :: s' => search_leftmost m s'
            end
  end.

(** The prefix of [s] up to its last [c]: what a greedy [.*] followed by
    [c] takes, in [re.DOTALL] mode. *)
Fixpoint upto_last (c : char) (s : pystr) : option pystr :=
  match s with
  | [] => None
  | x :: s' =>
      match upto_last c s' with
      | Some p => Some (x :: p)
      | None => if (x =? c)%N then Some [x] else None
      end
  end.

(** [Action:\s*(\{.*\})] with [re.DOTALL], at the head of [s]: group 1.
    The next token after [\s*] is a brace, so [\s*] takes the whole run
    of white space. *)
Definition match_action (s : pystr) : option pystr :=
  if startswith s (str "Action:") then
    match dropwhile isspace (skipn 7 s) with
    | c :: r =>
        if (c =? lbrace)%N then option_map (cons c) (upto_last rbrace r)
        else None
    | [] => None
    end
  else None.

Definition search_action : pystr -> option pystr :=
  search_leftmost match_action.

(** What the lazy [.*?] takes before [\}\s*```], with the closing brace:
    the first brace after which white space and a fence follow. *)
Fixpoint lazy_upto_fence (s : pystr) : option pystr :=
  match s with
  | [] => None
  | c :: s' =>
      if (c =? rbrace)%N && startswith (dropwhile isspace s') (str "```")
      then Some [c]
      else option_map (cons c) (lazy_upto_fence s')
  end.

(** [\s*(\{.*?\})\s*```] at the head of [s]: group 1. *)
Definition match_fence_body (s : pystr) : option pystr :=
  match dropwhile isspace s with
  | c :: r =>
      if (c =? lbrace)%N then option_map (cons c) (lazy_upto_fence r)
      else None
  | [] => None
  end.

(** [```(?:json)?\s*(\{.*?\})\s*```] with [re.DOTALL], at the head of
    [s]: group 1.  The optional group is tried first, and then left
    out. *)
Definition match_fence (s : pystr) : option pystr :=
  if startswith s (str "```") then
    let r := skipn 3 s in
    match (if startswith r (str "json") then match_fence_body (skipn 4 r)
           else None) with
    | Some g => Some g
    | None => match_fence_body r
    end
  else None.

Definition search_fence : pystr -> option pystr :=
  search_leftmost match_fence.

Definition not_brace (c : char) : bool :=
  negb ((c =? lbrace)%N || (c =? rbrace)%N).

(** [\{[^{}]*"primary_category"[^{}]*\}] at the head of [s]: group 0.
    The key has no brace, so a match is an opening brace, the whole run
    without braces after it, which holds the key, and a closing brace. *)
Definition match_object (s : pystr) : option pystr :=
  match s with
  | c :: r =>
      if (c =? lbrace)%N then
        let run := takewhile not_brace r in
        match dropwhile not_brace r with
        | d :: _ =>
            if (d =? rbrace)%N && contains run (qstr "'primary_category'")
            then Some (c :: run ++ [d])
            else None
        | [] => None
        end
      else None
  | [] => None
  end.

Definition search_object : pystr -> option pystr :=
  search_leftmost match_object.

(** [re.sub(r'<think>.*?</think>\s*', '', s, flags=re.DOTALL)].  [fuel]
    bounds the number of steps; the length of [s] is enough. *)
Fixpoint sub_think (fuel : nat) (s : pystr) : pystr :=
  match fuel with
  | O => s
  | S fuel' =>
      match s with
      | [] => []
      | c :: s' =>
          if startswith s (str "<think>") then
            match find (skipn 7 s) (str "</think>") with
            | Some j =>
                sub_think fuel' (dropwhile isspace (skipn (7 + j + 8) s))
            | None => c :: sub_think fuel' s'
            end
          else c :: sub_think fuel' s'
      end
  end.

Definition strip_think (s : pystr) : pystr := sub_think (List.length s) s.

(* ================================================================== *)
(** * classify_errors.py *)
(* ================================================================== *)

(** The functions of the Python library that the classifier calls and
    that are taken as given. *)
Class Runtime := {
  (** [random.seed(seed)] and then [random.sample(population, k)], for
      [0 <= k <= len(population)]. *)
  random_sample : Z -> list json -> nat -> list json;
  (** [json.dumps(v, indent=2)] *)
  json_dumps : json -> pystr;
  (** [str(v)] for a float, a list or a dict. *)
  py_repr : json -> pystr;
  (** [s.upper()] *)
  str_upper : pystr -> pystr;
  (** The levels of nesting that are left to [json.loads] where the
      classifier calls it. *)
  json_depth : nat;
}.

(** The flag [DEBUG] has its initial value [False]: the debug lines are
    not run. *)

Definition ERROR_TAXONOMY : list (pystr * pystr) :=
  [(str "wrong_tool",
    str "Agent called the wrong tool entirely (e.g., cancel_reservation when it should have called update_reservation_flights)");
   (str "wrong_arguments",
    str "Correct tool but wrong parameters (e.g., wrong reservation_id, wrong payment_method, wrong flight number, wrong date)");
   (str "policy_violation",
    str "Agent violated a domain rule (e.g., modifying basic economy, cancelling without insurance, giving unauthorized refund, skipping user authentication)");
   (str "incomplete_execution",
    str "Agent completed some but not all required actions (e.g., changed flights but forgot to update baggage or passengers)");
   (str "premature_escalation",
    str "Agent transferred to a human agent when it could have handled the request with available tools");
   (str "information_error",
    str "Agent gave the user incorrect information (wrong price, wrong policy detail, wrong flight status) which affected the conversation outcome");
   (str "reasoning_failure",
    str "Agent misunderstood user intent or made a wrong plan despite having correct information available from tools and conversation");
   (str "user_simulator_error",
    str "The user simulator gave ambiguous, contradictory, or hallucinated instructions that caused the agent to fail through no fault of its own");
   (str "context_or_format_error",
    str "Conversation cut short (context window overflow), malformed JSON action, or other infrastructure/parsing failure")].

(** The default of the parameter [seed] of [load_and_sample]. *)
Definition default_seed : Z := 42.

(** [str(v)], as an f-string formats a value. *)
Definition py_str `{Runtime} (v : json) : pystr :=
  match v with
  | JStr s => s
  | JNull => str "None"
  | JBool true => str "True"
  | JBool false => str "False"
  | JInt z => str_of_int z
  | _ => py_repr v
  end.

(** [sep.join(lines)] *)
Fixpoint join (sep : pystr) (lines : list pystr) : pystr :=
  match lines with
  | [] => []
  | [l] => l
  | l :: ls => l ++ sep ++ join sep ls
  end.

(** ** Data loading and sampling *)

(** The condition of the comprehension that builds [failures]. *)
Definition is_failure (entry : json) : res bool :=
  (reward <- py_get entry (str "reward") (JFloat 1) ;;
   if negb (eq_zero reward) then Ok false
   else
     info <- py_get entry (str "info") (JObj []) ;;
     has_task <- py_in (str "task") info ;;
     if negb has_task then Ok false
     else
       traj <- py_get entry (str "traj") JNull ;;
       Ok (truthy traj))%res.

(** One turn of the loop that fills [seen]. *)
Definition dedup_step (seen : kdict) (entry : json) : res kdict :=
  (tid <- py_getitem entry (str "task_id") ;;
   if negb (hashable tid) then raise_cls TypeError
   else
     match kdict_lookup tid seen with
     | None => Ok (kdict_set tid entry seen)
     | Some old =>
         t1 <- py_get entry (str "trial") (JInt 0) ;;
         t0 <- py_get old (str "trial") (JInt 0) ;;
         lower <- py_lt t1 t0 ;;
         Ok (if lower then kdict_set tid entry seen else seen)
     end)%res.

Definition dedup (failures : list json) : res kdict :=
  fold_left (fun acc e => (seen <- acc ;; dedup_step seen e)%res)
    failures (Ok []).

(** [load_and_sample], on the parsed content [data] of the file: the
    sample and [len(data)]. *)
Definition load_and_sample `{Runtime} (data : json) (sample_size : Z)
  (seed : Z) : res (list json * nat) :=
  (entries <- py_iter data ;;
   failures <- rfilter is_failure entries ;;
   seen <- dedup failures ;;
   unique <- sorted_by (fun x => py_getitem x (str "task_id"))
               (map snd seen) ;;
   n <- py_len data ;;
   if Z.of_nat (List.length unique) <=? sample_size then Ok (unique, n)
   else if sample_size <? 0 then raise_cls ValueError
   else Ok (random_sample seed unique (Z.to_nat sample_size), n))%res.

(** ** Trajectory parsing *)

Definition policy_markers : list pystr :=
  [str "#Available tools"; str "# Available tools"; str "#Available Tools"].

(** The loop of [extract_policy] over the markers that are left, and the
    fallback after it. *)
Fixpoint extract_policy_from (markers : list pystr) (system_content : json)
  : res json :=
  match markers with
  | marker :: rest =>
      (found <- py_in marker system_content ;;
       if found then
         match system_content with
         | JStr s => Ok (JStr (strip (split_head s marker)))
         | _ => raise_cls AttributeError
         end
       else extract_policy_from rest system_content)%res
  | [] =>
      match system_content with
      | JStr s => Ok (JStr (slice_to 3000 s))
      | JArr l => Ok (JArr (firstn 3000 l))
      | _ => raise_cls TypeError
      end
  end.

Definition extract_policy (system_content : json) : res json :=
  extract_policy_from policy_markers system_content.

Definition is_none (v : json) : bool :=
  match v with JNull => true | _ => false end.

(** One turn of the loop over [tool_calls]: the action that is appended,
    if one is. *)
Definition tool_call_action `{Runtime} (tc : json) : res (option json) :=
  (fn <- py_get tc (str "function") (JObj []) ;;
   raw <- py_get fn (str "arguments") (JStr (str "{}")) ;;
   args <- match json_loads json_depth raw with
           | Ok v => Ok v
           | Raise e =>
               match exn_cls e with
               | JSONDecodeError | TypeError =>
                   py_get fn (str "arguments") (JObj [])
               | _ => Raise e
               end
           end ;;
   name <- py_get fn (str "name") (JStr (str "unknown")) ;;
   if eq_str name (str "respond") || eq_str name (str "unknown")
   then Ok None
   else Ok (Some (JObj [(str "name", name); (str "arguments", args)])))%res.

(** The action that is appended for a message without tool calls, if
    one is. *)
Definition content_action `{Runtime} (msg : json) : res (option json) :=
  (c <- py_get msg (str "content") (JStr []) ;;
   match py_or c (JStr []) with
   | JStr content =>
       match search_action content with
       | Some g =>
           match json_parse json_depth g with
           | Ok action =>
               name <- py_get action (str "name") JNull ;;
               if eq_str name (str "respond") || is_none name
               then Ok None
               else Ok (Some action)
           | Raise e =>
               match exn_cls e with
               | JSONDecodeError => Ok None
               | _ => Raise e
               end
           end
       | None => Ok None
       end
   | _ => raise_cls TypeError
   end)%res.

Definition somes {A} (l : list (option A)) : list A :=
  flat_map (fun o => match o with Some x => [x] | None => [] end) l.

(** The actions that one message adds to [actions]. *)
Definition message_actions `{Runtime} (msg : json) : res (list json) :=
  (role <- py_get msg (str "role") JNull ;;
   if negb (eq_str role (str "assistant")) then Ok []
   else
     tool_calls <- py_get msg (str "tool_calls") JNull ;;
     if truthy tool_calls then
       tcs <- py_iter tool_calls ;;
       acts <- rmap tool_call_action tcs ;;
       Ok (somes acts)
     else
       a <- content_action msg ;;
       Ok (somes [a]))%res.

Definition extract_agent_actions `{Runtime} (traj : json) : res (list json) :=
  (msgs <- py_iter traj ;;
   acts <- rmap message_actions msgs ;;
   Ok (concat acts))%res.

(** The line of [format_conversation] for one tool call. *)
Definition tool_call_line `{Runtime} (tc : json) : res pystr :=
  (fn <- py_get tc (str "function") (JObj []) ;;
   name <- py_get fn (str "name") JNull ;;
   args <- py_get fn (str "arguments") (JStr (str "{}")) ;;
   Ok (str "  [Tool Call] " ++ py_str name ++ str "(" ++ py_str args
       ++ str ")"))%res.

(** A method of [str] called on [v]: [AttributeError] on another type. *)
Definition as_str (v : json) : res pystr :=
  match v with
  | JStr s => Ok s
  | _ => raise_cls AttributeError
  end.

(** The line that [format_conversation] appends for one message, if
    one. *)
Definition format_message `{Runtime} (max_api_output_len : nat) (msg : json)
  : res (option pystr) :=
  (r <- py_get msg (str "role") (JStr (str "unknown")) ;;
   role <- (s <- as_str r ;; Ok (str_upper s)) ;;
   c <- py_get msg (str "content") (JStr []) ;;
   let content := py_or c (JStr []) in
   raw_role <- py_get msg (str "role") JNull ;;
   let is_user := eq_str raw_role (str "user") in
   content <-
     (if is_user then
        has_think <- py_in (str "<think>") content ;;
        if has_think then
          match content with
          | JStr s => Ok (JStr (strip_think s))
          | _ => raise_cls TypeError
          end
        else Ok content
      else Ok content) ;;
   content <-
     (if is_user then
        s <- as_str content ;;
        if startswith s (str "API output:")
           && (max_api_output_len <? List.length s)%nat
        then Ok (JStr (slice_to max_api_output_len s
                       ++ str " ... [truncated]"))
        else Ok content
      else Ok content) ;;
   content <-
     (if eq_str raw_role (str "assistant") then
        tool_calls <- py_get msg (str "tool_calls") JNull ;;
        if truthy tool_calls then
          tcs <- py_iter tool_calls ;;
          tc_lines <- rmap tool_call_line tcs ;;
          match py_or content (JStr []) with
          | JStr s => Ok (JStr (strip (s ++ [newline]
                                        ++ join [newline] tc_lines)))
          | _ => raise_cls TypeError
          end
        else Ok content
      else Ok content) ;;
   s <- as_str content ;;
   match strip s with
   | [] => Ok None
   | _ :: _ => Ok (Some (str "[" ++ role ++ str "]: " ++ strip s))
   end)%res.

Definition format_conversation `{Runtime} (traj_messages : list json)
  (max_api_output_len : nat) : res pystr :=
  (lines <- rmap (format_message max_api_output_len) traj_messages ;;
   Ok (join [newline; newline] (somes lines)))%res.

(** The sentence for a task without actions; its dash is U+2014. *)
Definition no_actions_required : pystr :=
  str "No actions required " ++ [8212%N]
  ++ str " the agent should have refused the request or correctly identified it as out of scope.".

(** The line of [format_ground_truth] for the action number [i]. *)
Definition ground_truth_line `{Runtime} (i : nat) (action : json) : res pystr :=
  (name <- py_get action (str "name") (JStr (str "unknown")) ;;
   dflt <- py_get action (str "arguments") (JObj []) ;;
   kwargs <- py_get action (str "kwargs") dflt ;;
   Ok (str_of_int (Z.of_nat i) ++ str ". " ++ py_str name ++ str "("
       ++ json_dumps kwargs ++ str ")"))%res.

Fixpoint ground_truth_lines `{Runtime} (i : nat) (actions : list json)
  : res (list pystr) :=
  match actions with
  | [] => Ok []
  | a :: rest =>
      (l <- ground_truth_line i a ;;
       ls <- ground_truth_lines (S i) rest ;;
       Ok (l :: ls))%res
  end.

Definition format_ground_truth `{Runtime} (actions : json) : res pystr :=
  if negb (truthy actions) then Ok no_actions_required
  else
    (l <- py_iter actions ;;
     lines <- ground_truth_lines 1 l ;;
     Ok (join [newline] lines))%res.

(** ** Prompt construction *)

Definition taxonomy_text : pystr :=
  join [newline]
    (map (fun kv => str "  - " ++ fst kv ++ str ": " ++ snd kv)
       ERROR_TAXONOMY).

Definition nl (s : pystr) : pystr := s ++ [newline].

Definition build_prompt `{Runtime} (failure : json) : res pystr :=
  (traj <- py_get failure (str "traj") (JArr []) ;;
   info <- py_get failure (str "info") (JObj []) ;;
   task <- py_get info (str "task") (JObj []) ;;
   policy <-
     (if truthy traj then
        first <- py_first traj ;;
        role <- py_get first (str "role") JNull ;;
        if eq_str role (str "system") then
          content <- py_get first (str "content") (JStr []) ;;
          extract_policy content
        else Ok (JStr (str "No policy available"))
      else Ok (JStr (str "No policy available"))) ;;
   actions <- py_get task (str "actions") (JArr []) ;;
   gt_text <- format_ground_truth actions ;;
   msgs <- py_iter traj ;;
   conv_messages <-
     rfilter (fun m => role <- py_get m (str "role") JNull ;;
                       Ok (negb (eq_str role (str "system")))) msgs ;;
   conv_text <- format_conversation conv_messages 500 ;;
   instruction <-
     py_get task (str "instruction") (JStr (str "No instruction available")) ;;
   Ok (nl (str "You are an expert evaluator analyzing a FAILED AI agent interaction from the tau-bench benchmark.")
       ++ nl []
       ++ nl (str "The agent was supposed to help a simulated user with a customer service task but FAILED (reward = 0).")
       ++ nl (str "Your job: figure out WHY it failed by comparing what the agent did vs what it should have done.")
       ++ nl []
       ++ nl (str "## User's Goal")
       ++ nl (py_str instruction)
       ++ nl []
       ++ nl (str "## Expected Solution (Ground Truth)")
       ++ nl (str "These are the correct actions the agent should have taken:")
       ++ nl gt_text
       ++ nl []
       ++ nl (str "## Domain Policy (Rules the Agent Must Follow)")
       ++ nl (py_str policy)
       ++ nl []
       ++ nl (str "## Actual Conversation")
       ++ nl conv_text
       ++ nl []
       ++ nl (str "## Error Taxonomy")
       ++ nl (str "Classify this failure into EXACTLY ONE of these categories:")
       ++ nl taxonomy_text
       ++ nl []
       ++ nl (str "Respond with ONLY valid JSON, nothing else:")
       ++ qstr "{'primary_category': '<category_id>', 'sub_category': '<brief specific sub-type>', 'explanation': '<1-2 sentence explanation>'}"))%res.

(* ================================================================== *)
(** * The outside world of one run *)
(* ================================================================== *)

(** What a run does to the outside: the calls to the provider and the
    waits, oldest first. *)
Inductive event :=
| EvCall (prompt : pystr)
| EvSleep (seconds : Q).

(** The two files of one configuration in the output directory, each
    absent or holding a JSON document, and the events so far. *)
Record world := {
  result_file : option json;
  partial_file : option json;
  trace : list event;
}.

(** The provider: the answer to the call number [n] (counted from 0)
    with a prompt, a text or an exception.  An interruption of the
    process while it waits for the answer is the exception
    [KeyboardInterrupt]. *)
Definition llm := nat -> pystr -> res pystr.

Definition is_call (e : event) : bool :=
  match e with EvCall _ => true | EvSleep _ => false end.

Definition calls (w : world) : nat := List.length (filter is_call (trace w)).

Definition log (e : event) (w : world) : world :=
  {| result_file := result_file w;
     partial_file := partial_file w;
     trace := trace w ++ [e] |}.

(** A computation that acts on the world and can raise. *)
Definition M (A : Type) := world -> res A * world.

Definition ret {A} (a : A) : M A := fun w => (Ok a, w).

Definition bind {A B} (m : M A) (k : A -> M B) : M B :=
  fun w => match m w with
           | (Ok a, w') => k a w'
           | (Raise e, w') => (Raise e, w')
           end.

Definition lift {A} (r : res A) : M A := fun w => (r, w).

(** [try: body / except Exception as e: handler(e)] *)
Definition try_except {A} (body : M A) (handler : exn -> M A) : M A :=
  fun w => match body w with
           | (Ok a, w') => (Ok a, w')
           | (Raise e, w') =>
               if is_Exception e then handler e w' else (Raise e, w')
           end.

Declare Scope M_scope.
Delimit Scope M_scope with M.
Notation "x <- e ;; k" := (bind e (fun x => k))
  (at level 61, e at next level, right associativity) : M_scope.
Notation "e ;;; k" := (bind e (fun _ => k))
  (at level 61, right associativity) : M_scope.

(** [time.sleep(seconds)] *)
Definition sleep (seconds : Q) : M unit :=
  fun w => if Qle_bool 0 seconds then (Ok tt, log (EvSleep seconds) w)
           else (raise_cls ValueError, w).

(** [with open(partial_path, "w") as f: json.dump(v, f)], for a write
    that completes. *)
Definition write_partial (v : json) : M unit :=
  fun w => (Ok tt, {| result_file := result_file w;
                      partial_file := Some v;
                      trace := trace w |}).

(** [with open(result_path, "w") as f: json.dump(v, f, indent=2)], for
    a write that completes. *)
Definition write_result (v : json) : M unit :=
  fun w => (Ok tt, {| result_file := Some v;
                      partial_file := partial_file w;
                      trace := trace w |}).

(** [if partial_path.exists(): partial_path.unlink()] *)
Definition unlink_partial : M unit :=
  fun w => (Ok tt, {| result_file := result_file w;
                      partial_file := None;
                      trace := trace w |}).

Definition get_world : M world := fun w => (Ok w, w).

(** ** The classifier client *)

(** [call_llm]: one call for either provider, and [None] for another
    name. *)
Definition call_llm (client : llm) (provider model prompt : pystr) : M json :=
  if pystr_eqb provider (str "anthropic")
     || pystr_eqb provider (str "openai")
  then fun w => (match client (calls w) prompt with
                 | Ok text => Ok (JStr text)
                 | Raise e => Raise e
                 end, log (EvCall prompt) w)
  else ret JNull.

Definition parse_error_verdict (text : pystr) : json :=
  JObj [(str "primary_category", JStr (str "parse_error"));
        (str "sub_category", JStr (str "none"));
        (str "explanation",
         JStr (str "Could not parse LLM response: " ++ slice_to 200 text))].

(** [try: return json.loads(g)] with [except json.JSONDecodeError:
    pass]: the value that is returned, if one is. *)
Definition loads_or_pass `{Runtime} (g : pystr) : res (option json) :=
  match json_parse json_depth g with
  | Ok v => Ok (Some v)
  | Raise e =>
      match exn_cls e with
      | JSONDecodeError => Ok None
      | _ => Raise e
      end
  end.

(** The second and the third strategy of [parse_response] on the
    stripped text. *)
Definition parse_strategy2 `{Runtime} (text : pystr) : res (option json) :=
  match search_fence text with
  | Some g => loads_or_pass g
  | None => Ok None
  end.

Definition parse_strategy3 `{Runtime} (text : pystr) : res (option json) :=
  match search_object text with
  | Some g => loads_or_pass g
  | None => Ok None
  end.

(** What [parse_response] does after the first strategy. *)
Definition parse_fallback `{Runtime} (text : pystr) : res json :=
  (r2 <- parse_strategy2 text ;;
   match r2 with
   | Some v => Ok v
   | None =>
       r3 <- parse_strategy3 text ;;
       match r3 with
       | Some v => Ok v
       | None => Ok (parse_error_verdict text)
       end
   end)%res.

Definition parse_response `{Runtime} (response : json) : res json :=
  (raw <- as_str response ;;
   let text := strip raw in
   r1 <- loads_or_pass text ;;
   match r1 with
   | Some result =>
       has_key <- py_in (str "primary_category") result ;;
       if has_key then Ok result else parse_fallback text
   | None => parse_fallback text
   end)%res.

Definition valid_categories : list pystr :=
  map fst ERROR_TAXONOMY ++ [str "parse_error"; str "api_error"].

(** [v not in valid], for the set [valid] of strings. *)
Definition not_in_valid (v : json) : res bool :=
  if negb (hashable v) then raise_cls TypeError
  else Ok (negb (existsb (eq_str v) valid_categories)).

(** [d[k] = v] *)
Definition py_setitem (d : json) (k : pystr) (v : json) : res json :=
  match d with
  | JObj o => Ok (JObj (dict_set k v o))
  | _ => raise_cls TypeError
  end.

Definition api_error_verdict (e : exn) : json :=
  JObj [(str "primary_category", JStr (str "api_error"));
        (str "sub_category", JStr (str "none"));
        (str "explanation",
         JStr (str "API failed after retry: " ++ slice_to 200 (exn_msg e)))].

(** The body of the [try] of [classify_one]. *)
Definition classify_attempt `{Runtime} (client : llm) (provider model prompt : pystr)
  (delay : Q) : M json :=
  (response_text <- call_llm client provider model prompt ;;
   result <- lift (parse_response response_text) ;;
   category <- lift (py_get result (str "primary_category") JNull) ;;
   invalid <- lift (not_in_valid category) ;;
   result <- (if invalid
              then lift (py_setitem result (str "primary_category")
                           (JStr (str "other")))
              else ret result) ;;
   sleep delay ;;;
   ret result)%M.

(** The loop [for attempt in range(2)] over the attempts that are left;
    after the last one the function would return [None]. *)
Fixpoint classify_attempts `{Runtime} (attempts : list nat) (client : llm)
  (provider model prompt : pystr) (delay : Q) : M json :=
  match attempts with
  | [] => ret JNull
  | attempt :: rest =>
      try_except (classify_attempt client provider model prompt delay)
        (fun e =>
           if (attempt =? 0)%nat then
             (sleep 2 ;;;
              classify_attempts rest client provider model prompt delay)%M
           else ret (api_error_verdict e))
  end.

Definition classify_one `{Runtime} (client : llm) (provider model : pystr)
  (failure : json) (delay : Q) : M json :=
  (prompt <- lift (build_prompt failure) ;;
   classify_attempts [0; 1]%nat client provider model prompt delay)%M.

(** ** Processing and aggregation *)

(** [counts[cat] += 1] on the [defaultdict(int)]. *)
Fixpoint count_incr (cat : json) (counts : list (json * Z))
  : list (json * Z) :=
  match counts with
  | [] => [(cat, 1)]
  | (k, n) :: rest =>
      if key_eqb k cat then (k, n + 1) :: rest
      else (k, n) :: count_incr cat rest
  end.

Definition count_step (counts : list (json * Z)) (c : json)
  : res (list (json * Z)) :=
  (cls <- py_getitem c (str "classification") ;;
   cat <- py_getitem cls (str "primary_category") ;;
   if negb (hashable cat) then raise_cls TypeError
   else Ok (count_incr cat counts))%res.

(** [sorted(counts.items(), key=lambda x: -x[1])]: stable, largest count
    first. *)
Fixpoint insert_count (x : json * Z) (l : list (json * Z))
  : list (json * Z) :=
  match l with
  | [] => [x]
  | y :: l' =>
      if snd y <? snd x then x :: y :: l' else y :: insert_count x l'
  end.

Definition sort_counts (l : list (json * Z)) : list (json * Z) :=
  fold_left (fun acc x => insert_count x acc) l [].

(** The integer nearest to the quotient [n / d] of [0 <= n] by [0 < d],
    a tie going to the even one. *)
Definition round_half_even (n d : Z) : Z :=
  let f := n / d in
  let r := n mod d in
  if 2 * r <? d then f
  else if d <? 2 * r then f + 1
  else if Z.even f then f else f + 1.

(** [n / d] for two [int]s, [0 <= n] and [0 < d]: the double that is
    nearest to the quotient, a tie going to the even mantissa.  The
    mantissa has 53 bits; the quotient of two lengths of lists is in the
    range of the normal doubles, and the end of that range is not
    modelled. *)
Definition true_div (n d : Z) : Q :=
  if n =? 0 then 0%Q
  else
    let e0 := Z.log2 n - Z.log2 d in
    let below := if 0 <=? e0 then n <? d * 2 ^ e0
                 else n * 2 ^ (- e0) <? d in
    let e := if below then e0 - 1 else e0 in
    let shift := 52 - e in
    if 0 <=? shift
    then Qmake (round_half_even (n * 2 ^ shift) d) (Z.to_pos (2 ^ shift))
    else inject_Z (round_half_even n (d * 2 ^ (- shift)) * 2 ^ (- shift)).

(** [round(100 * count / total, 1)]: the double [100 * count / total]
    is rounded to one decimal place on its exact value, a tie going to
    the even digit; the result is the float of that decimal. *)
Definition round1 (count total : Z) : Q :=
  let x := true_div (100 * count) total in
  Qmake (round_half_even (10 * Qnum x) (Z.pos (Qden x))) 10.

(** The key of the summary for a category.  The category of a verdict of
    [classify_one] is a string; for another value the key is the one
    that [json.dump] writes. *)
Definition category_key `{Runtime} (cat : json) : pystr :=
  match cat with
  | JStr s => s
  | JNull => str "null"
  | JBool true => str "true"
  | JBool false => str "false"
  | JInt z => str_of_int z
  | _ => py_repr cat
  end.

Definition compute_summary `{Runtime} (classifications : json) : res json :=
  (cs <- py_iter classifications ;;
   counts <- fold_left (fun acc c => (a <- acc ;; count_step a c)%res)
               cs (Ok []) ;;
   total <- py_len classifications ;;
   Ok (JObj
         (fold_left
            (fun d kv =>
               dict_set (category_key (fst kv))
                 (JObj [(str "count", JInt (snd kv));
                        (str "percentage",
                         if (0 <? total)%nat
                         then JFloat (round1 (snd kv) (Z.of_nat total))
                         else JInt 0)]) d)
            (sort_counts counts) [])))%res.

(** [l.append(x)] *)
Definition py_append (l x : json) : res json :=
  match l with
  | JArr xs => Ok (JArr (xs ++ [x]))
  | _ => raise_cls AttributeError
  end.

(** [len(set(e["task_id"] for e in data))] *)
Definition add_key (keys : list json) (k : json) : list json :=
  if existsb (fun k' => key_eqb k' k) keys then keys else keys ++ [k].

Definition count_tasks (data : json) : res nat :=
  (entries <- py_iter data ;;
   keys <- fold_left
             (fun acc e =>
                (ks <- acc ;;
                 tid <- py_getitem e (str "task_id") ;;
                 if negb (hashable tid) then raise_cls TypeError
                 else Ok (add_key ks tid))%res)
             entries (Ok []) ;;
   Ok (List.length keys))%res.

(** [sum(1 for e in data if e.get("reward", 1) == 0.0)] *)
Definition count_zero_reward (data : json) : res nat :=
  (entries <- py_iter data ;;
   flags <- rmap (fun e => r <- py_get e (str "reward") (JInt 1) ;;
                           Ok (eq_zero r)) entries ;;
   Ok (List.length (filter (fun b => b) flags)))%res.

(** One turn of the classification loop of [process_file], for the
    failure case [failure]: the list [classifications] after it. *)
Definition classify_step `{Runtime} (client : llm) (provider model : pystr)
  (delay : Q) (failure : json) (classifications : json) : M json :=
  (lift (py_getitem failure (str "task_id")) ;;;
   info <- lift (py_get failure (str "info") (JObj [])) ;;
   task <- lift (py_get info (str "task") JNull) ;;
   if negb (truthy task) then ret classifications
   else
     cls <- classify_one client provider model failure delay ;;
     task_id <- lift (py_getitem failure (str "task_id")) ;;
     trial <- lift (py_get failure (str "trial") (JInt 0)) ;;
     instruction <- lift (py_get task (str "instruction") (JStr [])) ;;
     gt <- lift (py_get task (str "actions") (JArr [])) ;;
     traj <- lift (py_get failure (str "traj") (JArr [])) ;;
     actions <- lift (extract_agent_actions traj) ;;
     classifications <-
       lift (py_append classifications
               (JObj [(str "task_id", task_id);
                      (str "trial", trial);
                      (str "instruction", instruction);
                      (str "ground_truth_actions", gt);
                      (str "agent_actions", JArr actions);
                      (str "classification", cls)])) ;;
     lift (py_getitem cls (str "primary_category")) ;;;
     write_partial (JObj [(str "classifications", classifications)]) ;;;
     ret classifications)%M.

(** The loop [for i in range(start_idx, len(failures))], over the
    failure cases that are left. *)
Fixpoint classify_loop `{Runtime} (client : llm) (provider model : pystr)
  (delay : Q) (failures : list json) (classifications : json) : M json :=
  match failures with
  | [] => ret classifications
  | failure :: rest =>
      (cs <- classify_step client provider model delay failure
               classifications ;;
       classify_loop client provider model delay rest cs)%M
  end.

(** [process_file], for a trajectory file whose parsed content is
    [data].  The two files of [output_dir] are those of the world.  The
    result is the returned dict, or [JNull] for [None]. *)
Definition process_file `{Runtime} (data : json) (filepath config_name : pystr)
  (client : llm) (provider model : pystr) (sample_size : Z) (delay : Q)
  (force dry_run : bool) : M json :=
  (w <- get_world ;;
   match result_file w, force with
   | Some stored, false => ret stored
   | _, _ =>
       sample <- lift (load_and_sample data sample_size default_seed) ;;
       let failures := fst sample in
       total_tasks <- lift (count_tasks data) ;;
       match failures with
       | [] => ret JNull
       | first :: _ =>
           if dry_run then
             (lift (build_prompt first) ;;;
              lift (Raise (Exn SystemExit (str "0"))))
           else
             start <-
               match partial_file w, force with
               | Some partial, false =>
                   cs <- lift (py_get partial (str "classifications")
                                 (JArr [])) ;;
                   n <- lift (py_len cs) ;;
                   ret (cs, n)
               | _, _ => ret (JArr [], 0%nat)
               end ;;
             classifications <-
               classify_loop client provider model delay
                 (skipn (snd start) failures) (fst start) ;;
             summary <- lift (compute_summary classifications) ;;
             zero <- lift (count_zero_reward data) ;;
             let result :=
               JObj [(str "config", JStr config_name);
                     (str "file", JStr filepath);
                     (str "stats",
                      JObj [(str "total_tasks",
                             JInt (Z.of_nat total_tasks));
                            (str "total_failures_in_file",
                             JInt (Z.of_nat zero));
                            (str "unique_failures_sampled",
                             JInt (Z.of_nat (List.length failures)))]);
                     (str "summary", summary);
                     (str "classifications", classifications)] in
             write_result result ;;;
             unlink_partial ;;;
             ret result
       end
   end)%M.

(** The options of the command line that [main] reads. *)
Record cli_args := {
  arg_provider : pystr;
  arg_model : option pystr;
  arg_model_size : pystr;
  arg_sample_size : Z;
  arg_delay : Q;
  arg_force : bool;
  arg_dry_run : bool;
  arg_seed : Z;
  arg_debug : bool;
}.

(** [DEFAULT_MODELS[provider]], for the two providers that the command
    line accepts. *)
Definition default_model (provider : pystr) : pystr :=
  if pystr_eqb provider (str "anthropic")
  then str "claude-sonnet-4-5-20250929"
  else str "gpt-4o".

(** [args.model or DEFAULT_MODELS[args.provider]] *)
Definition main_model (args : cli_args) : pystr :=
  match arg_model args with
  | Some (c :: m) => c :: m
  | _ => default_model (arg_provider args)
  end.

(** The call of [process_file] in the loop of [main], for one discovered
    file. *)
Definition main_process_file `{Runtime} (args : cli_args) (client : llm)
  (data : json) (filepath config_name : pystr) : M json :=
  process_file data filepath config_name client (arg_provider args)
    (main_model args) (arg_sample_size args) (arg_delay args)
    (arg_force args) (arg_dry_run args).

(* ================================================================== *)
(** * A runtime and data for the examples *)
(* ================================================================== *)

(** [l] turned left by [n] places. *)
Definition rotate (n : nat) (l : list json) : list json :=
  skipn (n mod List.length l) l ++ firstn (n mod List.length l) l.

(** A runtime for the examples: the sample is the head of the population
    turned by the seed; the texts that only the prompt shows are
    empty, and [upper] maps the ASCII letters. *)
Definition example_upper (s : pystr) : pystr :=
  map (fun c => if ((97 <=? c) && (c <=? 122))%N then (c - 32)%N else c) s.

Definition example_runtime : Runtime := {|
  random_sample := fun seed l k => firstn k (rotate (Z.to_nat (Z.abs seed)) l);
  json_dumps := fun _ => [];
  py_repr := fun _ => [];
  str_upper := example_upper;
  json_depth := 990;
|}.

(** The three entries of the end-to-end example of the specification;
    the conversation of task 1 is [m :: ms]. *)
Definition example_task : json :=
  JObj [(str "instruction", JStr (str "I")); (str "actions", JArr [])].

Definition example_entry1 (m : json) (ms : list json) : json :=
  JObj [(str "task_id", JInt 1);
        (str "reward", JFloat 0);
        (str "info", JObj [(str "task", example_task)]);
        (str "traj", JArr (m :: ms))].

Definition example_entry2 (m : json) (ms : list json) : json :=
  JObj [(str "task_id", JInt 2);
        (str "reward", JFloat 1);
        (str "info", JObj [(str "task", example_task)]);
        (str "traj", JArr (m :: ms))].

Definition example_error : pystr :=
  str "ContextWindowExceeded: your request has 9000 input tokens, maximum context length is 8192 tokens".

Definition example_entry3 : json :=
  JObj [(str "task_id", JInt 3);
        (str "info", JObj [(str "error", JStr example_error)]);
        (str "traj", JArr [])].

Definition example_file (m : json) (ms : list json) : json :=
  JArr [example_entry1 m ms; example_entry2 m ms; example_entry3].

Definition example_message (role content : pystr) : json :=
  JObj [(str "role", JStr role); (str "content", JStr content)].

(* ================================================================== *)
(** * Notions of the specification *)
(* ================================================================== *)

(** [m] occurs in [s]. *)
Definition occurs (m s : pystr) : Prop := exists a b, s = a ++ m ++ b.

(** [before] is the portion of [s] before the first occurrence of [m]. *)
Definition first_cut (m s before : pystr) : Prop :=
  (exists after, s = before ++ m ++ after)
  /\ forall a b, s = a ++ m ++ b -> (List.length before <= List.length a)%nat.

(** The extraction of the policy as the specification words it: the text
    is cut at the first place where ["available tools"], in any case and
    with or without a hash before it, starts. *)
Definition lower (c : char) : char :=
  if ((65 <=? c) && (c <=? 90))%N then (c + 32)%N else c.

Definition spec_marker_here (s : pystr) : bool :=
  startswith (map lower s) (str "available tools")
  || startswith (map lower s) (str "#available tools").

Fixpoint spec_marker_pos (s : pystr) : option nat :=
  if spec_marker_here s then Some 0%nat
  else match s with
       | [] => None
       | _ :: s' => option_map S (spec_marker_pos s')
       end.

Definition spec_extract_policy (s : pystr) : pystr :=
  match spec_marker_pos s with
  | Some i => firstn i s
  | None => slice_to 3000 s
  end.

(** The test [k in entry.get("info", {})] of the scanner and of the
    sampler, [false] where it raises. *)
Definition in_info (k : pystr) (entry : json) : bool :=
  match py_get entry (str "info") (JObj []) with
  | Ok info => match py_in k info with
               | Ok b => b
               | Raise _ => false
               end
  | Raise _ => false
  end.

(** The two shapes of a trajectory entry in the data model: a completed
    run has [info.task] and a conversation that is not empty, a crashed
    run has [info.error] and an empty one.  These notions are those of
    the data model, not the tests of the sampler: the entry is an
    object, its [info] is an object, and [traj] is a sequence. *)

(** The member [k] of the object [info] of an entry. *)
Definition info_member (k : pystr) (entry : json) : option json :=
  match entry with
  | JObj e =>
      match dict_lookup (str "info") e with
      | Some (JObj info) => dict_lookup k info
      | _ => None
      end
  | _ => None
  end.

(** [info.k] is present: [info] is an object that has the member [k],
    with a value other than [null]. *)
Definition has_info_key (k : pystr) (entry : json) : bool :=
  match info_member k entry with
  | Some JNull => false
  | Some _ => true
  | None => false
  end.

(** [traj] is a sequence that is not empty. *)
Definition traj_nonempty (entry : json) : bool :=
  match entry with
  | JObj e =>
      match dict_lookup (str "traj") e with
      | Some (JArr (_ :: _)) => true
      | _ => false
      end
  | _ => false
  end.

(** [traj] is an empty sequence. *)
Definition traj_empty (entry : json) : bool :=
  match entry with
  | JObj e =>
      match dict_lookup (str "traj") e with
      | Some (JArr []) => true
      | _ => false
      end
  | _ => false
  end.

Definition completed_run (entry : json) : bool :=
  has_info_key (str "task") entry && traj_nonempty entry.

Definition crashed_run (entry : json) : bool :=
  has_info_key (str "error") entry && traj_empty entry.

(** The entry has the types of the data model where the sampler reads
    it: it is an object; [info], when it is there, is an object whose
    member [task] is not [null]; [traj], when it is there, is a
    sequence. *)
Definition typed_entry (entry : json) : bool :=
  match entry with
  | JObj e =>
      match dict_lookup (str "info") e with
      | None => true
      | Some (JObj info) =>
          match dict_lookup (str "task") info with
          | Some JNull => false
          | _ => true
          end
      | Some _ => false
      end
      && match dict_lookup (str "traj") e with
         | None | Some (JArr _) => true
         | Some _ => false
         end
  | _ => false
  end.

(** Exactly one of the two shapes holds. *)
Definition entry_invariant (entry : json) : Prop :=
  xorb (completed_run entry) (crashed_run entry) = true.

(** Two failed attempts that the data model does not describe: the
    [info] of the first is a text about the task, and the [task] of the
    second is [null]. *)
Definition untyped_failure : json :=
  JObj [(str "task_id", JInt 1);
        (str "trial", JInt 0);
        (str "reward", JFloat 0);
        (str "info", JStr (str "no task data recorded"));
        (str "traj", JArr [JObj [(str "role", JStr (str "user"));
                                 (str "content", JStr (str "hello"))]])].

Definition null_task_failure : json :=
  JObj [(str "task_id", JInt 2);
        (str "trial", JInt 0);
        (str "reward", JFloat 0);
        (str "info", JObj [(str "task", JNull)]);
        (str "traj", JArr [JObj [(str "role", JStr (str "user"));
                                 (str "content", JStr (str "hello"))]])].

(** A conversation in both formats: a tool call that is kept, one named
    [respond], and an [Action] named [respond] in the content. *)
Definition example_tool_call (name : pystr) : json :=
  JObj [(str "function",
         JObj [(str "name", JStr name); (str "arguments", JStr (str "{}"))])].

Definition example_traj : json :=
  JArr [example_message (str "user") (str "hello");
        JObj [(str "role", JStr (str "assistant"));
              (str "content", JNull);
              (str "tool_calls",
               JArr [example_tool_call (str "get_user");
                     example_tool_call (str "respond")])];
        example_message (str "assistant")
          (qstr "Action: {'name': 'respond', 'arguments': {}}")].

(** A failed attempt at the task [tid], with ground truth [task]. *)
Definition example_failure (tid : Z) (task : json) : json :=
  JObj [(str "task_id", JInt tid);
        (str "trial", JInt 0);
        (str "reward", JFloat 0);
        (str "info", JObj [(str "task", task)]);
        (str "traj",
         JArr [example_message (str "system")
                 (str "Be kind. #Available tools: lookup");
               example_message (str "user") (str "Cancel my order.");
               example_message (str "assistant")
                 (qstr "Action: {'name': 'lookup', 'arguments': {}}")])].

(** A file with two failed tasks. *)
Definition two_failures : json :=
  JArr [example_failure 1 example_task; example_failure 2 example_task].

(** A file with three failed tasks, the first with a null [info.task]. *)
Definition skipped_first : json :=
  JArr [example_failure 1 JNull;
        example_failure 2 example_task;
        example_failure 3 example_task].

Definition example_verdict_text : pystr :=
  qstr "{'primary_category': 'wrong_tool', 'sub_category': 'tool', 'explanation': 'called the wrong tool'}".

Definition example_verdict : json :=
  JObj [(str "primary_category", JStr (str "wrong_tool"));
        (str "sub_category", JStr (str "tool"));
        (str "explanation", JStr (str "called the wrong tool"))].

(** A provider that always answers with the same verdict. *)
Definition answering : llm := fun _ _ => Ok example_verdict_text.

(** A provider that answers [k] calls; the process is interrupted during
    the next one. *)
Definition interrupted_after (k : nat) : llm :=
  fun n _ => if (n <? k)%nat then Ok example_verdict_text
             else Raise (Exn KeyboardInterrupt []).

(** A provider whose every call fails. *)
Definition failing (msg : pystr) : llm := fun _ _ => Raise (Exn ApiError msg).

Definition empty_world : world :=
  {| result_file := None; partial_file := None; trace := [] |}.

Definition example_args (seed : Z) : cli_args :=
  {| arg_provider := str "anthropic";
     arg_model := None;
     arg_model_size := str "14b";
     arg_sample_size := 1;
     arg_delay := 1 # 2;
     arg_force := false;
     arg_dry_run := false;
     arg_seed := seed;
     arg_debug := false |}.

Definition with_seed (args : cli_args) (seed : Z) : cli_args :=
  {| arg_provider := arg_provider args;
     arg_model := arg_model args;
     arg_model_size := arg_model_size args;
     arg_sample_size := arg_sample_size args;
     arg_delay := arg_delay args;
     arg_force := arg_force args;
     arg_dry_run := arg_dry_run args;
     arg_seed := seed;
     arg_debug := arg_debug args |}.

(** The task identifiers of the classifications of a result, in
    order. *)
Definition classified_task_ids (result : json) : res (list json) :=
  (cs <- py_getitem result (str "classifications") ;;
   l <- py_iter cs ;;
   rmap (fun c => py_getitem c (str "task_id")) l)%res.

(** The entries of a sample that the loop of [process_file] skips: those
    whose [info.task] is missing or empty. *)
Definition lacks_task (entry : json) : bool :=
  match py_get entry (str "info") (JObj []) with
  | Ok info => match py_get info (str "task") JNull with
               | Ok task => negb (truthy task)
               | Raise _ => false
               end
  | Raise _ => false
  end.

(** A failed attempt whose system message has a null content. *)
Definition null_policy_failure : json :=
  JObj [(str "task_id", JInt 1);
        (str "trial", JInt 0);
        (str "reward", JFloat 0);
        (str "info", JObj [(str "task", example_task)]);
        (str "traj",
         JArr [JObj [(str "role", JStr (str "system"));
                     (str "content", JNull)];
               example_message (str "user") (str "Cancel my order.")])].

(** The world after [w] in which the events [evs] have happened. *)
Definition after (w : world) (evs : list event) : world :=
  {| result_file := result_file w;
     partial_file := partial_file w;
     trace := trace w ++ evs |}.

(** The prompt of the first case of [two_failures] under the runtime of
    the examples. *)
Definition example_prompt : pystr :=
  match @build_prompt example_runtime (example_failure 1 example_task) with
  | Ok p => p
  | Raise _ => []
  end.

(** ** Notions for the parsing of a response *)

Definition backtick : char := 96%N.

(** The text of an object: [body] between a pair of braces. *)
Definition flat_object (body : pystr) : pystr := lbrace :: body ++ [rbrace].

(** A fenced code block around [j]: the fence with or without the tag
    [json], white space, [j], white space, the fence. *)
Definition fenced (tag ws1 j ws2 : pystr) : pystr :=
  str "```" ++ tag ++ ws1 ++ j ++ ws2 ++ str "```".

(** No JSON object can be extracted from [text]: the text of an object
    starts with a brace, and [json.loads] rejects, as not being JSON,
    each part of [text] that starts with one. *)
Definition no_json_object `{Runtime} (text : pystr) : Prop :=
  forall g, occurs (lbrace :: g) text ->
    json_parse json_depth (lbrace :: g) = raise_cls JSONDecodeError.

Definition not_backtick (c : char) : bool := negb (c =? backtick)%N.

(** A verdict whose explanation holds braces. *)
Definition braces_verdict_body : pystr :=
  qstr "'primary_category': 'wrong_tool', 'sub_category': 'tool', 'explanation': 'called {cancel} instead'".

Definition braces_verdict_text : pystr := flat_object braces_verdict_body.

Definition braces_verdict : json :=
  JObj [(str "primary_category", JStr (str "wrong_tool"));
        (str "sub_category", JStr (str "tool"));
        (str "explanation", JStr (str "called {cancel} instead"))].

(** The body of [example_verdict_text]. *)
Definition example_verdict_body : pystr :=
  qstr "'primary_category': 'wrong_tool', 'sub_category': 'tool', 'explanation': 'called the wrong tool'".

(** The entries that the loop classifies. *)
Definition has_task (entry : json) : bool := negb (lacks_task entry).

(* ================================================================== *)
(** * Notions for the further properties *)
(* ================================================================== *)

(** The record that [scan_file] appends to [traj_lengths] for an entry
    whose [info] has no key [error]. *)
Definition traj_record (entry : json) : res traj_length :=
  (task_id <- py_get entry (str "task_id") (JStr (str "?")) ;;
   trial <- py_get entry (str "trial") (JStr (str "?")) ;;
   reward <- py_get entry (str "reward") (JFloat 0) ;;
   traj <- py_get entry (str "traj") (JArr []) ;;
   n <- py_len traj ;;
   Ok {| tl_task_id := task_id; tl_trial := trial;
         tl_turns := n; tl_reward := reward |})%res.

(** [a] comes before [b] in a list that is sorted by turns, largest
    first. *)
Definition more_turns (a b : traj_length) : Prop :=
  (tl_turns b <= tl_turns a)%nat.

(** One digit more of a decimal numeral: the step of [int]. *)
Definition digits_step (acc : Z) (c : char) : Z := 10 * acc + digit_val c.

(* ================================================================== *)
(** * analyze_crashes.py: the configuration of a path *)
(* ================================================================== *)

(** [s.upper()] for a text of decimal digits and ASCII characters. *)
Definition ascii_upper (s : pystr) : pystr :=
  map (fun c => if ((97 <=? c) && (c <=? 122))%N then (c - 32)%N else c) s.

(** [qwen3?-(\d+b)] at the head of [s]: group 1.  The optional [3] is
    tried first, and then left out. *)
Definition match_qwen_dash (s : pystr) : option pystr :=
  match match_number_at (str "qwen3-") (str "b") s with
  | Some d => Some (d ++ str "b")
  | None =>
      option_map (fun d => d ++ str "b")
        (match_number_at (str "qwen-") (str "b") s)
  end.

(** [qwen_(\d+b)] at the head of [s]: group 1. *)
Definition match_qwen_underscore (s : pystr) : option pystr :=
  option_map (fun d => d ++ str "b")
    (match_number_at (str "qwen_") (str "b") s).

(** The dict that [parse_config_from_path] returns. *)
Record config := {
  model_size : pystr;
  strategy : pystr;
  domain : pystr;
  config_label : pystr;
}.

(** [parse_config_from_path], on the two parts of the path that it
    reads: [name] is [filepath.stem.lower()] and [parent] is
    [filepath.parent.name.lower()].  On a lowered text the flag
    [re.IGNORECASE] changes no match of the two patterns. *)
Definition parse_config_from_path (name parent : pystr) : config :=
  let text := name ++ str " " ++ parent in
  let model_size :=
    match search_leftmost match_qwen_dash text with
    | Some g => ascii_upper g
    | None =>
        match search_leftmost match_qwen_underscore text with
        | Some g => ascii_upper g
        | None => str "unknown"
        end
    end in
  let combined := parent ++ str " " ++ name in
  let strategy :=
    if contains combined (str "tool-calling")
       || contains combined (str "tool_calling") then str "FC"
    else if contains combined (str "react") then str "ReAct"
    else if contains combined (str "act") then str "ACT"
    else str "unknown" in
  let domain :=
    if contains combined (str "airline") then str "airline"
    else if contains combined (str "retail") then str "retail"
    else str "unknown" in
  {| model_size := model_size;
     strategy := strategy;
     domain := domain;
     config_label := model_size ++ str "_" ++ strategy ++ str "_" ++ domain |}.

(** A model size is [unknown], or a run of decimal digits with a [B]. *)
Definition model_size_shape (m : pystr) : Prop :=
  m = str "unknown"
  \/ exists d, d <> [] /\ forallb isdecimal d = true /\ m = d ++ str "B".

(* ================================================================== *)
(** * Notions for the further properties of the classifier *)
(* ================================================================== *)

(** A value on which the test [in] raises [TypeError]: [None], a
    Boolean or a number. *)
Definition json_scalar (v : json) : bool :=
  match v with
  | JNull | JBool _ | JInt _ | JFloat _ | JNonFinite _ => true
  | JStr _ | JArr _ | JObj _ => false
  end.

(** The categories that a verdict of [classify_one] can carry: those of
    the taxonomy, the two error markers and the catch-all [other]. *)
Definition reported_categories : list pystr :=
  valid_categories ++ [str "other"].

(** A verdict whose category is one that the classifier reports. *)
Definition known_verdict (v : json) : Prop :=
  exists o c, v = JObj o
              /\ dict_lookup (str "primary_category") o = Some (JStr c)
              /\ In c reported_categories.




(** The exceptions that [json.loads] raises on a text: the text is not
    JSON, an integer has too many digits, the nesting is too deep. *)
Definition decoder_error (e : exn) : Prop :=
  e = Exn JSONDecodeError [] \/ e = Exn ValueError []
  \/ e = Exn RecursionError [].

(** The two files of [w'] are those of [w]. *)
Definition same_files (w w' : world) : Prop :=
  result_file w' = result_file w /\ partial_file w' = partial_file w.

(** The classifications of the checkpoint of [w]: the list that a run
    which is not forced starts from. *)
Definition checkpoint_of (w : world) : list json :=
  match partial_file w with
  | Some partial =>
      match py_get partial (str "classifications") (JArr []) with
      | Ok (JArr l) => l
      | _ => []
      end
  | None => []
  end.

(** The document that [process_file] writes to the checkpoint. *)
Definition checkpoint_doc (classifications : list json) : json :=
  JObj [(str "classifications", JArr classifications)].

(** A computation whose result and whose number of calls do not depend
    on the files, nor on the events of the world other than the number of
    calls made so far. *)
Definition file_blind {A} (m : M A) : Prop :=
  forall w1 w2,
    calls w1 = calls w2 ->
    fst (m w1) = fst (m w2) /\ calls (snd (m w1)) = calls (snd (m w2)).

(** ** Notions for the summary *)

(** The category of a classification, when it is a string. *)
Definition category_of (c : json) : option pystr :=
  match py_getitem c (str "classification") with
  | Ok cls =>
      match py_getitem cls (str "primary_category") with
      | Ok (JStr s) => Some s
      | _ => None
      end
  | Raise _ => None
  end.

(** The number of times that [cat] occurs in [cats]. *)
Definition occurrences (cat : pystr) (cats : list pystr) : Z :=
  Z.of_nat (List.length (filter (pystr_eqb cat) cats)).

(** The value of the summary for a category that occurs [count] times
    among [total] classifications. *)
Definition summary_entry (count : Z) (total : nat) : json :=
  JObj [(str "count", JInt count);
        (str "percentage",
         if (0 <? total)%nat then JFloat (round1 count (Z.of_nat total))
         else JInt 0)].

(** The counter [counts] of [compute_summary] when every category is a
    string. *)
Definition tally := list (pystr * Z).

Definition tally_json (t : tally) : list (json * Z) :=
  map (fun kv => (JStr (fst kv), snd kv)) t.

Fixpoint tally_get (cat : pystr) (t : tally) : Z :=
  match t with
  | [] => 0
  | (k, n) :: rest => if pystr_eqb k cat then n else tally_get cat rest
  end.

Definition tally_total (t : tally) : Z := fold_right Z.add 0 (map snd t).

(** [a] comes before [b] in a list that is sorted by count, largest
    first. *)
Definition more_often (a b : pystr * Z) : Prop := snd b <= snd a.

(** The invariant of the counter: its keys are distinct strings, its
    counts are positive, and the count of a category is the number of
    its occurrences so far. *)
Definition tally_for (cats : list pystr) (t : tally) : Prop :=
  NoDup (map fst t)
  /\ (forall k n, In (k, n) t -> 0 < n)
  /\ (forall cat, tally_get cat t = occurrences cat cats)
  /\ tally_total t = Z.of_nat (List.length cats).

(** A classification whose category is one that the classifier
    reports. *)
Definition known_classification (c : json) : Prop :=
  exists s, category_of c = Some s /\ In s reported_categories.

(** ** Notions for the sampler *)

(** [o[k]] is an integer, or [k] is missing and not required. *)
Definition int_field (k : pystr) (required : bool) (o : dict) : bool :=
  match dict_lookup k o with
  | Some (JInt _) => true
  | Some _ => false
  | None => negb required
  end.

(** An entry as the benchmark writes it: a dict whose [task_id] is an
    integer, whose [trial], if it has one, is an integer, and whose
    [info], if it has one, is a dict. *)
Definition wf_entry (e : json) : bool :=
  match e with
  | JObj o =>
      int_field (str "task_id") true o
      && int_field (str "trial") false o
      && match dict_lookup (str "info") o with
         | Some (JObj _) | None => true
         | Some _ => false
         end
  | _ => false
  end.

(** [e["task_id"]] and [e.get("trial", 0)] of such an entry. *)
Definition entry_task_id (e : json) : Z :=
  match py_getitem e (str "task_id") with
  | Ok (JInt z) => z
  | _ => 0
  end.

Definition entry_trial (e : json) : Z :=
  match py_get e (str "trial") (JInt 0) with
  | Ok (JInt z) => z
  | _ => 0
  end.

(** The entry passes the filter of [load_and_sample]. *)
Definition failed (e : json) : bool :=
  match is_failure e with
  | Ok b => b
  | Raise _ => false
  end.

(** The dict [seen] of [load_and_sample] when every [task_id] is an
    integer. *)
Definition zdict := list (Z * json).

Definition zdict_json (d : zdict) : kdict :=
  map (fun kv => (JInt (fst kv), snd kv)) d.

Fixpoint zdict_lookup (k : Z) (d : zdict) : option json :=
  match d with
  | [] => None
  | (k', v) :: d' => if k' =? k then Some v else zdict_lookup k d'
  end.

Fixpoint zdict_set (k : Z) (v : json) (d : zdict) : zdict :=
  match d with
  | [] => [(k, v)]
  | (k', v') :: d' =>
      if k' =? k then (k', v) :: d' else (k', v') :: zdict_set k v d'
  end.

(** One turn of the loop that fills [seen], on such entries. *)
Definition zdedup_step (seen : zdict) (e : json) : zdict :=
  match zdict_lookup (entry_task_id e) seen with
  | None => zdict_set (entry_task_id e) e seen
  | Some old =>
      if entry_trial e <? entry_trial old
      then zdict_set (entry_task_id e) e seen
      else seen
  end.

(** [sorted(..., key=lambda x: x["task_id"])] on such entries. *)
Fixpoint zinsert (x : json) (l : list json) : list json :=
  match l with
  | [] => [x]
  | y :: l' =>
      if entry_task_id x <? entry_task_id y then x :: y :: l'
      else y :: zinsert x l'
  end.

Definition zsort (l : list json) : list json :=
  fold_left (fun acc x => zinsert x acc) l [].

(** [a] comes before [b] in a list with ascending and distinct task
    identifiers. *)
Definition lower_task (a b : json) : Prop :=
  entry_task_id a < entry_task_id b.

(** [unique] is the deduplication of the failed entries of [entries]:
    failed entries of the file in ascending order of task, one for each
    task that has a failed entry, which is a failed entry of the task
    with the lowest trial. *)
Definition deduplicated (entries unique : list json) : Prop :=
  StronglySorted lower_task unique
  /\ (forall e, In e unique ->
        In e entries /\ failed e = true
        /\ forall e', In e' entries -> failed e' = true ->
                      entry_task_id e' = entry_task_id e ->
                      entry_trial e <= entry_trial e')
  /\ (forall e', In e' entries -> failed e' = true ->
        exists e, In e unique /\ entry_task_id e = entry_task_id e').

(** The invariant of the dict [seen] after the failed entries [done]:
    its keys are distinct, each key is the task of its entry, which is
    one of [done] with the lowest trial of that task, and every task of
    [done] has a key. *)
Definition seen_for (done : list json) (d : zdict) : Prop :=
  NoDup (map fst d)
  /\ (forall k v, In (k, v) d ->
        k = entry_task_id v /\ In v done
        /\ forall e', In e' done -> entry_task_id e' = k ->
                      entry_trial v <= entry_trial e')
  /\ (forall e', In e' done -> In (entry_task_id e') (map fst d)).

(** The set of the task identifiers of [count_tasks], on entries with
    integer identifiers. *)
Definition zadd_key (keys : list Z) (k : Z) : list Z :=
  if existsb (fun k' => k' =? k) keys then keys else keys ++ [k].

Definition task_ids (entries : list json) : list Z :=
  fold_left (fun ks e => zadd_key ks (entry_task_id e)) entries [].

(** [e.get("reward", 1) == 0.0] *)
Definition zero_reward (e : json) : bool :=
  match py_get e (str "reward") (JInt 1) with
  | Ok r => eq_zero r
  | Raise _ => false
  end.

(* ================================================================== *)
(** * classify_errors.py: the discovery of the trajectory files *)
(* ================================================================== *)

(** An entry of the trajectory directory, as [discover_files] reads it:
    its name, whether it is a directory, and the paths of
    [sorted(subdir.glob("*.json"))]. *)
Record dir_entry := {
  de_name : pystr;
  de_is_dir : bool;
  de_jsons : list pystr;
}.

(** The dict [strategies], in the order of its items, and [domains]. *)
Definition strategies : list (pystr * pystr) :=
  [(str "act", str "ACT");
   (str "react", str "ReAct");
   (str "tool-calling", str "FC")].

Definition domains : list pystr := [str "airline"; str "retail"].

(** The test of the inner loop on a subdirectory; [lower] is
    [str.lower]. *)
Definition matches_config (lower : pystr -> pystr)
  (strategy_key domain model_size : pystr) (d : dir_entry) : bool :=
  de_is_dir d
  && startswith (lower (de_name d))
       (strategy_key ++ str "_" ++ domain ++ str "_")
  && contains (lower (de_name d)) (lower model_size).

(** The inner loop [for subdir in sorted(base.iterdir())] over the
    entries that are left: the file that is appended, if one is. *)
Fixpoint find_trajectory (lower : pystr -> pystr)
  (strategy_key domain model_size : pystr) (listing : list dir_entry)
  : option pystr :=
  match listing with
  | [] => None
  | d :: rest =>
      if matches_config lower strategy_key domain model_size d then
        match de_jsons d with
        | j :: _ => Some j
        | [] => find_trajectory lower strategy_key domain model_size rest
        end
      else find_trajectory lower strategy_key domain model_size rest
  end.

(** [discover_files].  [listing] is [None] when neither [base_dir] nor
    the directory with a space after its name exists, and otherwise the
    entries of the one that is read, in the order of
    [sorted(base.iterdir())]; the directory does not change while it is
    read. *)
Definition discover_files (lower : pystr -> pystr)
  (listing : option (list dir_entry)) (model_size : pystr)
  : list (pystr * pystr) :=
  match listing with
  | None => []
  | Some entries =>
      flat_map
        (fun strategy =>
           flat_map
             (fun domain =>
                let config_name :=
                  model_size ++ str "_" ++ snd strategy ++ str "_" ++ domain in
                match find_trajectory lower (fst strategy) domain model_size
                        entries with
                | Some path => [(path, config_name)]
                | None => []
                end)
             domains)
        strategies
  end.

(** The six configurations of a model size, in the order in which
    [discover_files] looks for them, and their names. *)
Definition configurations : list ((pystr * pystr) * pystr) :=
  flat_map (fun strategy => map (fun domain => (strategy, domain)) domains)
    strategies.

Definition config_name (model_size : pystr) (c : (pystr * pystr) * pystr)
  : pystr :=
  model_size ++ str "_" ++ snd (fst c) ++ str "_" ++ snd c.

Definition config_names (model_size : pystr) : list pystr :=
  map (config_name model_size) configurations.

(** The subdirectory [d] is the first of [listing] that passes the test
    of [discover_files] for a configuration and holds a JSON file, and
    [path] is the first of its files. *)
Definition first_match (lower : pystr -> pystr)
  (c : (pystr * pystr) * pystr) (model_size : pystr)
  (listing : list dir_entry) (d : dir_entry) (path : pystr) : Prop :=
  exists before after,
    listing = before ++ d :: after
    /\ matches_config lower (fst (fst c)) (snd c) model_size d = true
    /\ (exists more, de_jsons d = path :: more)
    /\ forall d', In d' before ->
         matches_config lower (fst (fst c)) (snd c) model_size d' = true ->
         de_jsons d' = [].

(** [l] is [l'] with some elements left out. *)
Fixpoint sublist {A} (eqb : A -> A -> bool) (l l' : list A) : bool :=
  match l, l' with
  | [], _ => true
  | _ :: _, [] => false
  | x :: r, y :: r' =>
      if eqb x y then sublist eqb r r' else sublist eqb l r'
  end.

(* ================================================================== *)
(** * classify_errors.py: the aggregation of the results *)
(* ================================================================== *)

(** One turn of the loop of [aggregate_all]. *)
Definition aggregate_step (combined : dict) (kv : pystr * json) : res dict :=
  let (config_name, result) := kv in
  if truthy result then
    (has <- py_in (str "summary") result ;;
     if has then
       (summary <- py_getitem result (str "summary") ;;
        Ok (dict_set config_name summary combined))
     else Ok combined)%res
  else Ok combined.

(** [aggregate_all], on the items of [all_results] in their order. *)
Definition aggregate_all (all_results : dict) : res dict :=
  fold_left (fun acc kv => (a <- acc ;; aggregate_step a kv)%res)
    all_results (Ok []).

(** [by_category]: a [defaultdict(list)], in the order of insertion of
    its keys. *)
Definition groups := list (json * list json).

(** [by_category[cat].append(x)] for a hashable [cat]. *)
Fixpoint group_append (cat x : json) (g : groups) : groups :=
  match g with
  | [] => [(cat, [x])]
  | (k, l) :: g' =>
      if key_eqb k cat then (k, l ++ [x]) :: g'
      else (k, l) :: group_append cat x g'
  end.

(** [cls["classification"]["primary_category"]] *)
Definition primary_category (cls : json) : res json :=
  (c <- py_getitem cls (str "classification") ;;
   py_getitem c (str "primary_category"))%res.

(** The dict that [extract_examples] appends for one classification. *)
Definition example_record (config_name : pystr) (cls : json) : res json :=
  (task_id <- py_getitem cls (str "task_id") ;;
   instruction <- py_getitem cls (str "instruction") ;;
   ground_truth_actions <- py_getitem cls (str "ground_truth_actions") ;;
   agent_actions <- py_getitem cls (str "agent_actions") ;;
   classification <- py_getitem cls (str "classification") ;;
   Ok (JObj [(str "config", JStr config_name);
             (str "task_id", task_id);
             (str "instruction", instruction);
             (str "ground_truth_actions", ground_truth_actions);
             (str "agent_actions", agent_actions);
             (str "classification", classification)]))%res.

(** One turn of the inner loop: the list of the category is looked up,
    and made when it is missing, before the dict is built. *)
Definition example_step (config_name : pystr) (by_category : groups)
  (cls : json) : res groups :=
  (cat <- primary_category cls ;;
   if hashable cat then
     (x <- example_record config_name cls ;;
      Ok (group_append cat x by_category))
   else raise_cls TypeError)%res.

(** One turn of the outer loop. *)
Definition examples_of_config (by_category : groups) (kv : pystr * json)
  : res groups :=
  let (config_name, result) := kv in
  if negb (truthy result) then Ok by_category
  else
    (cs <- py_get result (str "classifications") (JArr []) ;;
     l <- py_iter cs ;;
     fold_left (fun acc cls => (a <- acc ;; example_step config_name a cls)%res)
       l (Ok by_category))%res.

(** The key of the sort: the length of the explanation. *)
Definition explanation_length (x : json) : res nat :=
  (c <- py_getitem x (str "classification") ;;
   e <- py_get c (str "explanation") (JStr []) ;;
   py_len e)%res.

(** [items.sort(key=...)] with keys that are lengths: every key is
    computed first, and the sort is stable. *)
Fixpoint insert_keyed (x : nat * json) (l : list (nat * json))
  : list (nat * json) :=
  match l with
  | [] => [x]
  | y :: l' =>
      if (fst x <? fst y)%nat then x :: y :: l' else y :: insert_keyed x l'
  end.

Definition sort_keyed (l : list (nat * json)) : list (nat * json) :=
  fold_left (fun acc x => insert_keyed x acc) l [].

Definition sort_by_explanation (items : list json) : res (list json) :=
  (keys <- rmap explanation_length items ;;
   Ok (map snd (sort_keyed (combine keys items))))%res.

(** [l[:n]] for an [int] [n]. *)
Definition slice_upto {A} (n : Z) (l : list A) : list A :=
  if 0 <=? n then firstn (Z.to_nat n) l
  else firstn (length l - Z.to_nat (- n)) l.

(** [extract_examples] *)
Definition extract_examples (all_results : dict) (n_per_category : Z)
  : res groups :=
  (by_category <-
     fold_left (fun acc kv => (a <- acc ;; examples_of_config a kv)%res)
       all_results (Ok []) ;;
   rmap (fun ci =>
           items <- sort_by_explanation (snd ci) ;;
           Ok (fst ci, slice_upto n_per_category items))
     by_category)%res.

(** [x] is the example that is built for a classification of
    [all_results], and [c] the category of that classification. *)
Definition recorded (all_results : dict) (c x : json) : Prop :=
  exists config_name result cs l cls,
    In (config_name, result) all_results
    /\ truthy result = true
    /\ py_get result (str "classifications") (JArr []) = Ok cs
    /\ py_iter cs = Ok l
    /\ In cls l
    /\ primary_category cls = Ok c
    /\ example_record config_name cls = Ok x.

(** [x] is the example of a classification of [all_results] whose
    category is, as a key, [cat]. *)
Definition example_of (all_results : dict) (cat x : json) : Prop :=
  exists c, recorded all_results c x /\ key_eqb cat c = true.

(** The keys of a dict are different from each other. *)
Definition distinct_keys (keys : list json) : Prop :=
  StronglySorted (fun a b => key_eqb a b = false) keys.

(** [g] groups what [P] relates to a category: under each key, and
    under no other, the examples whose category is that key; no list is
    empty. *)
Definition grouped (P : json -> json -> Prop) (g : groups) : Prop :=
  distinct_keys (map fst g)
  /\ (forall k l, In (k, l) g ->
       l <> []
       /\ forall x, In x l <-> exists c, P c x /\ key_eqb k c = true)
  /\ (forall c x, P c x -> exists k l, In (k, l) g /\ key_eqb k c = true).

(** [a]'s explanation is not longer than [b]'s. *)
Definition not_longer (a b : json) : Prop :=
  exists m n, explanation_length a = Ok m /\ explanation_length b = Ok n
              /\ (m <= n)%nat.

(** The summary of a result that is a dict with one. *)
Definition summary_of (result : json) : option json :=
  match result with
  | JObj o => dict_lookup (str "summary") o
  | _ => None
  end.

(** The entries [(config_name, summary)] of the results that have a
    summary, in the order of [all_results]. *)
Definition summaries (all_results : dict) : dict :=
  flat_map (fun kv => match summary_of (snd kv) with
                      | Some s => [(fst kv, s)]
                      | None => []
                      end) all_results.


(* ================================================================== *)
(** * Strings *)
(* ================================================================== *)

Lemma startswith_app (p r : pystr) : startswith (p ++ r) p = true.
Proof.
  induction p as [|a p IH]; [reflexivity|].
  cbn. now rewrite N.eqb_refl, IH.
Qed.

Lemma startswith_inv (s p : pystr) :
  startswith s p = true -> exists r, s = p ++ r.
Proof.
  revert s. induction p as [|a p IH]; intros s H.
  - now exists s.
  - destruct s as [|b s]; [discriminate|].
    cbn in H. apply andb_true_iff in H as [Hab Hs].
    apply N.eqb_eq in Hab as ->.
    destruct (IH _ Hs) as [r ->]. now exists r.
Qed.

(** [find] returns the first position at which [sub] starts. *)
Lemma find_Some (s sub : pystr) (i : nat) :
  find s sub = Some i ->
  (exists b, s = firstn i s ++ sub ++ b)
  /\ List.length (firstn i s) = i
  /\ forall a b, s = a ++ sub ++ b -> (i <= List.length a)%nat.
Proof.
  revert i. induction s as [|c s IH]; intros i H.
  - cbn in H. destruct (startswith [] sub) eqn:E; [|discriminate].
    injection H as <-. apply startswith_inv in E as [r E].
    repeat split.
    + exists r. exact E.
    + intros; lia.
  - cbn [find] in H.
    destruct (startswith (c :: s) sub) eqn:E.
    + injection H as <-. apply startswith_inv in E as [r E].
      repeat split.
      * exists r. exact E.
      * intros; lia.
    + destruct (find s sub) as [j|] eqn:Ej; [|discriminate].
      injection H as <-.
      destruct (IH j eq_refl) as ([b Hb] & Hlen & Hmin).
      repeat split.
      * exists b. cbn. now rewrite <- Hb.
      * cbn. now rewrite Hlen.
      * intros a b' Hs. destruct a as [|x a].
        -- cbn in Hs. rewrite Hs, startswith_app in E. discriminate.
        -- cbn in Hs. injection Hs as _ Hs.
           specialize (Hmin _ _ Hs). cbn. lia.
Qed.

Lemma find_None (s sub : pystr) : find s sub = None -> ~ occurs sub s.
Proof.
  induction s as [|c s IH]; intros H (a & b & Hs).
  - cbn in H. destruct (startswith [] sub) eqn:E; [discriminate|].
    destruct a; [|discriminate].
    cbn in Hs. rewrite Hs, startswith_app in E. discriminate.
  - cbn [find] in H.
    destruct (startswith (c :: s) sub) eqn:E; [discriminate|].
    destruct (find s sub) eqn:Ej; [discriminate|].
    destruct a as [|x a].
    + cbn in Hs. rewrite Hs, startswith_app in E. discriminate.
    + cbn in Hs. injection Hs as _ Hs.
      apply IH; [reflexivity|]. now exists a, b.
Qed.

Lemma contains_occurs (s sub : pystr) : contains s sub = true <-> occurs sub s.
Proof.
  unfold contains. destruct (find s sub) as [i|] eqn:E.
  - split; [intros _|reflexivity].
    destruct (find_Some _ _ E) as ([b Hb] & _ & _).
    now exists (firstn i s), b.
  - split; [discriminate|]. intros H. now apply find_None in E.
Qed.

Lemma contains_false (s sub : pystr) :
  contains s sub = false <-> ~ occurs sub s.
Proof.
  rewrite <- contains_occurs. destruct (contains s sub); split; intros H;
    try discriminate; try reflexivity.
  now destruct H.
Qed.

(** [s.split(m)[0]] is the portion before the first [m]. *)
Lemma split_head_first_cut (s m : pystr) :
  occurs m s -> first_cut m s (split_head s m).
Proof.
  intros Hocc. unfold split_head.
  destruct (find s m) as [i|] eqn:E.
  - destruct (find_Some _ _ E) as (Hb & Hlen & Hmin).
    split; [exact Hb|]. intros a b Hs. rewrite Hlen. eauto.
  - now apply find_None in E.
Qed.

(* ================================================================== *)
(** * The error monad *)
(* ================================================================== *)

Lemma rbind_Ok {A B} (x : res A) (k : A -> res B) (b : B) :
  rbind x k = Ok b -> exists a, x = Ok a /\ k a = Ok b.
Proof. destruct x as [a|e]; cbn; intros H; [eauto | discriminate]. Qed.

(** Splits the first bind of a hypothesis [H : (x <- e ;; k) = Ok b]. *)
Ltac bind_inv H :=
  let a := fresh "v" in
  let Ha := fresh "Hv" in
  apply rbind_Ok in H as (a & Ha & H).

Lemma rmap_In {A B} (f : A -> res B) (l : list A) (ys : list B) :
  rmap f l = Ok ys ->
  forall y, In y ys -> exists x, In x l /\ f x = Ok y.
Proof.
  revert ys. induction l as [|x l IH]; intros ys H y Hy.
  - injection H as <-. destruct Hy.
  - cbn in H. destruct (f x) as [b|] eqn:Hfx; [|discriminate].
    destruct (rmap f l) as [bs|] eqn:Hl; [|discriminate].
    injection H as <-. destruct Hy as [<- | Hy].
    + exists x. split; [now left | assumption].
    + destruct (IH _ eq_refl _ Hy) as (x' & Hin & Hx').
      exists x'. split; [now right | assumption].
Qed.

Lemma rfilter_In {A} (p : A -> res bool) (l ys : list A) :
  rfilter p l = Ok ys ->
  forall y, In y ys -> In y l /\ p y = Ok true.
Proof.
  revert ys. induction l as [|x l IH]; intros ys H y Hy.
  - injection H as <-. destruct Hy.
  - cbn in H. destruct (p x) as [b|] eqn:Hpx; [|discriminate].
    destruct (rfilter p l) as [zs|] eqn:Hl; [|discriminate].
    injection H as <-. destruct b.
    + destruct Hy as [<- | Hy].
      * split; [now left | assumption].
      * destruct (IH _ eq_refl _ Hy). split; [now right | assumption].
    + destruct (IH _ eq_refl _ Hy). split; [now right | assumption].
Qed.

Lemma somes_In {A} (l : list (option A)) (a : A) :
  In a (somes l) -> In (Some a) l.
Proof.
  unfold somes. rewrite in_flat_map. intros ([x|] & Hin & Hx).
  - destruct Hx as [<- | []]. exact Hin.
  - destruct Hx.
Qed.

Lemma pystr_eqb_eq (a b : pystr) : pystr_eqb a b = true <-> a = b.
Proof.
  unfold pystr_eqb. destruct (list_eq_dec N.eq_dec a b); split; intros H;
    try assumption; try reflexivity; try discriminate.
  contradiction.
Qed.

Lemma eq_str_true (v : json) (s : pystr) : eq_str v s = true <-> v = JStr s.
Proof.
  destruct v; cbn; split; intros H; try discriminate.
  - apply pystr_eqb_eq in H. now subst.
  - injection H as ->. now apply pystr_eqb_eq.
Qed.

Lemma eq_str_false (v : json) (s : pystr) : eq_str v s = false -> v <> JStr s.
Proof.
  intros H E. apply eq_str_true in E. congruence.
Qed.

(* ================================================================== *)
(** * The bound of the JSON decoder *)
(* ================================================================== *)

Lemma dropwhile_length (p : char -> bool) (s : pystr) :
  (List.length (dropwhile p s) <= List.length s)%nat.
Proof.
  induction s as [|c s IH]; cbn; [lia|]. destruct (p c); cbn; lia.
Qed.

Lemma skip_ws_length (s : pystr) :
  (List.length (skip_ws s) <= List.length s)%nat.
Proof. apply dropwhile_length. Qed.

Lemma startswith_char (s : pystr) (c : char) :
  startswith s [c] = true -> exists r, s = c :: r.
Proof. intros H. apply startswith_inv in H as [r ->]. now exists r. Qed.

(** Names the head of [s] from a test [startswith s [c]]. *)
Ltac head_char E :=
  let r := fresh "r" in
  apply startswith_char in E as [r ->]; cbn [skipn List.length] in *.

Lemma hex4_rest (s r : pystr) (u : N) :
  hex4 s = Some (u, r) -> (List.length r + 4 = List.length s)%nat.
Proof.
  unfold hex4. destruct s as [|a [|b [|c [|d s]]]]; try discriminate.
  destruct (hex_val a), (hex_val b), (hex_val c), (hex_val d);
    try discriminate.
  intros H. injection H as _ <-. cbn. lia.
Qed.

Lemma unicode_escape_rest (s r : pystr) (u : char) :
  unicode_escape s = Some (u, r) -> (List.length r < List.length s)%nat.
Proof.
  unfold unicode_escape.
  destruct (hex4 s) as [[u1 r1]|] eqn:E1; [|discriminate].
  apply hex4_rest in E1.
  destruct (((55296 <=? u1) && (u1 <=? 56319))%N && startswith r1 [92; 117]%N)
    eqn:E.
  - apply andb_true_iff in E as [_ E].
    apply startswith_inv in E as [r2 ->].
    change (skipn 2 ([92; 117]%N ++ r2)) with r2.
    destruct (hex4 r2) as [[u2 r3]|] eqn:E2; [|discriminate].
    apply hex4_rest in E2.
    destruct ((56320 <=? u2) && (u2 <=? 57343))%N;
      intros H; injection H as _ <-; cbn in *; lia.
  - intros H. injection H as _ <-. lia.
Qed.

Lemma parse_string_body_rest (n : nat) (s t r : pystr) :
  parse_string_body n s = Some (t, r) -> (List.length r < List.length s)%nat.
Proof.
  revert s t r. induction n as [|n IH]; intros s t r; [discriminate|].
  cbn [parse_string_body]. destruct s as [|c s]; [discriminate|].
  destruct (c =? 34)%N.
  { intros H. injection H as _ <-. cbn. lia. }
  destruct (c =? 92)%N.
  { destruct s as [|e s]; [discriminate|].
    destruct (e =? 117)%N.
    - destruct (unicode_escape s) as [[u r1]|] eqn:E; [|discriminate].
      apply unicode_escape_rest in E.
      destruct (parse_string_body n r1) as [[t1 r2]|] eqn:E1; [|discriminate].
      apply IH in E1. intros H. injection H as _ <-. cbn. lia.
    - destruct (simple_escape e); [|discriminate].
      destruct (parse_string_body n s) as [[t1 r2]|] eqn:E1; [|discriminate].
      apply IH in E1. intros H. injection H as _ <-. cbn. lia. }
  destruct (c <? 32)%N; [discriminate|].
  destruct (parse_string_body n s) as [[t1 r2]|] eqn:E1; [|discriminate].
  apply IH in E1. intros H. injection H as _ <-. cbn. lia.
Qed.

(** A bound of at least the length of the text is enough for a
    string. *)
Lemma parse_string_body_fuel (n : nat) :
  forall (s : pystr) (m : nat),
    (List.length s <= n)%nat -> (n <= m)%nat ->
    parse_string_body m s = parse_string_body n s.
Proof.
  induction n as [|n IH]; intros s m Hs Hm.
  - destruct s; [|cbn in Hs; lia]. now destruct m.
  - destruct m as [|m]; [lia|]. cbn [parse_string_body].
    destruct s as [|c s]; [reflexivity|]. cbn in Hs.
    destruct (c =? 34)%N; [reflexivity|].
    destruct (c =? 92)%N.
    { destruct s as [|e s]; [reflexivity|]. cbn in Hs.
      destruct (e =? 117)%N.
      - destruct (unicode_escape s) as [[u r1]|] eqn:E; [|reflexivity].
        apply unicode_escape_rest in E.
        rewrite (IH r1 m) by lia. reflexivity.
      - destruct (simple_escape e); [|reflexivity].
        rewrite (IH s m) by lia. reflexivity. }
    destruct (c <? 32)%N; [reflexivity|].
    rewrite (IH s m) by lia. reflexivity.
Qed.

Lemma span_digits_rest (s : pystr) :
  (List.length (snd (span_digits s)) <= List.length s)%nat.
Proof. apply dropwhile_length. Qed.

Lemma int_part_rest (s i r : pystr) :
  int_part s = Some (i, r) -> (List.length r < List.length s)%nat.
Proof.
  unfold int_part. destruct s as [|c s]; [discriminate|].
  destruct (c =? 48)%N.
  { intros H. injection H as _ <-. cbn. lia. }
  destruct (isdigit c) eqn:E; [|discriminate].
  intros H. injection H as _ <-. cbn. rewrite E.
  pose proof (dropwhile_length isdigit s). lia.
Qed.

Lemma frac_part_rest (s d r : pystr) :
  frac_part s = Some (d, r) -> (List.length r <= List.length s)%nat.
Proof.
  unfold frac_part. destruct (startswith s [46%N]) eqn:E; [|discriminate].
  head_char E. pose proof (span_digits_rest r0) as Hr.
  destruct (span_digits r0) as [[|x d'] r']; [discriminate|].
  intros H. injection H as _ <-. cbn in Hr. lia.
Qed.

Lemma exp_part_rest (s r : pystr) (e : Z) :
  exp_part s = Some (e, r) -> (List.length r <= List.length s)%nat.
Proof.
  unfold exp_part.
  destruct (startswith s [101%N] || startswith s [69%N]) eqn:E;
    [|discriminate].
  assert (Hs : (List.length (skipn 1 s) <= List.length s)%nat)
    by (rewrite length_skipn; lia).
  cbv zeta.
  set (s' := skipn 1 s) in *.
  assert (Hs' : (List.length
                   (if startswith s' [45%N] || startswith s' [43%N]
                    then skipn 1 s' else s') <= List.length s')%nat).
  { destruct (startswith s' [45%N] || startswith s' [43%N]);
      [rewrite length_skipn|]; lia. }
  set (s'' := if startswith s' [45%N] || startswith s' [43%N]
              then skipn 1 s' else s') in *.
  pose proof (span_digits_rest s'') as Hr.
  destruct (span_digits s'') as [[|x d'] r']; [discriminate|].
  intros H. injection H as _ <-. cbn in Hr. lia.
Qed.

Lemma parse_number_rest (s r : pystr) (v : json) :
  parse_number s = Ok (v, r) -> (List.length r < List.length s)%nat.
Proof.
  unfold parse_number. cbv zeta.
  assert (Hs1 : (List.length (if startswith s [45%N] then skipn 1 s else s)
                 <= List.length s)%nat).
  { destruct (startswith s [45%N]); [rewrite length_skipn|]; lia. }
  set (s1 := if startswith s [45%N] then skipn 1 s else s) in *.
  destruct (int_part s1) as [[i s2]|] eqn:Ei; [|discriminate].
  apply int_part_rest in Ei.
  destruct (frac_part s2) as [[f s3]|] eqn:Ef.
  - apply frac_part_rest in Ef.
    destruct (exp_part s3) as [[e s4]|] eqn:Ee.
    + apply exp_part_rest in Ee. intros H. injection H as _ <-. lia.
    + intros H. injection H as _ <-. lia.
  - destruct (exp_part s2) as [[e s4]|] eqn:Ee.
    + apply exp_part_rest in Ee. intros H. injection H as _ <-. lia.
    + destruct (max_str_digits <? List.length i)%nat; [discriminate|].
      intros H. injection H as _ <-. lia.
Qed.

Lemma parse_scalar_rest (s r : pystr) (v : json) :
  parse_scalar s = Ok (v, r) -> (List.length r < List.length s)%nat.
Proof.
  unfold parse_scalar.
  repeat match goal with
         | |- (if startswith s ?p then _ else _) = _ -> _ =>
             let E := fresh "E" in
             destruct (startswith s p) eqn:E;
             [apply startswith_inv in E as [? ->];
              intros H; injection H as _ <-;
              rewrite length_app; cbn; lia|]
         end.
  apply parse_number_rest.
Qed.

Lemma parse_string_rest (s t r : pystr) :
  parse_string s = Ok (t, r) -> (List.length r < List.length s)%nat.
Proof.
  unfold parse_string.
  destruct (parse_string_body _ _) as [[t1 r1]|] eqn:Es; [|discriminate].
  apply parse_string_body_rest in Es. rewrite length_skipn in Es.
  intros H. injection H as _ <-. lia.
Qed.

(** A value, the members of an object and the elements of an array take
    at least one character. *)
Lemma parse_rest (n : nat) :
  (forall d s v r,
      parse_value n d s = Ok (v, r) -> (List.length r < List.length s)%nat)
  /\ (forall d s acc o r,
         parse_members n d s acc = Ok (o, r) ->
         (List.length r < List.length s)%nat)
  /\ (forall d s l r,
         parse_elements n d s = Ok (l, r) ->
         (List.length r < List.length s)%nat).
Proof.
  induction n as [|n (IHv & IHm & IHe)];
    [repeat split; intros; discriminate|].
  split; [|split].
  - intros d s v r. cbn [parse_value].
    destruct (startswith s [34%N]) eqn:E1.
    { destruct (parse_string s) as [[t r1]|e] eqn:Es; [|discriminate].
      apply parse_string_rest in Es. cbn [rbind fst snd].
      intros H. injection H as _ <-. lia. }
    destruct (startswith s [123%N]) eqn:E2.
    { destruct d as [|d]; [discriminate|].
      head_char E2. cbv zeta. pose proof (skip_ws_length r0) as Hw.
      destruct (startswith (skip_ws r0) [125%N]) eqn:E3.
      - apply startswith_char in E3 as [r1 E3]. rewrite E3 in *.
        intros H. injection H as _ <-. cbn in *. lia.
      - destruct (parse_members n d (skip_ws r0) []) as [[o r1]|e] eqn:Em;
          [|discriminate].
        apply IHm in Em. cbn [rbind fst snd].
        intros H. injection H as _ <-. lia. }
    destruct (startswith s [91%N]) eqn:E4.
    { destruct d as [|d]; [discriminate|].
      head_char E4. cbv zeta. pose proof (skip_ws_length r0) as Hw.
      destruct (startswith (skip_ws r0) [93%N]) eqn:E3.
      - apply startswith_char in E3 as [r1 E3]. rewrite E3 in *.
        intros H. injection H as _ <-. cbn in *. lia.
      - destruct (parse_elements n d (skip_ws r0)) as [[l r1]|e] eqn:Em;
          [|discriminate].
        apply IHe in Em. cbn [rbind fst snd].
        intros H. injection H as _ <-. lia. }
    apply parse_scalar_rest.
  - intros d s acc o r. cbn [parse_members].
    destruct (startswith s [34%N]) eqn:E1; [|discriminate].
    destruct (parse_string s) as [[k s2]|e] eqn:Es; [|discriminate].
    apply parse_string_rest in Es. cbn [rbind fst snd]. cbv zeta.
    pose proof (skip_ws_length s2) as Hw2.
    destruct (startswith (skip_ws s2) [58%N]) eqn:E2; [|discriminate].
    apply startswith_char in E2 as [s3 E2]. rewrite E2 in *.
    cbn [skipn List.length] in *.
    pose proof (skip_ws_length s3) as Hw3.
    destruct (parse_value n d (skip_ws s3)) as [[v s4]|e] eqn:Ev;
      [|discriminate].
    apply IHv in Ev. cbn [rbind fst snd].
    pose proof (skip_ws_length s4) as Hw4.
    destruct (startswith (skip_ws s4) [125%N]) eqn:E3.
    { apply startswith_char in E3 as [s5 E3]. rewrite E3 in *.
      intros H. injection H as _ <-. cbn in *. lia. }
    destruct (startswith (skip_ws s4) [44%N]) eqn:E4; [|discriminate].
    apply startswith_char in E4 as [s5 E4]. rewrite E4 in *.
    cbn [skipn List.length] in *.
    pose proof (skip_ws_length s5) as Hw5.
    intros H. apply IHm in H. lia.
  - intros d s l r. cbn [parse_elements].
    destruct (parse_value n d s) as [[v s1]|e] eqn:Ev; [|discriminate].
    apply IHv in Ev. cbn [rbind fst snd]. cbv zeta.
    pose proof (skip_ws_length s1) as Hw1.
    destruct (startswith (skip_ws s1) [93%N]) eqn:E3.
    { apply startswith_char in E3 as [s2 E3]. rewrite E3 in *.
      intros H. injection H as _ <-. cbn in *. lia. }
    destruct (startswith (skip_ws s1) [44%N]) eqn:E4; [|discriminate].
    apply startswith_char in E4 as [s2 E4]. rewrite E4 in *.
    cbn [skipn List.length] in *.
    pose proof (skip_ws_length s2) as Hw2.
    destruct (parse_elements n d (skip_ws s2)) as [[l1 r1]|e] eqn:Ee;
      [|discriminate].
    apply IHe in Ee. cbn [rbind fst snd].
    intros H. injection H as _ <-. lia.
Qed.

(** A bound above twice the length of the text is enough: a larger one
    gives the same result. *)
Lemma parse_fuel (n : nat) :
  (forall d s m,
      (2 * List.length s < n)%nat -> (n <= m)%nat ->
      parse_value m d s = parse_value n d s)
  /\ (forall d s acc m,
         (2 * List.length s < n)%nat -> (n <= m)%nat ->
         parse_members m d s acc = parse_members n d s acc)
  /\ (forall d s m,
         (2 * List.length s + 1 < n)%nat -> (n <= m)%nat ->
         parse_elements m d s = parse_elements n d s).
Proof.
  induction n as [|n (IHv & IHm & IHe)];
    [repeat split; intros; lia|].
  split; [|split].
  - intros d s m Hs Hm. destruct m as [|m]; [lia|]. cbn [parse_value].
    destruct (startswith s [34%N]); [reflexivity|].
    destruct (startswith s [123%N]) eqn:E2.
    { destruct d as [|d]; [reflexivity|].
      head_char E2. cbv zeta. pose proof (skip_ws_length r) as Hw.
      destruct (startswith (skip_ws r) [125%N]); [reflexivity|].
      rewrite (IHm d (skip_ws r) [] m) by lia. reflexivity. }
    destruct (startswith s [91%N]) eqn:E4; [|reflexivity].
    destruct d as [|d]; [reflexivity|].
    head_char E4. cbv zeta. pose proof (skip_ws_length r) as Hw.
    destruct (startswith (skip_ws r) [93%N]); [reflexivity|].
    rewrite (IHe d (skip_ws r) m) by lia. reflexivity.
  - intros d s acc m Hs Hm. destruct m as [|m]; [lia|]. cbn [parse_members].
    destruct (startswith s [34%N]) eqn:E1; [|reflexivity].
    destruct (parse_string s) as [[k s2]|e] eqn:Es; [|reflexivity].
    apply parse_string_rest in Es. cbn [rbind fst snd]. cbv zeta.
    pose proof (skip_ws_length s2) as Hw2.
    destruct (startswith (skip_ws s2) [58%N]) eqn:E2; [|reflexivity].
    apply startswith_char in E2 as [s3 E2]. rewrite E2 in *.
    cbn [skipn List.length] in *.
    pose proof (skip_ws_length s3) as Hw3.
    rewrite (IHv d (skip_ws s3) m) by lia.
    destruct (parse_value n d (skip_ws s3)) as [[v s4]|e] eqn:Ev;
      [|reflexivity].
    apply (proj1 (parse_rest n)) in Ev. cbn [rbind fst snd].
    pose proof (skip_ws_length s4) as Hw4.
    destruct (startswith (skip_ws s4) [125%N]); [reflexivity|].
    destruct (startswith (skip_ws s4) [44%N]) eqn:E4; [|reflexivity].
    apply startswith_char in E4 as [s5 E4]. rewrite E4 in *.
    cbn [skipn List.length] in *.
    pose proof (skip_ws_length s5) as Hw5.
    apply IHm; lia.
  - intros d s m Hs Hm. destruct m as [|m]; [lia|]. cbn [parse_elements].
    rewrite (IHv d s m) by lia.
    destruct (parse_value n d s) as [[v s1]|e] eqn:Ev; [|reflexivity].
    apply (proj1 (parse_rest n)) in Ev. cbn [rbind fst snd]. cbv zeta.
    pose proof (skip_ws_length s1) as Hw1.
    destruct (startswith (skip_ws s1) [93%N]); [reflexivity|].
    destruct (startswith (skip_ws s1) [44%N]) eqn:E4; [|reflexivity].
    apply startswith_char in E4 as [s2 E4]. rewrite E4 in *.
    cbn [skipn List.length] in *.
    pose proof (skip_ws_length s2) as Hw2.
    rewrite (IHe d (skip_ws s2) m) by lia. reflexivity.
Qed.

(** The bound that [json_parse] gives is enough: no larger bound
    changes the parse, so the bound is never what makes [json_parse]
    raise. *)
Lemma json_parse_fuel_enough (d : nat) (s : pystr) (m : nat) :
  (S (2 * List.length s) <= m)%nat ->
  parse_value m d (skip_ws s)
  = parse_value (S (2 * List.length s)) d (skip_ws s).
Proof.
  intros Hm. apply (proj1 (parse_fuel (S (2 * List.length s)))); [|exact Hm].
  pose proof (skip_ws_length s). lia.
Qed.

(** The bound of [strip_think] is enough as well. *)
Lemma sub_think_fuel (n : nat) :
  forall (s : pystr) (m : nat),
    (List.length s <= n)%nat -> (n <= m)%nat ->
    sub_think m s = sub_think n s.
Proof.
  induction n as [|n IH]; intros s m Hs Hm.
  - destruct s; [|cbn in Hs; lia]. now destruct m.
  - destruct m as [|m]; [lia|]. cbn [sub_think].
    destruct s as [|c s]; [reflexivity|].
    assert (Hrec : sub_think m s = sub_think n s)
      by (apply IH; cbn in Hs; lia).
    destruct (startswith (c :: s) (str "<think>")); [|now rewrite Hrec].
    destruct (find (skipn 7 (c :: s)) (str "</think>")) as [j|];
      [|now rewrite Hrec].
    apply IH; [|lia].
    pose proof (dropwhile_length isspace (skipn (7 + j + 8) (c :: s))) as Hd.
    rewrite length_skipn in Hd. cbn [List.length] in *. lia.
Qed.

(* ================================================================== *)
(** * Properties of the crash scanner *)
(* ================================================================== *)

Lemma crash_types_distinct :
  str "context_window" <> str "api_timeout"
  /\ str "context_window" <> str "other"
  /\ str "api_timeout" <> str "other".
Proof. repeat split; discriminate. Qed.

(** ** The numbers that the patterns of the crash scanner match *)

Lemma isdigit_isdecimal (c : char) :
  isdigit c = true -> decimal_digit c = Some (digit_val c).
Proof.
  unfold isdigit, decimal_digit, digit_val. intros H.
  apply andb_true_iff in H as [H1 H2].
  apply N.leb_le in H1, H2.
  cbn [decimal_zeros List.find].
  replace ((48 <=? c) && (c <? 48 + 10))%N with true.
  - f_equal. lia.
  - symmetry. apply andb_true_iff. split; [apply N.leb_le | apply N.ltb_lt]; lia.
Qed.

Lemma forallb_isdigit_isdecimal (d : pystr) :
  forallb isdigit d = true -> forallb isdecimal d = true.
Proof.
  induction d as [|c d IH]; [reflexivity|]. cbn [forallb]. intros H.
  apply andb_true_iff in H as [Hc Hd]. unfold isdecimal at 1.
  rewrite (isdigit_isdecimal _ Hc). now apply IH.
Qed.

(** On ASCII digits [int] reads the decimal numeral. *)
Lemma int_of_decimals_digits (d : pystr) :
  forallb isdigit d = true -> int_of_decimals d = int_of_digits d.
Proof.
  unfold int_of_decimals, int_of_digits. intros H.
  assert (G : forall acc,
             fold_left (fun acc c => 10 * acc + match decimal_digit c with
                                                | Some d => d
                                                | None => 0
                                                end) d acc
             = fold_left (fun acc c => 10 * acc + digit_val c) d acc);
    [|apply G].
  induction d as [|c d IH]; intros acc; [reflexivity|].
  cbn [forallb] in H. apply andb_true_iff in H as [Hc Hd].
  cbn [fold_left]. rewrite (isdigit_isdecimal _ Hc). now apply IH.
Qed.

Lemma digit_prefixes_head (d r : pystr) :
  d <> [] -> forallb isdecimal d = true ->
  match r with [] => True | c :: _ => isdecimal c = false end ->
  exists rest, digit_prefixes (d ++ r) = (d, r) :: rest.
Proof.
  intros Hd Hdig Hr. induction d as [|c d IH]; [now destruct Hd|].
  cbn [forallb] in Hdig. apply andb_true_iff in Hdig as [Hc Hdig].
  cbn [app digit_prefixes]. rewrite Hc. destruct d as [|c' d].
  - cbn [app]. replace (digit_prefixes r) with (@nil (pystr * pystr)).
    + now exists [].
    + destruct r as [|x r]; [reflexivity|]. cbn [digit_prefixes]. now rewrite Hr.
  - destruct (IH ltac:(discriminate) Hdig) as [rest ->].
    cbn [map fst snd app]. eauto.
Qed.

Lemma match_number_at_here (pre post d b : pystr) (c : char) (post' : pystr) :
  post = c :: post' -> isdecimal c = false ->
  d <> [] -> forallb isdecimal d = true ->
  match_number_at pre post (pre ++ d ++ post ++ b) = Some d.
Proof.
  intros Hpost Hc Hd Hdig. unfold match_number_at.
  rewrite startswith_app, skipn_app, skipn_all, Nat.sub_diag. cbn [skipn app].
  unfold match_digits_then.
  destruct (digit_prefixes_head (post ++ b) Hd Hdig) as [rest ->].
  { rewrite Hpost. exact Hc. }
  cbn [List.find snd fst]. now rewrite startswith_app.
Qed.

(** [re.search] finds the number after the first occurrence of the text
    before it, when digits and the text after it follow. *)
Lemma search_number_first (pre post d b : pystr) (c : char) (post' : pystr) :
  post = c :: post' -> isdecimal c = false ->
  d <> [] -> forallb isdecimal d = true ->
  forall a,
    find (a ++ pre ++ d ++ post ++ b) pre = Some (List.length a) ->
    search_number pre post (a ++ pre ++ d ++ post ++ b) = Some d.
Proof.
  intros Hpost Hc Hd Hdig. induction a as [|x a IH]; intros Hfind.
  - cbn [app]. destruct (pre ++ d ++ post ++ b) eqn:E;
      cbn [search_number]; rewrite <- E;
      now rewrite (match_number_at_here pre b Hpost Hc Hd Hdig).
  - cbn [app List.length find] in Hfind.
    cbn [app search_number]. unfold match_number_at at 1.
    change ((x :: a) ++ pre ++ d ++ post ++ b)
      with (x :: a ++ pre ++ d ++ post ++ b) in *.
    destruct (startswith (x :: a ++ pre ++ d ++ post ++ b) pre);
      [discriminate Hfind|].
    apply IH.
    destruct (find (a ++ pre ++ d ++ post ++ b) pre) as [j|];
      [|discriminate Hfind].
    cbn [option_map] in Hfind. congruence.
Qed.

Lemma contains_prefix (p r : pystr) : contains (p ++ r) p = true.
Proof.
  unfold contains. destruct (p ++ r) eqn:E; cbn [find]; rewrite <- E;
    now rewrite startswith_app.
Qed.

(** What [classify_crash] does on a context window error. *)
Lemma classify_crash_context_window (error_msg : pystr) :
  contains error_msg (str "ContextWindowExceeded") = true ->
  let tokens_match :=
    search_number (str "your request has ") (str " input tokens") error_msg in
  let limit_match :=
    search_number (str "maximum context length is ") (str " tokens")
      error_msg in
  classify_crash error_msg
  = if too_long tokens_match || too_long limit_match
    then raise_cls ValueError
    else
      let tokens_used := option_map int_of_decimals tokens_match in
      let token_limit := option_map int_of_decimals limit_match in
      Ok {| crash_type := str "context_window";
            tokens_used := tokens_used;
            token_limit := token_limit;
            error_short :=
              if opt_int_truthy tokens_used
              then str "Context window exceeded ("
                   ++ fmt_opt_int tokens_used
                   ++ str "/" ++ fmt_opt_int token_limit ++ str " tokens)"
              else str "Context window exceeded" |}.
Proof.
  intros Hcw. cbv zeta. unfold classify_crash, int_of_match. rewrite Hcw.
  destruct (too_long (search_number (str "your request has ")
                        (str " input tokens") error_msg)); [reflexivity|].
  cbn [rbind orb].
  destruct (too_long (search_number (str "maximum context length is ")
                        (str " tokens") error_msg)); reflexivity.
Qed.

(** C10, as amended.  [classify_crash] raises [ValueError] on an error
    string that holds [ContextWindowExceeded] and in which one of the
    two patterns matches a token count of more than 4300 digits, and
    returns on every other error string.  Where it returns, its
    [crash_type] is one of [context_window], [api_timeout] and [other];
    [tokens_used] and [token_limit] are [None] unless the type is
    [context_window]; and an error string that holds both
    [ContextWindowExceeded] and [Timeout] is a [context_window]
    crash. *)
Theorem classify_crash_shaped (error_msg : pystr) :
  if contains error_msg (str "ContextWindowExceeded")
     && (too_long (search_number (str "your request has ")
                     (str " input tokens") error_msg)
         || too_long (search_number (str "maximum context length is ")
                        (str " tokens") error_msg))
  then classify_crash error_msg = raise_cls ValueError
  else
    exists c : crash,
      classify_crash error_msg = Ok c
      /\ (crash_type c = str "context_window"
          \/ crash_type c = str "api_timeout"
          \/ crash_type c = str "other")
      /\ (tokens_used c <> None \/ token_limit c <> None ->
          crash_type c = str "context_window")
      /\ (contains error_msg (str "ContextWindowExceeded") = true ->
          contains error_msg (str "Timeout") = true ->
          crash_type c = str "context_window").
Proof.
  destruct (contains error_msg (str "ContextWindowExceeded")) eqn:Hcw.
  - rewrite (classify_crash_context_window _ Hcw). cbn [andb].
    destruct (too_long _ || too_long _); [reflexivity|].
    eexists. split; [reflexivity|].
    cbn [crash_type tokens_used token_limit]. repeat split; auto.
  - cbn [andb]. unfold classify_crash. rewrite Hcw.
    destruct (contains error_msg (str "Timeout")
              || contains error_msg (str "APITimeout")) eqn:Hto;
      eexists; (split; [reflexivity|]);
      cbn [crash_type tokens_used token_limit]; repeat split; auto;
      try (intros [H | H]; congruence); discriminate.
Qed.

(** C10 fails as the specification states it: [classify_crash] is not
    total.  On a context window error whose token count has 4301 digits
    the conversion [int] raises [ValueError]. *)
Lemma classify_crash_raises_on_long_count :
  classify_crash (str "ContextWindowExceeded: " ++ str "your request has "
                  ++ repeat 49%N 4301 ++ str " input tokens" ++ [])
  = raise_cls ValueError.
Proof.
  rewrite classify_crash_context_window;
    [|exact (contains_prefix (str "ContextWindowExceeded")
               (str ": " ++ str "your request has " ++ repeat 49%N 4301
                ++ str " input tokens" ++ []))].
  rewrite (@search_number_first (str "your request has ")
             (str " input tokens") (repeat 49%N 4301) []
             32%N (str "input tokens")).
  - cbn [too_long]. rewrite repeat_length. reflexivity.
  - reflexivity.
  - reflexivity.
  - discriminate.
  - apply forallb_forall. intros x Hx. apply repeat_spec in Hx. now subst x.
  - reflexivity.
Qed.

(** C8. The end-to-end example.  On the file of three entries, whatever
    the conversation [m :: ms] of the first two is, the sampler selects
    task 1 alone; the crash scanner finds one crash, that of task 3, of
    type [context_window] with 9000 tokens used and a limit of 8192, and
    [save_json] writes it with [over_by = 808]; and no sampled entry is
    task 3. *)
Theorem end_to_end_example `{Runtime} (m : json) (ms : list json)
  (sample_size seed : Z) (label : pystr) :
  1 <= sample_size ->
  load_and_sample (example_file m ms) sample_size seed
    = Ok ([example_entry1 m ms], 3%nat)
  /\ (forall sample n e,
        load_and_sample (example_file m ms) sample_size seed = Ok (sample, n) ->
        In e sample -> py_getitem e (str "task_id") = Ok (JInt 1))
  /\ classify_crash example_error
     = Ok {| crash_type := str "context_window";
             tokens_used := Some 9000;
             token_limit := Some 8192;
             error_short := str "Context window exceeded (9000/8192 tokens)" |}
  /\ exists r,
       scan_file (example_file m ms) label = Ok r
       /\ crashes r
          = [{| ce_crash :=
                  {| crash_type := str "context_window";
                     tokens_used := Some 9000;
                     token_limit := Some 8192;
                     error_short :=
                       str "Context window exceeded (9000/8192 tokens)" |};
                ce_task_id := JInt 3;
                ce_trial := JStr (str "?");
                ce_config_label := label |}]
       /\ save_json_crashes [r]
          = Ok [JObj [(str "config", JStr label);
                      (str "task_id", JInt 3);
                      (str "trial", JStr (str "?"));
                      (str "crash_type", JStr (str "context_window"));
                      (str "error_short",
                       JStr (str "Context window exceeded (9000/8192 tokens)"));
                      (str "tokens_used", JInt 9000);
                      (str "token_limit", JInt 8192);
                      (str "over_by", JInt 808)]].
Proof.
  intros Hn.
  assert (Hsample : load_and_sample (example_file m ms) sample_size seed
                    = Ok ([example_entry1 m ms], 3%nat)).
  { unfold load_and_sample. cbn.
    replace (1 <=? sample_size) with true by (symmetry; apply Z.leb_le; lia).
    reflexivity. }
  split; [exact Hsample|].
  split.
  { intros sample n e Hs Hin. rewrite Hsample in Hs.
    injection Hs as <- _. destruct Hin as [<- | []]. reflexivity. }
  split; [vm_compute; reflexivity|].
  eexists. split; [unfold scan_file; cbn; reflexivity|].
  split; [reflexivity|].
  vm_compute. reflexivity.
Qed.

Lemma end_to_end_example_witness :
  @load_and_sample example_runtime
    (example_file (example_message (str "user") (str "hello")) []) 50 42
  = Ok ([example_entry1 (example_message (str "user") (str "hello")) []],
        3%nat).
Proof.
  apply (@end_to_end_example example_runtime
           (example_message (str "user") (str "hello")) [] 50 42 (str "cfg")).
  lia.
Defined.

(* ================================================================== *)
(** * Properties of the prompt builder *)
(* ================================================================== *)

Lemma extract_policy_from_found (ms : list pystr) (s : pystr) :
  forall pre m post,
    ms = pre ++ m :: post ->
    (forall m', In m' pre -> ~ occurs m' s) ->
    occurs m s ->
    extract_policy_from ms (JStr s) = Ok (JStr (strip (split_head s m))).
Proof.
  intros pre. revert ms. induction pre as [|p pre IH]; intros ms m post -> Hpre Hm.
  - cbn. apply contains_occurs in Hm. now rewrite Hm.
  - cbn. assert (Hp : contains s p = false).
    { apply contains_false, Hpre. now left. }
    rewrite Hp. cbn. eapply IH; eauto. intros m' Hin. apply Hpre. now right.
Qed.

Lemma extract_policy_from_none (ms : list pystr) (s : pystr) :
  (forall m, In m ms -> ~ occurs m s) ->
  extract_policy_from ms (JStr s) = Ok (JStr (firstn 3000 s)).
Proof.
  induction ms as [|m ms IH]; intros H; [reflexivity|].
  cbn. assert (Hm : contains s m = false).
  { apply contains_false, H. now left. }
  rewrite Hm. cbn. apply IH. intros m' Hin. apply H. now right.
Qed.

(** C7, as amended.  [extract_policy] tries the markers
    [#Available tools], [# Available tools] and [#Available Tools] in
    this order, as they are written.  For the first of them that occurs
    in the text, the result is the portion of the text before the first
    occurrence of that marker, stripped of the white space around it.
    When none of the three occurs, the result is the first 3000
    characters of the text. *)
Theorem extract_policy_markers (s : pystr) :
  (forall pre m post,
      policy_markers = pre ++ m :: post ->
      (forall m', In m' pre -> ~ occurs m' s) ->
      occurs m s ->
      exists before,
        first_cut m s before
        /\ extract_policy (JStr s) = Ok (JStr (strip before)))
  /\ ((forall m, In m policy_markers -> ~ occurs m s) ->
      extract_policy (JStr s) = Ok (JStr (firstn 3000 s))).
Proof.
  split.
  - intros pre m post Hms Hpre Hm.
    exists (split_head s m). split.
    + now apply split_head_first_cut.
    + unfold extract_policy. eapply extract_policy_from_found; eauto.
  - intros Hnone. unfold extract_policy.
    now apply extract_policy_from_none.
Qed.

Lemma extract_policy_markers_witness :
  (exists before,
      first_cut (str "# Available tools")
        (str "Be kind.  # Available tools: lookup") before
      /\ extract_policy (JStr (str "Be kind.  # Available tools: lookup"))
         = Ok (JStr (strip before)))
  /\ extract_policy (JStr (str "Be kind."))
     = Ok (JStr (firstn 3000 (str "Be kind."))).
Proof.
  split.
  - destruct (extract_policy_markers
                (str "Be kind.  # Available tools: lookup")) as [Hfound _].
    apply (Hfound [str "#Available tools"] (str "# Available tools")
             [str "#Available Tools"] eq_refl).
    + intros m' [<- | []]. apply contains_false. reflexivity.
    + apply contains_occurs. reflexivity.
  - destruct (extract_policy_markers (str "Be kind.")) as [_ Hnone].
    apply Hnone. intros m Hin. apply contains_false.
    destruct Hin as [<- | [<- | [<- | []]]]; reflexivity.
Defined.

(** C7 fails as the specification states it: a text with the marker in
    another case, or without the hash, is not cut there. *)
Lemma extract_policy_not_case_insensitive :
  let text := str "Refund rules apply. Available tools: lookup" in
  spec_marker_pos text = Some 20%nat
  /\ spec_extract_policy text = str "Refund rules apply. "
  /\ extract_policy (JStr text) = Ok (JStr text)
  /\ extract_policy (JStr text) <> Ok (JStr (spec_extract_policy text)).
Proof.
  cbv zeta. repeat split; try (vm_compute; reflexivity).
  vm_compute. discriminate.
Qed.

(* ================================================================== *)
(** * Properties of the extraction of the agent's actions *)
(* ================================================================== *)

(** An action built from a tool call has a name that is neither
    [respond] nor [unknown]. *)
Lemma tool_call_action_name {R : Runtime} (tc a : json) :
  tool_call_action tc = Ok (Some a) ->
  exists fn name args,
    py_get tc (str "function") (JObj []) = Ok fn
    /\ py_get fn (str "name") (JStr (str "unknown")) = Ok name
    /\ name <> JStr (str "respond")
    /\ name <> JStr (str "unknown")
    /\ a = JObj [(str "name", name); (str "arguments", args)].
Proof.
  unfold tool_call_action. intros H.
  bind_inv H. bind_inv H. bind_inv H. bind_inv H.
  destruct (eq_str v2 (str "respond")) eqn:E1; [discriminate|].
  destruct (eq_str v2 (str "unknown")) eqn:E2; [discriminate|].
  cbn in H. injection H as <-.
  exists v, v2, v1. repeat split; auto using eq_str_false.
Qed.

(** An action read from the content of a message has a name, which is
    not [respond]. *)
Lemma content_action_name {R : Runtime} (msg a : json) :
  content_action msg = Ok (Some a) ->
  exists name,
    py_get a (str "name") JNull = Ok name
    /\ name <> JStr (str "respond")
    /\ name <> JNull.
Proof.
  unfold content_action. intros H. bind_inv H.
  destruct (py_or v (JStr [])); try discriminate.
  destruct (search_action s); [|discriminate].
  destruct (json_parse json_depth p) as [action|e];
    [|destruct (exn_cls e); discriminate].
  bind_inv H.
  destruct (eq_str v0 (str "respond")) eqn:E1; [discriminate|].
  destruct (is_none v0) eqn:E2; [discriminate|].
  cbn in H. injection H as <-.
  exists v0. repeat split; auto using eq_str_false.
  intros ->. discriminate.
Qed.

(** C9. No action that [extract_agent_actions] returns is named
    [respond], in either format.  A tool call whose function is named
    [respond] or [unknown], or has no name, adds no action; an action
    read from the content of a message has a name, and it is not
    [respond]. *)
Theorem extract_agent_actions_no_respond {R : Runtime} (traj : json)
  (actions : list json) :
  extract_agent_actions traj = Ok actions ->
  (forall a, In a actions ->
     exists name,
       py_get a (str "name") JNull = Ok name
       /\ name <> JStr (str "respond"))
  /\ (forall tc fn name,
        py_get tc (str "function") (JObj []) = Ok fn ->
        py_get fn (str "name") (JStr (str "unknown")) = Ok name ->
        name = JStr (str "respond") \/ name = JStr (str "unknown") ->
        forall a, tool_call_action tc <> Ok (Some a))
  /\ (forall msg a,
        content_action msg = Ok (Some a) ->
        exists name,
          py_get a (str "name") JNull = Ok name
          /\ name <> JStr (str "respond")
          /\ name <> JNull).
Proof.
  intros H. split; [|split].
  - intros a Ha. unfold extract_agent_actions in H.
    bind_inv H. bind_inv H. injection H as <-.
    apply in_concat in Ha as (acts & Hacts & Ha).
    destruct (rmap_In _ _ Hv0 _ Hacts) as (msg & _ & Hmsg).
    unfold message_actions in Hmsg. bind_inv Hmsg.
    destruct (eq_str v1 (str "assistant")); cbn in Hmsg;
      [|injection Hmsg as <-; destruct Ha].
    bind_inv Hmsg. destruct (truthy v2).
    + bind_inv Hmsg. bind_inv Hmsg. injection Hmsg as <-.
      apply somes_In in Ha.
      destruct (rmap_In _ _ Hv4 _ Ha) as (tc & _ & Htc).
      apply tool_call_action_name in Htc
        as (fn & name & args & _ & _ & Hr & _ & ->).
      exists name. split; [reflexivity | assumption].
    + bind_inv Hmsg. injection Hmsg as <-.
      destruct v3 as [x|]; cbn in Ha; [|destruct Ha].
      destruct Ha as [-> | []].
      apply content_action_name in Hv3 as (name & Hn & Hr & _).
      now exists name.
  - intros tc fn name Hfn Hname Hbad a Ha.
    apply tool_call_action_name in Ha
      as (fn' & name' & args & Hfn' & Hname' & Hr & Hu & _).
    rewrite Hfn in Hfn'. injection Hfn' as <-.
    rewrite Hname in Hname'. injection Hname' as <-.
    destruct Hbad; contradiction.
  - intros msg a Ha. now apply (@content_action_name _ msg).
Qed.

Lemma extract_agent_actions_no_respond_witness :
  @extract_agent_actions example_runtime example_traj
    = Ok [JObj [(str "name", JStr (str "get_user"));
                (str "arguments", JObj [])]]
  /\ exists name,
       py_get (JObj [(str "name", JStr (str "get_user"));
                     (str "arguments", JObj [])]) (str "name") JNull = Ok name
       /\ name <> JStr (str "respond").
Proof.
  assert (H : @extract_agent_actions example_runtime example_traj
              = Ok [JObj [(str "name", JStr (str "get_user"));
                          (str "arguments", JObj [])]])
    by (vm_compute; reflexivity).
  split; [exact H|].
  apply (proj1 (@extract_agent_actions_no_respond example_runtime _ _ H)).
  now left.
Defined.

(* ================================================================== *)
(** * Properties of the sampler *)
(* ================================================================== *)

Section FoldRes.
Variables (A S : Type) (step : S -> A -> res S).

Let f := fun (acc : res S) (x : A) => (s <- acc ;; step s x)%res.

Lemma fold_res_Raise (l : list A) (e : exn) : fold_left f l (Raise e) = Raise e.
Proof. induction l as [|x l IH]; [reflexivity | exact IH]. Qed.

(** A property of the state that every turn keeps holds at the end. *)
Lemma fold_res_invariant (P : S -> Prop) (l : list A) :
  (forall s x s', In x l -> P s -> step s x = Ok s' -> P s') ->
  forall s r, P s -> fold_left f l (Ok s) = Ok r -> P r.
Proof.
  induction l as [|x l IH]; intros Hstep s r Hs H.
  - injection H as <-. exact Hs.
  - cbn in H. destruct (step s x) as [s'|e] eqn:E.
    + eapply IH; [| |exact H].
      * intros s0 y s1 Hy. apply Hstep. now right.
      * eapply Hstep; eauto. now left.
    + rewrite fold_res_Raise in H. discriminate.
Qed.
End FoldRes.

Lemma kdict_set_values (k v : json) (d : kdict) (x : json) :
  In x (map snd (kdict_set k v d)) -> x = v \/ In x (map snd d).
Proof.
  induction d as [|[k' v'] d IH]; cbn.
  - intros [<- | []]. now left.
  - destruct (key_eqb k' k); cbn.
    + intros [<- | H]; auto.
    + intros [<- | H]; auto. destruct (IH H); auto.
Qed.

Lemma dedup_step_values (seen seen' : kdict) (e : json) :
  dedup_step seen e = Ok seen' ->
  forall x, In x (map snd seen') -> x = e \/ In x (map snd seen).
Proof.
  unfold dedup_step. intros H x Hx. bind_inv H.
  destruct (hashable v); [|discriminate]. cbn in H.
  destruct (kdict_lookup v seen).
  - bind_inv H. bind_inv H. bind_inv H. injection H as <-.
    destruct v2; [now apply kdict_set_values in Hx | now right].
  - injection H as <-. now apply kdict_set_values in Hx.
Qed.

(** Every entry that the deduplication keeps is one of the failures. *)
Lemma dedup_values (failures : list json) (seen : kdict) :
  dedup failures = Ok seen ->
  forall x, In x (map snd seen) -> In x failures.
Proof.
  unfold dedup. intros H.
  apply (fold_res_invariant dedup_step
           (fun s => forall x, In x (map snd s) -> In x failures)
           failures) with (s := []) (r := seen); [| |exact H].
  - intros s e s' He Hs Hstep x Hx.
    destruct (dedup_step_values _ _ Hstep _ Hx) as [-> | Hin]; auto.
  - intros x [].
Qed.

Lemma insert_by_In (key : json -> res json) (x : json) (l r : list json) :
  insert_by key x l = Ok r -> forall y, In y r -> y = x \/ In y l.
Proof.
  revert r. induction l as [|z l IH]; intros r H y Hy.
  - injection H as <-. destruct Hy as [<- | []]. now left.
  - cbn in H. bind_inv H. bind_inv H. bind_inv H. destruct v1.
    + injection H as <-. destruct Hy as [<- | Hy]; auto.
    + bind_inv H. injection H as <-. destruct Hy as [<- | Hy].
      * right. now left.
      * destruct (IH _ Hv2 _ Hy); auto. right. now right.
Qed.

(** The sort returns entries of its argument. *)
Lemma sorted_by_In (key : json -> res json) (l r : list json) :
  sorted_by key l = Ok r -> forall y, In y r -> In y l.
Proof.
  unfold sorted_by. intros H.
  apply (fold_res_invariant (fun a x => insert_by key x a)
           (fun a => forall y, In y a -> In y l) l) with (s := []) (r := r);
    [| |exact H].
  - intros s x s' Hx Hs Hstep y Hy.
    destruct (insert_by_In _ _ _ Hstep _ Hy) as [-> | Hin]; auto.
  - intros y [].
Qed.

(** An entry that passes the filter is not a crashed run, and it is a
    completed run exactly when it has the types of the data model. *)
Lemma is_failure_shapes (entry : json) :
  is_failure entry = Ok true ->
  crashed_run entry = false
  /\ (completed_run entry = true <-> typed_entry entry = true).
Proof.
  unfold is_failure, typed_entry, completed_run, crashed_run, has_info_key,
    info_member, traj_nonempty, traj_empty.
  intros H. destruct entry as [| | | | | | |e]; try discriminate.
  cbn [py_get rbind] in H.
  destruct (eq_zero _); [|discriminate]. cbn [negb] in H.
  destruct (py_in (str "task") _) as [[|]|] eqn:Ein; try discriminate H.
  cbn [rbind negb] in H.
  assert (Ht : truthy match dict_lookup (str "traj") e with
                      | Some v => v | None => JNull end = true)
    by congruence.
  clear H.
  destruct (dict_lookup (str "traj") e) as [[| | | | | |[|x l]|]|];
    try discriminate Ht;
    (split; [apply andb_false_r|]);
    destruct (dict_lookup (str "info") e) as [[| | | | | | |i]|];
    try (split; [discriminate
                |try discriminate; rewrite ?andb_false_r; discriminate]);
    cbn [py_in] in Ein;
    destruct (dict_lookup (str "task") i) as [[| | | | | | |]|];
    try discriminate Ein;
    split; (reflexivity || discriminate).
Qed.

(** C4, as amended.  Every entry that [load_and_sample] selects is an
    entry of the file that passes the filter of the sampler, and it is
    not a crashed run.  It is a completed run, one that has [info.task]
    and a conversation that is not empty, exactly when it has the types
    of the data model where the sampler reads it: it is an object, its
    [info] is an object whose [task] is not [null], and its [traj] is a
    sequence.  So exactly one of the two shapes holds for the selected
    entries of these types, and for no other selected entry.
    [random.sample] returns elements of its population. *)
Theorem load_and_sample_keeps_invariant {R : Runtime} :
  (forall seed l k x, In x (random_sample seed l k) -> In x l) ->
  forall (data : json) (sample_size seed : Z) (sample : list json) (n : nat),
    load_and_sample data sample_size seed = Ok (sample, n) ->
    forall e, In e sample ->
      (exists entries, py_iter data = Ok entries /\ In e entries)
      /\ is_failure e = Ok true
      /\ crashed_run e = false
      /\ (completed_run e = true <-> typed_entry e = true)
      /\ (entry_invariant e <-> typed_entry e = true).
Proof.
  intros Hsample data sample_size seed sample n H0 e He.
  unfold load_and_sample in H0.
  bind_inv H0. bind_inv H0. bind_inv H0. bind_inv H0. bind_inv H0.
  assert (Hu : In e v2).
  { destruct (Z.of_nat (List.length v2) <=? sample_size).
    - injection H0 as <- _. exact He.
    - destruct (sample_size <? 0); [discriminate|].
      injection H0 as <- _. eapply Hsample; eauto. }
  apply (sorted_by_In _ _ Hv2) in Hu.
  apply (dedup_values _ Hv1) in Hu.
  destruct (rfilter_In _ _ Hv0 _ Hu) as [Hin Hfail].
  split; [now exists v|]. split; [exact Hfail|].
  destruct (is_failure_shapes _ Hfail) as [Hk Hc].
  split; [exact Hk|]. split; [exact Hc|].
  unfold entry_invariant. rewrite Hk, xorb_false_r. exact Hc.
Qed.

Lemma firstn_In {A} (n : nat) (l : list A) (x : A) : In x (firstn n l) -> In x l.
Proof.
  intros H. rewrite <- (firstn_skipn n l). apply in_or_app. now left.
Qed.

Lemma skipn_In {A} (n : nat) (l : list A) (x : A) : In x (skipn n l) -> In x l.
Proof.
  intros H. rewrite <- (firstn_skipn n l). apply in_or_app. now right.
Qed.

(** The sampler of the examples returns elements of its population. *)
Lemma example_sample_In (seed : Z) (l : list json) (k : nat) (x : json) :
  In x (@random_sample example_runtime seed l k) -> In x l.
Proof.
  cbn. unfold rotate. intros H. apply firstn_In in H.
  apply in_app_or in H as [H | H]; [eapply skipn_In | eapply firstn_In]; eauto.
Qed.

Lemma load_and_sample_keeps_invariant_witness :
  is_failure (example_failure 2 example_task) = Ok true
  /\ entry_invariant (example_failure 2 example_task).
Proof.
  destruct (@load_and_sample_keeps_invariant example_runtime
              example_sample_In two_failures 1 7
              [example_failure 2 example_task] 2%nat)
    with (e := example_failure 2 example_task)
    as (_ & Hf & _ & _ & Hinv).
  - vm_compute. reflexivity.
  - now left.
  - split; [exact Hf|]. now apply Hinv.
Defined.

(** C4 fails as the specification states it.  The sampler tests
    [info.task] with [in] and [traj] for truth, on values of any type:
    it selects an entry whose [info] is a text that holds the word
    [task], and an entry whose [task] is [null], and neither of them has
    one of the two shapes. *)
Lemma load_and_sample_selects_shapeless_entries :
  @load_and_sample example_runtime
    (JArr [untyped_failure; null_task_failure]) 50 42
  = Ok ([untyped_failure; null_task_failure], 2%nat)
  /\ completed_run untyped_failure = false
  /\ crashed_run untyped_failure = false
  /\ ~ entry_invariant untyped_failure
  /\ completed_run null_task_failure = false
  /\ crashed_run null_task_failure = false
  /\ ~ entry_invariant null_task_failure.
Proof.
  repeat split; try (vm_compute; reflexivity);
    unfold entry_invariant; vm_compute; discriminate.
Qed.

(* ================================================================== *)
(** * Properties of the parsing of a response *)
(* ================================================================== *)

Lemma takewhile_dropwhile (p : char -> bool) (s : pystr) :
  takewhile p s ++ dropwhile p s = s.
Proof.
  induction s as [|c s IH]; [reflexivity|].
  cbn. destruct (p c); [cbn; now rewrite IH | reflexivity].
Qed.

Lemma dropwhile_app_stop (p : char -> bool) (a : pystr) (c : char)
  (r : pystr) :
  p c = false -> dropwhile p (a ++ c :: r) = dropwhile p a ++ c :: r.
Proof.
  intros Hc. induction a as [|x a IH]; cbn.
  - now rewrite Hc.
  - destruct (p x); [exact IH | reflexivity].
Qed.

Lemma takewhile_all (p : char -> bool) (a : pystr) (c : char) (r : pystr) :
  forallb p a = true -> p c = false -> takewhile p (a ++ c :: r) = a.
Proof.
  intros Ha Hc. induction a as [|x a IH]; cbn.
  - now rewrite Hc.
  - cbn in Ha. apply andb_true_iff in Ha as [Hx Ha].
    rewrite Hx, IH; auto.
Qed.

Lemma dropwhile_all (p : char -> bool) (a : pystr) (c : char) (r : pystr) :
  forallb p a = true -> p c = false -> dropwhile p (a ++ c :: r) = c :: r.
Proof.
  intros Ha Hc. induction a as [|x a IH]; cbn.
  - now rewrite Hc.
  - cbn in Ha. apply andb_true_iff in Ha as [Hx Ha].
    rewrite Hx, IH; auto.
Qed.

Lemma dropwhile_spaces (ws r : pystr) (c : char) :
  forallb isspace ws = true -> isspace c = false ->
  dropwhile isspace (ws ++ c :: r) = c :: r.
Proof. apply dropwhile_all. Qed.

Lemma occurs_trans (a b c : pystr) : occurs a b -> occurs b c -> occurs a c.
Proof.
  intros (x & y & ->) (u & v & ->).
  exists (u ++ x), (y ++ v). now rewrite <- !app_assoc.
Qed.

Lemma occurs_suffix (g a s : pystr) : occurs g s -> occurs g (a ++ s).
Proof.
  intros (x & y & ->). exists (a ++ x), y. now rewrite <- app_assoc.
Qed.

Lemma lstrip_occurs (s : pystr) : occurs (lstrip s) s.
Proof.
  exists (takewhile isspace s), []. rewrite app_nil_r.
  symmetry. apply takewhile_dropwhile.
Qed.

Lemma rstrip_occurs (s : pystr) : occurs (rstrip s) s.
Proof.
  exists [], (rev (takewhile isspace (rev s))). cbn.
  unfold rstrip. rewrite <- rev_app_distr, takewhile_dropwhile.
  now rewrite rev_involutive.
Qed.

Lemma strip_occurs (s : pystr) : occurs (strip s) s.
Proof.
  unfold strip. eapply occurs_trans; [apply rstrip_occurs | apply lstrip_occurs].
Qed.

(** The result of a search was found at some position of the text. *)
Lemma search_leftmost_Some (m : pystr -> option pystr) (s g : pystr) :
  search_leftmost m s = Some g -> exists a t, s = a ++ t /\ m t = Some g.
Proof.
  induction s as [|c s IH]; cbn; intros H.
  - destruct (m []) eqn:E; [|discriminate].
    injection H as ->. now exists [], [].
  - destruct (m (c :: s)) eqn:E.
    + injection H as ->. now exists [], (c :: s).
    + destruct (IH H) as (a & t & -> & Ht). now exists (c :: a), t.
Qed.

Lemma search_leftmost_None (m : pystr -> option pystr) (s : pystr) :
  (forall a t, s = a ++ t -> m t = None) -> search_leftmost m s = None.
Proof.
  induction s as [|c s IH]; intros H; cbn.
  - now rewrite (H [] [] eq_refl).
  - rewrite (H [] (c :: s) eq_refl). apply IH.
    intros a t ->. now apply (H (c :: a) t).
Qed.

(** A search skips a prefix at no position of which there is a match. *)
Lemma search_leftmost_skip (m : pystr -> option pystr) (a s : pystr) :
  (forall a1 c a2, a = a1 ++ c :: a2 -> m (c :: a2 ++ s) = None) ->
  search_leftmost m (a ++ s) = search_leftmost m s.
Proof.
  induction a as [|x a IH]; intros H; [reflexivity|].
  change ((x :: a) ++ s) with (x :: a ++ s).
  cbn [search_leftmost]. rewrite (H [] x a eq_refl).
  apply IH. intros a1 c a2 ->. now apply (H (x :: a1) c a2).
Qed.

Lemma search_leftmost_here (m : pystr -> option pystr) (s g : pystr) :
  m s = Some g -> search_leftmost m s = Some g.
Proof. intros H. destruct s; cbn; now rewrite H. Qed.

(** ** What the two patterns extract *)

Lemma lazy_upto_fence_prefix (s g : pystr) :
  lazy_upto_fence s = Some g -> exists b, s = g ++ b.
Proof.
  revert g. induction s as [|c s IH]; intros g H; [discriminate|].
  cbn [lazy_upto_fence] in H.
  destruct ((c =? rbrace)%N && startswith (dropwhile isspace s) (str "```")).
  - injection H as <-. now exists s.
  - destruct (lazy_upto_fence s) as [g'|]; [|discriminate].
    cbn [option_map] in H. injection H as <-. destruct (IH _ eq_refl) as [b ->]. now exists b.
Qed.

Lemma match_fence_body_occurs (s g : pystr) :
  match_fence_body s = Some g ->
  occurs g s /\ exists g', g = lbrace :: g'.
Proof.
  unfold match_fence_body. intros H.
  pose proof (takewhile_dropwhile isspace s) as Hs.
  destruct (dropwhile isspace s) as [|c r]; [discriminate|].
  destruct (N.eqb_spec c lbrace) as [-> | _]; [|discriminate].
  destruct (lazy_upto_fence r) as [g'|] eqn:E; [|discriminate].
  cbn [option_map] in H. injection H as <-.
  destruct (lazy_upto_fence_prefix _ E) as [b ->].
  split; [|now exists g'].
  exists (takewhile isspace s), b. symmetry. exact Hs.
Qed.

Lemma match_fence_occurs (s g : pystr) :
  match_fence s = Some g -> occurs g s /\ exists g', g = lbrace :: g'.
Proof.
  unfold match_fence. intros H.
  destruct (startswith s (str "```")) eqn:E3; [|discriminate].
  apply startswith_inv in E3 as [r ->].
  change (skipn 3 (str "```" ++ r)) with r in H.
  destruct (startswith r (str "json")) eqn:E4.
  - apply startswith_inv in E4 as [r' ->].
    change (skipn 4 (str "json" ++ r')) with r' in H.
    destruct (match_fence_body r') as [g1|] eqn:Eb.
    + injection H as <-. apply match_fence_body_occurs in Eb as [Ho Hg].
      split; [|exact Hg]. now do 2 apply occurs_suffix.
    + apply match_fence_body_occurs in H as [Ho Hg].
      split; [|exact Hg]. now apply occurs_suffix.
  - apply match_fence_body_occurs in H as [Ho Hg].
    split; [|exact Hg]. now apply occurs_suffix.
Qed.

Lemma match_object_occurs (s g : pystr) :
  match_object s = Some g -> occurs g s /\ exists g', g = lbrace :: g'.
Proof.
  unfold match_object. intros H. destruct s as [|c r]; [discriminate|].
  destruct (N.eqb_spec c lbrace) as [-> | _]; [|discriminate].
  pose proof (takewhile_dropwhile not_brace r) as Hr.
  destruct (dropwhile not_brace r) as [|d t]; [discriminate|].
  destruct ((d =? rbrace)%N
            && contains (takewhile not_brace r) (qstr "'primary_category'"));
    [|discriminate].
  injection H as <-. split; [|eauto].
  exists [], t. cbn [app]. rewrite <- app_assoc. cbn [app]. now rewrite Hr.
Qed.

Lemma search_fence_occurs (s g : pystr) :
  search_fence s = Some g -> occurs g s /\ exists g', g = lbrace :: g'.
Proof.
  intros H. apply search_leftmost_Some in H as (a & t & -> & Ht).
  apply match_fence_occurs in Ht as [Ho Hg].
  split; [now apply occurs_suffix | exact Hg].
Qed.

Lemma search_object_occurs (s g : pystr) :
  search_object s = Some g -> occurs g s /\ exists g', g = lbrace :: g'.
Proof.
  intros H. apply search_leftmost_Some in H as (a & t & -> & Ht).
  apply match_object_occurs in Ht as [Ho Hg].
  split; [now apply occurs_suffix | exact Hg].
Qed.

(** A text that starts with a brace parses to an object, if it
    parses. *)
Lemma json_parse_brace (d : nat) (r : pystr) (v : json) :
  json_parse d (lbrace :: r) = Ok v -> exists o, v = JObj o.
Proof.
  unfold json_parse.
  change (skip_ws (lbrace :: r)) with (lbrace :: r).
  cbn [parse_value].
  change (startswith (lbrace :: r) [34%N]) with false.
  change (startswith (lbrace :: r) [123%N]) with true.
  cbv beta iota zeta. intros H.
  destruct d as [|d]; [discriminate|].
  destruct (startswith _ [125%N]).
  - cbn [rbind fst snd] in H.
    destruct (skip_ws _); [|discriminate]. injection H as <-. eauto.
  - destruct (parse_members _ _ _ _) as [[o r']|e]; [|discriminate].
    cbn [rbind fst snd] in H.
    destruct (skip_ws r'); [|discriminate]. injection H as <-. eauto.
Qed.

(** A text that starts with a fence is not JSON. *)
Lemma json_parse_backtick (d : nat) (r : pystr) :
  json_parse d (backtick :: r) = raise_cls JSONDecodeError.
Proof. reflexivity. Qed.

Lemma not_brace_true (c : char) :
  not_brace c = true -> (c =? lbrace)%N = false /\ (c =? rbrace)%N = false.
Proof.
  unfold not_brace. intros H. apply negb_true_iff in H.
  now apply orb_false_iff in H.
Qed.

Lemma rstrip_app_stop (a : pystr) (c : char) (q : pystr) :
  isspace c = false -> rstrip (a ++ c :: q) = a ++ c :: rstrip q.
Proof.
  intros Hc. unfold rstrip.
  rewrite rev_app_distr. cbn [rev]. rewrite <- app_assoc. cbn [app].
  rewrite dropwhile_app_stop by exact Hc.
  rewrite rev_app_distr. cbn [rev]. rewrite rev_involutive.
  now rewrite <- app_assoc.
Qed.

(** The white space around an object in a text is all that [strip]
    removes. *)
Lemma strip_around_object (p body q : pystr) :
  strip (p ++ flat_object body ++ q)
  = lstrip p ++ flat_object body ++ rstrip q.
Proof.
  assert (E1 : p ++ flat_object body ++ q
               = p ++ lbrace :: (body ++ rbrace :: q)).
  { unfold flat_object. cbn [app]. now rewrite <- app_assoc. }
  rewrite E1. unfold strip, lstrip.
  rewrite dropwhile_app_stop by reflexivity.
  assert (E2 : dropwhile isspace p ++ lbrace :: body ++ rbrace :: q
               = (dropwhile isspace p ++ lbrace :: body) ++ rbrace :: q).
  { now rewrite <- app_assoc. }
  rewrite E2, rstrip_app_stop by reflexivity.
  unfold flat_object. cbn [app]. rewrite <- !app_assoc. reflexivity.
Qed.

Lemma strip_flat_object (body : pystr) :
  strip (flat_object body) = flat_object body.
Proof.
  pose proof (strip_around_object [] body []) as H.
  cbn [app] in H. rewrite app_nil_r in H. rewrite H.
  change (lstrip []) with (@nil char). change (rstrip []) with (@nil char).
  cbn [app]. now rewrite app_nil_r.
Qed.

(** No fence follows a closing brace inside a text without a
    backtick. *)
Lemma no_fence_after (body rest : pystr) :
  forallb not_backtick body = true ->
  startswith (dropwhile isspace (body ++ rbrace :: rest)) (str "```") = false.
Proof.
  intros Hb. induction body as [|c body IH]; [reflexivity|].
  cbn [forallb] in Hb. apply andb_true_iff in Hb as [Hc Hb].
  cbn [app dropwhile]. destruct (isspace c); [now apply IH|].
  change (str "```") with (backtick :: [backtick; backtick]).
  cbn [startswith]. unfold not_backtick in Hc. apply negb_true_iff in Hc.
  rewrite N.eqb_sym, Hc. reflexivity.
Qed.

Lemma lazy_upto_fence_object (body rest : pystr) :
  forallb not_backtick body = true ->
  startswith (dropwhile isspace rest) (str "```") = true ->
  lazy_upto_fence (body ++ rbrace :: rest) = Some (body ++ [rbrace]).
Proof.
  intros Hb Hr. induction body as [|c body IH].
  - cbn [app lazy_upto_fence]. rewrite N.eqb_refl, Hr. reflexivity.
  - cbn [forallb] in Hb. apply andb_true_iff in Hb as [Hc Hb].
    cbn [app lazy_upto_fence].
    rewrite (no_fence_after body rest Hb), andb_false_r.
    now rewrite IH.
Qed.

Lemma match_fence_body_object (ws1 body ws2 : pystr) :
  forallb isspace ws1 = true ->
  forallb isspace ws2 = true ->
  forallb not_backtick body = true ->
  match_fence_body (ws1 ++ flat_object body ++ ws2 ++ str "```")
  = Some (flat_object body).
Proof.
  intros H1 H2 Hb. unfold match_fence_body, flat_object.
  cbn [app]. rewrite dropwhile_spaces by (auto; reflexivity).
  rewrite N.eqb_refl. rewrite <- app_assoc. cbn [app].
  rewrite lazy_upto_fence_object; [reflexivity | exact Hb |].
  change (str "```") with (backtick :: [backtick; backtick]).
  rewrite dropwhile_spaces by (auto; reflexivity). reflexivity.
Qed.

Lemma space_not_j (ws r : pystr) :
  forallb isspace ws = true ->
  startswith (ws ++ lbrace :: r) (str "json") = false.
Proof.
  destruct ws as [|c ws]; [reflexivity|].
  cbn [forallb]. intros H. apply andb_true_iff in H as [Hc _].
  change (str "json") with (106%N :: str "son").
  cbn [app startswith].
  destruct (N.eqb_spec 106 c) as [<- | _]; [discriminate | reflexivity].
Qed.

Lemma match_fence_fenced (tag ws1 body ws2 : pystr) :
  tag = [] \/ tag = str "json" ->
  forallb isspace ws1 = true ->
  forallb isspace ws2 = true ->
  forallb not_backtick body = true ->
  match_fence (fenced tag ws1 (flat_object body) ws2)
  = Some (flat_object body).
Proof.
  intros Htag H1 H2 Hb. unfold match_fence, fenced.
  rewrite startswith_app.
  change (skipn 3 (str "```" ++ ?x)) with x.
  destruct Htag as [-> | ->].
  - cbn [app]. unfold flat_object at 1. cbn [app].
    rewrite space_not_j by exact H1.
    now apply match_fence_body_object.
  - rewrite startswith_app.
    change (skipn 4 (str "json" ++ ?x)) with x.
    now rewrite match_fence_body_object.
Qed.

Lemma strip_fenced (tag ws1 j ws2 : pystr) :
  strip (fenced tag ws1 j ws2) = fenced tag ws1 j ws2.
Proof.
  unfold fenced, strip.
  change (lstrip (str "```" ++ ?x)) with (str "```" ++ x).
  replace (str "```" ++ tag ++ ws1 ++ j ++ ws2 ++ str "```")
    with ((str "```" ++ tag ++ ws1 ++ j ++ ws2 ++ [backtick; backtick])
          ++ backtick :: [])
    by (repeat rewrite <- app_assoc; reflexivity).
  now rewrite rstrip_app_stop by reflexivity.
Qed.

Section ParseResponse.
Context {R : Runtime}.

Lemma loads_or_pass_Ok (g : pystr) (v : json) :
  json_parse json_depth g = Ok v -> loads_or_pass g = Ok (Some v).
Proof. unfold loads_or_pass. now intros ->. Qed.

Lemma loads_or_pass_pass (g : pystr) :
  json_parse json_depth g = raise_cls JSONDecodeError ->
  loads_or_pass g = Ok None.
Proof. unfold loads_or_pass. now intros ->. Qed.

(** The bare text and the fenced text of a verdict. *)
Lemma parse_response_bare (body : pystr) (v : json) :
  json_parse json_depth (flat_object body) = Ok v ->
  py_in (str "primary_category") v = Ok true ->
  parse_response (JStr (flat_object body)) = Ok v.
Proof.
  intros Hv Hk. unfold parse_response. cbn [as_str rbind].
  rewrite strip_flat_object, (loads_or_pass_Ok _ Hv). cbn [rbind].
  now rewrite Hk.
Qed.

Lemma parse_response_fenced (tag ws1 body ws2 : pystr) (v : json) :
  tag = [] \/ tag = str "json" ->
  forallb isspace ws1 = true ->
  forallb isspace ws2 = true ->
  forallb not_backtick body = true ->
  json_parse json_depth (flat_object body) = Ok v ->
  parse_response (JStr (fenced tag ws1 (flat_object body) ws2)) = Ok v.
Proof.
  intros Htag H1 H2 Hb Hv. unfold parse_response. cbn [as_str rbind].
  rewrite strip_fenced.
  assert (E1 : loads_or_pass (fenced tag ws1 (flat_object body) ws2)
               = Ok None).
  { apply loads_or_pass_pass.
    exact (json_parse_backtick json_depth
             ([backtick; backtick] ++ tag ++ ws1 ++ flat_object body
              ++ ws2 ++ str "```")). }
  rewrite E1. cbn [rbind].
  unfold parse_fallback, parse_strategy2, search_fence.
  rewrite (search_leftmost_here match_fence _
             (@match_fence_fenced tag ws1 body ws2 Htag H1 H2 Hb)).
  now rewrite (loads_or_pass_Ok _ Hv).
Qed.

(** A text without an opening brace holds no JSON object. *)
Lemma no_brace_no_json_object (text : pystr) :
  ~ In lbrace text -> no_json_object text.
Proof.
  intros Hno g (a & b & ->). destruct Hno.
  apply in_or_app. right. now left.
Qed.

Lemma parse_response_no_object (text : pystr) :
  json_parse json_depth (strip text) = raise_cls JSONDecodeError ->
  no_json_object text ->
  parse_response (JStr text) = Ok (parse_error_verdict (strip text)).
Proof.
  intros Hnone Hno. unfold parse_response. cbn [as_str rbind].
  rewrite (loads_or_pass_pass _ Hnone). cbn [rbind].
  unfold parse_fallback, parse_strategy2, parse_strategy3.
  assert (Hsub : forall g g',
             occurs g (strip text) -> g = lbrace :: g' ->
             loads_or_pass g = Ok None).
  { intros g g' Ho ->. apply loads_or_pass_pass. apply Hno.
    eapply occurs_trans; [exact Ho | apply strip_occurs]. }
  destruct (search_fence (strip text)) as [g|] eqn:E2.
  - apply search_fence_occurs in E2 as [Ho [g' Hg]].
    rewrite (Hsub _ _ Ho Hg). cbn [rbind].
    destruct (search_object (strip text)) as [h|] eqn:E3; [|reflexivity].
    apply search_object_occurs in E3 as [Ho' [h' Hh]].
    now rewrite (Hsub _ _ Ho' Hh).
  - cbn [rbind].
    destruct (search_object (strip text)) as [h|] eqn:E3; [|reflexivity].
    apply search_object_occurs in E3 as [Ho' [h' Hh]].
    now rewrite (Hsub _ _ Ho' Hh).
Qed.

End ParseResponse.

Lemma dropwhile_In (p : char -> bool) (s : pystr) (x : char) :
  In x (dropwhile p s) -> In x s.
Proof.
  intros H. rewrite <- (takewhile_dropwhile p s). apply in_or_app. now right.
Qed.

Lemma forallb_lstrip (f : char -> bool) (s : pystr) :
  forallb f s = true -> forallb f (lstrip s) = true.
Proof.
  rewrite !forallb_forall. intros H x Hx. apply H.
  now apply dropwhile_In in Hx.
Qed.

Lemma forallb_rstrip (f : char -> bool) (s : pystr) :
  forallb f s = true -> forallb f (rstrip s) = true.
Proof.
  rewrite !forallb_forall. intros H x Hx. apply H.
  unfold rstrip in Hx. apply in_rev in Hx. apply dropwhile_In in Hx.
  now apply in_rev.
Qed.

Lemma not_brace_not_In (s : pystr) :
  forallb not_brace s = true -> ~ In lbrace s.
Proof.
  rewrite forallb_forall. intros H Hin. specialize (H _ Hin). discriminate.
Qed.

(** Where a character occurs once, the split around it is unique. *)
Lemma split_unique (c : char) (l1 r1 l2 r2 : pystr) :
  l1 ++ c :: r1 = l2 ++ c :: r2 -> ~ In c l1 -> ~ In c r1 -> l1 = l2.
Proof.
  revert l2. induction l1 as [|x l1 IH]; intros l2 H H1 Hr.
  - destruct l2 as [|y l2]; [reflexivity|].
    cbn in H. injection H as <- H. exfalso. apply Hr. rewrite H.
    apply in_or_app. right. now left.
  - destruct l2 as [|y l2]; cbn in H; injection H as -> H.
    + exfalso. apply H1. now left.
    + f_equal. apply IH; auto. intros Hin. apply H1. now right.
Qed.

Lemma match_fence_shape (s g : pystr) :
  match_fence s = Some g ->
  exists x y, s = str "```" ++ x ++ lbrace :: y.
Proof.
  intros H. pose proof H as H'. unfold match_fence in H'.
  destruct (startswith s (str "```")) eqn:E3; [|discriminate].
  apply startswith_inv in E3 as [r ->].
  change (skipn 3 (str "```" ++ r)) with r in H'.
  assert (Hb : forall t g0, match_fence_body t = Some g0 ->
                            exists x y, t = x ++ lbrace :: y).
  { intros t g0 Ht. apply match_fence_body_occurs in Ht
      as [(x & y & ->) [g' ->]].
    exists x, (g' ++ y). reflexivity. }
  destruct (startswith r (str "json")) eqn:E4.
  - apply startswith_inv in E4 as [r' ->].
    change (skipn 4 (str "json" ++ r')) with r' in H'.
    destruct (match_fence_body r') as [g1|] eqn:Eb.
    + destruct (Hb _ _ Eb) as (x & y & ->).
      exists (str "json" ++ x), y. now rewrite <- app_assoc.
    + destruct (Hb _ _ H') as (x & y & E). exists x, y. now rewrite E.
  - destruct (Hb _ _ H') as (x & y & E). exists x, y. now rewrite E.
Qed.

(** No fence is found around an object whose prose before it holds
    none. *)
Lemma search_fence_prose (p body q : pystr) :
  forallb not_brace p = true ->
  forallb not_brace body = true ->
  forallb not_brace q = true ->
  contains p (str "```") = false ->
  search_fence (p ++ flat_object body ++ q) = None.
Proof.
  intros Hp Hb Hq Hf. apply search_leftmost_None. intros a t E.
  destruct (match_fence t) as [g|] eqn:Em; [|reflexivity].
  exfalso. apply match_fence_shape in Em as (x & y & ->).
  assert (E' : p ++ lbrace :: (body ++ rbrace :: q)
               = (a ++ str "```" ++ x) ++ lbrace :: y).
  { rewrite <- !app_assoc. rewrite <- E. unfold flat_object. cbn [app].
    rewrite <- !app_assoc. reflexivity. }
  apply split_unique in E'.
  - apply contains_false in Hf. apply Hf. exists a, x. exact E'.
  - now apply not_brace_not_In.
  - intros Hin. apply in_app_or in Hin as [Hin | [Hin | Hin]].
    + now apply (not_brace_not_In _ Hb).
    + discriminate.
    + now apply (not_brace_not_In _ Hq).
Qed.

Lemma match_object_flat (body q : pystr) :
  forallb not_brace body = true ->
  contains body (qstr "'primary_category'") = true ->
  match_object (flat_object body ++ q) = Some (flat_object body).
Proof.
  intros Hb Hk. unfold match_object, flat_object.
  cbn [app]. rewrite N.eqb_refl. rewrite <- app_assoc. cbn [app].
  rewrite takewhile_all, dropwhile_all by (auto; reflexivity).
  now rewrite N.eqb_refl, Hk.
Qed.

Lemma search_object_prose (p body q : pystr) :
  forallb not_brace p = true ->
  forallb not_brace body = true ->
  contains body (qstr "'primary_category'") = true ->
  search_object (p ++ flat_object body ++ q) = Some (flat_object body).
Proof.
  intros Hp Hb Hk. unfold search_object.
  rewrite search_leftmost_skip.
  - apply search_leftmost_here. now apply match_object_flat.
  - intros a1 c a2 ->. rewrite forallb_app in Hp.
    apply andb_true_iff in Hp as [_ Hp]. cbn [forallb] in Hp.
    apply andb_true_iff in Hp as [Hc _].
    destruct (not_brace_true _ Hc) as [Hl _].
    cbn [match_object]. now rewrite Hl.
Qed.

Lemma parse_response_prose {R : Runtime} (p body q : pystr) (v : json) :
  forallb not_brace p = true ->
  forallb not_brace body = true ->
  forallb not_brace q = true ->
  contains p (str "```") = false ->
  contains body (qstr "'primary_category'") = true ->
  json_parse json_depth (strip (p ++ flat_object body ++ q))
  = raise_cls JSONDecodeError ->
  json_parse json_depth (flat_object body) = Ok v ->
  parse_response (JStr (p ++ flat_object body ++ q)) = Ok v.
Proof.
  intros Hp Hb Hq Hf Hk Hnone Hv.
  unfold parse_response. cbn [as_str rbind].
  rewrite (loads_or_pass_pass _ Hnone). cbn [rbind].
  rewrite strip_around_object.
  unfold parse_fallback, parse_strategy2, parse_strategy3.
  rewrite search_fence_prose;
    auto using forallb_lstrip, forallb_rstrip.
  - cbn [rbind].
    rewrite search_object_prose; auto using forallb_lstrip.
    now rewrite (loads_or_pass_Ok _ Hv).
  - apply contains_false. intros Ho. apply contains_false in Hf. apply Hf.
    eapply occurs_trans; [exact Ho | apply lstrip_occurs].
Qed.

(** C5, as amended.  Let a verdict text be an object, a body between a
    pair of braces, that [json.loads] parses to a value [v] with the key
    [primary_category].  [parse_response] returns [v] for the text
    itself; for the text in a fenced code block (with or without the
    tag [json], with white space around the text) when the text holds
    no backtick; and, when the body holds no brace and holds the quoted
    key, for the text between two pieces of prose that hold no brace,
    the first of them no fence, such that [json.loads] rejects the whole
    as not being JSON.  And for every text that [json.loads] rejects as
    not being JSON and no part of which, from a brace on, it accepts or
    fails on otherwise, [parse_response] returns the verdict
    [parse_error] with a preview of the first 200 characters. *)
Theorem parse_response_robust {R : Runtime} :
  (forall (body : pystr) (v : json),
      json_parse json_depth (flat_object body) = Ok v ->
      py_in (str "primary_category") v = Ok true ->
      parse_response (JStr (flat_object body)) = Ok v
      /\ (forallb not_backtick body = true ->
          forall tag ws1 ws2,
            tag = [] \/ tag = str "json" ->
            forallb isspace ws1 = true ->
            forallb isspace ws2 = true ->
            parse_response (JStr (fenced tag ws1 (flat_object body) ws2))
            = Ok v)
      /\ (forallb not_brace body = true ->
          contains body (qstr "'primary_category'") = true ->
          forall p q,
            forallb not_brace p = true ->
            forallb not_brace q = true ->
            contains p (str "```") = false ->
            json_parse json_depth (strip (p ++ flat_object body ++ q))
            = raise_cls JSONDecodeError ->
            parse_response (JStr (p ++ flat_object body ++ q)) = Ok v))
  /\ (forall text : pystr,
        json_parse json_depth (strip text) = raise_cls JSONDecodeError ->
        no_json_object text ->
        parse_response (JStr text)
        = Ok (JObj [(str "primary_category", JStr (str "parse_error"));
                    (str "sub_category", JStr (str "none"));
                    (str "explanation",
                     JStr (str "Could not parse LLM response: "
                           ++ firstn 200 (strip text)))])).
Proof.
  split.
  - intros body v Hv Hin. split; [|split].
    + now apply parse_response_bare.
    + intros Hb tag ws1 ws2 Htag H1 H2. now apply parse_response_fenced.
    + intros Hb Hk p q Hp Hq Hf Hnone. now apply parse_response_prose.
  - intros text Hnone Hno. now apply parse_response_no_object.
Qed.

Lemma parse_response_robust_witness :
  (@parse_response example_runtime (JStr braces_verdict_text)
   = Ok braces_verdict
   /\ @parse_response example_runtime
        (JStr (fenced (str "json") [newline] braces_verdict_text [newline]))
      = Ok braces_verdict
   /\ @parse_response example_runtime
        (JStr (str "Here is my verdict: "
               ++ flat_object example_verdict_body
               ++ str " I hope it helps."))
      = Ok example_verdict)
  /\ @parse_response example_runtime
       (JStr (str "I cannot classify this case."))
     = Ok (JObj [(str "primary_category", JStr (str "parse_error"));
                 (str "sub_category", JStr (str "none"));
                 (str "explanation",
                  JStr (str "Could not parse LLM response: "
                        ++ firstn 200
                             (strip (str "I cannot classify this case."))))]).
Proof.
  destruct (@parse_response_robust example_runtime) as [Hforms Hnone].
  split.
  - destruct (Hforms braces_verdict_body braces_verdict)
      as (Hbare & Hfenced & _); try (vm_compute; reflexivity).
    destruct (Hforms example_verdict_body example_verdict)
      as (_ & _ & Hprose); try (vm_compute; reflexivity).
    split; [exact Hbare|]. split.
    + apply Hfenced; [reflexivity | now right | reflexivity | reflexivity].
    + apply Hprose; vm_compute; reflexivity.
  - apply Hnone; [vm_compute; reflexivity|].
    apply no_brace_no_json_object. vm_compute.
    intros H. repeat (destruct H as [H | H]; [discriminate H|]).
    exact H.
Defined.

(** A text of more digits than [int] converts. *)
Lemma takewhile_repeat (p : char -> bool) (c : N) (n : nat) :
  p c = true ->
  takewhile p (repeat c n) = repeat c n /\ dropwhile p (repeat c n) = [].
Proof.
  intros Hc. induction n as [|n [IH1 IH2]]; [now split|].
  cbn [repeat takewhile dropwhile]. rewrite Hc, IH1, IH2. now split.
Qed.

Lemma json_parse_long_int (d n : nat) :
  (max_str_digits < n)%nat ->
  json_parse d (repeat 49%N n) = raise_cls ValueError.
Proof.
  intros Hn. destruct n as [|n]; [inversion Hn|].
  pose proof (takewhile_repeat isdigit 49%N (S n) eq_refl) as [Ht Hd].
  unfold json_parse. cbn [repeat] in *.
  change (skip_ws (49%N :: repeat 49%N n)) with (49%N :: repeat 49%N n).
  cbn [parse_value].
  change (startswith (49%N :: repeat 49%N n) [34%N]) with false.
  change (startswith (49%N :: repeat 49%N n) [123%N]) with false.
  change (startswith (49%N :: repeat 49%N n) [91%N]) with false.
  cbv iota.
  assert (E : parse_scalar (49%N :: repeat 49%N n) = raise_cls ValueError);
    [|now rewrite E].
  unfold parse_scalar.
  change (startswith (49%N :: repeat 49%N n) (str "null")) with false.
  change (startswith (49%N :: repeat 49%N n) (str "true")) with false.
  change (startswith (49%N :: repeat 49%N n) (str "false")) with false.
  change (startswith (49%N :: repeat 49%N n) (str "NaN")) with false.
  change (startswith (49%N :: repeat 49%N n) (str "Infinity")) with false.
  change (startswith (49%N :: repeat 49%N n) (str "-Infinity")) with false.
  cbv iota. unfold parse_number. cbv zeta.
  change (startswith (49%N :: repeat 49%N n) [45%N]) with false.
  cbv iota. unfold int_part.
  change (49 =? 48)%N with false. change (isdigit 49%N) with true.
  cbv iota. unfold span_digits. rewrite Ht, Hd.
  change (frac_part []) with (@None (pystr * pystr)).
  change (exp_part []) with (@None (Z * pystr)).
  cbv iota. cbn [List.length]. rewrite repeat_length.
  apply Nat.ltb_lt in Hn. now rewrite Hn.
Qed.

Lemma parse_response_long_int {R : Runtime} (n : nat) :
  (max_str_digits < n)%nat ->
  parse_response (JStr (repeat 49%N n)) = raise_cls ValueError.
Proof.
  intros Hn. unfold parse_response, loads_or_pass. cbn [as_str rbind].
  assert (Es : strip (repeat 49%N n) = repeat 49%N n).
  { destruct n as [|n]; [reflexivity|].
    unfold strip. change (lstrip (repeat 49%N (S n))) with (repeat 49%N (S n)).
    cbn [repeat]. rewrite repeat_cons.
    exact (rstrip_app_stop (repeat 49%N n) 49%N [] eq_refl). }
  rewrite Es, (json_parse_long_int _ Hn). reflexivity.
Qed.

(** C5 fails as the specification states it.  A verdict whose
    explanation holds braces is parsed from its bare text and from a
    fenced block, and is lost between prose, where the pattern for an
    object stops at the inner brace.  For the text [null], from which
    no object can be extracted, [parse_response] raises [TypeError];
    and for a text of 4301 digits it raises [ValueError]. *)
Lemma parse_response_loses_braces_in_prose :
  @parse_response example_runtime (JStr braces_verdict_text)
  = Ok braces_verdict
  /\ @parse_response example_runtime
       (JStr (fenced (str "json") [newline] braces_verdict_text [newline]))
     = Ok braces_verdict
  /\ @parse_response example_runtime
       (JStr (str "Here is my verdict: " ++ braces_verdict_text))
     = Ok (parse_error_verdict
             (str "Here is my verdict: " ++ braces_verdict_text))
  /\ @parse_response example_runtime
       (JStr (str "Here is my verdict: " ++ braces_verdict_text))
     <> @parse_response example_runtime (JStr braces_verdict_text)
  /\ @parse_response example_runtime (JStr (str "null"))
     = Raise (Exn TypeError [])
  /\ @parse_response example_runtime (JStr (repeat 49%N 4301))
     = Raise (Exn ValueError []).
Proof.
  split; [vm_compute; reflexivity|].
  split; [vm_compute; reflexivity|].
  split; [vm_compute; reflexivity|].
  split; [vm_compute; discriminate|].
  split; [vm_compute; reflexivity|].
  apply parse_response_long_int. apply Nat.ltb_lt. reflexivity.
Qed.

(* ================================================================== *)
(** * Properties of the classifier client *)
(* ================================================================== *)

Section ClassifyOne.
Context {R : Runtime}.
Variables (client : llm) (provider model prompt : pystr) (delay : Q).

Lemma calls_log_call (w : world) (p : pystr) :
  calls (log (EvCall p) w) = S (calls w).
Proof.
  unfold calls, log. cbn. rewrite filter_app, length_app. cbn. lia.
Qed.

Lemma calls_log_sleep (w : world) (q : Q) :
  calls (log (EvSleep q) w) = calls w.
Proof.
  unfold calls, log. cbn. rewrite filter_app, length_app. cbn. lia.
Qed.

Lemma log_after (w : world) (ev : event) (evs : list event) :
  log ev (after w evs) = after w (evs ++ [ev]).
Proof. unfold log, after. cbn. now rewrite app_assoc. Qed.

Lemma log_is_after (w : world) (ev : event) : log ev w = after w [ev].
Proof. reflexivity. Qed.

Hypothesis known_provider :
  provider = str "anthropic" \/ provider = str "openai".

Lemma call_llm_known (w : world) :
  call_llm client provider model prompt w
  = (match client (calls w) prompt with
     | Ok text => Ok (JStr text)
     | Raise e => Raise e
     end, log (EvCall prompt) w).
Proof.
  unfold call_llm. destruct known_provider as [-> | ->]; reflexivity.
Qed.

(** An attempt whose call fails stops there. *)
Lemma classify_attempt_call_raises (w : world) (e : exn) :
  client (calls w) prompt = Raise e ->
  classify_attempt client provider model prompt delay w
  = (Raise e, log (EvCall prompt) w).
Proof.
  intros H. unfold classify_attempt, bind. now rewrite call_llm_known, H.
Qed.

(** An attempt makes one call, and then waits at most once. *)
Lemma classify_attempt_world (w : world) :
  snd (classify_attempt client provider model prompt delay w)
    = log (EvCall prompt) w
  \/ snd (classify_attempt client provider model prompt delay w)
    = log (EvSleep delay) (log (EvCall prompt) w).
Proof.
  unfold classify_attempt, bind. rewrite call_llm_known.
  destruct (client (calls w) prompt) as [text|e]; [|now left].
  unfold lift.
  destruct (parse_response (JStr text)) as [result|e]; [|now left].
  destruct (py_get result (str "primary_category") JNull) as [cat|e];
    [|now left].
  destruct (not_in_valid cat) as [invalid|e]; [|now left].
  assert (Hs : forall v : json,
             snd (match sleep delay (log (EvCall prompt) w) with
                  | (Ok _, w') => ret v w'
                  | (Raise e, w') => (Raise e, w')
                  end) = log (EvCall prompt) w
             \/ snd (match sleep delay (log (EvCall prompt) w) with
                     | (Ok _, w') => ret v w'
                     | (Raise e, w') => (Raise e, w')
                     end) = log (EvSleep delay) (log (EvCall prompt) w)).
  { intros v. unfold sleep. destruct (Qle_bool 0 delay); [now right | now left]. }
  destruct invalid.
  - destruct (py_setitem result (str "primary_category") (JStr (str "other")))
      as [result'|e]; [apply Hs | now left].
  - apply Hs.
Qed.

End ClassifyOne.

(** The two attempts of [classify_one], once the prompt is built. *)
Lemma classify_one_unfold `{Runtime} (client : llm) (provider model : pystr)
  (failure : json) (delay : Q) (prompt : pystr) (w : world) :
  build_prompt failure = Ok prompt ->
  classify_one client provider model failure delay w
  = match classify_attempt client provider model prompt delay w with
    | (Ok v, w1) => (Ok v, w1)
    | (Raise e, w1) =>
        if is_Exception e then
          match classify_attempt client provider model prompt delay
                  (log (EvSleep 2) w1) with
          | (Ok v, w3) => (Ok v, w3)
          | (Raise e', w3) =>
              if is_Exception e' then (Ok (api_error_verdict e'), w3)
              else (Raise e', w3)
          end
        else (Raise e, w1)
    end.
Proof.
  intros Hp. unfold classify_one, bind, lift. rewrite Hp.
  cbn [classify_attempts]. unfold try_except at 1.
  destruct (classify_attempt client provider model prompt delay w)
    as [[v|e] w1]; [reflexivity|].
  destruct (is_Exception e); [|reflexivity].
  cbn [Nat.eqb]. unfold bind at 1.
  change (sleep 2 w1) with (Ok tt, log (EvSleep 2) w1).
  unfold try_except.
  destruct (classify_attempt client provider model prompt delay
              (log (EvSleep 2) w1)) as [[v'|e'] w3]; [reflexivity|].
  destruct (is_Exception e'); reflexivity.
Qed.

Ltac world_norm w :=
  rewrite (log_is_after w); rewrite ?log_after; cbn [app].

(** C6, as amended.  Once the prompt of a failure case is built, and
    for either provider, [classify_one] raises no exception that
    [except Exception] catches:
    an error of the call, of the parsing or of the validation is
    contained.  It makes at most two calls.  When the first call raises,
    it waits 2 seconds and makes exactly one more attempt; when that
    call raises as well, it returns the verdict [api_error] whose
    explanation ends with the first 200 characters of the message of the
    second exception.  An error raised while the prompt is built is not
    covered. *)
Theorem classify_one_contains_call_errors `{Runtime} (client : llm)
  (provider model : pystr) (failure : json) (delay : Q) (prompt : pystr)
  (w : world) :
  build_prompt failure = Ok prompt ->
  provider = str "anthropic" \/ provider = str "openai" ->
  (forall e,
      fst (classify_one client provider model failure delay w) = Raise e ->
      is_Exception e = false)
  /\ (calls (snd (classify_one client provider model failure delay w))
      <= calls w + 2)%nat
  /\ forall e1,
       client (calls w) prompt = Raise e1 ->
       is_Exception e1 = true ->
       (exists rest,
           snd (classify_one client provider model failure delay w)
           = after w ([EvCall prompt; EvSleep 2; EvCall prompt] ++ rest)
           /\ (rest = [] \/ rest = [EvSleep delay]))
       /\ forall e2,
            client (S (calls w)) prompt = Raise e2 ->
            is_Exception e2 = true ->
            classify_one client provider model failure delay w
            = (Ok (JObj [(str "primary_category", JStr (str "api_error"));
                         (str "sub_category", JStr (str "none"));
                         (str "explanation",
                          JStr (str "API failed after retry: "
                                ++ firstn 200 (exn_msg e2)))]),
               after w [EvCall prompt; EvSleep 2; EvCall prompt]).
Proof.
  intros Hp Hprov.
  rewrite (classify_one_unfold client provider model failure delay w Hp).
  pose proof (classify_attempt_world client model prompt delay Hprov w) as Hw1.
  destruct (classify_attempt client provider model prompt delay w)
    as [[v|e] w1] eqn:E0; cbn [snd] in Hw1.
  - (* the first attempt returns *)
    split; [intros e He; discriminate|]. split.
    + cbn [snd]. destruct Hw1 as [-> | ->];
        rewrite ?calls_log_sleep, calls_log_call; lia.
    + intros e1 He1 _.
      rewrite (classify_attempt_call_raises client model prompt delay Hprov w He1)
        in E0. discriminate.
  - destruct (is_Exception e) eqn:Hexc.
    + (* the first attempt raises: one more attempt *)
      pose proof (classify_attempt_world client model prompt delay Hprov
                    (log (EvSleep 2) w1)) as Hw3.
      destruct (classify_attempt client provider model prompt delay
                  (log (EvSleep 2) w1)) as [[v'|e'] w3] eqn:E1;
        cbn [snd] in Hw3.
      * split; [intros e0 He0; discriminate|]. split.
        -- cbn [snd]. destruct Hw3 as [-> | ->], Hw1 as [-> | ->];
             rewrite ?calls_log_sleep, ?calls_log_call, ?calls_log_sleep,
               ?calls_log_call; lia.
        -- intros e1 He1 He1x.
           rewrite (classify_attempt_call_raises client model prompt delay Hprov
                      w He1) in E0.
           injection E0 as <- <-. split.
           ++ cbn [snd]. destruct Hw3 as [-> | ->].
              ** exists []. split; [world_norm w; reflexivity | now left].
              ** exists [EvSleep delay]. split; [world_norm w; reflexivity | now right].
           ++ intros e2 He2 _.
              assert (Hc : calls (log (EvSleep 2) (log (EvCall prompt) w))
                           = S (calls w))
                by now rewrite calls_log_sleep, calls_log_call.
              rewrite <- Hc in He2.
              rewrite (classify_attempt_call_raises client model prompt delay Hprov
                         _ He2) in E1. discriminate.
      * destruct (is_Exception e') eqn:Hexc'.
        -- split; [intros e0 He0; discriminate|]. split.
           ++ cbn [snd]. destruct Hw3 as [-> | ->], Hw1 as [-> | ->];
                rewrite ?calls_log_sleep, ?calls_log_call, ?calls_log_sleep,
                  ?calls_log_call; lia.
           ++ intros e1 He1 He1x.
              rewrite (classify_attempt_call_raises client model prompt delay Hprov
                         w He1) in E0.
              injection E0 as <- <-. split.
              ** cbn [snd]. destruct Hw3 as [-> | ->].
                 --- exists []. split; [world_norm w; reflexivity | now left].
                 --- exists [EvSleep delay]. split; [world_norm w; reflexivity | now right].
              ** intros e2 He2 _.
                 assert (Hc : calls (log (EvSleep 2) (log (EvCall prompt) w))
                              = S (calls w))
                   by now rewrite calls_log_sleep, calls_log_call.
                 rewrite <- Hc in He2.
                 rewrite (classify_attempt_call_raises client model prompt delay
                            Hprov _ He2) in E1.
                 injection E1 as <- <-. world_norm w. reflexivity.
        -- split; [intros e0 He0; cbn in He0; congruence|]. split.
           ++ cbn [snd]. destruct Hw3 as [-> | ->], Hw1 as [-> | ->];
                rewrite ?calls_log_sleep, ?calls_log_call, ?calls_log_sleep,
                  ?calls_log_call; lia.
           ++ intros e1 He1 He1x.
              rewrite (classify_attempt_call_raises client model prompt delay Hprov
                         w He1) in E0.
              injection E0 as <- <-. split.
              ** cbn [snd]. destruct Hw3 as [-> | ->].
                 --- exists []. split; [world_norm w; reflexivity | now left].
                 --- exists [EvSleep delay]. split; [world_norm w; reflexivity | now right].
              ** intros e2 He2 He2x.
                 assert (Hc : calls (log (EvSleep 2) (log (EvCall prompt) w))
                              = S (calls w))
                   by now rewrite calls_log_sleep, calls_log_call.
                 rewrite <- Hc in He2.
                 rewrite (classify_attempt_call_raises client model prompt delay
                            Hprov _ He2) in E1.
                 injection E1 as <- <-. congruence.
    + (* an interruption goes through *)
      split; [intros e0 He0; cbn in He0; congruence|]. split.
      * cbn [snd]. destruct Hw1 as [-> | ->];
          rewrite ?calls_log_sleep, calls_log_call; lia.
      * intros e1 He1 He1x.
        rewrite (classify_attempt_call_raises client model prompt delay Hprov w He1)
          in E0.
        injection E0 as <- <-. congruence.
Qed.

Lemma classify_one_contains_call_errors_witness :
  @classify_one example_runtime (failing (str "service down"))
    (str "anthropic") (str "m") (example_failure 1 example_task) (1 # 2)
    empty_world
  = (Ok (JObj [(str "primary_category", JStr (str "api_error"));
               (str "sub_category", JStr (str "none"));
               (str "explanation",
                JStr (str "API failed after retry: "
                      ++ firstn 200
                           (exn_msg (Exn ApiError (str "service down")))))]),
     after empty_world
       [EvCall example_prompt; EvSleep 2; EvCall example_prompt]).
Proof.
  destruct (@classify_one_contains_call_errors example_runtime
              (failing (str "service down")) (str "anthropic") (str "m")
              (example_failure 1 example_task) (1 # 2) example_prompt
              empty_world)
    as (_ & _ & Hretry).
  - vm_compute. reflexivity.
  - now left.
  - destruct (Hretry (Exn ApiError (str "service down")) eq_refl eq_refl)
      as [_ Hsecond].
    exact (Hsecond (Exn ApiError (str "service down")) eq_refl eq_refl).
Defined.

(** C6 fails as the specification states it: [classify_one] builds the
    prompt before its [try], so an error of [build_prompt] reaches the
    caller.  A failure case whose system message has a null content is
    one that the sampler selects; on it [extract_policy] raises
    [TypeError], [classify_one] raises it without a call, and so does
    [process_file]. *)
Lemma classify_one_lets_prompt_error_through :
  is_failure null_policy_failure = Ok true
  /\ @build_prompt example_runtime null_policy_failure
     = Raise (Exn TypeError [])
  /\ @classify_one example_runtime answering (str "anthropic") (str "m")
       null_policy_failure (1 # 2) empty_world
     = (Raise (Exn TypeError []), empty_world)
  /\ is_Exception (Exn TypeError []) = true
  /\ fst (@process_file example_runtime (JArr [null_policy_failure])
            (str "f.json") (str "cfg") answering (str "anthropic") (str "m")
            50 (1 # 2) false false empty_world)
     = Raise (Exn TypeError []).
Proof.
  repeat split; vm_compute; reflexivity.
Qed.

(* ================================================================== *)
(** * Properties of the run controller *)
(* ================================================================== *)

(** C3. When the final result file exists and the run is not forced,
    [process_file] returns the stored result as it is and leaves the
    world as it was: no call to the provider, no wait, and both files
    unchanged. *)
Theorem process_file_completed_is_idempotent `{Runtime}
  (data : json) (filepath config_name : pystr) (client : llm)
  (provider model : pystr) (sample_size : Z) (delay : Q) (dry_run : bool)
  (w : world) (stored : json) :
  result_file w = Some stored ->
  process_file data filepath config_name client provider model sample_size
    delay false dry_run w = (Ok stored, w)
  /\ calls (snd (process_file data filepath config_name client provider model
                   sample_size delay false dry_run w)) = calls w.
Proof.
  intros Hstored.
  assert (E : process_file data filepath config_name client provider model
                sample_size delay false dry_run w = (Ok stored, w)).
  { unfold process_file, bind, get_world. now rewrite Hstored. }
  split; [exact E | now rewrite E].
Qed.

Lemma process_file_completed_is_idempotent_witness :
  @process_file example_runtime two_failures (str "f.json") (str "cfg")
    (failing (str "down")) (str "anthropic") (str "m") 50 (1 # 2) false false
    {| result_file := Some example_verdict; partial_file := None; trace := [] |}
  = (Ok example_verdict,
     {| result_file := Some example_verdict; partial_file := None;
        trace := [] |}).
Proof.
  apply (@process_file_completed_is_idempotent example_runtime).
  reflexivity.
Defined.

(** C2 fails on the code: [main] reads the option [--seed] and does not
    pass it on.  The run of [process_file] is the same for every value
    of the option, and the sample is the one of the seed 42.  With the
    sampler of the examples, on a file with two failed tasks and a
    sample size of 1, the seed 7 selects task 2 and the seed 42 selects
    task 1; the run with [--seed 7] classifies task 1. *)
Theorem main_ignores_seed_option :
  (forall (R : Runtime) (args : cli_args) (seed : Z) (client : llm)
          (data : json) (filepath config_name : pystr) (w : world),
      main_process_file (with_seed args seed) client data filepath
        config_name w
      = main_process_file args client data filepath config_name w)
  /\ (s <- @load_and_sample example_runtime two_failures 1 7 ;;
      rmap (fun e => py_getitem e (str "task_id")) (fst s))%res
     = Ok [JInt 2]
  /\ (s <- @load_and_sample example_runtime two_failures 1 42 ;;
      rmap (fun e => py_getitem e (str "task_id")) (fst s))%res
     = Ok [JInt 1]
  /\ (result <- fst (@main_process_file example_runtime (example_args 7)
                       answering two_failures (str "f.json")
                       (str "14b_ACT_airline") empty_world) ;;
      classified_task_ids result)%res
     = Ok [JInt 1].
Proof.
  split; [reflexivity|].
  repeat split; vm_compute; reflexivity.
Qed.

(* ================================================================== *)
(** * The classification loop and the checkpoint *)
(* ================================================================== *)

(** One turn of the loop leaves the list as it is for an entry that it
    skips, and appends one classification otherwise. *)
Lemma classify_step_appends `{Runtime} (client : llm) (provider model : pystr)
  (delay : Q) (failure : json) (cs : list json) (w w' : world) (r : json) :
  classify_step client provider model delay failure (JArr cs) w = (Ok r, w') ->
  (lacks_task failure = true /\ r = JArr cs)
  \/ (lacks_task failure = false /\ exists c, r = JArr (cs ++ [c])).
Proof.
  unfold classify_step, lacks_task, bind, lift.
  destruct (py_getitem failure (str "task_id")) as [tid|]; [|discriminate].
  destruct (py_get failure (str "info") (JObj [])) as [info|]; [|discriminate].
  destruct (py_get info (str "task") JNull) as [task|]; [|discriminate].
  destruct (truthy task); cbn [negb].
  - destruct (classify_one client provider model failure delay w)
      as [[cls|] w1]; [|discriminate].
    destruct (py_get failure (str "trial") (JInt 0)); [|discriminate].
    destruct (py_get task (str "instruction") (JStr [])); [|discriminate].
    destruct (py_get task (str "actions") (JArr [])); [|discriminate].
    destruct (py_get failure (str "traj") (JArr [])); [|discriminate].
    destruct (extract_agent_actions _); [|discriminate].
    cbn [py_append].
    destruct (py_getitem cls (str "primary_category")); [|discriminate].
    unfold write_partial, ret. intros E. injection E as <- _.
    right. split; [reflexivity | eauto].
  - unfold ret. intros E. injection E as <- _. now left.
Qed.

(** The loop appends to the list it starts from one classification for
    each entry with a task. *)
Lemma classify_loop_appends `{Runtime} (client : llm) (provider model : pystr)
  (delay : Q) (failures : list json) :
  forall (cs : list json) (w w' : world) (r : json),
    classify_loop client provider model delay failures (JArr cs) w
      = (Ok r, w') ->
    exists new,
      r = JArr (cs ++ new)
      /\ List.length new = List.length (filter has_task failures).
Proof.
  induction failures as [|f failures IH]; intros cs w w' r.
  - cbn. unfold ret. intros E. injection E as <- _.
    exists []. now rewrite app_nil_r.
  - cbn [classify_loop]. unfold bind at 1.
    destruct (classify_step client provider model delay f (JArr cs) w)
      as [[r1|] w1] eqn:E1; [|discriminate].
    apply classify_step_appends in E1 as [[Hl ->] | [Hl [c ->]]]; intros E.
    + destruct (IH _ _ _ _ E) as (new & -> & Hlen).
      exists new. split; [reflexivity|].
      assert (Hf : has_task f = false) by (unfold has_task; now rewrite Hl).
      cbn [filter]. now rewrite Hf.
    + destruct (IH _ _ _ _ E) as (new & -> & Hlen).
      exists (c :: new). split; [now rewrite <- app_assoc|].
      assert (Hf : has_task f = true) by (unfold has_task; now rewrite Hl).
      cbn [filter]. rewrite Hf. cbn [List.length]. now rewrite Hlen.
Qed.

(** What a resumed run returns.  With a checkpoint of [K]
    classifications and no final result, a run that ends returns the
    checkpoint followed by one classification for each entry with a task
    among the entries of the sample from the index [K] on. *)
Lemma process_file_resumes_at_checkpoint_length `{Runtime}
  (data : json) (filepath config_name : pystr) (client : llm)
  (provider model : pystr) (sample_size : Z) (delay : Q)
  (w w' : world) (checkpoint sample : list json) (n : nat) (result : json) :
  result_file w = None ->
  partial_file w = Some (JObj [(str "classifications", JArr checkpoint)]) ->
  load_and_sample data sample_size default_seed = Ok (sample, n) ->
  process_file data filepath config_name client provider model sample_size
    delay false false w = (Ok result, w') ->
  result <> JNull ->
  exists new,
    py_getitem result (str "classifications") = Ok (JArr (checkpoint ++ new))
    /\ List.length new
       = List.length (filter has_task (skipn (List.length checkpoint) sample)).
Proof.
  intros Hres Hpart Hsample. unfold process_file, bind, get_world, lift.
  rewrite Hres, Hsample. cbn [fst].
  destruct (count_tasks data); [|discriminate].
  destruct sample as [|first rest].
  { unfold ret. intros E Hn. injection E as <- _. now destruct Hn. }
  rewrite Hpart. cbn [py_get dict_lookup pystr_eqb].
  change (pystr_eqb (str "classifications") (str "classifications")) with true.
  cbn [py_len ret fst snd].
  destruct (classify_loop client provider model delay
              (skipn (List.length checkpoint) (first :: rest))
              (JArr checkpoint) w) as [[cs|] w1] eqn:Eloop; [|discriminate].
  apply classify_loop_appends in Eloop as (new & -> & Hlen).
  destruct (compute_summary _); [|discriminate].
  destruct (count_zero_reward data); [|discriminate].
  unfold write_result, unlink_partial. intros E _. injection E as <- _.
  exists new. split; [reflexivity | exact Hlen].
Qed.

(** C1 fails on the code when an entry of the sample is skipped before
    the interruption.  The sample of the file has three entries, the
    first of which has no task.  The first run skips it, classifies
    task 2, writes the checkpoint and is interrupted during the next
    call.  The second run starts at the index 1, the length of the
    checkpoint, which is task 2 again: the final list has three
    classifications, two of them of task 2, where the sample has two
    entries with a task. *)
Theorem resume_after_skip_reclassifies :
  let first_run :=
    @process_file example_runtime skipped_first (str "f.json") (str "cfg")
      (interrupted_after 1) (str "anthropic") (str "m") 50 (1 # 2)
      false false empty_world in
  let second_run :=
    @process_file example_runtime skipped_first (str "f.json") (str "cfg")
      answering (str "anthropic") (str "m") 50 (1 # 2)
      false false (snd first_run) in
  (s <- @load_and_sample example_runtime skipped_first 50 default_seed ;;
   Ok (List.length (fst s), List.length (filter lacks_task (fst s))))%res
  = Ok (3%nat, 1%nat)
  /\ fst first_run = Raise (Exn KeyboardInterrupt [])
  /\ result_file (snd first_run) = None
  /\ option_map classified_task_ids (partial_file (snd first_run))
     = Some (Ok [JInt 2])
  /\ (result <- fst second_run ;; classified_task_ids result)%res
     = Ok [JInt 2; JInt 2; JInt 3].
Proof.
  cbv zeta. repeat split; vm_compute; reflexivity.
Qed.

(* ================================================================== *)
(** * More on the crash scanner *)
(* ================================================================== *)

Lemma Ok_inj {A} (a b : A) : Ok a = Ok b -> a = b.
Proof. intros H. now injection H. Qed.

Section FoldCount.
Variables (A S : Type) (step : S -> A -> res S).
Variables (m : S -> nat) (g : A -> nat).

(** A measure of the state to which every turn adds [g x] is, at the
    end, the measure at the start plus the sum of [g] over the list. *)
Lemma fold_res_count (l : list A) :
  (forall s x s', In x l -> step s x = Ok s' -> m s' = (m s + g x)%nat) ->
  forall s r,
    fold_left (fun acc x => (s <- acc ;; step s x)%res) l (Ok s) = Ok r ->
    m r = (m s + list_sum (map g l))%nat.
Proof.
  induction l as [|x l IH]; intros Hstep s r H.
  - injection H as <-. cbn. lia.
  - cbn in H. destruct (step s x) as [s'|e] eqn:E.
    + rewrite (IH (fun s0 y s1 Hy => Hstep s0 y s1 (or_intror Hy)) _ _ H).
      rewrite (Hstep _ _ _ (or_introl eq_refl) E).
      change (list_sum (map g (x :: l))) with (g x + list_sum (map g l))%nat.
      lia.
    + rewrite fold_res_Raise in H. discriminate.
Qed.
End FoldCount.

Lemma list_sum_indicator {A} (p : A -> bool) (l : list A) :
  list_sum (map (fun x => if p x then 1 else 0)%nat l)
  = List.length (filter p l).
Proof.
  induction l as [|x l IH]; [reflexivity|].
  change (list_sum (map (fun x => if p x then 1 else 0)%nat (x :: l)))
    with ((if p x then 1 else 0)
          + list_sum (map (fun x => if p x then 1 else 0) l))%nat.
  rewrite IH. cbn [filter]. destruct (p x); reflexivity.
Qed.

Lemma filter_negb_length {A} (p : A -> bool) (l : list A) :
  (List.length (filter p l) + List.length (filter (fun x => negb (p x)) l)
   = List.length l)%nat.
Proof.
  induction l as [|x l IH]; [reflexivity|].
  cbn. destruct (p x); cbn; lia.
Qed.

(** One turn of the loop of [scan_file] adds one record: a crash when
    [info] has the key [error], a conversation length otherwise. *)
Lemma scan_entry_adds_one (label : pystr) (e : json)
  (acc acc' : list crash_entry * list traj_length) :
  scan_entry label e acc = Ok acc' ->
  (if in_info (str "error") e
   then (exists c, fst acc' = fst acc ++ [c] /\ ce_config_label c = label)
        /\ snd acc' = snd acc
   else fst acc' = fst acc /\ exists t, snd acc' = snd acc ++ [t]).
Proof.
  unfold scan_entry, in_info. intros H.
  bind_inv H. bind_inv H. bind_inv H. bind_inv H. bind_inv H. bind_inv H.
  rewrite Hv, Hv4. destruct v4.
  - bind_inv H. bind_inv H. injection H as <-. cbn [fst snd]. eauto.
  - bind_inv H. injection H as <-. cbn [fst snd]. eauto.
Qed.

Lemma sort_turns_insert_length (x : traj_length) (l : list traj_length) :
  List.length (insert_turns x l) = S (List.length l).
Proof.
  induction l as [|y l IH]; [reflexivity|].
  cbn [insert_turns]. destruct (tl_turns y <? tl_turns x)%nat;
    cbn [List.length]; [reflexivity | now rewrite IH].
Qed.

Lemma sort_turns_length (l : list traj_length) :
  List.length (sort_turns l) = List.length l.
Proof.
  unfold sort_turns.
  assert (G : forall acc, List.length (fold_left (fun a x => insert_turns x a) l acc)
                          = (List.length acc + List.length l)%nat).
  { induction l as [|x l IH]; intros acc; cbn [fold_left List.length]; [lia|].
    rewrite IH, sort_turns_insert_length. lia. }
  now rewrite G.
Qed.

(** X1.  When [scan_file] returns, every entry of the file is accounted
    for exactly once: [total_entries] is the number of entries; there is
    one crash record, with the config label of the file, for each entry
    whose [info] holds [error]; [normal_entries] is the number of the
    other entries; and [longest_trajs] holds the lesser of 10 and that
    number of records. *)
Theorem scan_file_accounts_for_every_entry (data : json) (label : pystr)
  (r : scan_result) :
  scan_file data label = Ok r ->
  exists entries,
    py_iter data = Ok entries
    /\ total_entries r = List.length entries
    /\ List.length (crashes r)
       = List.length (filter (in_info (str "error")) entries)
    /\ normal_entries r
       = Z.of_nat (List.length
                     (filter (fun e => negb (in_info (str "error") e))
                        entries))
    /\ List.length (longest_trajs r)
       = Nat.min 10 (List.length
                       (filter (fun e => negb (in_info (str "error") e))
                          entries))
    /\ Forall (fun c => ce_config_label c = label) (crashes r).
Proof.
  unfold scan_file. intros H. bind_inv H. bind_inv H. bind_inv H.
  apply Ok_inj in H. subst r. cbn [total_entries normal_entries crashes longest_trajs].
  exists v. split; [exact Hv|].
  assert (Hn : v1 = List.length v).
  { destruct data; try discriminate; cbn in Hv, Hv1;
      injection Hv as <-; injection Hv1 as <-;
      now rewrite ?length_map. }
  assert (Hc : List.length (fst v0)
               = List.length (filter (in_info (str "error")) v)).
  { rewrite <- list_sum_indicator.
    apply (fold_res_count (fun a e => scan_entry label e a)
             (fun a => List.length (fst a))
             (fun e => if in_info (str "error") e then 1 else 0)%nat
             v) with (s := ([], [])) (r := v0); [|exact Hv0].
    intros s x s' _ Hs. apply scan_entry_adds_one in Hs.
    destruct (in_info (str "error") x).
    - destruct Hs as [(c & -> & _) _]. rewrite length_app. reflexivity.
    - destruct Hs as [-> _]. lia. }
  assert (Ht : List.length (snd v0)
               = List.length (filter (fun e => negb (in_info (str "error") e)) v)).
  { rewrite <- list_sum_indicator.
    apply (fold_res_count (fun a e => scan_entry label e a)
             (fun a => List.length (snd a))
             (fun e => if negb (in_info (str "error") e) then 1 else 0)%nat
             v) with (s := ([], [])) (r := v0); [|exact Hv0].
    intros s x s' _ Hs. apply scan_entry_adds_one in Hs.
    destruct (in_info (str "error") x); cbn [negb].
    - destruct Hs as [_ ->]. lia.
    - destruct Hs as [_ (t & ->)]. rewrite length_app. reflexivity. }
  pose proof (filter_negb_length (in_info (str "error")) v) as Hsum.
  repeat split.
  - exact Hn.
  - exact Hc.
  - rewrite Hn, Hc. lia.
  - rewrite length_firstn, sort_turns_length, Ht. reflexivity.
  - apply (fold_res_invariant (fun a e => scan_entry label e a)
             (fun a => Forall (fun c => ce_config_label c = label) (fst a)) v)
      with (s := ([], [])) (r := v0); [| constructor | exact Hv0].
    intros s x s' _ Hs Hstep. apply scan_entry_adds_one in Hstep.
    destruct (in_info (str "error") x).
    + destruct Hstep as [(c & -> & Hl) _]. apply Forall_app. split; auto.
    + destruct Hstep as [-> _]. exact Hs.
Qed.

Lemma scan_entry_record (label : pystr) (e : json)
  (acc acc' : list crash_entry * list traj_length) :
  scan_entry label e acc = Ok acc' ->
  in_info (str "error") e = false ->
  exists t, traj_record e = Ok t /\ snd acc' = snd acc ++ [t].
Proof.
  unfold scan_entry, in_info, traj_record. intros H.
  bind_inv H. bind_inv H. bind_inv H. bind_inv H. bind_inv H. bind_inv H.
  rewrite Hv, Hv4, Hv0, Hv1, Hv2, Hv3. cbn [rbind]. intros ->.
  bind_inv H. rewrite Hv5. apply Ok_inj in H. subst acc'. cbn [rbind snd].
  eauto.
Qed.

(** The records of [traj_lengths] after the loop of [scan_file] are
    those of the entries without [info.error]. *)
Lemma scan_loop_records (label : pystr) (l : list json) :
  forall s r,
    fold_left (fun a e => (x <- a ;; scan_entry label e x)%res) l (Ok s) = Ok r ->
    (forall t, In t (snd r) ->
       In t (snd s)
       \/ exists e, In e l /\ in_info (str "error") e = false
                    /\ traj_record e = Ok t)
    /\ (forall t, In t (snd s) -> In t (snd r))
    /\ (forall e t, In e l -> in_info (str "error") e = false ->
          traj_record e = Ok t -> In t (snd r)).
Proof.
  induction l as [|x l IH]; intros s r H.
  - apply Ok_inj in H. subst r. repeat split; auto. intros e t [].
  - cbn [fold_left rbind] in H.
    destruct (scan_entry label x s) as [s'|err] eqn:E;
      [|rewrite fold_res_Raise in H; discriminate].
    destruct (IH _ _ H) as (IH1 & IH2 & IH3).
    pose proof (scan_entry_adds_one _ _ _ E) as Hone.
    destruct (in_info (str "error") x) eqn:Hx.
    + destruct Hone as [_ Hs]. rewrite Hs in *. repeat split.
      * intros t Ht. destruct (IH1 t Ht) as [? | (e & He & Hk & Hr)]; auto.
        right. exists e. repeat split; auto. now right.
      * auto.
      * intros e t [<- | He] Hk Hr; [congruence | eauto].
    + destruct (scan_entry_record _ _ _ E Hx) as (t0 & Hr0 & Hs).
      rewrite Hs in *. repeat split.
      * intros t Ht. destruct (IH1 t Ht) as [Hin | (e & He & Hk & Hr)].
        -- apply in_app_or in Hin as [Hin | [<- | []]]; auto.
           right. exists x. repeat split; auto. now left.
        -- right. exists e. repeat split; auto. now right.
      * intros t Ht. apply IH2, in_or_app. now left.
      * intros e t [<- | He] Hk Hr; [|eauto].
        apply IH2, in_or_app. right. left. congruence.
Qed.

Lemma insert_turns_In (x : traj_length) (l : list traj_length) (y : traj_length) :
  In y (insert_turns x l) <-> y = x \/ In y l.
Proof.
  induction l as [|z l IH]; cbn [insert_turns].
  - cbn. intuition.
  - destruct (tl_turns z <? tl_turns x)%nat; cbn [In]; [intuition|].
    rewrite IH. intuition.
Qed.

Lemma insert_turns_sorted (x : traj_length) (l : list traj_length) :
  StronglySorted more_turns l -> StronglySorted more_turns (insert_turns x l).
Proof.
  induction 1 as [|z l Hs IH Hz]; cbn [insert_turns].
  - repeat constructor.
  - destruct (tl_turns z <? tl_turns x)%nat eqn:Hlt.
    + apply Nat.ltb_lt in Hlt. constructor; [now constructor|].
      constructor; [unfold more_turns; lia|].
      rewrite Forall_forall in *. intros y Hy. specialize (Hz y Hy).
      unfold more_turns in *. lia.
    + apply Nat.ltb_ge in Hlt. constructor; [exact IH|].
      rewrite Forall_forall in *. intros y Hy.
      apply insert_turns_In in Hy as [-> | Hy]; [exact Hlt | auto].
Qed.

Lemma sort_turns_spec (l : list traj_length) :
  StronglySorted more_turns (sort_turns l)
  /\ forall y, In y (sort_turns l) <-> In y l.
Proof.
  unfold sort_turns.
  assert (G : forall acc,
             StronglySorted more_turns acc ->
             StronglySorted more_turns
               (fold_left (fun a x => insert_turns x a) l acc)
             /\ forall y, In y (fold_left (fun a x => insert_turns x a) l acc)
                          <-> In y acc \/ In y l).
  { induction l as [|x l IH]; intros acc Hacc; cbn [fold_left].
    - split; [exact Hacc|]. cbn. intuition.
    - destruct (IH _ (insert_turns_sorted x Hacc)) as [Hs Hin].
      split; [exact Hs|]. intros y. rewrite Hin, insert_turns_In. cbn. intuition. }
  destruct (G [] (SSorted_nil _)) as [Hs Hin]. split; [exact Hs|].
  intros y. rewrite Hin. cbn. intuition.
Qed.

Lemma StronglySorted_app_inv {A} (R : A -> A -> Prop) (a b : list A) :
  StronglySorted R (a ++ b) ->
  StronglySorted R a /\ forall x y, In x a -> In y b -> R x y.
Proof.
  induction a as [|z a IH]; cbn [app]; intros H.
  - split; [constructor | intros x y []].
  - inversion H as [|? ? Hs Hz]; subst. destruct (IH Hs) as [Ha Hab].
    rewrite Forall_forall in Hz. split.
    + constructor; [exact Ha|]. rewrite Forall_forall. intros y Hy.
      apply Hz, in_or_app. now left.
    + intros x y [<- | Hx] Hy; [|auto]. apply Hz, in_or_app. now right.
Qed.

(** X2.  [longest_trajs] of [scan_file] has at most 10 records, in
    descending order of turns; each is the record of an entry whose
    [info] does not hold [error]; and every such entry that is left out
    has no more turns than each record that is listed. *)
Theorem scan_file_longest_conversations (data : json) (label : pystr)
  (r : scan_result) (entries : list json) :
  scan_file data label = Ok r ->
  py_iter data = Ok entries ->
  (List.length (longest_trajs r) <= 10)%nat
  /\ StronglySorted more_turns (longest_trajs r)
  /\ (forall t, In t (longest_trajs r) ->
        exists e, In e entries /\ in_info (str "error") e = false
                  /\ traj_record e = Ok t)
  /\ (forall e t, In e entries -> in_info (str "error") e = false ->
        traj_record e = Ok t ->
        In t (longest_trajs r)
        \/ forall x, In x (longest_trajs r) -> more_turns x t).
Proof.
  unfold scan_file. intros H Hit. rewrite Hit in H. cbn [rbind] in H.
  bind_inv H. bind_inv H. apply Ok_inj in H. subst r. cbn [longest_trajs].
  destruct (scan_loop_records _ _ _ Hv) as (H1 & _ & H3).
  destruct (sort_turns_spec (snd v)) as [Hs Hin].
  rewrite <- (firstn_skipn 10 (sort_turns (snd v))) in Hs.
  apply StronglySorted_app_inv in Hs as [Hs Hcut].
  repeat split.
  - rewrite length_firstn. lia.
  - exact Hs.
  - intros t Ht. apply firstn_In, Hin in Ht.
    destruct (H1 t Ht) as [[] | He]. exact He.
  - intros e t He Hk Hr. pose proof (H3 e t He Hk Hr) as Ht.
    apply Hin in Ht. rewrite <- (firstn_skipn 10 (sort_turns (snd v))) in Ht.
    apply in_app_or in Ht as [Ht | Ht]; [now left | right].
    intros x Hx. now apply Hcut.
Qed.

Lemma scan_file_accounts_for_every_entry_witness :
  exists r,
    scan_file (example_file (example_message (str "user") (str "hello")) [])
      (str "cfg") = Ok r
    /\ total_entries r = 3%nat
    /\ List.length (crashes r) = 1%nat
    /\ normal_entries r = 2.
Proof.
  destruct (scan_file (example_file (example_message (str "user") (str "hello")) [])
              (str "cfg")) as [r|e] eqn:E;
    [|vm_compute in E; discriminate E].
  exists r. split; [reflexivity|].
  destruct (scan_file_accounts_for_every_entry _ _ E)
    as (entries & Hit & Ht & Hc & Hn & _).
  apply Ok_inj in Hit. subst entries.
  rewrite Ht, Hc, Hn. repeat split.
Defined.

Lemma scan_file_longest_conversations_witness :
  exists r,
    scan_file (example_file (example_message (str "user") (str "hello")) [])
      (str "cfg") = Ok r
    /\ (List.length (longest_trajs r) <= 10)%nat
    /\ StronglySorted more_turns (longest_trajs r).
Proof.
  destruct (scan_file (example_file (example_message (str "user") (str "hello")) [])
              (str "cfg")) as [r|e] eqn:E;
    [|vm_compute in E; discriminate E].
  exists r. split; [reflexivity|].
  destruct (@scan_file_longest_conversations _ _ _
              [example_entry1 (example_message (str "user") (str "hello")) [];
               example_entry2 (example_message (str "user") (str "hello")) [];
               example_entry3] E eq_refl)
    as (Hlen & Hs & _).
  split; assumption.
Defined.

Lemma In_occurs (c : char) (s : pystr) : In c s <-> occurs [c] s.
Proof.
  split.
  - intros H. apply in_split in H as (a & b & ->). now exists a, b.
  - intros (a & b & ->). apply in_or_app. right. now left.
Qed.

(** The first line of a text: a prefix without a newline that the end of
    the text or a newline follows. *)
Lemma split_head_newline (s : pystr) :
  ~ In newline (split_head s [newline])
  /\ exists rest, s = split_head s [newline] ++ rest
                  /\ (rest = [] \/ startswith rest [newline] = true).
Proof.
  unfold split_head. destruct (find s [newline]) as [i|] eqn:E.
  - destruct (find_Some _ _ E) as ([b Hb] & Hlen & Hmin). split.
    + intros Hin. apply in_split in Hin as (a & b' & Hab).
      assert (Hs : s = a ++ [newline] ++ (b' ++ [newline] ++ b)).
      { rewrite Hb at 1. rewrite Hab, <- app_assoc. reflexivity. }
      apply Hmin in Hs. rewrite Hab, length_app in Hlen.
      cbn [List.length] in Hlen. lia.
    + exists ([newline] ++ b). split; [exact Hb | right; reflexivity].
  - split.
    + intros Hin. apply In_occurs in Hin. now apply find_None in E.
    + exists []. split; [now rewrite app_nil_r | now left].
Qed.

(** X3.  When [classify_crash] answers [other], the message holds
    neither [ContextWindowExceeded] nor [Timeout], and [error_short] is
    the first line of the message cut at 120 characters: a prefix of the
    message of at most 120 characters without a newline, which is
    followed by the end of the message or by a newline unless it is
    exactly 120 characters long. *)
Theorem classify_crash_other_is_first_line (error_msg : pystr) (c : crash) :
  classify_crash error_msg = Ok c ->
  crash_type c = str "other" ->
  (contains error_msg (str "ContextWindowExceeded") = false
   /\ contains error_msg (str "Timeout") = false)
  /\ (List.length (error_short c) <= 120)%nat
  /\ ~ In newline (error_short c)
  /\ exists rest,
       error_msg = error_short c ++ rest
       /\ (rest = []
           \/ startswith rest [newline] = true
           \/ List.length (error_short c) = 120%nat).
Proof.
  unfold classify_crash.
  destruct (contains error_msg (str "ContextWindowExceeded")) eqn:Hcw.
  { intros H. destruct (int_of_match _) as [u|]; [|discriminate H].
    cbn [rbind] in H. destruct (int_of_match _) as [l|]; [|discriminate H].
    cbn [rbind] in H. apply Ok_inj in H. subst c.
    cbn [crash_type]. intros H. discriminate H. }
  destruct (contains error_msg (str "Timeout")) eqn:Hto.
  { cbn [orb]. intros H. apply Ok_inj in H. subst c.
    cbn [crash_type]. intros H. discriminate H. }
  cbn [orb].
  destruct (contains error_msg (str "APITimeout")) eqn:Hat.
  { intros H. apply Ok_inj in H. subst c.
    cbn [crash_type]. intros H. discriminate H. }
  intros H. apply Ok_inj in H. subst c.
  cbn [crash_type error_short]. intros _.
  destruct (split_head_newline error_msg) as (Hnl & rest & Hs & Hrest).
  unfold newline in *. unfold slice_to. split; [auto|]. split; [rewrite length_firstn; apply Nat.le_min_l|].
  split; [intros Hin; apply Hnl; eapply firstn_In; exact Hin|].
  exists (skipn 120 (split_head error_msg [newline]) ++ rest). split.
  - rewrite app_assoc, firstn_skipn. exact Hs.
  - destruct (Nat.le_gt_cases (List.length (split_head error_msg [newline])) 120)
      as [Hle | Hgt].
    + rewrite (skipn_all2 _ Hle). cbn [app]. destruct Hrest; auto.
    + right. right. rewrite length_firstn. apply Nat.min_l.
      apply Nat.lt_le_incl. exact Hgt.
Qed.

Lemma classify_crash_other_is_first_line_witness :
  classify_crash ([newline] ++ str "KeyError: 'reservation_id'")
  = Ok {| crash_type := str "other";
          tokens_used := None;
          token_limit := None;
          error_short := [] |}
  /\ ~ In newline [].
Proof.
  split; [reflexivity|].
  exact (proj1 (proj2 (proj2
    (@classify_crash_other_is_first_line
       ([newline] ++ str "KeyError: 'reservation_id'")
       {| crash_type := str "other";
          tokens_used := None;
          token_limit := None;
          error_short := [] |} eq_refl eq_refl)))).
Defined.

(** ** Decimal numerals *)

Lemma int_of_digits_uint_acc (u : Decimal.uint) (acc : positive) :
  fold_left digits_step (str (NilEmpty.string_of_uint u)) (Z.pos acc)
  = Z.pos (Pos.of_uint_acc u acc).
Proof.
  revert acc. induction u; intros acc; cbn [NilEmpty.string_of_uint Pos.of_uint_acc];
    [reflexivity | ..];
    unfold str in *; cbn [list_ascii_of_string map fold_left];
    rewrite <- IHu; f_equal;
    unfold digits_step, digit_val; simpl Z.of_N; lia.
Qed.

Lemma int_of_digits_uint (u : Decimal.uint) :
  int_of_digits (str (NilEmpty.string_of_uint u)) = Z.of_N (Pos.of_uint u).
Proof.
  unfold int_of_digits.
  change (fun acc c => 10 * acc + digit_val c) with digits_step.
  induction u; cbn [NilEmpty.string_of_uint Pos.of_uint];
    [reflexivity | ..];
    unfold str in *; cbn [list_ascii_of_string map fold_left];
    [exact IHu | ..];
    cbn [Z.of_N]; rewrite <- int_of_digits_uint_acc; reflexivity.
Qed.

Lemma uint_digits (u : Decimal.uint) :
  forallb isdigit (str (NilEmpty.string_of_uint u)) = true.
Proof.
  induction u; cbn [NilEmpty.string_of_uint]; [reflexivity | ..];
    unfold str in *; cbn [list_ascii_of_string map forallb];
    rewrite IHu; reflexivity.
Qed.

(** [int(str(n)) == n], and [str(n)] is a run of digits that is not
    empty, for [n >= 0]. *)
Lemma int_of_digits_str_of_int (n : Z) :
  0 <= n ->
  int_of_digits (str_of_int n) = n
  /\ forallb isdigit (str_of_int n) = true
  /\ str_of_int n <> [].
Proof.
  intros Hn. unfold str_of_int. destruct n as [|p|p]; [| |lia].
  - repeat split. discriminate.
  - cbn [Z.to_int NilEmpty.string_of_int].
    rewrite int_of_digits_uint, Unsigned.of_to, uint_digits.
    repeat split. intros E.
    pose proof (int_of_digits_uint (Pos.to_uint p)) as H.
    rewrite E, Unsigned.of_to in H. discriminate H.
Qed.

(** ** The token counts of a context window error *)

(** X4.  For a [ContextWindowExceeded] message in which the first [your
    request has ] is followed by the decimal [n] and [ input tokens],
    and the first [maximum context length is ] by the decimal [m] and [
    tokens], where neither decimal has more than 4300 digits, the limit
    of [int] on a text, [classify_crash] returns with [tokens_used = n]
    and [token_limit = m]; [error_short] shows the two counts unless [n]
    is 0; and [save_json] writes the crash with [over_by = n - m]. *)
Theorem classify_crash_reads_token_counts
  (error_msg a1 b1 a2 b2 : pystr) (n m : Z) :
  0 <= n -> 0 <= m ->
  (List.length (str_of_int n) <= max_str_digits)%nat ->
  (List.length (str_of_int m) <= max_str_digits)%nat ->
  contains error_msg (str "ContextWindowExceeded") = true ->
  error_msg = a1 ++ str "your request has " ++ str_of_int n
                 ++ str " input tokens" ++ b1 ->
  find error_msg (str "your request has ") = Some (List.length a1) ->
  error_msg = a2 ++ str "maximum context length is " ++ str_of_int m
                 ++ str " tokens" ++ b2 ->
  find error_msg (str "maximum context length is ") = Some (List.length a2) ->
  exists c,
    classify_crash error_msg = Ok c
    /\ c = {| crash_type := str "context_window";
              tokens_used := Some n;
              token_limit := Some m;
              error_short :=
                if n =? 0 then str "Context window exceeded"
                else str "Context window exceeded (" ++ str_of_int n
                     ++ str "/" ++ str_of_int m ++ str " tokens)" |}
    /\ forall task_id trial label,
         save_json_crash {| ce_crash := c;
                            ce_task_id := task_id; ce_trial := trial;
                            ce_config_label := label |}
         = Ok (JObj [(str "config", JStr label);
                     (str "task_id", task_id);
                     (str "trial", trial);
                     (str "crash_type", JStr (str "context_window"));
                     (str "error_short",
                      JStr (if n =? 0 then str "Context window exceeded"
                            else str "Context window exceeded ("
                                 ++ str_of_int n ++ str "/" ++ str_of_int m
                                 ++ str " tokens)"));
                     (str "tokens_used", JInt n);
                     (str "token_limit", JInt m);
                     (str "over_by", JInt (n - m))]).
Proof.
  intros Hn Hm Ln Lm Hcw E1 F1 E2 F2.
  destruct (int_of_digits_str_of_int Hn) as (In & Dn & Nn).
  destruct (int_of_digits_str_of_int Hm) as (Im & Dm & Nm).
  assert (H1 : search_number (str "your request has ") (str " input tokens")
                 error_msg = Some (str_of_int n)).
  { rewrite E1 in F1 |- *.
    apply (@search_number_first _ _ _ b1 32%N (str "input tokens"));
      auto using forallb_isdigit_isdecimal. }
  assert (H2 : search_number (str "maximum context length is ") (str " tokens")
                 error_msg = Some (str_of_int m)).
  { rewrite E2 in F2 |- *.
    apply (@search_number_first _ _ _ b2 32%N (str "tokens"));
      auto using forallb_isdigit_isdecimal. }
  eexists. split; [|split; [reflexivity|]].
  - rewrite (classify_crash_context_window _ Hcw). rewrite H1, H2.
    cbn [too_long].
    replace (max_str_digits <? List.length (str_of_int n))%nat with false
      by (symmetry; apply Nat.ltb_ge; exact Ln).
    replace (max_str_digits <? List.length (str_of_int m))%nat with false
      by (symmetry; apply Nat.ltb_ge; exact Lm).
    cbn [orb option_map opt_int_truthy fmt_opt_int].
    rewrite !int_of_decimals_digits by assumption. rewrite In, Im.
    destruct (n =? 0); reflexivity.
  - intros task_id trial label. reflexivity.
Qed.

Lemma classify_crash_reads_token_counts_witness :
  exists c,
    classify_crash example_error = Ok c
    /\ tokens_used c = Some 9000
    /\ token_limit c = Some 8192.
Proof.
  destruct (@classify_crash_reads_token_counts example_error
              (str "ContextWindowExceeded: ")
              (str ", maximum context length is 8192 tokens")
              (str "ContextWindowExceeded: your request has 9000 input tokens, ")
              [] 9000 8192) as (c & Hc & -> & _);
    try lia; try (vm_compute; reflexivity);
    try (apply Nat.leb_le; vm_compute; reflexivity).
  eexists. split; [exact Hc|]. split; reflexivity.
Defined.

(** ** The crash entries of [save_json] *)

Lemma rmap_length {A B} (f : A -> res B) (l : list A) (ys : list B) :
  rmap f l = Ok ys ->
  List.length ys = List.length l /\ forall x, In x l -> exists y, f x = Ok y.
Proof.
  revert ys. induction l as [|x l IH]; intros ys H.
  - apply Ok_inj in H. subst ys. split; [reflexivity | intros x []].
  - cbn [rmap] in H. destruct (f x) as [y|] eqn:Hfx; [|discriminate].
    destruct (rmap f l) as [bs|]; [|discriminate].
    apply Ok_inj in H. subst ys. destruct (IH _ eq_refl) as [Hlen Hall].
    split; [cbn; now rewrite Hlen|].
    intros x' [<- | Hin]; eauto.
Qed.

Lemma rmap_Raise {A B} (f : A -> res B) (l : list A) (e : exn) :
  rmap f l = Raise e -> exists x, In x l /\ f x = Raise e.
Proof.
  induction l as [|x l IH]; intros H; [discriminate|].
  cbn [rmap] in H. destruct (f x) as [y|e'] eqn:Hfx.
  - destruct (rmap f l) as [bs|e'']; [discriminate|].
    injection H as ->. destruct (IH eq_refl) as (x' & Hin & Hx').
    exists x'. split; [now right | exact Hx'].
  - injection H as ->. exists x. split; [now left | exact Hfx].
Qed.

Lemma save_json_crash_raises (c : crash_entry) :
  match save_json_crash c with
  | Ok _ => tokens_used (ce_crash c) = None \/ token_limit (ce_crash c) <> None
  | Raise e => e = Exn TypeError []
               /\ tokens_used (ce_crash c) <> None
               /\ token_limit (ce_crash c) = None
  end.
Proof.
  unfold save_json_crash.
  destruct (tokens_used (ce_crash c)); [|now left].
  destruct (token_limit (ce_crash c)).
  - right. discriminate.
  - repeat split. discriminate.
Qed.

(** X5.  The crash list of [save_json] has one entry per crash of the
    scanned files, and building it raises [TypeError] exactly when some
    crash has [tokens_used] but no [token_limit].  For a crash that
    [classify_crash] returns, this is exactly a [ContextWindowExceeded]
    message in which the pattern of the request size matches and the
    pattern of the limit does not; the digits of the two patterns are
    the decimal digits of any script, as [\d] takes them. *)
Theorem save_json_needs_both_token_counts :
  (forall all_results : list scan_result,
      match save_json_crashes all_results with
      | Ok l =>
          List.length l = List.length (flat_map crashes all_results)
          /\ forall c, In c (flat_map crashes all_results) ->
               tokens_used (ce_crash c) = None
               \/ token_limit (ce_crash c) <> None
      | Raise e =>
          e = Exn TypeError []
          /\ exists c, In c (flat_map crashes all_results)
                       /\ tokens_used (ce_crash c) <> None
                       /\ token_limit (ce_crash c) = None
      end)
  /\ forall (error_msg : pystr) (c : crash) (task_id trial : json)
       (label : pystr),
       classify_crash error_msg = Ok c ->
       (save_json_crash {| ce_crash := c;
                           ce_task_id := task_id; ce_trial := trial;
                           ce_config_label := label |}
        = Raise (Exn TypeError [])
        <-> contains error_msg (str "ContextWindowExceeded") = true
            /\ search_number (str "your request has ") (str " input tokens")
                 error_msg <> None
            /\ search_number (str "maximum context length is ")
                 (str " tokens") error_msg = None).
Proof.
  split.
  - intros all_results. unfold save_json_crashes.
    destruct (rmap save_json_crash (flat_map crashes all_results))
      as [l|e] eqn:E.
    + destruct (rmap_length _ _ E) as [Hlen Hall]. split; [exact Hlen|].
      intros c Hc. destruct (Hall c Hc) as [y Hy].
      pose proof (save_json_crash_raises c) as H. now rewrite Hy in H.
    + destruct (rmap_Raise _ _ E) as (c & Hin & Hc).
      pose proof (save_json_crash_raises c) as H. rewrite Hc in H.
      destruct H as (-> & Hu & Hl). split; [reflexivity|]. eauto.
  - intros error_msg c task_id trial label Hc.
    destruct (contains error_msg (str "ContextWindowExceeded")) eqn:Hcw.
    + rewrite (classify_crash_context_window _ Hcw) in Hc.
      destruct (too_long _ || too_long _); [discriminate Hc|].
      apply Ok_inj in Hc. subst c.
      unfold save_json_crash. cbn [ce_crash tokens_used token_limit].
      destruct (search_number (str "your request has ") (str " input tokens")
                  error_msg);
        destruct (search_number (str "maximum context length is ")
                    (str " tokens") error_msg);
        cbn [option_map]; split; intros H;
        try discriminate H; try (repeat split; congruence);
        try (destruct H as (_ & H1 & H2); congruence).
    + unfold classify_crash in Hc. rewrite Hcw in Hc.
      destruct (contains error_msg (str "Timeout")
                || contains error_msg (str "APITimeout"));
        apply Ok_inj in Hc; subst c; unfold save_json_crash;
        cbn [ce_crash tokens_used]; split; intros H; try discriminate H;
        destruct H as (H & _); discriminate H.
Qed.

(* ================================================================== *)
(** * Properties of the configuration of a path *)
(* ================================================================== *)

Lemma digit_prefixes_digits (s : pystr) (dr : pystr * pystr) :
  In dr (digit_prefixes s) ->
  fst dr <> [] /\ forallb isdecimal (fst dr) = true.
Proof.
  revert dr. induction s as [|c s IH]; intros dr H; [destruct H|].
  cbn [digit_prefixes] in H. destruct (isdecimal c) eqn:Hc; [|destruct H].
  apply in_app_or in H as [H | [<- | []]].
  - apply in_map_iff in H as (dr' & <- & Hin). destruct (IH _ Hin) as [_ Hd].
    simpl. split; [discriminate|]. apply andb_true_iff. split; assumption.
  - cbn [fst forallb]. rewrite Hc. split; [discriminate | reflexivity].
Qed.

Lemma match_number_at_digits (pre post s d : pystr) :
  match_number_at pre post s = Some d ->
  d <> [] /\ forallb isdecimal d = true.
Proof.
  unfold match_number_at, match_digits_then.
  destruct (startswith s pre); [|discriminate].
  destruct (List.find _ _) as [dr|] eqn:E; [|discriminate].
  intros H. injection H as <-. apply find_some in E as [Hin _].
  now apply digit_prefixes_digits in Hin.
Qed.

(** No decimal digit is a lower case letter of ASCII. *)
Lemma isdecimal_not_lower (c : char) :
  isdecimal c = true -> ((97 <=? c) && (c <=? 122))%N = false.
Proof.
  intros Hc. destruct ((97 <=? c) && (c <=? 122))%N eqn:E; [|reflexivity].
  apply andb_true_iff in E as [H1 H2]. apply N.leb_le in H1, H2.
  assert (Hall : forallb (fun n => negb (isdecimal (N.of_nat n)))
                   (seq 97 26) = true) by (vm_compute; reflexivity).
  rewrite forallb_forall in Hall.
  specialize (Hall (N.to_nat c)). rewrite Nnat.N2Nat.id, Hc in Hall.
  discriminate Hall. apply in_seq. lia.
Qed.

Lemma ascii_upper_digits (d : pystr) :
  forallb isdecimal d = true -> ascii_upper (d ++ str "b") = d ++ str "B".
Proof.
  unfold ascii_upper. rewrite map_app. intros H. f_equal.
  induction d as [|c d IH]; [reflexivity|].
  cbn [forallb] in H. apply andb_true_iff in H as [Hc Hd].
  cbn [map]. rewrite (IH Hd). f_equal.
  now rewrite (isdecimal_not_lower _ Hc).
Qed.

Lemma search_leftmost_found (m : pystr -> option pystr) (s g : pystr) :
  search_leftmost m s = Some g -> exists t, m t = Some g.
Proof.
  induction s as [|c s IH]; cbn [search_leftmost].
  - destruct (m []) eqn:E; [|discriminate]. intros H. injection H as <-. eauto.
  - destruct (m (c :: s)) eqn:E; [intros H; injection H as <-; eauto | exact IH].
Qed.

Lemma parse_config_model_size (name parent : pystr) :
  model_size_shape (model_size (parse_config_from_path name parent)).
Proof.
  unfold parse_config_from_path. cbn [model_size].
  destruct (search_leftmost match_qwen_dash _) as [g|] eqn:E1.
  - apply search_leftmost_found in E1 as [t Ht]. unfold match_qwen_dash in Ht.
    destruct (match_number_at (str "qwen3-") (str "b") t) as [d|] eqn:E.
    + injection Ht as <-. destruct (match_number_at_digits _ _ _ E) as [Hd Hdig].
      right. exists d. now rewrite ascii_upper_digits.
    + destruct (match_number_at (str "qwen-") (str "b") t) as [d|] eqn:E';
        [|discriminate].
      injection Ht as <-. destruct (match_number_at_digits _ _ _ E') as [Hd Hdig].
      right. exists d. now rewrite ascii_upper_digits.
  - destruct (search_leftmost match_qwen_underscore _) as [g|] eqn:E2;
      [|now left].
    apply search_leftmost_found in E2 as [t Ht]. unfold match_qwen_underscore in Ht.
    destruct (match_number_at (str "qwen_") (str "b") t) as [d|] eqn:E;
      [|discriminate].
    injection Ht as <-. destruct (match_number_at_digits _ _ _ E) as [Hd Hdig].
    right. exists d. now rewrite ascii_upper_digits.
Qed.

Lemma model_size_no_underscore (m : pystr) :
  model_size_shape m -> ~ In 95%N m.
Proof.
  intros [-> | (d & _ & Hd & ->)] Hin.
  - vm_compute in Hin. intuition discriminate.
  - apply in_app_or in Hin as [Hin | Hin].
    + rewrite forallb_forall in Hd. specialize (Hd _ Hin). discriminate Hd.
    + vm_compute in Hin. intuition discriminate.
Qed.

Lemma split_first (c : char) (l1 r1 l2 r2 : pystr) :
  l1 ++ c :: r1 = l2 ++ c :: r2 -> ~ In c l1 -> ~ In c l2 ->
  l1 = l2 /\ r1 = r2.
Proof.
  revert l2. induction l1 as [|x l1 IH]; intros l2 H H1 H2.
  - destruct l2 as [|y l2].
    + cbn in H. injection H as ->. now split.
    + cbn in H. injection H as <- _. exfalso. apply H2. now left.
  - destruct l2 as [|y l2]; cbn in H; injection H as -> H.
    + exfalso. apply H1. now left.
    + destruct (IH l2 H) as [-> ->].
      * intros Hin. apply H1. now right.
      * intros Hin. apply H2. now right.
      * now split.
Qed.

Lemma parse_config_strategy (name parent : pystr) :
  In (strategy (parse_config_from_path name parent))
     [str "FC"; str "ReAct"; str "ACT"; str "unknown"].
Proof.
  unfold parse_config_from_path. cbn [strategy].
  destruct (_ || _); [now left|].
  destruct (contains _ (str "react")); [right; now left|].
  destruct (contains _ (str "act")); [right; right; now left|].
  right; right; right; now left.
Qed.

Lemma parse_config_domain (name parent : pystr) :
  In (domain (parse_config_from_path name parent))
     [str "airline"; str "retail"; str "unknown"].
Proof.
  unfold parse_config_from_path. cbn [domain].
  destruct (contains _ (str "airline")); [now left|].
  destruct (contains _ (str "retail")); [right; now left|].
  right; right; now left.
Qed.

Lemma parse_config_label (name parent : pystr) :
  config_label (parse_config_from_path name parent)
  = model_size (parse_config_from_path name parent) ++ str "_"
    ++ strategy (parse_config_from_path name parent) ++ str "_"
    ++ domain (parse_config_from_path name parent).
Proof. reflexivity. Qed.

(** X6.  Two paths to which [parse_config_from_path] gives the same
    [config_label] get the same model size, strategy and domain: the
    label can be read back, because no model size and no strategy holds
    an underscore. *)
Theorem parse_config_label_determines_config (name1 parent1 name2 parent2 : pystr) :
  config_label (parse_config_from_path name1 parent1)
  = config_label (parse_config_from_path name2 parent2) ->
  parse_config_from_path name1 parent1 = parse_config_from_path name2 parent2.
Proof.
  intros H.
  pose proof (parse_config_label name1 parent1) as L1.
  pose proof (parse_config_label name2 parent2) as L2.
  pose proof (model_size_no_underscore (parse_config_model_size name1 parent1)) as M1.
  pose proof (model_size_no_underscore (parse_config_model_size name2 parent2)) as M2.
  pose proof (parse_config_strategy name1 parent1) as S1.
  pose proof (parse_config_strategy name2 parent2) as S2.
  destruct (parse_config_from_path name1 parent1) as [m1 s1 d1 l1].
  destruct (parse_config_from_path name2 parent2) as [m2 s2 d2 l2].
  cbn [model_size strategy domain config_label] in *.
  rewrite L1, L2 in H. rewrite L1, L2. clear L1 L2.
  change (str "_") with [95%N] in H. cbn [app] in H.
  destruct (split_first _ _ _ _ _ H M1 M2) as [-> H'].
  assert (N1 : ~ In 95%N s1).
  { intros Hin. cbn [In] in S1.
    destruct S1 as [<- | [<- | [<- | [<- | []]]]]; vm_compute in Hin;
      intuition discriminate. }
  assert (N2 : ~ In 95%N s2).
  { intros Hin. cbn [In] in S2.
    destruct S2 as [<- | [<- | [<- | [<- | []]]]]; vm_compute in Hin;
      intuition discriminate. }
  destruct (split_first _ _ _ _ _ H' N1 N2) as [-> ->]. reflexivity.
Qed.

Lemma parse_config_label_determines_config_witness :
  parse_config_from_path (str "act-qwen3-14b-0.0_range_0--1_user-gpt-4o")
    (str "act_airline_trials5_qwen_14b")
  = parse_config_from_path (str "airline_act-qwen3-14b")
      (str "json_trajectories").
Proof.
  apply parse_config_label_determines_config. vm_compute. reflexivity.
Defined.

(** X7.  For every path, [parse_config_from_path] gives a model size
    that is [unknown] or a run of decimal digits, of any script as [\d]
    takes them, followed by [B]; a strategy among [FC], [ReAct], [ACT]
    and [unknown]; and a domain among [airline], [retail] and [unknown].
    A path that mentions [react] is never labelled [ACT], and the
    strategy is [unknown] only when [act] does not occur. *)
Theorem parse_config_closed_vocabulary (name parent : pystr) :
  model_size_shape (model_size (parse_config_from_path name parent))
  /\ In (strategy (parse_config_from_path name parent))
        [str "FC"; str "ReAct"; str "ACT"; str "unknown"]
  /\ In (domain (parse_config_from_path name parent))
        [str "airline"; str "retail"; str "unknown"]
  /\ (contains (parent ++ str " " ++ name) (str "react") = true ->
      strategy (parse_config_from_path name parent) <> str "ACT")
  /\ (strategy (parse_config_from_path name parent) = str "unknown" ->
      contains (parent ++ str " " ++ name) (str "act") = false).
Proof.
  split; [apply parse_config_model_size|].
  split; [apply parse_config_strategy|].
  split; [apply parse_config_domain|].
  unfold parse_config_from_path. cbn [strategy].
  destruct (_ || _).
  - split; [discriminate | intros H; discriminate H].
  - destruct (contains _ (str "react")).
    + split; [discriminate | intros H; discriminate H].
    + split; [intros H; discriminate H|].
      destruct (contains _ (str "act")); [intros H; discriminate H | reflexivity].
Qed.

(* ================================================================== *)
(** * More on the parsing of a response *)
(* ================================================================== *)

(** The exceptions of the decoder: a text that is not JSON, an integer
    of too many digits, a nesting that is too deep. *)
Lemma parse_number_raises (s : pystr) (e : exn) :
  parse_number s = Raise e -> decoder_error e.
Proof.
  unfold parse_number, decoder_error. cbv zeta.
  destruct (int_part _) as [[i s2]|]; [|intros H; injection H as <-; auto].
  destruct (frac_part s2) as [[f s3]|];
    destruct (exp_part _) as [[x s4]|]; try discriminate.
  destruct (max_str_digits <? List.length i)%nat; [|discriminate].
  intros H. injection H as <-. auto.
Qed.

Lemma parse_scalar_raises (s : pystr) (e : exn) :
  parse_scalar s = Raise e -> decoder_error e.
Proof.
  unfold parse_scalar.
  repeat match goal with
         | |- (if ?b then _ else _) = _ -> _ => destruct b; [discriminate|]
         end.
  apply parse_number_raises.
Qed.

Lemma parse_string_raises (s : pystr) (e : exn) :
  parse_string s = Raise e -> decoder_error e.
Proof.
  unfold parse_string, decoder_error.
  destruct (parse_string_body _ _); [discriminate|].
  intros H. injection H as <-. auto.
Qed.

Lemma parse_raises (n : nat) :
  (forall d s e, parse_value n d s = Raise e -> decoder_error e)
  /\ (forall d s acc e, parse_members n d s acc = Raise e -> decoder_error e)
  /\ (forall d s e, parse_elements n d s = Raise e -> decoder_error e).
Proof.
  assert (Hsyn : decoder_error (Exn JSONDecodeError [])) by (left; reflexivity).
  assert (Hrec : decoder_error (Exn RecursionError []))
    by (right; right; reflexivity).
  induction n as [|n (IHv & IHm & IHe)].
  { repeat split; intros; cbn in *;
      match goal with H : raise_cls _ = Raise _ |- _ =>
        injection H as <-; exact Hsyn end. }
  split; [|split].
  - intros d s e. cbn [parse_value].
    destruct (startswith s [34%N]).
    { destruct (parse_string s) as [[t r]|e'] eqn:Es; [discriminate|].
      cbn [rbind]. intros H. injection H as <-.
      exact (parse_string_raises _ Es). }
    destruct (startswith s [123%N]).
    { destruct d as [|d]; [intros H; injection H as <-; exact Hrec|].
      cbv zeta. destruct (startswith _ [125%N]); [discriminate|].
      destruct (parse_members n d _ []) as [[o r]|e'] eqn:Em; [discriminate|].
      cbn [rbind]. intros H. injection H as <-. exact (IHm _ _ _ _ Em). }
    destruct (startswith s [91%N]).
    { destruct d as [|d]; [intros H; injection H as <-; exact Hrec|].
      cbv zeta. destruct (startswith _ [93%N]); [discriminate|].
      destruct (parse_elements n d _) as [[l r]|e'] eqn:Em; [discriminate|].
      cbn [rbind]. intros H. injection H as <-. exact (IHe _ _ _ Em). }
    apply parse_scalar_raises.
  - intros d s acc e. cbn [parse_members].
    destruct (startswith s [34%N]);
      [|intros H; injection H as <-; exact Hsyn].
    destruct (parse_string s) as [[k s2]|e'] eqn:Es.
    + cbn [rbind fst snd]. cbv zeta.
      destruct (startswith (skip_ws s2) [58%N]);
        [|intros H; injection H as <-; exact Hsyn].
      destruct (parse_value n d _) as [[v s4]|e'] eqn:Ev.
      * cbn [rbind fst snd].
        destruct (startswith (skip_ws s4) [125%N]); [discriminate|].
        destruct (startswith (skip_ws s4) [44%N]);
          [apply IHm | intros H; injection H as <-; exact Hsyn].
      * cbn [rbind]. intros H. injection H as <-. exact (IHv _ _ _ Ev).
    + cbn [rbind]. intros H. injection H as <-.
      exact (parse_string_raises _ Es).
  - intros d s e. cbn [parse_elements].
    destruct (parse_value n d s) as [[v s1]|e'] eqn:Ev.
    + cbn [rbind fst snd]. cbv zeta.
      destruct (startswith (skip_ws s1) [93%N]); [discriminate|].
      destruct (startswith (skip_ws s1) [44%N]);
        [|intros H; injection H as <-; exact Hsyn].
      destruct (parse_elements n d _) as [[l r]|e''] eqn:Ee; [discriminate|].
      cbn [rbind]. intros H. injection H as <-. exact (IHe _ _ _ Ee).
    + cbn [rbind]. intros H. injection H as <-. exact (IHv _ _ _ Ev).
Qed.

Lemma json_parse_raises (d : nat) (s : pystr) (e : exn) :
  json_parse d s = Raise e -> decoder_error e.
Proof.
  unfold json_parse.
  destruct (parse_value _ d _) as [[v r]|e'] eqn:E.
  - cbn [rbind fst snd]. destruct (skip_ws r); [discriminate|].
    intros H. injection H as <-. left. reflexivity.
  - cbn [rbind]. intros H. injection H as <-.
    exact (proj1 (parse_raises _) _ _ _ E).
Qed.

Section ParseOutcomes.
Context {R : Runtime}.

(** What [loads_or_pass] raises is an error of the decoder other than
    [JSONDecodeError], on its text. *)
Lemma loads_or_pass_raises (g : pystr) (e : exn) :
  loads_or_pass g = Raise e ->
  json_parse json_depth g = Raise e
  /\ (e = Exn ValueError [] \/ e = Exn RecursionError []).
Proof.
  unfold loads_or_pass.
  destruct (json_parse json_depth g) as [v|e'] eqn:E; [discriminate|].
  destruct (json_parse_raises _ _ E) as [-> | [-> | ->]];
    cbn [exn_cls]; intros H; try discriminate H;
    injection H as <-; auto.
Qed.

Lemma loads_or_pass_brace (g : pystr) (v : json) :
  loads_or_pass (lbrace :: g) = Ok (Some v) -> exists o, v = JObj o.
Proof.
  unfold loads_or_pass.
  destruct (json_parse json_depth (lbrace :: g)) as [v'|e] eqn:E.
  - intros H. injection H as <-. exact (json_parse_brace _ _ E).
  - destruct (exn_cls e); discriminate.
Qed.

(** What the strategies 2 and 3 and the last resort return is a dict,
    and what they raise is an error of the decoder on a part of the
    text. *)
Lemma parse_fallback_cases (text : pystr) :
  match parse_fallback text with
  | Ok v => exists o, v = JObj o
  | Raise e =>
      (e = Exn ValueError [] \/ e = Exn RecursionError [])
      /\ exists g, occurs g text /\ json_parse json_depth g = Raise e
  end.
Proof.
  unfold parse_fallback, parse_strategy2, parse_strategy3.
  assert (H3 : match (r3 <- match search_object text with
                            | Some g => loads_or_pass g
                            | None => Ok None
                            end ;;
                      match r3 with
                      | Some v => Ok v
                      | None => Ok (parse_error_verdict text)
                      end)%res with
               | Ok v => exists o, v = JObj o
               | Raise e =>
                   (e = Exn ValueError [] \/ e = Exn RecursionError [])
                   /\ exists g, occurs g text
                                /\ json_parse json_depth g = Raise e
               end).
  { destruct (search_object text) as [h|] eqn:E3;
      [|cbn [rbind]; unfold parse_error_verdict; eauto].
    apply search_object_occurs in E3 as [Ho [h' ->]].
    destruct (loads_or_pass (lbrace :: h')) as [[v|]|e] eqn:E; cbn [rbind].
    - exact (loads_or_pass_brace _ E).
    - unfold parse_error_verdict. eauto.
    - destruct (loads_or_pass_raises _ E) as [Hp He]. eauto. }
  destruct (search_fence text) as [g|] eqn:E2; cbn [rbind]; [|exact H3].
  apply search_fence_occurs in E2 as [Ho [g' ->]].
  destruct (loads_or_pass (lbrace :: g')) as [[v|]|e] eqn:E; cbn [rbind].
  - exact (loads_or_pass_brace _ E).
  - exact H3.
  - destruct (loads_or_pass_raises _ E) as [Hp He]. eauto.
Qed.

Lemma parse_response_cases (response : json) :
  match parse_response response with
  | Ok v =>
      exists raw, response = JStr raw
      /\ ((exists o, v = JObj o)
          \/ (json_parse json_depth (strip raw) = Ok v
              /\ ((exists s, v = JStr s
                             /\ occurs (str "primary_category") s)
                  \/ (exists l, v = JArr l
                                /\ In (JStr (str "primary_category")) l))))
  | Raise e =>
      (e = Exn AttributeError [] /\ forall raw, response <> JStr raw)
      \/ (e = Exn TypeError []
          /\ exists raw v, response = JStr raw
                           /\ json_parse json_depth (strip raw) = Ok v
                           /\ json_scalar v = true)
      \/ ((e = Exn ValueError [] \/ e = Exn RecursionError [])
          /\ exists raw g, response = JStr raw
                           /\ occurs g (strip raw)
                           /\ json_parse json_depth g = Raise e)
  end.
Proof.
  destruct response as [| | | | |raw| |];
    try (cbn; left; split; [reflexivity | intros raw; discriminate]).
  unfold parse_response. cbn [as_str rbind].
  assert (Hfb : match parse_fallback (strip raw) with
                | Ok v =>
                    exists raw0, JStr raw = JStr raw0
                    /\ ((exists o, v = JObj o)
                        \/ (json_parse json_depth (strip raw0) = Ok v
                            /\ ((exists s, v = JStr s
                                 /\ occurs (str "primary_category") s)
                                \/ (exists l, v = JArr l
                                    /\ In (JStr (str "primary_category")) l))))
                | Raise e =>
                    (e = Exn AttributeError []
                     /\ forall raw0, JStr raw <> JStr raw0)
                    \/ (e = Exn TypeError []
                        /\ exists raw0 v, JStr raw = JStr raw0
                           /\ json_parse json_depth (strip raw0) = Ok v
                           /\ json_scalar v = true)
                    \/ ((e = Exn ValueError [] \/ e = Exn RecursionError [])
                        /\ exists raw0 g, JStr raw = JStr raw0
                           /\ occurs g (strip raw0)
                           /\ json_parse json_depth g = Raise e)
                end).
  { pose proof (parse_fallback_cases (strip raw)) as C.
    destruct (parse_fallback (strip raw)) as [v|e].
    - exists raw. split; [reflexivity | now left].
    - destruct C as (He & g & Ho & Hg). right. right.
      split; [exact He|]. now exists raw, g. }
  destruct (loads_or_pass (strip raw)) as [[result|]|e] eqn:E; cbn [rbind].
  - assert (Ep : json_parse json_depth (strip raw) = Ok result).
    { unfold loads_or_pass in E.
      destruct (json_parse json_depth (strip raw)) as [v|e];
        [now injection E as -> | destruct (exn_cls e); discriminate]. }
    destruct result as [| | | | |s|l|o]; cbn [py_in rbind];
      try (right; left; split; [reflexivity|]; exists raw; eexists;
           repeat split; [exact Ep | reflexivity]).
    + destruct (contains s (str "primary_category")) eqn:Hc; [|exact Hfb].
      exists raw. split; [reflexivity|]. right. split; [exact Ep|].
      left. exists s. split; [reflexivity|]. now apply contains_occurs.
    + destruct (existsb _ l) eqn:Hc; [|exact Hfb].
      exists raw. split; [reflexivity|]. right. split; [exact Ep|].
      right. exists l. split; [reflexivity|].
      apply existsb_exists in Hc as (x & Hin & Hx).
      destruct x; try discriminate. apply pystr_eqb_eq in Hx. now subst.
    + destruct (dict_lookup _ o); [|exact Hfb].
      exists raw. split; [reflexivity|]. left. eauto.
  - exact Hfb.
  - destruct (loads_or_pass_raises _ E) as [Hp He]. right. right.
    split; [exact He|]. exists raw, (strip raw).
    split; [reflexivity|]. split; [exists [], []; now rewrite app_nil_r | exact Hp].
Qed.

End ParseOutcomes.

(** X8.  What [parse_response] returns is a dict, or else the whole
    response read as a JSON string or array that holds
    [primary_category].  What it raises is [AttributeError], and then
    the response is not a [str]; or [TypeError], and then the stripped
    text is a JSON [null], Boolean or number; or [ValueError] or
    [RecursionError], and then [json.loads] raises it on a part of the
    stripped text.  A response that is not a [str] always raises
    [AttributeError]; a text that is a JSON scalar always raises
    [TypeError]; and an error of [json.loads] on the stripped text,
    other than [JSONDecodeError], is always passed on. *)
Theorem parse_response_outcomes {R : Runtime} :
  (forall (response v : json),
      parse_response response = Ok v ->
      exists raw, response = JStr raw
      /\ ((exists o, v = JObj o)
          \/ (json_parse json_depth (strip raw) = Ok v
              /\ ((exists s, v = JStr s
                             /\ occurs (str "primary_category") s)
                  \/ (exists l, v = JArr l
                                /\ In (JStr (str "primary_category")) l)))))
  /\ (forall (response : json) (e : exn),
        parse_response response = Raise e ->
        (e = Exn AttributeError [] /\ forall raw, response <> JStr raw)
        \/ (e = Exn TypeError []
            /\ exists raw v, response = JStr raw
                             /\ json_parse json_depth (strip raw) = Ok v
                             /\ json_scalar v = true)
        \/ ((e = Exn ValueError [] \/ e = Exn RecursionError [])
            /\ exists raw g, response = JStr raw
                             /\ occurs g (strip raw)
                             /\ json_parse json_depth g = Raise e))
  /\ (forall response : json,
        (forall raw, response <> JStr raw) ->
        parse_response response = Raise (Exn AttributeError []))
  /\ (forall (raw : pystr) (v : json),
        json_parse json_depth (strip raw) = Ok v ->
        json_scalar v = true ->
        parse_response (JStr raw) = Raise (Exn TypeError []))
  /\ (forall (raw : pystr) (e : exn),
        json_parse json_depth (strip raw) = Raise e ->
        e <> Exn JSONDecodeError [] ->
        parse_response (JStr raw) = Raise e).
Proof.
  split; [|split; [|split; [|split]]].
  - intros response v H. pose proof (parse_response_cases response) as C.
    now rewrite H in C.
  - intros response e H. pose proof (parse_response_cases response) as C.
    now rewrite H in C.
  - intros response Hns. destruct response; try reflexivity.
    now destruct (Hns s).
  - intros raw v Hp Hs. unfold parse_response, loads_or_pass.
    cbn [as_str rbind]. rewrite Hp. cbn [rbind].
    destruct v; try discriminate Hs; reflexivity.
  - intros raw e Hp Hne. unfold parse_response, loads_or_pass.
    cbn [as_str rbind]. rewrite Hp.
    destruct (json_parse_raises _ _ Hp) as [-> | [-> | ->]];
      [now destruct Hne | reflexivity | reflexivity].
Qed.

Lemma parse_response_outcomes_witness :
  @parse_response example_runtime (JStr (str " 42 "))
  = Raise (Exn TypeError [])
  /\ @parse_response example_runtime JNull = Raise (Exn AttributeError []).
Proof.
  destruct (@parse_response_outcomes example_runtime)
    as (_ & _ & Hattr & Htype & _). split.
  - apply (Htype (str " 42 ") (JInt 42)); reflexivity.
  - apply Hattr. intros raw. discriminate.
Defined.

(* ================================================================== *)
(** * More on the classifier client *)
(* ================================================================== *)

Lemma dict_lookup_set (k : pystr) (v : json) (o : dict) :
  dict_lookup k (dict_set k v o) = Some v.
Proof.
  induction o as [|[k' v'] o IH]; cbn [dict_set dict_lookup].
  - replace (pystr_eqb k k) with true; [reflexivity|].
    symmetry. now apply pystr_eqb_eq.
  - destruct (pystr_eqb k' k) eqn:E; cbn [dict_lookup]; rewrite E;
      [reflexivity | exact IH].
Qed.

Lemma not_in_valid_false (cat : json) :
  not_in_valid cat = Ok false ->
  exists c, cat = JStr c /\ In c valid_categories.
Proof.
  unfold not_in_valid. destruct (hashable cat); [|discriminate].
  cbn [negb]. intros H. apply Ok_inj in H. apply negb_false_iff in H.
  apply existsb_exists in H as (c & Hin & Hc).
  apply eq_str_true in Hc. eauto.
Qed.

(** An attempt that returns gives a verdict with a known category. *)
Lemma classify_attempt_known {R : Runtime} (client : llm) (provider model prompt : pystr)
  (delay : Q) (w w' : world) (v : json) :
  classify_attempt client provider model prompt delay w = (Ok v, w') ->
  known_verdict v.
Proof.
  unfold classify_attempt, bind, lift.
  destruct (call_llm client provider model prompt w) as [[text|] w1];
    [|discriminate].
  destruct (parse_response text) as [result|]; [|discriminate].
  destruct (py_get result (str "primary_category") JNull) as [cat|] eqn:Hcat;
    [|discriminate].
  destruct (not_in_valid cat) as [invalid|] eqn:Hinv; [|discriminate].
  destruct result as [| | | | | | |o]; try discriminate Hcat.
  cbn [py_get] in Hcat. apply Ok_inj in Hcat.
  destruct invalid.
  - cbn [py_setitem]. destruct (sleep delay w1) as [[[]|] w2]; [|discriminate].
    unfold ret. intros E. injection E as <- _.
    exists (dict_set (str "primary_category") (JStr (str "other")) o), (str "other").
    split; [reflexivity|]. split; [apply dict_lookup_set|].
    unfold reported_categories. apply in_or_app. right. now left.
  - unfold ret. destruct (sleep delay w1) as [[[]|] w2]; [|discriminate].
    intros E. injection E as <- _.
    destruct (not_in_valid_false _ Hinv) as (c & -> & Hc).
    exists o, c. split; [reflexivity|].
    split; [|unfold reported_categories; apply in_or_app; now left].
    destruct (dict_lookup (str "primary_category") o); [congruence | discriminate].
Qed.

Lemma api_error_known (e : exn) : known_verdict (api_error_verdict e).
Proof.
  unfold known_verdict, api_error_verdict. do 2 eexists.
  split; [reflexivity|]. split; [reflexivity|].
  unfold reported_categories. apply in_or_app. left.
  unfold valid_categories. apply in_or_app. right. right. now left.
Qed.

(** A verdict that [classify_one] returns has a known category. *)
Lemma classify_one_known `{Runtime} (client : llm)
  (provider model : pystr) (failure : json) (delay : Q) (w w' : world)
  (v : json) :
  classify_one client provider model failure delay w = (Ok v, w') ->
  known_verdict v.
Proof.
  destruct (build_prompt failure) as [prompt|e] eqn:Hp.
  - rewrite (classify_one_unfold client provider model failure delay w Hp).
    destruct (classify_attempt client provider model prompt delay w)
      as [[v1|e1] w1] eqn:E1.
    + intros E. injection E as <- _. exact (classify_attempt_known _ _ _ _ _ _ E1).
    + destruct (is_Exception e1); [|discriminate].
      destruct (classify_attempt client provider model prompt delay
                  (log (EvSleep 2) w1)) as [[v2|e2] w2] eqn:E2.
      * intros E. injection E as <- _.
        exact (classify_attempt_known _ _ _ _ _ _ E2).
      * destruct (is_Exception e2); [|discriminate].
        intros E. injection E as <- _. apply api_error_known.
  - unfold classify_one, bind, lift. rewrite Hp. discriminate.
Qed.

(** X9.  Whatever the provider answers, a verdict that [classify_one]
    returns is a dict whose [primary_category] is a string among the
    nine categories of the taxonomy, [parse_error], [api_error] and
    [other]: a category outside the taxonomy is replaced by [other]. *)
Theorem classify_one_reports_known_category `{Runtime} (client : llm)
  (provider model : pystr) (failure : json) (delay : Q) (w w' : world)
  (v : json) :
  classify_one client provider model failure delay w = (Ok v, w') ->
  known_verdict v.
Proof. apply classify_one_known. Qed.

Lemma classify_one_reports_known_category_witness :
  known_verdict (JObj [(str "primary_category", JStr (str "other"))]).
Proof.
  apply (@classify_one_reports_known_category example_runtime
           (fun _ _ => Ok (qstr "{'primary_category': 'made_up'}"))
           (str "anthropic") (str "m") (example_failure 1 example_task)
           (1 # 2) empty_world
           (after empty_world [EvCall example_prompt; EvSleep (1 # 2)])).
  vm_compute. reflexivity.
Defined.

(* ================================================================== *)
(** * More on the run controller *)
(* ================================================================== *)

Lemma same_files_refl (w : world) : same_files w w.
Proof. split; reflexivity. Qed.

Lemma same_files_trans (w1 w2 w3 : world) :
  same_files w1 w2 -> same_files w2 w3 -> same_files w1 w3.
Proof. intros [A B] [C D]. split; congruence. Qed.

Lemma same_files_log (ev : event) (w : world) : same_files w (log ev w).
Proof. split; reflexivity. Qed.

Lemma sleep_files (q : Q) (w : world) : same_files w (snd (sleep q w)).
Proof.
  unfold sleep. destruct (Qle_bool 0 q); [apply same_files_log | apply same_files_refl].
Qed.

Lemma call_llm_files (client : llm) (provider model prompt : pystr) (w : world) :
  same_files w (snd (call_llm client provider model prompt w)).
Proof.
  unfold call_llm. destruct (_ || _); [apply same_files_log | apply same_files_refl].
Qed.

(** An attempt of [classify_one] writes no file. *)
Lemma classify_attempt_files {R : Runtime} (client : llm) (provider model prompt : pystr)
  (delay : Q) (w : world) :
  same_files w (snd (classify_attempt client provider model prompt delay w)).
Proof.
  unfold classify_attempt, bind, lift.
  pose proof (call_llm_files client provider model prompt w) as H1.
  destruct (call_llm client provider model prompt w) as [[text|] w1];
    cbn [snd] in *; [|exact H1].
  destruct (parse_response text) as [result|]; [|exact H1].
  destruct (py_get result _ _) as [cat|]; [|exact H1].
  destruct (not_in_valid cat) as [invalid|]; [|exact H1].
  assert (G : forall r : res json,
             same_files w
               (snd (let (r0, w'0) := (r, w1) in
                     match r0 with
                     | Ok a =>
                         let (r1, w'1) := sleep delay w'0 in
                         match r1 with
                         | Ok _ => ret a w'1
                         | Raise e => (Raise e, w'1)
                         end
                     | Raise e => (Raise e, w'0)
                     end))).
  { intros [a|e]; [|exact H1].
    pose proof (sleep_files delay w1) as H2.
    destruct (sleep delay w1) as [[[]|] w2]; cbn [snd ret] in *;
      eapply same_files_trans; eauto. }
  destruct invalid; [apply G | apply (G (Ok result))].
Qed.

Lemma classify_attempts_files {R : Runtime} (client : llm) (provider model prompt : pystr)
  (delay : Q) (attempts : list nat) :
  forall w,
    same_files w
      (snd (classify_attempts attempts client provider model prompt delay w)).
Proof.
  induction attempts as [|a rest IH]; intros w; [apply same_files_refl|].
  cbn [classify_attempts]. unfold try_except.
  pose proof (classify_attempt_files client provider model prompt delay w) as H1.
  destruct (classify_attempt client provider model prompt delay w)
    as [[v|e] w1]; cbn [snd] in *; [exact H1|].
  destruct (is_Exception e); [|exact H1].
  destruct (a =? 0)%nat; [|exact H1].
  unfold bind.
  pose proof (sleep_files 2 w1) as H2.
  destruct (sleep 2 w1) as [[[]|] w2]; cbn [snd] in *.
  - eapply same_files_trans; [|apply IH]. eapply same_files_trans; eauto.
  - eapply same_files_trans; eauto.
Qed.

(** [classify_one] writes no file. *)
Lemma classify_one_files `{Runtime} (client : llm) (provider model : pystr)
  (failure : json) (delay : Q) (w : world) :
  same_files w (snd (classify_one client provider model failure delay w)).
Proof.
  unfold classify_one, bind, lift.
  destruct (build_prompt failure); [|apply same_files_refl].
  apply classify_attempts_files.
Qed.

(** One turn of the classification loop: the final result is not
    touched, and the checkpoint is either left as it is, the list being
    returned unchanged if the turn returns, or replaced by the list with
    one more classification, which the turn returns. *)
Lemma classify_step_checkpoint `{Runtime} (client : llm)
  (provider model : pystr) (delay : Q) (failure cl : json) (w : world) :
  let out := classify_step client provider model delay failure cl w in
  result_file (snd out) = result_file w
  /\ ((partial_file (snd out) = partial_file w
       /\ forall r, fst out = Ok r -> r = cl)
      \/ exists cs c,
           cl = JArr cs
           /\ partial_file (snd out) = Some (checkpoint_doc (cs ++ [c]))
           /\ fst out = Ok (JArr (cs ++ [c]))).
Proof.
  cbv zeta. unfold classify_step, bind, lift.
  assert (Same : forall (r : res json) (w1 : world),
             same_files w w1 -> (forall x, r <> Ok x) ->
             result_file (snd (r, w1)) = result_file w
             /\ ((partial_file (snd (r, w1)) = partial_file w
                  /\ forall x, fst (r, w1) = Ok x -> x = cl)
                 \/ exists cs c,
                      cl = JArr cs
                      /\ partial_file (snd (r, w1)) = Some (checkpoint_doc (cs ++ [c]))
                      /\ fst (r, w1) = Ok (JArr (cs ++ [c])))).
  { intros r w1 [A B] Hr. cbn [fst snd]. split; [exact A|]. left.
    split; [exact B|]. intros x Hx. now destruct (Hr x). }
  destruct (py_getitem failure (str "task_id")) as [tid|];
    [|apply Same; [apply same_files_refl | discriminate]].
  destruct (py_get failure (str "info") (JObj [])) as [info|];
    [|apply Same; [apply same_files_refl | discriminate]].
  destruct (py_get info (str "task") JNull) as [task|];
    [|apply Same; [apply same_files_refl | discriminate]].
  destruct (truthy task); cbn [negb].
  2:{ unfold ret. cbn [fst snd]. split; [reflexivity|]. left.
      split; [reflexivity|]. intros r E. now injection E. }
  pose proof (classify_one_files client provider model failure delay w) as F.
  destruct (classify_one client provider model failure delay w)
    as [[cls|] w1]; cbn [snd] in F; [|apply Same; [exact F | discriminate]].
  destruct (py_get failure (str "trial") (JInt 0));
    [|apply Same; [exact F | discriminate]].
  destruct (py_get task (str "instruction") (JStr []));
    [|apply Same; [exact F | discriminate]].
  destruct (py_get task (str "actions") (JArr []));
    [|apply Same; [exact F | discriminate]].
  destruct (py_get failure (str "traj") (JArr []));
    [|apply Same; [exact F | discriminate]].
  destruct (extract_agent_actions _);
    [|apply Same; [exact F | discriminate]].
  destruct cl as [| | | | | |cs|]; cbn [py_append];
    try (apply Same; [exact F | discriminate]).
  destruct (py_getitem cls (str "primary_category"));
    [|apply Same; [exact F | discriminate]].
  unfold write_partial, ret. cbn [fst snd result_file partial_file].
  destruct F as [A B]. split; [exact A|]. right.
  eexists _, _. split; [reflexivity|]. split; reflexivity.
Qed.

(** The loop: the final result is not touched; the checkpoint is left as
    it is, or it holds the list that the loop started from with the new
    classifications after it. *)
Lemma classify_loop_checkpoint `{Runtime} (client : llm)
  (provider model : pystr) (delay : Q) (failures : list json) :
  forall (cl : json) (w : world),
    let out := classify_loop client provider model delay failures cl w in
    result_file (snd out) = result_file w
    /\ ((partial_file (snd out) = partial_file w
         /\ forall r, fst out = Ok r -> r = cl)
        \/ exists cs new,
             cl = JArr cs /\ new <> []
             /\ partial_file (snd out) = Some (checkpoint_doc (cs ++ new))
             /\ forall r, fst out = Ok r -> r = JArr (cs ++ new)).
Proof.
  induction failures as [|f failures IH]; intros cl w; cbv zeta.
  - cbn [classify_loop]. unfold ret. cbn [fst snd]. split; [reflexivity|].
    left. split; [reflexivity|]. intros r E. now injection E.
  - cbn [classify_loop]. unfold bind.
    pose proof (classify_step_checkpoint client provider model delay f cl w)
      as S. cbv zeta in S.
    destruct (classify_step client provider model delay f cl w)
      as [[r1|e] w1]; cbn [fst snd] in S.
    + specialize (IH r1 w1). cbv zeta in IH.
      destruct (classify_loop client provider model delay failures r1 w1)
        as [res w2]; cbn [fst snd] in *.
      destruct S as [A S], IH as [A' IH]. split; [congruence|].
      destruct S as [[B Hr] | (cs & c & -> & B & E)].
      * rewrite (Hr r1 eq_refl) in IH. rewrite B in IH. exact IH.
      * injection E as ->. right. exists cs.
        destruct IH as [[B' Hr'] | (cs' & new & E' & Hnew & B' & Hr')].
        -- exists [c]. split; [reflexivity|]. split; [discriminate|].
           split; [congruence | exact Hr'].
        -- injection E' as <-. exists (c :: new).
           split; [reflexivity|]. split; [discriminate|].
           rewrite <- app_assoc in B', Hr'. split; assumption.
    + cbn [fst snd]. destruct S as [A S]. split; [exact A|].
      destruct S as [[B Hr] | (cs & c & _ & _ & E)]; [|discriminate E].
      left. split; [exact B | discriminate].
Qed.

(** X10.  When [process_file] classifies and returns a result (no stored
    result, or [force]), the result file holds exactly the returned dict
    and the checkpoint file is gone; the dict carries the config name,
    the file path, and a summary that is [compute_summary] of its
    classifications; and any later call for the same configuration
    without [force] returns the same dict and changes nothing. *)
Theorem process_file_saves_result `{Runtime}
  (data : json) (filepath config_name : pystr) (client : llm)
  (provider model : pystr) (sample_size : Z) (delay : Q)
  (force dry_run : bool) (w w' : world) (r : json) :
  result_file w = None \/ force = true ->
  process_file data filepath config_name client provider model sample_size
    delay force dry_run w = (Ok r, w') ->
  r <> JNull ->
  result_file w' = Some r
  /\ partial_file w' = None
  /\ (exists stats summary classifications,
        r = JObj [(str "config", JStr config_name);
                  (str "file", JStr filepath);
                  (str "stats", stats);
                  (str "summary", summary);
                  (str "classifications", classifications)]
        /\ compute_summary classifications = Ok summary)
  /\ forall (data2 : json) (filepath2 : pystr) (client2 : llm)
            (provider2 model2 : pystr) (sample_size2 : Z) (delay2 : Q)
            (dry_run2 : bool),
       process_file data2 filepath2 config_name client2 provider2 model2
         sample_size2 delay2 false dry_run2 w' = (Ok r, w').
Proof.
  intros Hfresh Hrun Hr.
  assert (G : result_file w' = Some r
              /\ partial_file w' = None
              /\ (exists stats summary classifications,
                    r = JObj [(str "config", JStr config_name);
                              (str "file", JStr filepath);
                              (str "stats", stats);
                              (str "summary", summary);
                              (str "classifications", classifications)]
                    /\ compute_summary classifications = Ok summary)).
  { revert Hrun. unfold process_file, bind, get_world, lift.
    assert (Hm : match result_file w, force with
                 | Some _, false => False
                 | _, _ => True
                 end).
    { destruct Hfresh as [-> | ->]; [exact I|].
      destruct (result_file w); exact I. }
    destruct (result_file w) as [stored|], force; try (now destruct Hm);
      (destruct (load_and_sample data sample_size default_seed)
         as [[failures n]|]; [|discriminate];
       cbn [fst];
       destruct (count_tasks data); [|discriminate];
       destruct failures as [|first rest];
         [unfold ret; intros E; injection E as <- _; now destruct Hr|];
       destruct dry_run;
         [destruct (build_prompt first); discriminate|];
       match goal with
       | |- (let (_, _) := ?S in _) = _ -> _ =>
           destruct S as [[[cl k]|] w0]; [|discriminate]
       end;
       cbn [fst snd];
       destruct (classify_loop client provider model delay
                   (skipn k (first :: rest)) cl w0) as [[cs|] w1];
         [|discriminate];
       destruct (compute_summary cs) as [summary|] eqn:Hsum; [|discriminate];
       destruct (count_zero_reward data); [|discriminate];
       unfold write_result, unlink_partial, ret;
       intros E; injection E as <- <-;
       cbn [result_file partial_file];
       split; [reflexivity|]; split; [reflexivity|];
       eexists _, summary, cs; split; [reflexivity | exact Hsum]). }
  destruct G as (G1 & G2 & G3). repeat split; try assumption.
  intros. unfold process_file, bind, get_world. now rewrite G1.
Qed.

Lemma process_file_saves_result_witness :
  exists r w',
    @process_file example_runtime two_failures (str "f.json") (str "cfg")
      answering (str "anthropic") (str "m") 50 (1 # 2) false false
      empty_world = (Ok r, w')
    /\ result_file w' = Some r
    /\ partial_file w' = None.
Proof.
  destruct (@process_file example_runtime two_failures (str "f.json")
              (str "cfg") answering (str "anthropic") (str "m") 50 (1 # 2)
              false false empty_world) as [[r|e] w'] eqn:E;
    [|vm_compute in E; discriminate E].
  exists r, w'. split; [reflexivity|].
  assert (F : result_file empty_world = None \/ false = true)
    by (left; reflexivity).
  destruct (@process_file_saves_result example_runtime _ _ _ _ _ _ _ _ _ _ _ _ _
              F E) as (G1 & G2 & _).
  - intros ->. vm_compute in E. discriminate E.
  - split; assumption.
Defined.

(** The list that the classification loop starts from. *)
Lemma process_file_start (force : bool) (w : world) :
  let S := match partial_file w, force with
           | Some partial, false =>
               (cs <- lift (py_get partial (str "classifications") (JArr [])) ;;
                n <- lift (py_len cs) ;;
                ret (cs, n))%M
           | _, _ => ret (JArr [], 0%nat)
           end w in
  snd S = w
  /\ forall cl k, fst S = Ok (cl, k) ->
       forall cs, cl = JArr cs ->
         cs = if force then [] else checkpoint_of w.
Proof.
  cbv zeta. unfold checkpoint_of, bind, lift, ret.
  destruct (partial_file w) as [partial|], force; cbn [fst snd];
    try (split; [reflexivity|]; intros cl k E cs ->; now injection E).
  destruct (py_get partial (str "classifications") (JArr [])) as [c|];
    [|split; [reflexivity | discriminate]].
  destruct (py_len c); cbn [fst snd]; [|split; [reflexivity | discriminate]].
  split; [reflexivity|]. intros cl k E cs ->. now injection E as ->.
Qed.

(** X11.  When [process_file] ends with an exception that is raised
    between its writes, while it samples, builds a prompt, calls the
    provider (an interruption during the call included), extracts the
    actions or summarises, the result file is as it was, and the
    checkpoint file is either as it was or holds the list that the run
    started from (the old checkpoint, or the empty list under [force])
    followed by the new classifications.  Every write is taken to
    complete: a failure in the middle of a write is not covered. *)
Theorem process_file_failure_keeps_checkpoint `{Runtime}
  (data : json) (filepath config_name : pystr) (client : llm)
  (provider model : pystr) (sample_size : Z) (delay : Q)
  (force dry_run : bool) (w : world) (e : exn) :
  fst (process_file data filepath config_name client provider model
         sample_size delay force dry_run w) = Raise e ->
  result_file (snd (process_file data filepath config_name client provider
                      model sample_size delay force dry_run w))
  = result_file w
  /\ (partial_file (snd (process_file data filepath config_name client
                           provider model sample_size delay force dry_run w))
      = partial_file w
      \/ exists new,
           new <> []
           /\ partial_file (snd (process_file data filepath config_name client
                                   provider model sample_size delay force
                                   dry_run w))
              = Some (checkpoint_doc
                        ((if force then [] else checkpoint_of w) ++ new))).
Proof.
  pose proof (process_file_start force w) as HS. cbv zeta in HS.
  remember (process_file data filepath config_name client provider model
              sample_size delay force dry_run w) as P eqn:HP.
  unfold process_file, bind at 1, get_world in HP. cbv beta iota in HP.
  assert (Body :
    forall B : M json,
      B = (sample <- lift (load_and_sample data sample_size default_seed) ;;
           let failures := fst sample in
           total_tasks <- lift (count_tasks data) ;;
           match failures with
           | [] => ret JNull
           | first :: _ =>
               if dry_run then
                 (lift (build_prompt first) ;;;
                  lift (Raise (Exn SystemExit (str "0"))))
               else
                 start <-
                   match partial_file w, force with
                   | Some partial, false =>
                       cs <- lift (py_get partial (str "classifications")
                                     (JArr [])) ;;
                       n <- lift (py_len cs) ;;
                       ret (cs, n)
                   | _, _ => ret (JArr [], 0%nat)
                   end ;;
                 classifications <-
                   classify_loop client provider model delay
                     (skipn (snd start) failures) (fst start) ;;
                 summary <- lift (compute_summary classifications) ;;
                 zero <- lift (count_zero_reward data) ;;
                 let result :=
                   JObj [(str "config", JStr config_name);
                         (str "file", JStr filepath);
                         (str "stats",
                          JObj [(str "total_tasks",
                                 JInt (Z.of_nat total_tasks));
                                (str "total_failures_in_file",
                                 JInt (Z.of_nat zero));
                                (str "unique_failures_sampled",
                                 JInt (Z.of_nat (List.length failures)))]);
                         (str "summary", summary);
                         (str "classifications", classifications)] in
                 write_result result ;;;
                 unlink_partial ;;;
                 ret result
           end)%M ->
      fst (B w) = Raise e ->
      result_file (snd (B w)) = result_file w
      /\ (partial_file (snd (B w)) = partial_file w
          \/ exists new,
               new <> []
               /\ partial_file (snd (B w))
                  = Some (checkpoint_doc
                            ((if force then [] else checkpoint_of w) ++ new)))).
  { intros B ->. unfold bind, lift.
    destruct (load_and_sample data sample_size default_seed)
      as [[failures n]|]; [|cbn; auto].
    cbn [fst]. destruct (count_tasks data); [|cbn; auto].
    destruct failures as [|first rest]; [cbn; auto|].
    destruct dry_run; [destruct (build_prompt first); cbn; auto|].
    unfold bind, lift in HS. revert HS.
    match goal with
    | |- snd ?S = _ /\ _ -> _ => destruct S as [[[cl k]|] w0]
    end; cbn [fst snd]; intros [HS1 HS2]; subst w0; [|auto].
    pose proof (classify_loop_checkpoint client provider model delay
                  (skipn k (first :: rest)) cl w) as L. cbv zeta in L.
    destruct (classify_loop client provider model delay
                (skipn k (first :: rest)) cl w) as [res w1];
      cbn [fst snd] in L.
    assert (Keep : result_file w1 = result_file w
                   /\ (partial_file w1 = partial_file w
                       \/ exists new,
                            new <> []
                            /\ partial_file w1
                               = Some (checkpoint_doc
                                         ((if force then []
                                           else checkpoint_of w) ++ new)))).
    { destruct L as [A [[B _] | (cs & new & -> & Hnew & B & _)]];
        (split; [exact A|]); [now left|].
      right. exists new. split; [exact Hnew|].
      now rewrite <- (HS2 _ _ eq_refl cs eq_refl). }
    destruct res as [cs|]; [|exact (fun _ => Keep)].
    destruct (compute_summary cs); [|exact (fun _ => Keep)].
    destruct (count_zero_reward data); [|exact (fun _ => Keep)].
    unfold write_result, unlink_partial, ret. cbn [fst].
    intros E. discriminate E. }
  destruct (result_file w) as [stored|], force; subst P;
    try exact (Body _ eq_refl).
  unfold ret. cbn [fst]. intros E. discriminate E.
Qed.

Lemma process_file_failure_keeps_checkpoint_witness :
  result_file
    (snd (@process_file example_runtime two_failures (str "f.json")
            (str "cfg") (interrupted_after 1) (str "anthropic") (str "m")
            50 (1 # 2) false false empty_world))
  = result_file empty_world
  /\ (partial_file
        (snd (@process_file example_runtime two_failures (str "f.json")
                (str "cfg") (interrupted_after 1) (str "anthropic") (str "m")
                50 (1 # 2) false false empty_world))
      = partial_file empty_world
      \/ exists new,
           new <> []
           /\ partial_file
                (snd (@process_file example_runtime two_failures
                        (str "f.json") (str "cfg") (interrupted_after 1)
                        (str "anthropic") (str "m") 50 (1 # 2) false false
                        empty_world))
              = Some (checkpoint_doc
                        ((if false then [] else checkpoint_of empty_world)
                         ++ new))).
Proof.
  apply (@process_file_failure_keeps_checkpoint example_runtime two_failures
           (str "f.json") (str "cfg") (interrupted_after 1) (str "anthropic")
           (str "m") 50 (1 # 2) false false empty_world
           (Exn KeyboardInterrupt [])).
  vm_compute. reflexivity.
Defined.

(** X12.  With [dry_run], [process_file] makes no call to the provider,
    waits for nothing and writes no file; it returns only a stored
    result or [None]; and when the sample is not empty and the prompt of
    its first case can be built, it exits with [SystemExit(0)]. *)
Theorem process_file_dry_run_is_inert `{Runtime}
  (data : json) (filepath config_name : pystr) (client : llm)
  (provider model : pystr) (sample_size : Z) (delay : Q)
  (force : bool) (w : world) :
  snd (process_file data filepath config_name client provider model
         sample_size delay force true w) = w
  /\ (forall r,
        fst (process_file data filepath config_name client provider model
               sample_size delay force true w) = Ok r ->
        r = JNull \/ (force = false /\ result_file w = Some r))
  /\ (forall sample n first rest prompt,
        result_file w = None \/ force = true ->
        load_and_sample data sample_size default_seed = Ok (sample, n) ->
        sample = first :: rest ->
        (exists t, count_tasks data = Ok t) ->
        build_prompt first = Ok prompt ->
        fst (process_file data filepath config_name client provider model
               sample_size delay force true w)
        = Raise (Exn SystemExit (str "0"))).
Proof.
  remember (process_file data filepath config_name client provider model
              sample_size delay force true w) as P eqn:HP.
  unfold process_file, bind at 1, get_world in HP. cbv beta iota in HP.
  assert (Body :
    forall B : res json * world,
      B = (sample <- lift (load_and_sample data sample_size default_seed) ;;
           let failures := fst sample in
           total_tasks <- lift (count_tasks data) ;;
           match failures with
           | [] => ret JNull
           | first :: _ =>
               (lift (build_prompt first) ;;;
                lift (Raise (Exn SystemExit (str "0"))))
           end)%M w ->
      snd B = w
      /\ (forall r, fst B = Ok r -> r = JNull)
      /\ (forall sample n first rest prompt,
            load_and_sample data sample_size default_seed = Ok (sample, n) ->
            sample = first :: rest ->
            (exists t, count_tasks data = Ok t) ->
            build_prompt first = Ok prompt ->
            fst B = Raise (Exn SystemExit (str "0")))).
  { intros B ->. unfold bind, lift, ret.
    destruct (load_and_sample data sample_size default_seed)
      as [[failures n]|]; cbn [fst snd].
    2:{ repeat split; try discriminate. }
    destruct (count_tasks data) as [t|]; cbn [fst snd].
    2:{ repeat split; try discriminate. intros ? ? ? ? ? _ _ [t Ht]. discriminate Ht. }
    destruct failures as [|first rest]; cbn [fst snd].
    { repeat split.
      - intros r E. now injection E.
      - intros sample n0 f r p E ->. discriminate E. }
    destruct (build_prompt first) eqn:Hb; cbn [fst snd].
    - repeat split; try discriminate.
    - repeat split; try discriminate.
      intros sample n0 f r p E -> _ Hp. injection E as <- _ _. congruence. }
  destruct (result_file w) as [stored|] eqn:Hres, force; subst P.
  - destruct (Body _ eq_refl) as (B1 & B2 & B3).
    split; [exact B1|]. split; [intros r E; left; exact (B2 r E)|].
    intros sample n first rest prompt _. apply B3.
  - unfold ret. cbn [fst snd]. split; [reflexivity|].
    split; [intros r E; injection E as <-; right; now split|].
    intros sample n first rest prompt [E | E]; discriminate E.
  - destruct (Body _ eq_refl) as (B1 & B2 & B3).
    split; [exact B1|]. split; [intros r E; left; exact (B2 r E)|].
    intros sample n first rest prompt _. apply B3.
  - destruct (Body _ eq_refl) as (B1 & B2 & B3).
    split; [exact B1|]. split; [intros r E; left; exact (B2 r E)|].
    intros sample n first rest prompt _. apply B3.
Qed.

Lemma process_file_dry_run_is_inert_witness :
  fst (@process_file example_runtime two_failures (str "f.json") (str "cfg")
         answering (str "anthropic") (str "m") 50 (1 # 2) false true
         empty_world)
  = Raise (Exn SystemExit (str "0")).
Proof.
  destruct (@process_file_dry_run_is_inert example_runtime two_failures
              (str "f.json") (str "cfg") answering (str "anthropic") (str "m")
              50 (1 # 2) false empty_world) as (_ & _ & H).
  apply (H [example_failure 1 example_task; example_failure 2 example_task]
           2%nat (example_failure 1 example_task)
           [example_failure 2 example_task] example_prompt).
  - now left.
  - vm_compute. reflexivity.
  - reflexivity.
  - exists 2%nat. vm_compute. reflexivity.
  - vm_compute. reflexivity.
Defined.

(** ** A forced run does not read the files *)

Create HintDb blind.

Lemma blind_ret {A} (a : A) : file_blind (ret a).
Proof. intros w1 w2 Hc. split; [reflexivity | exact Hc]. Qed.

Lemma blind_lift {A} (r : res A) : file_blind (lift r).
Proof. intros w1 w2 Hc. split; [reflexivity | exact Hc]. Qed.

Lemma blind_bind {A B} (m : M A) (k : A -> M B) :
  file_blind m -> (forall a, file_blind (k a)) -> file_blind (bind m k).
Proof.
  intros Hm Hk w1 w2 Hc. unfold bind.
  destruct (Hm w1 w2 Hc) as [E1 E2].
  destruct (m w1) as [[a|e] w1'], (m w2) as [[a'|e'] w2'];
    cbn [fst snd] in *; try discriminate E1.
  - injection E1 as <-. now apply Hk.
  - injection E1 as <-. split; [reflexivity | exact E2].
Qed.

Lemma blind_try_except {A} (body : M A) (handler : exn -> M A) :
  file_blind body -> (forall e, file_blind (handler e)) ->
  file_blind (try_except body handler).
Proof.
  intros Hm Hk w1 w2 Hc. unfold try_except.
  destruct (Hm w1 w2 Hc) as [E1 E2].
  destruct (body w1) as [[a|e] w1'], (body w2) as [[a'|e'] w2'];
    cbn [fst snd] in *; try discriminate E1.
  - split; [exact E1 | exact E2].
  - injection E1 as <-.
    destruct (is_Exception e); [now apply Hk | split; [reflexivity | exact E2]].
Qed.

Lemma blind_sleep (q : Q) : file_blind (sleep q).
Proof.
  intros w1 w2 Hc. unfold sleep. destruct (Qle_bool 0 q); cbn [fst snd].
  - split; [reflexivity|]. now rewrite !calls_log_sleep.
  - split; [reflexivity | exact Hc].
Qed.

Lemma blind_call_llm (client : llm) (provider model prompt : pystr) :
  file_blind (call_llm client provider model prompt).
Proof.
  intros w1 w2 Hc. unfold call_llm. destruct (_ || _).
  - cbn [fst snd]. rewrite !calls_log_call, Hc. split; reflexivity.
  - split; [reflexivity | exact Hc].
Qed.

Lemma blind_write_partial (v : json) : file_blind (write_partial v).
Proof. intros w1 w2 Hc. split; [reflexivity | exact Hc]. Qed.

Lemma blind_write_result (v : json) : file_blind (write_result v).
Proof. intros w1 w2 Hc. split; [reflexivity | exact Hc]. Qed.

Lemma blind_unlink_partial : file_blind unlink_partial.
Proof. intros w1 w2 Hc. split; [reflexivity | exact Hc]. Qed.

#[local] Hint Resolve blind_ret blind_lift blind_sleep blind_call_llm
  blind_write_partial blind_write_result blind_unlink_partial : blind.

Ltac blind_step :=
  first [ apply blind_bind; [|intros ?]
        | apply blind_try_except; [|intros ?]
        | solve [auto with blind] ].

Lemma blind_classify_attempt {R : Runtime} (client : llm) (provider model prompt : pystr)
  (delay : Q) : file_blind (classify_attempt client provider model prompt delay).
Proof.
  unfold classify_attempt. repeat blind_step.
  destruct a2; auto with blind.
Qed.

Lemma blind_classify_attempts {R : Runtime} (client : llm) (provider model prompt : pystr)
  (delay : Q) (attempts : list nat) :
  file_blind (classify_attempts attempts client provider model prompt delay).
Proof.
  induction attempts as [|a rest IH]; cbn [classify_attempts];
    [auto with blind|].
  apply blind_try_except; [apply blind_classify_attempt|].
  intros e. destruct (a =? 0)%nat; [|auto with blind].
  apply blind_bind; [auto with blind | intros _; exact IH].
Qed.

Lemma blind_classify_one `{Runtime} (client : llm) (provider model : pystr)
  (failure : json) (delay : Q) :
  file_blind (classify_one client provider model failure delay).
Proof.
  unfold classify_one. apply blind_bind; [auto with blind|].
  intros prompt. apply blind_classify_attempts.
Qed.

Lemma blind_classify_step `{Runtime} (client : llm) (provider model : pystr)
  (delay : Q) (failure cl : json) :
  file_blind (classify_step client provider model delay failure cl).
Proof.
  unfold classify_step.
  do 3 (apply blind_bind; [auto with blind | intros ?]).
  destruct (negb (truthy a1)); [auto with blind|].
  apply blind_bind; [apply blind_classify_one | intros ?].
  repeat blind_step.
Qed.

Lemma blind_classify_loop `{Runtime} (client : llm) (provider model : pystr)
  (delay : Q) (failures : list json) :
  forall cl, file_blind (classify_loop client provider model delay failures cl).
Proof.
  induction failures as [|f failures IH]; intros cl; cbn [classify_loop];
    [auto with blind|].
  apply blind_bind; [apply blind_classify_step | exact IH].
Qed.

(** X13.  With [force], what [process_file] returns and the number of
    calls that it makes do not depend on the result file or the
    checkpoint file that a previous run left, nor on earlier waits. *)
Theorem process_file_forced_ignores_files `{Runtime}
  (data : json) (filepath config_name : pystr) (client : llm)
  (provider model : pystr) (sample_size : Z) (delay : Q) (dry_run : bool)
  (w1 w2 : world) :
  calls w1 = calls w2 ->
  fst (process_file data filepath config_name client provider model
         sample_size delay true dry_run w1)
  = fst (process_file data filepath config_name client provider model
           sample_size delay true dry_run w2)
  /\ calls (snd (process_file data filepath config_name client provider model
                   sample_size delay true dry_run w1))
     = calls (snd (process_file data filepath config_name client provider
                     model sample_size delay true dry_run w2)).
Proof.
  set (C := (sample <- lift (load_and_sample data sample_size default_seed) ;;
             let failures := fst sample in
             total_tasks <- lift (count_tasks data) ;;
             match failures with
             | [] => ret JNull
             | first :: _ =>
                 if dry_run then
                   (lift (build_prompt first) ;;;
                    lift (Raise (Exn SystemExit (str "0"))))
                 else
                   start <- ret (JArr [], 0%nat) ;;
                   classifications <-
                     classify_loop client provider model delay
                       (skipn (snd start) failures) (fst start) ;;
                   summary <- lift (compute_summary classifications) ;;
                   zero <- lift (count_zero_reward data) ;;
                   let result :=
                     JObj [(str "config", JStr config_name);
                           (str "file", JStr filepath);
                           (str "stats",
                            JObj [(str "total_tasks",
                                   JInt (Z.of_nat total_tasks));
                                  (str "total_failures_in_file",
                                   JInt (Z.of_nat zero));
                                  (str "unique_failures_sampled",
                                   JInt (Z.of_nat (List.length failures)))]);
                           (str "summary", summary);
                           (str "classifications", classifications)] in
                   write_result result ;;;
                   unlink_partial ;;;
                   ret result
             end)%M).
  assert (HC : forall w,
             process_file data filepath config_name client provider model
               sample_size delay true dry_run w = C w).
  { intros w. unfold process_file, bind at 1, get_world. cbv beta iota.
    destruct (result_file w), (partial_file w); reflexivity. }
  assert (BC : file_blind C).
  { unfold C. apply blind_bind; [auto with blind | intros sample].
    cbv zeta. apply blind_bind; [auto with blind | intros total].
    destruct (fst sample) as [|first rest]; [auto with blind|].
    destruct dry_run; [repeat blind_step|].
    apply blind_bind; [auto with blind | intros start].
    apply blind_bind; [apply blind_classify_loop | intros cs].
    repeat blind_step. }
  intros Hc. rewrite !HC. now apply BC.
Qed.

Lemma process_file_forced_ignores_files_witness :
  fst (@process_file example_runtime two_failures (str "f.json") (str "cfg")
         answering (str "anthropic") (str "m") 50 (1 # 2) true false
         empty_world)
  = fst (@process_file example_runtime two_failures (str "f.json")
           (str "cfg") answering (str "anthropic") (str "m") 50 (1 # 2) true
           false
           {| result_file := Some example_verdict;
              partial_file := Some (checkpoint_doc [JNull; JNull; JNull]);
              trace := [EvSleep 2] |})
  /\ calls (snd (@process_file example_runtime two_failures (str "f.json")
                   (str "cfg") answering (str "anthropic") (str "m") 50
                   (1 # 2) true false empty_world))
     = calls (snd (@process_file example_runtime two_failures (str "f.json")
                     (str "cfg") answering (str "anthropic") (str "m") 50
                     (1 # 2) true false
                     {| result_file := Some example_verdict;
                        partial_file := Some (checkpoint_doc [JNull; JNull; JNull]);
                        trace := [EvSleep 2] |})).
Proof.
  apply (@process_file_forced_ignores_files example_runtime).
  reflexivity.
Defined.

(* ================================================================== *)
(** * Properties of the summary *)
(* ================================================================== *)

Lemma pystr_eqb_refl (a : pystr) : pystr_eqb a a = true.
Proof. now apply pystr_eqb_eq. Qed.

Lemma pystr_eqb_neq (a b : pystr) : pystr_eqb a b = false <-> a <> b.
Proof.
  split.
  - intros H E. apply pystr_eqb_eq in E. congruence.
  - intros H. destruct (pystr_eqb a b) eqn:E; [|reflexivity].
    apply pystr_eqb_eq in E. contradiction.
Qed.

Lemma tally_get_notin (cat : pystr) (t : tally) :
  ~ In cat (map fst t) -> tally_get cat t = 0.
Proof.
  induction t as [|[k n] t IH]; [reflexivity|]. cbn [map fst In tally_get].
  intros H. destruct (pystr_eqb k cat) eqn:E.
  - apply pystr_eqb_eq in E. destruct H. now left.
  - apply IH. intros Hin. apply H. now right.
Qed.

Lemma tally_get_in (cat : pystr) (n : Z) (t : tally) :
  NoDup (map fst t) -> In (cat, n) t -> tally_get cat t = n.
Proof.
  induction t as [|[k m] t IH]; [intros _ []|].
  cbn [map fst tally_get]. intros Hnd [E | Hin].
  - injection E as -> ->. now rewrite pystr_eqb_refl.
  - inversion Hnd as [|? ? Hk Hnd']; subst.
    destruct (pystr_eqb k cat) eqn:E; [|now apply IH].
    apply pystr_eqb_eq in E. subst k. destruct Hk.
    apply in_map_iff. now exists (cat, n).
Qed.

(** [counts[cat] += 1] on a counter with string keys. *)
Lemma count_incr_tally (cat : pystr) (t : tally) :
  exists t',
    count_incr (JStr cat) (tally_json t) = tally_json t'
    /\ (forall c, tally_get c t'
                  = tally_get c t + if pystr_eqb cat c then 1 else 0)
    /\ (forall k, In k (map fst t') <-> k = cat \/ In k (map fst t))
    /\ (NoDup (map fst t) -> NoDup (map fst t'))
    /\ (forall k n, In (k, n) t' ->
          (k = cat /\ n = 1) \/ In (k, n) t
          \/ exists m, In (k, m) t /\ n = m + 1)
    /\ tally_total t' = tally_total t + 1.
Proof.
  induction t as [|[k n] t IH].
  - exists [(cat, 1)]. cbn [tally_json map fst snd count_incr tally_get In].
    split; [reflexivity|].
    split; [intros c; destruct (pystr_eqb cat c); reflexivity|].
    split; [intros k; intuition|].
    split; [intros _; repeat constructor; intros []|].
    split; [|reflexivity].
    intros k n [E | []]. injection E as <- <-. now left.
  - cbn [tally_json map fst snd count_incr key_eqb num_value].
    destruct (pystr_eqb k cat) eqn:E.
    + apply pystr_eqb_eq in E. subst k.
      exists ((cat, n + 1) :: t).
      split; [reflexivity|].
      split; [intros c; cbn [tally_get]; destruct (pystr_eqb cat c); lia|].
      split; [intros k; cbn [map fst In]; intuition|].
      split; [auto|].
      split; [|unfold tally_total; cbn [map snd fold_right]; lia].
      intros k m [E | Hin].
      * injection E as <- <-. right. right. exists n. split; [now left | reflexivity].
      * right. left. now right.
    + destruct IH as (t' & E' & Hget & Hkeys & Hnd & Hin & Htot).
      exists ((k, n) :: t').
      split.
      { change (tally_json ((k, n) :: t')) with ((JStr k, n) :: tally_json t').
        now rewrite <- E'. }
      split.
      { intros c. cbn [tally_get]. destruct (pystr_eqb k c) eqn:Ekc; [|apply Hget].
        apply pystr_eqb_eq in Ekc. subst c.
        apply pystr_eqb_neq in E.
        destruct (pystr_eqb cat k) eqn:E2; [|lia].
        apply pystr_eqb_eq in E2. congruence. }
      split.
      { intros k0. cbn [map fst In]. rewrite Hkeys. intuition. }
      split.
      { cbn [map fst]. intros Hn. inversion Hn as [|? ? Hk Hn']; subst.
        constructor; [|auto]. rewrite Hkeys. intros [-> | Hin'].
        - apply pystr_eqb_neq in E. congruence.
        - contradiction. }
      split.
      { intros k0 m [E0 | Hin0].
        - injection E0 as <- <-. right. left. now left.
        - destruct (Hin _ _ Hin0) as [? | [? | (m' & ? & ?)]]; auto.
          + right. left. now right.
          + right. right. exists m'. split; [now right | assumption]. }
      unfold tally_total in *. cbn [map snd fold_right]. lia.
Qed.

Lemma pystr_eqb_sym (a b : pystr) : pystr_eqb a b = pystr_eqb b a.
Proof.
  destruct (pystr_eqb a b) eqn:E.
  - apply pystr_eqb_eq in E. subst. symmetry. apply pystr_eqb_refl.
  - symmetry. apply pystr_eqb_neq. apply pystr_eqb_neq in E. congruence.
Qed.

Lemma occurrences_snoc (cat c : pystr) (cats : list pystr) :
  occurrences cat (cats ++ [c])
  = occurrences cat cats + if pystr_eqb c cat then 1 else 0.
Proof.
  unfold occurrences. rewrite filter_app, length_app. cbn [filter].
  rewrite (pystr_eqb_sym c cat).
  destruct (pystr_eqb cat c); cbn [List.length]; lia.
Qed.

Lemma count_step_category (counts : list (json * Z)) (c : json) (s : pystr) :
  category_of c = Some s ->
  count_step counts c = Ok (count_incr (JStr s) counts).
Proof.
  unfold category_of, count_step.
  destruct (py_getitem c (str "classification")) as [cls|]; [|discriminate].
  cbn [rbind].
  destruct (py_getitem cls (str "primary_category")) as [cat|]; [|discriminate].
  destruct cat; try discriminate. intros E. injection E as ->. reflexivity.
Qed.

(** The loop of [compute_summary] counts the occurrences of each
    category. *)
Lemma count_loop_tally (cs : list json) :
  forall (cats done : list pystr) (t0 : tally),
    map category_of cs = map Some cats ->
    tally_for done t0 ->
    exists t,
      fold_left (fun acc c => (a <- acc ;; count_step a c)%res) cs
        (Ok (tally_json t0)) = Ok (tally_json t)
      /\ tally_for (done ++ cats) t.
Proof.
  induction cs as [|c cs IH]; intros cats done t0 Hc Ht.
  - destruct cats; [|discriminate]. exists t0. rewrite app_nil_r. now split.
  - destruct cats as [|s cats]; [discriminate|].
    cbn [map] in Hc. injection Hc as Hs Hc.
    cbn [fold_left rbind]. rewrite (count_step_category _ _ Hs).
    destruct (count_incr_tally s t0) as (t1 & -> & Hget & Hkeys & Hnd & Hin & Htot).
    destruct (IH cats (done ++ [s]) t1 Hc) as (t & Hf & Ht').
    + destruct Ht as (N & P & G & T). split; [auto|]. split.
      * intros k n Hk. destruct (Hin _ _ Hk) as [[_ ->] | [Hold | (m & Hold & ->)]].
        -- lia.
        -- eauto.
        -- specialize (P _ _ Hold). lia.
      * split.
        -- intros cat. rewrite Hget, G, occurrences_snoc. reflexivity.
        -- rewrite Htot, T, length_app. cbn [List.length]. lia.
    + exists t. split; [exact Hf|]. now rewrite <- app_assoc in Ht'.
Qed.

(** ** The order of the summary *)

Lemma insert_count_perm (x : json * Z) (l : list (json * Z)) :
  Permutation (insert_count x l) (x :: l).
Proof.
  induction l as [|y l IH]; cbn [insert_count]; [reflexivity|].
  destruct (snd y <? snd x); [reflexivity|].
  rewrite IH. apply perm_swap.
Qed.

Lemma insert_count_sorted (x : json * Z) (l : list (json * Z)) :
  StronglySorted (fun a b => snd b <= snd a) l ->
  StronglySorted (fun a b => snd b <= snd a) (insert_count x l).
Proof.
  induction 1 as [|y l Hs IH Hy]; cbn [insert_count].
  - repeat constructor.
  - destruct (snd y <? snd x) eqn:E.
    + apply Z.ltb_lt in E. constructor; [now constructor|].
      constructor; [lia|]. rewrite Forall_forall in *.
      intros z Hz. specialize (Hy z Hz). cbn beta in *. lia.
    + apply Z.ltb_ge in E. constructor; [exact IH|].
      rewrite Forall_forall in *. intros z Hz.
      apply (Permutation_in _ (insert_count_perm x l)) in Hz.
      destruct Hz as [<- | Hz]; [exact E | auto].
Qed.

Lemma sort_counts_spec (l : list (json * Z)) :
  Permutation (sort_counts l) l
  /\ StronglySorted (fun a b => snd b <= snd a) (sort_counts l).
Proof.
  unfold sort_counts.
  assert (G : forall acc,
             StronglySorted (fun a b => snd b <= snd a) acc ->
             Permutation (fold_left (fun a x => insert_count x a) l acc)
               (acc ++ l)
             /\ StronglySorted (fun a b => snd b <= snd a)
                  (fold_left (fun a x => insert_count x a) l acc)).
  { induction l as [|x l IH]; intros acc Hacc; cbn [fold_left].
    - rewrite app_nil_r. now split.
    - destruct (IH _ (insert_count_sorted x Hacc)) as [P S].
      split; [|exact S]. rewrite P, insert_count_perm.
      apply Permutation_middle. }
  destruct (G [] (SSorted_nil _)) as [P S]. now split.
Qed.

Lemma tally_json_sorted (t : tally) :
  StronglySorted (fun a b : json * Z => snd b <= snd a) (tally_json t) ->
  StronglySorted more_often t.
Proof.
  induction t as [|[k n] t IH]; [constructor|].
  cbn [tally_json map]. intros H. inversion H as [|? ? Hs Hf]; subst.
  constructor; [now apply IH|].
  rewrite Forall_forall in *. intros [k' n'] Hin.
  apply (Hf (JStr k', n')). apply in_map_iff. now exists (k', n').
Qed.

Lemma tally_total_perm (t t' : tally) :
  Permutation t t' -> tally_total t = tally_total t'.
Proof.
  unfold tally_total.
  induction 1 as [| [k n] l l' _ IH | [k n] [k' n'] l | l l' l'' _ IH1 _ IH2];
    cbn [map snd fold_right] in *; lia.
Qed.

Lemma tally_for_perm (cats : list pystr) (t t' : tally) :
  Permutation t t' -> tally_for cats t -> tally_for cats t'.
Proof.
  intros P (N & Pos & G & T).
  assert (N' : NoDup (map fst t'))
    by (eapply Permutation_NoDup; [apply Permutation_map; exact P | exact N]).
  split; [exact N'|]. split.
  - intros k n Hin. apply (Pos k n). eapply Permutation_in; [symmetry|]; eauto.
  - split; [|now rewrite <- (tally_total_perm P)].
    intros cat. rewrite <- G.
    destruct (in_dec (list_eq_dec N.eq_dec) cat (map fst t)) as [Hin | Hnin].
    + apply in_map_iff in Hin as ([k n] & <- & Hin). cbn [fst].
      rewrite (@tally_get_in _ _ _ N Hin).
      apply tally_get_in; [exact N'|]. eapply Permutation_in; eauto.
    + rewrite (@tally_get_notin _ _ Hnin). apply tally_get_notin.
      intros Hin. apply Hnin.
      eapply Permutation_in; [symmetry; apply Permutation_map; exact P | exact Hin].
Qed.

(** ** The dict of the summary *)

Lemma dict_set_fresh (k : pystr) (v : json) (d : dict) :
  ~ In k (map fst d) -> dict_set k v d = d ++ [(k, v)].
Proof.
  induction d as [|[k' v'] d IH]; [reflexivity|].
  cbn [map fst In dict_set app]. intros H.
  destruct (pystr_eqb k' k) eqn:E.
  - apply pystr_eqb_eq in E. destruct H. now left.
  - rewrite IH; [reflexivity|]. intros Hin. apply H. now right.
Qed.

Lemma summary_dict `{Runtime} (total : nat) (t : tally) :
  forall d : dict,
    NoDup (map fst d ++ map fst t) ->
    fold_left
      (fun d kv =>
         dict_set (category_key (fst kv))
           (JObj [(str "count", JInt (snd kv));
                  (str "percentage",
                   if (0 <? total)%nat
                   then JFloat (round1 (snd kv) (Z.of_nat total))
                   else JInt 0)]) d)
      (tally_json t) d
    = d ++ map (fun kv => (fst kv, summary_entry (snd kv) total)) t.
Proof.
  induction t as [|[k n] t IH]; intros d Hnd; cbn [tally_json map fold_left].
  - now rewrite app_nil_r.
  - cbn [fst snd category_key]. cbn [map fst] in Hnd.
    rewrite dict_set_fresh.
    + change (tally_json t) with (map (fun kv => (JStr (fst kv), snd kv)) t) in IH.
      rewrite IH.
      * rewrite <- app_assoc. reflexivity.
      * rewrite map_app, <- app_assoc. exact Hnd.
    + apply NoDup_remove_2 in Hnd. intros Hin. apply Hnd.
      apply in_or_app. now left.
Qed.

Lemma tally_for_nil : tally_for [] [].
Proof.
  split; [constructor|]. split; [intros k n []|]. split; reflexivity.
Qed.

(** The summary of classifications whose categories are the strings
    [cats]. *)
Lemma compute_summary_tally `{Runtime} (cs : list json)
  (cats : list pystr) :
  map category_of cs = map Some cats ->
  exists t : tally,
    compute_summary (JArr cs)
    = Ok (JObj (map (fun kv => (fst kv,
                                summary_entry (snd kv) (List.length cs))) t))
    /\ tally_for cats t
    /\ StronglySorted more_often t.
Proof.
  intros Hc. unfold compute_summary. cbn [py_iter py_len rbind].
  destruct (@count_loop_tally cs cats [] [] Hc tally_for_nil) as (t0 & Hf & Ht0).
  change (tally_json []) with (@nil (json * Z)) in Hf. rewrite Hf.
  cbn [rbind app] in *.
  destruct (sort_counts_spec (tally_json t0)) as [P S].
  unfold tally_json at 2 in P.
  apply Permutation_map_inv in P as (t & Et & P).
  fold (tally_json t) in Et. rewrite Et in S |- *.
  pose proof (tally_for_perm P Ht0) as Ht.
  exists t. split; [|split; [exact Ht | now apply tally_json_sorted]].
  rewrite (summary_dict (List.length cs) t []); [reflexivity|].
  cbn [map app]. apply Ht.
Qed.

(** X14.  For classifications whose categories are strings,
    [compute_summary] returns, and lists each category that occurs
    exactly once, with the number of its occurrences as [count], which
    is positive, and [round(100 * count / total, 1)] as [percentage], in
    descending order of count; the counts add up to the number of
    classifications.  The percentage is the one that Python computes:
    the quotient is the nearest double, and it is that double which is
    rounded to one decimal, half to even. *)
Theorem compute_summary_counts `{Runtime} (cs : list json)
  (cats : list pystr) :
  map category_of cs = map Some cats ->
  exists t : tally,
    compute_summary (JArr cs)
    = Ok (JObj (map (fun kv => (fst kv,
                                summary_entry (snd kv) (List.length cs))) t))
    /\ tally_for cats t
    /\ StronglySorted more_often t.
Proof. exact (compute_summary_tally cs cats). Qed.

Lemma compute_summary_counts_witness :
  exists t : tally,
    @compute_summary example_runtime
      (JArr [JObj [(str "classification", example_verdict)];
             JObj [(str "classification",
                    JObj [(str "primary_category", JStr (str "other"))])];
             JObj [(str "classification", example_verdict)]])
    = Ok (JObj (map (fun kv => (fst kv, summary_entry (snd kv) 3)) t))
    /\ tally_for [str "wrong_tool"; str "other"; str "wrong_tool"] t
    /\ StronglySorted more_often t.
Proof.
  apply (@compute_summary_counts example_runtime
           [JObj [(str "classification", example_verdict)];
            JObj [(str "classification",
                   JObj [(str "primary_category", JStr (str "other"))])];
            JObj [(str "classification", example_verdict)]]
           [str "wrong_tool"; str "other"; str "wrong_tool"]).
  reflexivity.
Defined.

(* ================================================================== *)
(** * The categories of a run *)
(* ================================================================== *)

Lemma classify_step_known `{Runtime} (client : llm) (provider model : pystr)
  (delay : Q) (failure : json) (cs : list json) (w w' : world) (r : json) :
  classify_step client provider model delay failure (JArr cs) w = (Ok r, w') ->
  r = JArr cs
  \/ exists c, r = JArr (cs ++ [c]) /\ known_classification c.
Proof.
  unfold classify_step, bind, lift.
  destruct (py_getitem failure (str "task_id")) as [tid|]; [|discriminate].
  destruct (py_get failure (str "info") (JObj [])) as [info|]; [|discriminate].
  destruct (py_get info (str "task") JNull) as [task|]; [|discriminate].
  destruct (truthy task); cbn [negb].
  - destruct (classify_one client provider model failure delay w)
      as [[cls|] w1] eqn:E1; [|discriminate].
    apply classify_one_known in E1 as (o & s & -> & Hs & Hin).
    destruct (py_get failure (str "trial") (JInt 0)); [|discriminate].
    destruct (py_get task (str "instruction") (JStr [])); [|discriminate].
    destruct (py_get task (str "actions") (JArr [])); [|discriminate].
    destruct (py_get failure (str "traj") (JArr [])); [|discriminate].
    destruct (extract_agent_actions _); [|discriminate].
    cbn [py_append].
    destruct (py_getitem (JObj o) (str "primary_category")); [|discriminate].
    unfold write_partial, ret. intros E. injection E as <- _.
    right. eexists. split; [reflexivity|].
    exists s. split; [|exact Hin].
    unfold category_of.
    change (py_getitem (JObj _) (str "classification")) with (Ok (JObj o)).
    cbn [py_getitem]. now rewrite Hs.
  - unfold ret. intros E. injection E as <- _. now left.
Qed.

Lemma classify_loop_known `{Runtime} (client : llm) (provider model : pystr)
  (delay : Q) (failures : list json) :
  forall (cs : list json) (w w' : world) (r : json),
    classify_loop client provider model delay failures (JArr cs) w
      = (Ok r, w') ->
    exists new, r = JArr (cs ++ new) /\ Forall known_classification new.
Proof.
  induction failures as [|f failures IH]; intros cs w w' r.
  - cbn. unfold ret. intros E. injection E as <- _.
    exists []. now rewrite app_nil_r.
  - cbn [classify_loop]. unfold bind at 1.
    destruct (classify_step client provider model delay f (JArr cs) w)
      as [[r1|] w1] eqn:E1; [|discriminate].
    apply classify_step_known in E1 as [-> | (c & -> & Hc)]; intros E.
    + exact (IH _ _ _ _ E).
    + destruct (IH _ _ _ _ E) as (new & -> & Hnew).
      exists (c :: new). split; [now rewrite <- app_assoc | now constructor].
Qed.

Lemma known_categories (cs : list json) :
  Forall known_classification cs ->
  exists cats, map category_of cs = map Some cats
               /\ incl cats reported_categories.
Proof.
  induction 1 as [|c cs (s & Hs & Hin) _ (cats & Hc & Hi)].
  - exists []. split; [reflexivity | intros x []].
  - exists (s :: cats). split; [cbn [map]; now rewrite Hs, Hc|].
    intros x [<- | Hx]; auto.
Qed.

Lemma occurrences_positive (cat : pystr) (cats : list pystr) :
  0 < occurrences cat cats -> In cat cats.
Proof.
  unfold occurrences. intros H.
  destruct (filter (pystr_eqb cat) cats) as [|x l] eqn:E; [cbn in H; lia|].
  assert (Hx : In x (filter (pystr_eqb cat) cats)) by (rewrite E; now left).
  apply filter_In in Hx as [Hin Hx]. apply pystr_eqb_eq in Hx. now subst.
Qed.

Lemma tally_keys (cats : list pystr) (t : tally) :
  tally_for cats t -> incl (map fst t) cats.
Proof.
  intros (N & P & G & _) k Hk.
  apply in_map_iff in Hk as ([k' n] & <- & Hin). cbn [fst].
  apply occurrences_positive. rewrite <- G, (@tally_get_in _ _ _ N Hin).
  eauto.
Qed.

(** X15.  In the result of a run that starts without a checkpoint, or
    with [force], every classification has a [primary_category] among
    the nine categories of the taxonomy, [parse_error], [api_error] and
    [other], and every key of the summary is one of these twelve. *)
Theorem process_file_fresh_run_uses_known_categories `{Runtime}
  (data : json) (filepath config_name : pystr) (client : llm)
  (provider model : pystr) (sample_size : Z) (delay : Q)
  (force dry_run : bool) (w w' : world) (r : json) :
  result_file w = None \/ force = true ->
  partial_file w = None \/ force = true ->
  process_file data filepath config_name client provider model sample_size
    delay force dry_run w = (Ok r, w') ->
  r <> JNull ->
  exists (stats : json) (summary : dict) (classifications : list json),
    r = JObj [(str "config", JStr config_name);
              (str "file", JStr filepath);
              (str "stats", stats);
              (str "summary", JObj summary);
              (str "classifications", JArr classifications)]
    /\ Forall known_classification classifications
    /\ incl (map fst summary) reported_categories.
Proof.
  intros Hfresh Hnew Hrun Hr. revert Hrun.
  unfold process_file, bind, get_world, lift.
  assert (Hm : match result_file w, force with
               | Some _, false => False
               | _, _ => True
               end).
  { destruct Hfresh as [-> | ->]; [exact I|]. destruct (result_file w); exact I. }
  assert (Hp : match partial_file w, force with
               | Some _, false => False
               | _, _ => True
               end).
  { destruct Hnew as [-> | ->]; [exact I|]. destruct (partial_file w); exact I. }
  destruct (result_file w) as [stored|], force; try (now destruct Hm);
    (destruct (load_and_sample data sample_size default_seed)
       as [[failures n]|]; [|discriminate]);
    cbn [fst];
    (destruct (count_tasks data); [|discriminate]);
    (destruct failures as [|first rest];
       [unfold ret; intros E; injection E as <- _; now destruct Hr|]);
    (destruct dry_run;
       [destruct (build_prompt first); discriminate|]);
    destruct (partial_file w) as [partial|]; try (now destruct Hp);
    unfold ret at 1; cbn [fst snd skipn];
    (destruct (classify_loop client provider model delay (first :: rest)
                 (JArr []) w) as [[cs|] w1] eqn:Eloop; [|discriminate]);
    apply classify_loop_known in Eloop as (new & -> & Hknown);
    cbn [app] in *;
    destruct (known_categories Hknown) as (cats & Hcats & Hincl);
    destruct (compute_summary_tally new cats Hcats) as (t & -> & Ht & _);
    (destruct (count_zero_reward data); [|discriminate]);
    unfold write_result, unlink_partial, ret;
    intros E; injection E as <- _;
    eexists _, _, new; (split; [reflexivity|]); (split; [exact Hknown|]);
    rewrite map_map; cbn [fst];
    intros k Hk; apply Hincl; exact (tally_keys Ht k Hk).
Qed.

Lemma process_file_fresh_run_uses_known_categories_witness :
  exists (r : json) (w' : world),
    @process_file example_runtime two_failures (str "f.json") (str "cfg")
      answering (str "anthropic") (str "m") 50 (1 # 2) false false
      empty_world = (Ok r, w')
    /\ exists (stats : json) (summary : dict) (classifications : list json),
         r = JObj [(str "config", JStr (str "cfg"));
                   (str "file", JStr (str "f.json"));
                   (str "stats", stats);
                   (str "summary", JObj summary);
                   (str "classifications", JArr classifications)]
         /\ Forall known_classification classifications
         /\ incl (map fst summary) reported_categories.
Proof.
  destruct (@process_file example_runtime two_failures (str "f.json")
              (str "cfg") answering (str "anthropic") (str "m") 50 (1 # 2)
              false false empty_world) as [[r|e] w'] eqn:E;
    [|vm_compute in E; discriminate E].
  exists r, w'. split; [reflexivity|].
  assert (F : result_file empty_world = None \/ false = true)
    by (left; reflexivity).
  assert (P : partial_file empty_world = None \/ false = true)
    by (left; reflexivity).
  apply (@process_file_fresh_run_uses_known_categories example_runtime
           _ _ _ _ _ _ _ _ _ _ _ _ _ F P E).
  intros ->. vm_compute in E. discriminate E.
Defined.

(** The loop appends one classification with a known category for each
    entry with a task. *)
Lemma classify_loop_appends_known `{Runtime} (client : llm)
  (provider model : pystr) (delay : Q) (failures cs : list json)
  (w w' : world) (r : json) :
  classify_loop client provider model delay failures (JArr cs) w
    = (Ok r, w') ->
  exists new,
    r = JArr (cs ++ new)
    /\ List.length new = List.length (filter has_task failures)
    /\ Forall known_classification new.
Proof.
  intros E.
  destruct (classify_loop_appends _ _ _ _ _ _ _ E) as (new & Hr & Hlen).
  destruct (classify_loop_known _ _ _ _ _ _ _ E) as (new' & Hr' & Hk).
  exists new. split; [exact Hr|]. split; [exact Hlen|].
  rewrite Hr in Hr'. injection Hr' as Hr'. apply app_inv_head in Hr'.
  now subst.
Qed.

(** X16.  A run that resumes from a checkpoint of [K] classifications
    and ends returns the checkpoint unchanged, followed by one new
    classification with a known category for each sampled entry with a
    task from index [K] on; it writes the result file and removes the
    checkpoint. *)
Theorem process_file_resume_extends_checkpoint `{Runtime}
  (data : json) (filepath config_name : pystr) (client : llm)
  (provider model : pystr) (sample_size : Z) (delay : Q)
  (w w' : world) (checkpoint sample : list json) (n : nat) (r : json) :
  result_file w = None ->
  partial_file w = Some (checkpoint_doc checkpoint) ->
  load_and_sample data sample_size default_seed = Ok (sample, n) ->
  process_file data filepath config_name client provider model sample_size
    delay false false w = (Ok r, w') ->
  r <> JNull ->
  exists new,
    py_getitem r (str "classifications") = Ok (JArr (checkpoint ++ new))
    /\ List.length new
       = List.length (filter has_task (skipn (List.length checkpoint) sample))
    /\ Forall known_classification new
    /\ result_file w' = Some r
    /\ partial_file w' = None.
Proof.
  intros Hres Hpart Hsample. unfold process_file, bind, get_world, lift.
  rewrite Hres, Hsample. cbn [fst].
  destruct (count_tasks data); [|discriminate].
  destruct sample as [|first rest].
  { unfold ret. intros E Hn. injection E as <- _. now destruct Hn. }
  rewrite Hpart. unfold checkpoint_doc. cbn [py_get dict_lookup pystr_eqb].
  change (pystr_eqb (str "classifications") (str "classifications")) with true.
  cbn [py_len ret fst snd].
  destruct (classify_loop client provider model delay
              (skipn (List.length checkpoint) (first :: rest))
              (JArr checkpoint) w) as [[cs|] w1] eqn:Eloop; [|discriminate].
  apply classify_loop_appends_known in Eloop as (new & -> & Hlen & Hk).
  destruct (compute_summary _); [|discriminate].
  destruct (count_zero_reward data); [|discriminate].
  unfold write_result, unlink_partial. intros E _. injection E as <- <-.
  exists new. repeat split; assumption.
Qed.

Lemma process_file_resume_extends_checkpoint_witness :
  exists (r : json) (w' : world) (new : list json),
    @process_file example_runtime two_failures (str "f.json") (str "cfg")
      answering (str "anthropic") (str "m") 50 (1 # 2) false false
      {| result_file := None;
         partial_file := Some (checkpoint_doc [JObj [(str "task_id", JInt 1); (str "classification", example_verdict)]]);
         trace := [] |}
    = (Ok r, w')
    /\ py_getitem r (str "classifications")
       = Ok (JArr ([JObj [(str "task_id", JInt 1); (str "classification", example_verdict)]] ++ new))
    /\ List.length new = 1%nat.
Proof.
  destruct (@process_file example_runtime two_failures (str "f.json")
              (str "cfg") answering (str "anthropic") (str "m") 50 (1 # 2)
              false false
              {| result_file := None;
                 partial_file :=
                   Some (checkpoint_doc [JObj [(str "task_id", JInt 1); (str "classification", example_verdict)]]);
                 trace := [] |}) as [[r|e] w'] eqn:E;
    [|vm_compute in E; discriminate E].
  destruct (@process_file_resume_extends_checkpoint example_runtime
              two_failures (str "f.json") (str "cfg") answering
              (str "anthropic") (str "m") 50 (1 # 2)
              {| result_file := None;
                 partial_file :=
                   Some (checkpoint_doc [JObj [(str "task_id", JInt 1); (str "classification", example_verdict)]]);
                 trace := [] |} w'
              [JObj [(str "task_id", JInt 1); (str "classification", example_verdict)]]
              [example_failure 1 example_task; example_failure 2 example_task]
              2%nat r eq_refl eq_refl)
    as (new & Hr & Hlen & _).
  - vm_compute. reflexivity.
  - exact E.
  - intros ->. vm_compute in E. discriminate E.
  - exists r, w', new. split; [reflexivity|]. split; [exact Hr | exact Hlen].
Defined.

(* ================================================================== *)
(** * More on the sampler *)
(* ================================================================== *)

Lemma wf_entry_task_id (e : json) :
  wf_entry e = true ->
  py_getitem e (str "task_id") = Ok (JInt (entry_task_id e)).
Proof.
  unfold wf_entry, entry_task_id, int_field.
  destruct e as [| | | | | | |o]; try discriminate. cbn [py_getitem].
  destruct (dict_lookup (str "task_id") o) as [[]|]; try discriminate.
  reflexivity.
Qed.

Lemma wf_entry_trial (e : json) :
  wf_entry e = true ->
  py_get e (str "trial") (JInt 0) = Ok (JInt (entry_trial e)).
Proof.
  unfold wf_entry, entry_trial, int_field.
  destruct e as [| | | | | | |o]; try discriminate. cbn [py_get].
  destruct (dict_lookup (str "task_id") o) as [[]|]; try discriminate.
  destruct (dict_lookup (str "trial") o) as [[]|]; try discriminate;
    reflexivity.
Qed.

Lemma wf_is_failure (e : json) :
  wf_entry e = true -> is_failure e = Ok (failed e).
Proof.
  unfold failed. intros H.
  assert (G : exists b, is_failure e = Ok b); [|destruct G as [b ->]; reflexivity].
  revert H. unfold wf_entry, is_failure, int_field.
  destruct e as [| | | | | | |o]; try discriminate. cbn [py_get rbind].
  destruct (dict_lookup (str "task_id") o) as [[]|]; try discriminate.
  destruct (dict_lookup (str "trial") o) as [[]|]; try discriminate;
    cbn [andb negb];
    (destruct (negb (eq_zero _)); [eauto|]);
    (destruct (dict_lookup (str "info") o) as [[]|]; try discriminate);
    cbn [py_in rbind dict_lookup]; intros _;
    match goal with
    | |- context [negb ?b] => destruct b; cbn [negb]; eauto
    end.
Qed.

Lemma rfilter_wf (l : list json) :
  Forall (fun e => wf_entry e = true) l ->
  rfilter is_failure l = Ok (filter failed l).
Proof.
  induction 1 as [|e l He _ IH]; [reflexivity|].
  cbn [rfilter filter]. rewrite (wf_is_failure _ He), IH. reflexivity.
Qed.

Lemma key_eqb_int (a b : Z) : key_eqb (JInt a) (JInt b) = (a =? b).
Proof.
  unfold key_eqb. cbn [num_value].
  destruct (a =? b) eqn:E.
  - apply Z.eqb_eq in E. subst. apply Qeq_bool_iff. reflexivity.
  - apply Z.eqb_neq in E. destruct (Qeq_bool _ _) eqn:Q; [|reflexivity].
    apply Qeq_bool_iff in Q. apply (proj1 (inject_Z_injective _ _)) in Q.
    contradiction.
Qed.

Lemma py_lt_int (a b : Z) : py_lt (JInt a) (JInt b) = Ok (a <? b).
Proof.
  unfold py_lt. cbn [num_value]. f_equal.
  destruct (a <? b) eqn:E.
  - apply Z.ltb_lt in E. apply negb_true_iff.
    destruct (Qle_bool _ _) eqn:Q; [|reflexivity].
    apply Qle_bool_iff in Q. rewrite <- Zle_Qle in Q. lia.
  - apply Z.ltb_ge in E. apply negb_false_iff. apply Qle_bool_iff.
    now rewrite <- Zle_Qle.
Qed.

Lemma kdict_lookup_int (k : Z) (d : zdict) :
  kdict_lookup (JInt k) (zdict_json d) = zdict_lookup k d.
Proof.
  induction d as [|[k' v] d IH]; [reflexivity|].
  cbn [zdict_json map kdict_lookup zdict_lookup fst snd].
  rewrite key_eqb_int. destruct (k' =? k); [reflexivity | exact IH].
Qed.

Lemma kdict_set_int (k : Z) (v : json) (d : zdict) :
  kdict_set (JInt k) v (zdict_json d) = zdict_json (zdict_set k v d).
Proof.
  induction d as [|[k' v'] d IH]; [reflexivity|].
  cbn [zdict_json map kdict_set zdict_set fst snd].
  rewrite key_eqb_int. destruct (k' =? k); [reflexivity|].
  cbn [map fst snd]. f_equal. exact IH.
Qed.

Lemma zdict_lookup_In (k : Z) (d : zdict) (v : json) :
  zdict_lookup k d = Some v -> In (k, v) d.
Proof.
  induction d as [|[k' v'] d IH]; [discriminate|]. cbn [zdict_lookup].
  destruct (k' =? k) eqn:E.
  - apply Z.eqb_eq in E. intros H. injection H as ->. subst. now left.
  - intros H. right. auto.
Qed.

(** One turn of the loop that fills [seen], on entries with integer
    identifiers and trials. *)
Lemma dedup_step_int (seen : zdict) (e : json) :
  wf_entry e = true ->
  (forall k v, In (k, v) seen -> wf_entry v = true) ->
  dedup_step (zdict_json seen) e = Ok (zdict_json (zdedup_step seen e)).
Proof.
  intros He Hseen. unfold dedup_step, zdedup_step.
  rewrite (wf_entry_task_id _ He). cbn [rbind hashable negb].
  rewrite kdict_lookup_int.
  destruct (zdict_lookup (entry_task_id e) seen) as [old|] eqn:E.
  - rewrite (wf_entry_trial _ He). cbn [rbind].
    rewrite (wf_entry_trial old (Hseen _ _ (zdict_lookup_In _ _ E))).
    cbn [rbind]. rewrite py_lt_int. cbn [rbind].
    destruct (entry_trial e <? entry_trial old); [|reflexivity].
    now rewrite kdict_set_int.
  - now rewrite kdict_set_int.
Qed.

Lemma zdict_set_In (k : Z) (v : json) (d : zdict) (k' : Z) (v' : json) :
  In (k', v') (zdict_set k v d) -> (k' = k /\ v' = v) \/ In (k', v') d.
Proof.
  induction d as [|[k0 v0] d IH]; cbn [zdict_set].
  - intros [E | []]. injection E as <- <-. now left.
  - destruct (k0 =? k) eqn:E.
    + apply Z.eqb_eq in E. subst. intros [E' | H].
      * injection E' as <- <-. now left.
      * right. now right.
    + intros [E' | H]; [right; now left|].
      destruct (IH H) as [? | ?]; [now left | right; now right].
Qed.

Lemma zdedup_step_In (seen : zdict) (e : json) (k : Z) (v : json) :
  In (k, v) (zdedup_step seen e) ->
  (k = entry_task_id e /\ v = e) \/ In (k, v) seen.
Proof.
  unfold zdedup_step.
  destruct (zdict_lookup _ seen) as [old|].
  - destruct (_ <? _); [apply zdict_set_In | now right].
  - apply zdict_set_In.
Qed.

Lemma dedup_int (failures : list json) :
  Forall (fun e => wf_entry e = true) failures ->
  dedup failures
  = Ok (zdict_json (fold_left zdedup_step failures [])).
Proof.
  unfold dedup. intros Hwf.
  assert (G : forall seen : zdict,
             (forall k v, In (k, v) seen -> wf_entry v = true) ->
             fold_left (fun acc e => (s <- acc ;; dedup_step s e)%res)
               failures (Ok (zdict_json seen))
             = Ok (zdict_json (fold_left zdedup_step failures seen))).
  { induction Hwf as [|e l He _ IH]; intros seen Hseen; [reflexivity|].
    cbn [fold_left rbind]. rewrite (@dedup_step_int seen e He Hseen).
    apply IH. intros k v Hin.
    destruct (@zdedup_step_In _ _ _ _ Hin) as [[_ ->] | Hold]; eauto. }
  apply (G []). intros k v [].
Qed.

Lemma zinsert_In (x : json) (l : list json) (y : json) :
  In y (zinsert x l) <-> y = x \/ In y l.
Proof.
  induction l as [|z l IH]; cbn [zinsert].
  - cbn. intuition.
  - destruct (_ <? _); cbn [In]; [intuition|]. rewrite IH. intuition.
Qed.

Lemma insert_by_int (x : json) (l : list json) :
  wf_entry x = true ->
  Forall (fun e => wf_entry e = true) l ->
  insert_by (fun e => py_getitem e (str "task_id")) x l = Ok (zinsert x l).
Proof.
  intros Hx. induction 1 as [|y l Hy _ IH]; [reflexivity|].
  cbn [insert_by zinsert].
  rewrite (wf_entry_task_id _ Hx), (wf_entry_task_id _ Hy). cbn [rbind].
  rewrite py_lt_int. cbn [rbind].
  destruct (_ <? _); [reflexivity|]. now rewrite IH.
Qed.

Lemma sorted_by_int (l : list json) :
  Forall (fun e => wf_entry e = true) l ->
  sorted_by (fun e => py_getitem e (str "task_id")) l = Ok (zsort l).
Proof.
  unfold sorted_by, zsort. intros Hl.
  assert (G : forall acc,
             Forall (fun e => wf_entry e = true) acc ->
             fold_left
               (fun a x =>
                  (a0 <- a ;; insert_by (fun e => py_getitem e (str "task_id"))
                                x a0)%res) l (Ok acc)
             = Ok (fold_left (fun a x => zinsert x a) l acc)).
  { induction Hl as [|x l Hx _ IH]; intros acc Hacc; [reflexivity|].
    cbn [fold_left rbind]. rewrite (@insert_by_int x acc Hx Hacc).
    apply IH. rewrite Forall_forall in *. intros y Hy.
    apply zinsert_In in Hy as [-> | Hy]; auto. }
  apply G. constructor.
Qed.

Lemma zinsert_perm (x : json) (l : list json) :
  Permutation (zinsert x l) (x :: l).
Proof.
  induction l as [|y l IH]; cbn [zinsert]; [reflexivity|].
  destruct (_ <? _); [reflexivity|]. rewrite IH. apply perm_swap.
Qed.

Lemma zinsert_sorted (x : json) (l : list json) :
  StronglySorted lower_task l ->
  ~ In (entry_task_id x) (map entry_task_id l) ->
  StronglySorted lower_task (zinsert x l).
Proof.
  induction 1 as [|y l Hs IH Hy]; cbn [zinsert map In]; intros Hx.
  - repeat constructor.
  - destruct (entry_task_id x <? entry_task_id y) eqn:E.
    + apply Z.ltb_lt in E. constructor; [now constructor|].
      constructor; [exact E|]. rewrite Forall_forall in *.
      intros z Hz. specialize (Hy z Hz). unfold lower_task in *. lia.
    + apply Z.ltb_ge in E. constructor; [apply IH; tauto|].
      rewrite Forall_forall in *. intros z Hz.
      apply zinsert_In in Hz as [-> | Hz]; [|auto].
      unfold lower_task.
      assert (entry_task_id y <> entry_task_id x) by tauto. lia.
Qed.

Lemma zsort_spec (l : list json) :
  NoDup (map entry_task_id l) ->
  Permutation (zsort l) l /\ StronglySorted lower_task (zsort l).
Proof.
  unfold zsort. intros Hnd.
  assert (G : forall acc,
             StronglySorted lower_task acc ->
             NoDup (map entry_task_id (acc ++ l)) ->
             Permutation (fold_left (fun a x => zinsert x a) l acc) (acc ++ l)
             /\ StronglySorted lower_task
                  (fold_left (fun a x => zinsert x a) l acc)).
  { clear Hnd. induction l as [|x l IH]; intros acc Hacc Hnd;
      cbn [fold_left].
    - rewrite app_nil_r. now split.
    - assert (P : Permutation (zinsert x acc ++ l) (acc ++ x :: l)).
      { rewrite zinsert_perm. cbn [app]. apply Permutation_middle. }
      destruct (IH (zinsert x acc)) as [P' S'].
      + apply zinsert_sorted; [exact Hacc|].
        rewrite map_app in Hnd. cbn [map] in Hnd.
        apply NoDup_remove_2 in Hnd. intros Hin. apply Hnd.
        apply in_or_app. now left.
      + eapply Permutation_NoDup; [|exact Hnd].
        apply Permutation_map. now symmetry.
      + split; [now rewrite P' | exact S']. }
  apply (G []); [constructor | exact Hnd].
Qed.

(** ** The deduplication *)

Lemma zdict_lookup_None (k : Z) (d : zdict) :
  zdict_lookup k d = None <-> ~ In k (map fst d).
Proof.
  induction d as [|[k' v] d IH]; cbn [zdict_lookup map fst In].
  - intuition.
  - destruct (k' =? k) eqn:E.
    + apply Z.eqb_eq in E. split; [discriminate | intros H; destruct H; now left].
    + apply Z.eqb_neq in E. rewrite IH. intuition.
Qed.

Lemma zdict_lookup_Some (k : Z) (d : zdict) (v : json) :
  NoDup (map fst d) -> In (k, v) d -> zdict_lookup k d = Some v.
Proof.
  induction d as [|[k' v'] d IH]; [intros _ []|].
  cbn [map fst zdict_lookup]. intros Hnd [E | Hin].
  - injection E as -> ->. now rewrite Z.eqb_refl.
  - inversion Hnd as [|? ? Hk Hnd']; subst.
    destruct (k' =? k) eqn:E; [|now apply IH].
    apply Z.eqb_eq in E. subst. destruct Hk.
    apply in_map_iff. now exists (k, v).
Qed.

Lemma zdict_set_fresh (k : Z) (v : json) (d : zdict) :
  ~ In k (map fst d) -> zdict_set k v d = d ++ [(k, v)].
Proof.
  induction d as [|[k' v'] d IH]; [reflexivity|].
  cbn [map fst In zdict_set app]. intros H.
  destruct (k' =? k) eqn:E.
  - apply Z.eqb_eq in E. destruct H. now left.
  - rewrite IH; [reflexivity | tauto].
Qed.

Lemma zdict_set_keys (k : Z) (v : json) (d : zdict) :
  In k (map fst d) -> map fst (zdict_set k v d) = map fst d.
Proof.
  induction d as [|[k' v'] d IH]; [intros []|].
  cbn [map fst In zdict_set]. intros H.
  destruct (k' =? k) eqn:E; [reflexivity|].
  apply Z.eqb_neq in E. cbn [map fst]. f_equal. apply IH. tauto.
Qed.

Lemma zdict_set_other (k : Z) (v : json) (d : zdict) (k' : Z) (v' : json) :
  NoDup (map fst d) ->
  In (k', v') (zdict_set k v d) ->
  (k' = k /\ v' = v) \/ (k' <> k /\ In (k', v') d).
Proof.
  induction d as [|[k0 v0] d IH]; cbn [zdict_set map fst].
  - intros _ [E | []]. injection E as <- <-. now left.
  - intros Hnd. inversion Hnd as [|? ? Hk Hnd']; subst.
    destruct (k0 =? k) eqn:E.
    + apply Z.eqb_eq in E. subst. intros [E' | H].
      * injection E' as <- <-. now left.
      * right. split; [|now right]. intros ->. apply Hk.
        apply in_map_iff. now exists (k, v').
    + apply Z.eqb_neq in E. intros [E' | H].
      * injection E' as <- <-. right. split; [exact E | now left].
      * destruct (IH Hnd' H) as [? | [? ?]]; [now left|].
        right. split; [assumption | now right].
Qed.

Lemma zdict_set_keeps (k : Z) (v : json) (d : zdict) (k' : Z) (v' : json) :
  k' <> k -> In (k', v') d -> In (k', v') (zdict_set k v d).
Proof.
  intros Hne. induction d as [|[k0 v0] d IH]; [intros []|].
  cbn [zdict_set]. destruct (k0 =? k) eqn:E.
  - apply Z.eqb_eq in E. subst. intros [E' | H].
    + injection E' as <- <-. contradiction.
    + now right.
  - intros [E' | H]; [now left | right; auto].
Qed.

Lemma zdict_set_has (k : Z) (v : json) (d : zdict) :
  In (k, v) (zdict_set k v d).
Proof.
  induction d as [|[k0 v0] d IH]; cbn [zdict_set]; [now left|].
  destruct (k0 =? k) eqn:E.
  - apply Z.eqb_eq in E. subst. now left.
  - now right.
Qed.

Lemma zdict_set_NoDup (k : Z) (v : json) (d : zdict) :
  NoDup (map fst d) -> NoDup (map fst (zdict_set k v d)).
Proof.
  intros Hnd.
  destruct (in_dec Z.eq_dec k (map fst d)) as [Hin | Hnin].
  - now rewrite zdict_set_keys.
  - rewrite zdict_set_fresh, map_app by assumption. cbn [map fst].
    apply NoDup_app; [exact Hnd | repeat constructor; intros [] |].
    intros x Hx [<- | []]. contradiction.
Qed.

Lemma seen_for_step (done : list json) (d : zdict) (e : json) :
  seen_for done d -> seen_for (done ++ [e]) (zdedup_step d e).
Proof.
  intros (Hnd & Hb & Hc). unfold zdedup_step.
  destruct (zdict_lookup (entry_task_id e) d) as [old|] eqn:E.
  - pose proof (zdict_lookup_In _ _ E) as Hold.
    destruct (Hb _ _ Hold) as (Hido & Hino & Hmino).
    destruct (entry_trial e <? entry_trial old) eqn:Hlt.
    + apply Z.ltb_lt in Hlt.
      assert (Hk : In (entry_task_id e) (map fst d))
        by (apply in_map_iff; now exists (entry_task_id e, old)).
      split; [now apply zdict_set_NoDup|]. split.
      * intros k v Hin.
        destruct (zdict_set_other _ _ _ _ _ Hnd Hin) as [[-> ->] | [Hne Hin']].
        -- split; [reflexivity|]. split; [apply in_or_app; right; now left|].
           intros e' He' Hid. apply in_app_or in He' as [He' | [<- | []]]; [|lia].
           specialize (Hmino e' He' Hid). lia.
        -- destruct (Hb _ _ Hin') as (Hid & Hin0 & Hmin).
           split; [exact Hid|]. split; [apply in_or_app; now left|].
           intros e' He' Hid'. apply in_app_or in He' as [He' | [<- | []]];
             [auto | congruence].
      * intros e' He'. rewrite zdict_set_keys by exact Hk.
        apply in_app_or in He' as [He' | [<- | []]]; auto.
    + apply Z.ltb_ge in Hlt. split; [exact Hnd|]. split.
      * intros k v Hin. destruct (Hb _ _ Hin) as (Hid & Hin0 & Hmin).
        split; [exact Hid|]. split; [apply in_or_app; now left|].
        intros e' He' Hid'. apply in_app_or in He' as [He' | [<- | []]];
          [auto|].
        rewrite Hid', (@zdict_lookup_Some _ _ _ Hnd Hin) in E.
        injection E as ->. exact Hlt.
      * intros e' He'. apply in_app_or in He' as [He' | [<- | []]]; [auto|].
        apply in_map_iff. now exists (entry_task_id e, old).
  - apply zdict_lookup_None in E.
    rewrite zdict_set_fresh by exact E. split.
    + rewrite map_app. cbn [map fst].
      apply NoDup_app; [exact Hnd | repeat constructor; intros [] |].
      intros x Hx [<- | []]. contradiction.
    + split.
      * intros k v Hin. apply in_app_or in Hin as [Hin | [Heq | []]].
        -- destruct (Hb _ _ Hin) as (Hid & Hin0 & Hmin).
           split; [exact Hid|]. split; [apply in_or_app; now left|].
           intros e' He' Hid'. apply in_app_or in He' as [He' | [<- | []]];
             [auto|].
           exfalso. apply E. rewrite Hid'. apply in_map_iff. now exists (k, v).
        -- injection Heq as <- <-. split; [reflexivity|].
           split; [apply in_or_app; right; now left|].
           intros e' He' Hid'. apply in_app_or in He' as [He' | [<- | []]];
             [|lia].
           exfalso. apply E. rewrite <- Hid'. now apply Hc.
      * intros e' He'. rewrite map_app. apply in_or_app.
        apply in_app_or in He' as [He' | [<- | []]]; [left; auto|].
        right. now left.
Qed.

Lemma seen_for_fold (failures : list json) :
  forall done d,
    seen_for done d ->
    seen_for (done ++ failures) (fold_left zdedup_step failures d).
Proof.
  induction failures as [|e l IH]; intros done d H; cbn [fold_left].
  - now rewrite app_nil_r.
  - replace (done ++ e :: l) with ((done ++ [e]) ++ l)
      by now rewrite <- app_assoc.
    apply IH. now apply seen_for_step.
Qed.

Lemma seen_for_nil : seen_for [] [].
Proof.
  split; [constructor|]. split; [intros k v [] | intros e' []].
Qed.

(** What [load_and_sample] computes before it samples, on a file of
    well-formed entries. *)
Lemma load_and_sample_unique `{Runtime} (entries : list json)
  (sample_size seed : Z) :
  Forall (fun e => wf_entry e = true) entries ->
  exists unique,
    deduplicated entries unique
    /\ load_and_sample (JArr entries) sample_size seed
       = if Z.of_nat (List.length unique) <=? sample_size
         then Ok (unique, List.length entries)
         else if sample_size <? 0 then raise_cls ValueError
         else Ok (random_sample seed unique (Z.to_nat sample_size),
                  List.length entries).
Proof.
  intros Hwf.
  assert (Hf : Forall (fun e => wf_entry e = true) (filter failed entries)).
  { rewrite Forall_forall in *. intros e He. apply filter_In in He. now apply Hwf. }
  pose proof (@seen_for_fold (filter failed entries) [] [] seen_for_nil) as Hs.
  cbn [app] in Hs.
  set (d := fold_left zdedup_step (filter failed entries) []) in *.
  destruct Hs as (Hnd & Hb & Hc).
  assert (Hids : map entry_task_id (map snd d) = map fst d).
  { rewrite map_map. apply map_ext_in. intros [k v] Hin. cbn [fst snd].
    now destruct (Hb _ _ Hin) as [-> _]. }
  assert (Hv : Forall (fun e => wf_entry e = true) (map snd d)).
  { rewrite Forall_forall in *. intros v Hin.
    apply in_map_iff in Hin as ([k v'] & <- & Hin). cbn [snd].
    apply Hf. now destruct (Hb _ _ Hin) as (_ & ? & _). }
  destruct (zsort_spec (map snd d)) as [P S]; [now rewrite Hids|].
  exists (zsort (map snd d)). split.
  - split; [exact S|]. split.
    + intros e He. apply (Permutation_in _ P) in He.
      apply in_map_iff in He as ([k v] & <- & Hin). cbn [snd].
      destruct (Hb _ _ Hin) as (Hid & Hin0 & Hmin).
      apply filter_In in Hin0 as [Hin0 Hfail].
      split; [exact Hin0|]. split; [exact Hfail|].
      intros e' He' Hf' Hid'. apply Hmin; [|congruence].
      apply filter_In. now split.
    + intros e' He' Hf'.
      assert (Hin : In e' (filter failed entries)) by (apply filter_In; now split).
      apply Hc in Hin. apply in_map_iff in Hin as ([k v] & Hk & Hin).
      cbn [fst] in Hk. subst k. exists v. split.
      * apply (Permutation_in _ (Permutation_sym P)).
        apply in_map_iff. now exists (entry_task_id e', v).
      * now destruct (Hb _ _ Hin) as [-> _].
  - unfold load_and_sample. cbn [py_iter py_len rbind].
    rewrite (rfilter_wf Hwf). cbn [rbind].
    rewrite (dedup_int Hf). cbn [rbind]. fold d.
    assert (Hm : map snd (zdict_json d) = map snd d).
    { unfold zdict_json. rewrite map_map. reflexivity. }
    rewrite Hm, (sorted_by_int Hv). cbn [rbind]. reflexivity.
Qed.

(** X17.  For a file of well-formed entries, [load_and_sample]
    deduplicates the entries that pass its filter: it keeps, in
    ascending order of [task_id], one such entry for each task that has
    one, of the lowest trial of the task.  When these are no more than
    [sample_size] it returns them all, and otherwise [random.sample] of
    [sample_size] of them, which raises [ValueError] for a negative
    size; with them it returns the number of entries of the file. *)
Theorem load_and_sample_deduplicates `{Runtime} (entries : list json)
  (sample_size seed : Z) :
  Forall (fun e => wf_entry e = true) entries ->
  exists unique,
    deduplicated entries unique
    /\ load_and_sample (JArr entries) sample_size seed
       = if Z.of_nat (List.length unique) <=? sample_size
         then Ok (unique, List.length entries)
         else if sample_size <? 0 then raise_cls ValueError
         else Ok (random_sample seed unique (Z.to_nat sample_size),
                  List.length entries).
Proof. apply load_and_sample_unique. Qed.

Lemma load_and_sample_deduplicates_witness :
  exists unique,
    deduplicated
      [example_failure 2 example_task; example_failure 1 example_task;
       example_failure 2 example_task] unique
    /\ @load_and_sample example_runtime
         (JArr [example_failure 2 example_task; example_failure 1 example_task;
                example_failure 2 example_task]) 1 7
       = if Z.of_nat (List.length unique) <=? 1
         then Ok (unique, 3%nat)
         else if 1 <? 0 then raise_cls ValueError
         else Ok (@random_sample example_runtime 7 unique (Z.to_nat 1), 3%nat).
Proof.
  apply (@load_and_sample_deduplicates example_runtime
           [example_failure 2 example_task; example_failure 1 example_task;
            example_failure 2 example_task] 1 7).
  repeat constructor.
Defined.

Lemma rotate_length (n : nat) (l : list json) :
  List.length (rotate n l) = List.length l.
Proof.
  unfold rotate. rewrite length_app, length_skipn, length_firstn.
  destruct (Nat.min_spec (n mod List.length l) (List.length l))
    as [[Hm ->] | [Hm ->]]; lia.
Qed.

(** The sampler of the examples returns as many elements as asked. *)
Lemma example_sample_length (seed : Z) (l : list json) (k : nat) :
  (k <= List.length l)%nat ->
  List.length (@random_sample example_runtime seed l k) = k.
Proof.
  cbn [random_sample example_runtime]. intros Hk.
  rewrite length_firstn, rotate_length. now apply Nat.min_l.
Qed.

(** X18.  Let [random.sample] return as many elements as it is asked
    for.  For a file of well-formed entries and a sample size that is
    not negative, [load_and_sample] returns a sample of at most that
    size, no larger than the number of entries that pass the filter,
    with the number of entries of the file; the sample is empty exactly
    when the size is 0 or no entry passes the filter.  For a negative
    sample size it raises [ValueError]. *)
Theorem load_and_sample_size `{Runtime} (entries : list json)
  (sample_size seed : Z) :
  (forall seed l k, (k <= List.length l)%nat ->
                    List.length (random_sample seed l k) = k) ->
  Forall (fun e => wf_entry e = true) entries ->
  (0 <= sample_size ->
   exists sample,
     load_and_sample (JArr entries) sample_size seed
     = Ok (sample, List.length entries)
     /\ Z.of_nat (List.length sample) <= sample_size
     /\ (List.length sample <= List.length (filter failed entries))%nat
     /\ (sample = [] <->
         sample_size = 0 \/ filter failed entries = []))
  /\ (sample_size < 0 ->
      load_and_sample (JArr entries) sample_size seed = raise_cls ValueError).
Proof.
  intros Hlen Hwf.
  destruct (@load_and_sample_unique _ entries sample_size seed Hwf)
    as (unique & (Hs & Hu & Hall) & ->).
  assert (Hul : (List.length unique <= List.length (filter failed entries))%nat).
  { apply NoDup_incl_length.
    - assert (Hnd : NoDup (map entry_task_id unique)).
      { clear Hu Hall. induction Hs as [|x l Hs IH Hx]; cbn [map];
          constructor; [|exact IH].
        rewrite Forall_forall in Hx. intros Hin.
        apply in_map_iff in Hin as (y & Hy & Hin).
        specialize (Hx y Hin). unfold lower_task in Hx. lia. }
      now apply NoDup_map_inv in Hnd.
    - intros e He. destruct (Hu e He) as (Hin & Hf & _).
      apply filter_In. now split. }
  assert (Hempty : unique = [] <-> filter failed entries = []).
  { split.
    - intros -> . destruct (filter failed entries) as [|e l] eqn:E; [reflexivity|].
      assert (Hin : In e (filter failed entries)) by (rewrite E; now left).
      apply filter_In in Hin as [Hin Hf].
      destruct (Hall e Hin Hf) as (x & [] & _).
    - intros E. destruct unique as [|e l]; [reflexivity|].
      destruct (Hu e (or_introl eq_refl)) as (Hin & Hf & _).
      assert (Hin' : In e (filter failed entries)) by (apply filter_In; now split).
      rewrite E in Hin'. destruct Hin'. }
  split.
  - intros Hk. destruct (Z.of_nat (List.length unique) <=? sample_size) eqn:E.
    + apply Z.leb_le in E. exists unique. split; [reflexivity|].
      split; [exact E|]. split; [exact Hul|].
      rewrite Hempty. split; [now right|].
      intros [-> | Hf]; [|exact Hf].
      apply Hempty. destruct unique; [reflexivity | cbn in E; lia].
    + apply Z.leb_gt in E.
      replace (sample_size <? 0) with false by (symmetry; apply Z.ltb_ge; lia).
      eexists. split; [reflexivity|].
      rewrite Hlen by lia. split; [lia|]. split; [lia|].
      split.
      * intros Hnil. left.
        assert (L : List.length (random_sample seed unique (Z.to_nat sample_size))
                    = Z.to_nat sample_size) by (apply Hlen; lia).
        rewrite Hnil in L. cbn in L. lia.
      * intros [-> | Hf].
        -- apply length_zero_iff_nil. apply Hlen. cbn. lia.
        -- apply Hempty in Hf. subst unique. cbn in E. lia.
  - intros Hk.
    replace (sample_size <? 0) with true by (symmetry; apply Z.ltb_lt; lia).
    replace (Z.of_nat (List.length unique) <=? sample_size) with false
      by (symmetry; apply Z.leb_gt; lia).
    reflexivity.
Qed.

Lemma load_and_sample_size_witness :
  exists sample,
    @load_and_sample example_runtime
      (JArr [example_failure 2 example_task; example_failure 1 example_task;
             example_failure 2 example_task]) 1 7
    = Ok (sample, 3%nat)
    /\ Z.of_nat (List.length sample) <= 1.
Proof.
  destruct (@load_and_sample_size example_runtime
              [example_failure 2 example_task; example_failure 1 example_task;
               example_failure 2 example_task] 1 7 example_sample_length)
    as [Hpos _].
  - repeat constructor.
  - destruct Hpos as (sample & Hs & Hl & _); [lia|].
    exists sample. split; assumption.
Defined.

(* ================================================================== *)
(** * The attempts of the classifier client *)
(* ================================================================== *)



(** An attempt with a negative delay raises an exception that
    [except Exception] catches, after its call. *)
Lemma classify_attempt_negative_delay {R : Runtime} (client : llm)
  (provider model prompt : pystr) (delay : Q) (w : world) :
  provider = str "anthropic" \/ provider = str "openai" ->
  (forall n p e, client n p = Raise e -> is_Exception e = true) ->
  Qle_bool 0 delay = false ->
  exists e,
    classify_attempt client provider model prompt delay w
    = (Raise e, log (EvCall prompt) w)
    /\ is_Exception e = true.
Proof.
  intros Hprov Hclient Hdelay. unfold classify_attempt, bind, lift.
  rewrite (call_llm_known client model prompt Hprov w).
  destruct (client (calls w) prompt) as [text|e] eqn:Hcall;
    [|exists e; split; [reflexivity | eapply Hclient; eauto]].
  pose proof (parse_response_cases (JStr text)) as Hpr.
  destruct (parse_response (JStr text)) as [result|e].
  2:{ exists e. split; [reflexivity|].
      destruct Hpr as [[-> _] | [[-> _] | [[-> | ->] _]]]; reflexivity. }
  destruct result as [| | | | | | |o];
    try (eexists; split; [reflexivity | reflexivity]).
  cbn [py_get]. unfold not_in_valid.
  destruct (hashable _); cbn [negb];
    [|eexists; split; [reflexivity | reflexivity]].
  destruct (negb (existsb _ valid_categories)); cbn [py_setitem ret];
    unfold sleep; rewrite Hdelay; eexists; split; reflexivity.
Qed.

(** X20.  With a negative delay [classify_one] never returns a
    classification: [time.sleep(delay)] raises [ValueError] after a call
    that succeeded, inside the [try] block.  Whenever the prompt can be
    built and the provider raises nothing but subclasses of [Exception],
    it calls the provider, waits 2 seconds, calls the provider again and
    returns a verdict [api_error]. *)
Theorem classify_one_negative_delay `{Runtime} (client : llm)
  (provider model : pystr) (failure : json) (delay : Q) (prompt : pystr)
  (w : world) :
  build_prompt failure = Ok prompt ->
  provider = str "anthropic" \/ provider = str "openai" ->
  (forall n p e, client n p = Raise e -> is_Exception e = true) ->
  Qle_bool 0 delay = false ->
  exists e,
    classify_one client provider model failure delay w
    = (Ok (api_error_verdict e),
       after w [EvCall prompt; EvSleep 2; EvCall prompt]).
Proof.
  intros Hp Hprov Hclient Hdelay.
  rewrite (classify_one_unfold client provider model failure delay w Hp).
  destruct (@classify_attempt_negative_delay _ client provider model prompt
              delay w Hprov Hclient Hdelay) as (e1 & -> & ->).
  destruct (@classify_attempt_negative_delay _ client provider model prompt
              delay (log (EvSleep 2) (log (EvCall prompt) w)) Hprov Hclient
              Hdelay) as (e2 & -> & ->).
  exists e2. world_norm w. reflexivity.
Qed.

Lemma classify_one_negative_delay_witness :
  exists e,
    @classify_one example_runtime answering (str "anthropic") (str "m")
      (example_failure 1 example_task) (- (1 # 2)) empty_world
    = (Ok (api_error_verdict e),
       after empty_world
         [EvCall example_prompt; EvSleep 2; EvCall example_prompt]).
Proof.
  apply (@classify_one_negative_delay example_runtime answering
           (str "anthropic") (str "m") (example_failure 1 example_task)
           (- (1 # 2)) example_prompt empty_world).
  - vm_compute. reflexivity.
  - now left.
  - intros n p e E. discriminate E.
  - reflexivity.
Defined.

(* ================================================================== *)
(** * More on the extraction of actions *)
(* ================================================================== *)

Lemma rmap_app {A B} (f : A -> res B) (l1 l2 : list A) :
  rmap f (l1 ++ l2)
  = (a <- rmap f l1 ;; b <- rmap f l2 ;; Ok (a ++ b))%res.
Proof.
  induction l1 as [|x l1 IH]; cbn [app rmap rbind].
  - destruct (rmap f l2); reflexivity.
  - destruct (f x) as [y|e]; [|reflexivity]. rewrite IH.
    destruct (rmap f l1) as [a|e]; [|reflexivity]. cbn [rbind].
    destruct (rmap f l2); reflexivity.
Qed.

Lemma dict_lookup_set_other (k k' : pystr) (v : json) (o : dict) :
  k' <> k -> dict_lookup k' (dict_set k v o) = dict_lookup k' o.
Proof.
  intros Hne. induction o as [|[k0 v0] o IH]; cbn [dict_set dict_lookup].
  - replace (pystr_eqb k k') with false; [reflexivity|].
    symmetry. apply pystr_eqb_neq. congruence.
  - destruct (pystr_eqb k0 k) eqn:E; cbn [dict_lookup].
    + apply pystr_eqb_eq in E. subst k0.
      replace (pystr_eqb k k') with false; [reflexivity|].
      symmetry. apply pystr_eqb_neq. congruence.
    + destruct (pystr_eqb k0 k'); [reflexivity | exact IH].
Qed.

(** X21.  [extract_agent_actions] works message by message: the actions
    of a conversation are the actions of a first part followed by those
    of the rest, and an error of the first part comes first; a message
    that is a dict whose role is not [assistant] adds nothing; and the
    [content] of a message whose [tool_calls] is truthy is not read. *)
Theorem extract_agent_actions_by_message {R : Runtime} :
  (forall msgs1 msgs2 : list json,
      extract_agent_actions (JArr (msgs1 ++ msgs2))
      = (a <- extract_agent_actions (JArr msgs1) ;;
         b <- extract_agent_actions (JArr msgs2) ;;
         Ok (a ++ b))%res)
  /\ (forall (o : dict) (msgs1 msgs2 : list json),
        eq_str (match dict_lookup (str "role") o with
                | Some r => r
                | None => JNull
                end) (str "assistant") = false ->
        extract_agent_actions (JArr (msgs1 ++ JObj o :: msgs2))
        = extract_agent_actions (JArr (msgs1 ++ msgs2)))
  /\ (forall (o : dict) (tool_calls content : json),
        dict_lookup (str "tool_calls") o = Some tool_calls ->
        truthy tool_calls = true ->
        message_actions (JObj (dict_set (str "content") content o))
        = message_actions (JObj o)).
Proof.
  assert (App : forall msgs1 msgs2 : list json,
             extract_agent_actions (JArr (msgs1 ++ msgs2))
             = (a <- extract_agent_actions (JArr msgs1) ;;
                b <- extract_agent_actions (JArr msgs2) ;;
                Ok (a ++ b))%res).
  { intros msgs1 msgs2. unfold extract_agent_actions. cbn [py_iter rbind].
    rewrite rmap_app.
    destruct (rmap message_actions msgs1) as [a|]; [|reflexivity].
    cbn [rbind].
    destruct (rmap message_actions msgs2) as [b|]; [|reflexivity].
    cbn [rbind]. now rewrite concat_app. }
  split; [exact App|]. split.
  - intros o msgs1 msgs2 Hrole.
    rewrite (App msgs1 (JObj o :: msgs2)), (App msgs1 msgs2).
    destruct (extract_agent_actions (JArr msgs1)) as [a|]; [|reflexivity].
    cbn [rbind]. f_equal.
    unfold extract_agent_actions. cbn [py_iter rbind rmap].
    unfold message_actions at 1. cbn [py_get rbind]. rewrite Hrole.
    cbn [negb]. destruct (rmap message_actions msgs2); reflexivity.
  - intros o tool_calls content Htc Htruthy.
    unfold message_actions. cbn [py_get rbind].
    rewrite !dict_lookup_set_other by discriminate.
    rewrite Htc, Htruthy.
    destruct (negb _); reflexivity.
Qed.

(* ================================================================== *)
(** * The statistics of a run *)
(* ================================================================== *)

Lemma add_key_int (ks : list Z) (k : Z) :
  add_key (map JInt ks) (JInt k) = map JInt (zadd_key ks k).
Proof.
  unfold add_key, zadd_key.
  assert (E : existsb (fun k' => key_eqb k' (JInt k)) (map JInt ks)
              = existsb (fun k' => k' =? k) ks).
  { induction ks as [|x ks IH]; [reflexivity|].
    cbn [map existsb]. now rewrite key_eqb_int, IH. }
  rewrite E. destruct (existsb _ ks); [reflexivity|].
  now rewrite map_app.
Qed.

Lemma count_tasks_int (entries : list json) :
  Forall (fun e => wf_entry e = true) entries ->
  count_tasks (JArr entries) = Ok (List.length (task_ids entries)).
Proof.
  intros Hwf. unfold count_tasks, task_ids. cbn [py_iter rbind].
  assert (G : forall ks : list Z,
             fold_left
               (fun acc e =>
                  (ks0 <- acc ;;
                   tid <- py_getitem e (str "task_id") ;;
                   if negb (hashable tid) then raise_cls TypeError
                   else Ok (add_key ks0 tid))%res) entries (Ok (map JInt ks))
             = Ok (map JInt
                     (fold_left (fun ks0 e => zadd_key ks0 (entry_task_id e))
                        entries ks))).
  { induction Hwf as [|e l He _ IH]; intros ks; [reflexivity|].
    cbn [fold_left rbind]. rewrite (wf_entry_task_id _ He).
    cbn [rbind hashable negb]. rewrite add_key_int. apply IH. }
  change (@nil json) with (map JInt []). rewrite (G []). cbn [rbind].
  now rewrite length_map.
Qed.

Lemma zadd_key_spec (ks : list Z) (k : Z) :
  NoDup ks ->
  NoDup (zadd_key ks k)
  /\ forall x, In x (zadd_key ks k) <-> x = k \/ In x ks.
Proof.
  intros Hnd. unfold zadd_key.
  destruct (existsb (fun k' => k' =? k) ks) eqn:E.
  - split; [exact Hnd|]. intros x. split; [now right|].
    intros [-> | Hx]; [|exact Hx].
    apply existsb_exists in E as (y & Hy & Hyk).
    apply Z.eqb_eq in Hyk. now subst.
  - split.
    + apply NoDup_app; [exact Hnd | repeat constructor; intros [] |].
      intros x Hx [<- | []].
      assert (Hex : existsb (fun k' => k' =? k) ks = true)
        by (apply existsb_exists; exists k; split; [exact Hx | apply Z.eqb_refl]).
      congruence.
    + intros x. rewrite in_app_iff. cbn [In]. intuition.
Qed.

Lemma task_ids_spec (entries : list json) :
  NoDup (task_ids entries)
  /\ forall e, In e entries -> In (entry_task_id e) (task_ids entries).
Proof.
  unfold task_ids.
  assert (G : forall ks,
             NoDup ks ->
             NoDup (fold_left (fun ks0 e => zadd_key ks0 (entry_task_id e))
                      entries ks)
             /\ (forall x, In x ks ->
                   In x (fold_left (fun ks0 e => zadd_key ks0 (entry_task_id e))
                           entries ks))
             /\ forall e, In e entries ->
                  In (entry_task_id e)
                    (fold_left (fun ks0 e => zadd_key ks0 (entry_task_id e))
                       entries ks)).
  { induction entries as [|e l IH]; intros ks Hnd; cbn [fold_left].
    - split; [exact Hnd|]. split; [auto | intros e []].
    - destruct (zadd_key_spec (entry_task_id e) Hnd) as [Hnd' Hin].
      destruct (IH _ Hnd') as (A & B & C).
      split; [exact A|]. split.
      + intros x Hx. apply B, Hin. now right.
      + intros e' [<- | He']; [|auto]. apply B, Hin. now left. }
  destruct (G [] (NoDup_nil _)) as (A & _ & C). now split.
Qed.

Lemma count_zero_reward_spec (entries : list json) :
  Forall (fun e => wf_entry e = true) entries ->
  count_zero_reward (JArr entries)
  = Ok (List.length (filter zero_reward entries)).
Proof.
  intros Hwf. unfold count_zero_reward. cbn [py_iter rbind].
  assert (G : rmap (fun e => (r <- py_get e (str "reward") (JInt 1) ;;
                              Ok (eq_zero r))%res) entries
              = Ok (map zero_reward entries)).
  { induction Hwf as [|e l He _ IH]; [reflexivity|].
    cbn [rmap map]. rewrite IH. unfold zero_reward at 1.
    destruct e as [| | | | | | |o]; try discriminate He. reflexivity. }
  rewrite G. cbn [rbind]. f_equal.
  clear. induction entries as [|e l IH]; [reflexivity|].
  cbn [map filter]. destruct (zero_reward e); cbn [List.length]; now rewrite IH.
Qed.

Lemma failed_zero_reward (e : json) :
  wf_entry e = true -> failed e = true -> zero_reward e = true.
Proof.
  unfold failed, zero_reward, is_failure.
  destruct e as [| | | | | | |o]; try discriminate. intros _.
  cbn [py_get rbind].
  destruct (dict_lookup (str "reward") o) as [r|].
  - destruct (eq_zero r); [reflexivity | discriminate].
  - discriminate.
Qed.

Lemma task_ids_incl (entries : list json) :
  incl (task_ids entries) (map entry_task_id entries).
Proof.
  unfold task_ids. intros k.
  assert (G : forall ks,
             In k (fold_left (fun ks0 e => zadd_key ks0 (entry_task_id e))
                     entries ks) ->
             In k ks \/ In k (map entry_task_id entries)).
  { induction entries as [|e l IH]; intros ks H; cbn [fold_left] in H;
      [now left|].
    destruct (IH _ H) as [H' | H']; [|right; now right].
    unfold zadd_key in H'. destruct (existsb _ ks); [now left|].
    apply in_app_or in H' as [H' | [<- | []]]; [now left|].
    right. now left. }
  intros Hk. destruct (G [] Hk) as [[] | ?]; assumption.
Qed.

(** X22.  When no entry of a file of well-formed entries passes the
    filter of the sampler, [process_file], without a stored result or
    with [force], returns [None], calls no provider, waits for nothing
    and writes no file; for a negative sample size it raises
    [ValueError] instead, also without an effect. *)
Theorem process_file_without_failures `{Runtime}
  (entries : list json) (filepath config_name : pystr) (client : llm)
  (provider model : pystr) (sample_size : Z) (delay : Q)
  (force dry_run : bool) (w : world) :
  result_file w = None \/ force = true ->
  Forall (fun e => wf_entry e = true) entries ->
  filter failed entries = [] ->
  process_file (JArr entries) filepath config_name client provider model
    sample_size delay force dry_run w
  = (if sample_size <? 0 then raise_cls ValueError else Ok JNull, w).
Proof.
  intros Hfresh Hwf Hnone.
  destruct (@load_and_sample_unique _ entries sample_size default_seed Hwf)
    as (unique & (_ & Hu & _) & Hload).
  assert (Hnil : unique = []).
  { destruct unique as [|e l]; [reflexivity|].
    destruct (Hu e (or_introl eq_refl)) as (Hin & Hf & _).
    assert (Hin' : In e (filter failed entries)) by (apply filter_In; now split).
    rewrite Hnone in Hin'. destruct Hin'. }
  subst unique. cbn [List.length Z.of_nat] in Hload.
  assert (Hm : match result_file w, force with
               | Some _, false => False
               | _, _ => True
               end).
  { destruct Hfresh as [-> | ->]; [exact I|]. destruct (result_file w); exact I. }
  unfold process_file, bind, get_world, lift.
  rewrite Hload, (count_tasks_int Hwf).
  destruct (sample_size <? 0) eqn:E.
  - replace (0 <=? sample_size) with false
      by (symmetry; apply Z.leb_gt; apply Z.ltb_lt in E; lia).
    destruct (result_file w), force; try (now destruct Hm); reflexivity.
  - replace (0 <=? sample_size) with true
      by (symmetry; apply Z.leb_le; apply Z.ltb_ge in E; lia).
    destruct (result_file w), force; try (now destruct Hm); reflexivity.
Qed.

Lemma process_file_without_failures_witness :
  @process_file example_runtime
    (JArr [example_entry2 (example_message (str "user") (str "hello")) []])
    (str "f.json") (str "cfg") answering (str "anthropic") (str "m") 50
    (1 # 2) false false empty_world
  = (if 50 <? 0 then raise_cls ValueError else Ok JNull, empty_world).
Proof.
  apply (@process_file_without_failures example_runtime).
  - now left.
  - repeat constructor.
  - reflexivity.
Defined.

(** X23.  Let [random.sample] return as many elements as it is asked
    for.  In the result of a run on a file of well-formed entries that
    starts without a stored result and without a checkpoint, or with
    [force], the statistics are consistent: [unique_failures_sampled] is
    positive, at most the sample size, at most [total_tasks] and at most
    [total_failures_in_file]; these two are at most the number of
    entries; and there are at most [unique_failures_sampled]
    classifications. *)
Theorem process_file_statistics_are_consistent `{Runtime}
  (entries : list json) (filepath config_name : pystr) (client : llm)
  (provider model : pystr) (sample_size : Z) (delay : Q)
  (force dry_run : bool) (w w' : world) (r : json) :
  (forall seed l k, (k <= List.length l)%nat ->
                    List.length (random_sample seed l k) = k) ->
  Forall (fun e => wf_entry e = true) entries ->
  result_file w = None \/ force = true ->
  partial_file w = None \/ force = true ->
  process_file (JArr entries) filepath config_name client provider model
    sample_size delay force dry_run w = (Ok r, w') ->
  r <> JNull ->
  exists (tasks failures sampled : nat) (summary : json)
         (classifications : list json),
    r = JObj [(str "config", JStr config_name);
              (str "file", JStr filepath);
              (str "stats",
               JObj [(str "total_tasks", JInt (Z.of_nat tasks));
                     (str "total_failures_in_file",
                      JInt (Z.of_nat failures));
                     (str "unique_failures_sampled",
                      JInt (Z.of_nat sampled))]);
              (str "summary", summary);
              (str "classifications", JArr classifications)]
    /\ (List.length classifications <= sampled)%nat
    /\ (0 < sampled)%nat
    /\ Z.of_nat sampled <= sample_size
    /\ (sampled <= tasks)%nat
    /\ (sampled <= failures)%nat
    /\ (tasks <= List.length entries)%nat
    /\ (failures <= List.length entries)%nat.
Proof.
  intros Hlen Hwf Hfresh Hnew Hrun Hr. revert Hrun.
  destruct (@load_and_sample_unique _ entries sample_size default_seed Hwf)
    as (unique & (Hs & Hu & Hall) & Hload).
  destruct (task_ids_spec entries) as [Tnd Tin].
  (* the sample is no longer than the list of the distinct failed tasks *)
  assert (Hnd : NoDup (map entry_task_id unique)).
  { clear Hu Hall Hload. induction Hs as [|x l Hs IH Hx]; cbn [map];
      constructor; [|exact IH].
    rewrite Forall_forall in Hx. intros Hin.
    apply in_map_iff in Hin as (y & Hy & Hin).
    specialize (Hx y Hin). unfold lower_task in Hx. lia. }
  assert (Hut : (List.length unique <= List.length (task_ids entries))%nat).
  { rewrite <- (length_map entry_task_id unique).
    apply NoDup_incl_length; [exact Hnd|].
    intros k Hk. apply in_map_iff in Hk as (e & <- & He).
    apply Tin. now destruct (Hu e He). }
  assert (Huf : (List.length unique
                 <= List.length (filter zero_reward entries))%nat).
  { apply NoDup_incl_length; [now apply NoDup_map_inv in Hnd|].
    intros e He. destruct (Hu e He) as (Hin & Hf & _).
    apply filter_In. split; [exact Hin|].
    apply failed_zero_reward; [|exact Hf].
    rewrite Forall_forall in Hwf. now apply Hwf. }
  assert (Hte : (List.length (task_ids entries) <= List.length entries)%nat).
  { rewrite <- (length_map entry_task_id entries).
    apply NoDup_incl_length; [exact Tnd|].
    apply task_ids_incl. }
  assert (Hfe : (List.length (filter zero_reward entries)
                 <= List.length entries)%nat) by apply filter_length_le.
  unfold process_file, bind, get_world, lift.
  rewrite Hload, (count_tasks_int Hwf), (count_zero_reward_spec Hwf).
  assert (Hm : match result_file w, force with
               | Some _, false => False
               | _, _ => True
               end).
  { destruct Hfresh as [-> | ->]; [exact I|]. destruct (result_file w); exact I. }
  assert (Hp : match partial_file w, force with
               | Some _, false => False
               | _, _ => True
               end).
  { destruct Hnew as [-> | ->]; [exact I|]. destruct (partial_file w); exact I. }
  assert (Sample :
    forall sample n,
      (if Z.of_nat (List.length unique) <=? sample_size
       then Ok (unique, List.length entries)
       else if sample_size <? 0 then raise_cls ValueError
            else Ok (random_sample default_seed unique (Z.to_nat sample_size),
                     List.length entries)) = Ok (sample, n) ->
      (List.length sample <= List.length unique)%nat
      /\ Z.of_nat (List.length sample) <= sample_size).
  { intros sample n. destruct (_ <=? _) eqn:E.
    - apply Z.leb_le in E. intros E'. injection E' as <- _. lia.
    - apply Z.leb_gt in E. destruct (sample_size <? 0) eqn:E2; [discriminate|].
      apply Z.ltb_ge in E2. intros E'. injection E' as <- _.
      rewrite Hlen by lia. lia. }
  destruct (if Z.of_nat (List.length unique) <=? sample_size
            then Ok (unique, List.length entries)
            else if sample_size <? 0 then raise_cls ValueError
                 else Ok (random_sample default_seed unique
                            (Z.to_nat sample_size), List.length entries))
    as [[sample n]|] eqn:Es.
  2:{ destruct (result_file w), force; try (now destruct Hm); discriminate. }
  destruct (Sample _ _ eq_refl) as [Hsu Hsk]. cbn [fst].
  destruct (result_file w) as [stored|], force; try (now destruct Hm);
    (destruct sample as [|first rest];
       [unfold ret; intros E; injection E as <- _; now destruct Hr|]);
    (destruct dry_run;
       [destruct (build_prompt first); discriminate|]);
    destruct (partial_file w) as [partial|]; try (now destruct Hp);
    unfold ret at 1; cbn [fst snd skipn];
    (destruct (classify_loop client provider model delay (first :: rest)
                 (JArr []) w) as [[cs|] w1] eqn:Eloop; [|discriminate]);
    apply classify_loop_appends in Eloop as (new & -> & Hnewlen);
    cbn [app] in *;
    (destruct (compute_summary (JArr new)) as [summary|]; [|discriminate]);
    unfold write_result, unlink_partial, ret;
    intros E; injection E as <- _;
    exists (List.length (task_ids entries)),
           (List.length (filter zero_reward entries)),
           (List.length (first :: rest)), summary, new;
    (split; [reflexivity|]);
    pose proof (filter_length_le has_task (first :: rest)) as Hfl;
    cbn [List.length] in *; repeat split; lia.
Qed.

Lemma process_file_statistics_are_consistent_witness :
  exists (r : json) (w' : world),
    @process_file example_runtime two_failures (str "f.json") (str "cfg")
      answering (str "anthropic") (str "m") 1 (1 # 2) false false
      empty_world = (Ok r, w')
    /\ exists (tasks failures sampled : nat) (summary : json)
              (classifications : list json),
         r = JObj [(str "config", JStr (str "cfg"));
                   (str "file", JStr (str "f.json"));
                   (str "stats",
                    JObj [(str "total_tasks", JInt (Z.of_nat tasks));
                          (str "total_failures_in_file",
                           JInt (Z.of_nat failures));
                          (str "unique_failures_sampled",
                           JInt (Z.of_nat sampled))]);
                   (str "summary", summary);
                   (str "classifications", JArr classifications)]
         /\ (List.length classifications <= sampled)%nat
         /\ (0 < sampled)%nat
         /\ Z.of_nat sampled <= 1
         /\ (sampled <= tasks)%nat
         /\ (sampled <= failures)%nat
         /\ (tasks <= 2)%nat
         /\ (failures <= 2)%nat.
Proof.
  destruct (@process_file example_runtime two_failures (str "f.json")
              (str "cfg") answering (str "anthropic") (str "m") 1 (1 # 2)
              false false empty_world) as [[r|e] w'] eqn:E;
    [|vm_compute in E; discriminate E].
  exists r, w'. split; [reflexivity|].
  assert (F : result_file empty_world = None \/ false = true)
    by (left; reflexivity).
  assert (P : partial_file empty_world = None \/ false = true)
    by (left; reflexivity).
  assert (W : Forall (fun e => wf_entry e = true)
                [example_failure 1 example_task; example_failure 2 example_task])
    by (repeat constructor).
  apply (@process_file_statistics_are_consistent example_runtime
           _ _ _ _ _ _ _ _ _ _ _ _ _ example_sample_length W F P E).
  intros ->. vm_compute in E. discriminate E.
Defined.

(* ------------------------------------------------------------------ *)
(** ** classify_errors.py: [discover_files] *)
(* ------------------------------------------------------------------ *)

Section DiscoverFiles.
Variable lower : pystr -> pystr.

Lemma find_trajectory_Some (key label domain size : pystr)
  (listing : list dir_entry) (path : pystr) :
  find_trajectory lower key domain size listing = Some path ->
  exists d, first_match lower ((key, label), domain) size listing d path.
Proof.
  induction listing as [|d rest IH]; [discriminate|].
  cbn [find_trajectory].
  destruct (matches_config lower key domain size d) eqn:Hm.
  - destruct (de_jsons d) as [|j more] eqn:Hj.
    + intros H. destruct (IH H) as (d0 & before & after & -> & Hm0 & Hj0 & Hb).
      exists d0, (d :: before), after. repeat split; try assumption.
      intros d' [<-|Hin] Hd'; [exact Hj|now apply Hb].
    + intros H. injection H as <-.
      exists d, [], rest. repeat split; try assumption.
      * now exists more.
      * intros d' [].
  - intros H. destruct (IH H) as (d0 & before & after & -> & Hm0 & Hj0 & Hb).
    exists d0, (d :: before), after. repeat split; try assumption.
    intros d' [<-|Hin] Hd'; [|now apply Hb].
    cbn in Hd'. congruence.
Qed.

Lemma find_trajectory_None (key domain size : pystr) (listing : list dir_entry) :
  find_trajectory lower key domain size listing = None ->
  forall d, In d listing -> matches_config lower key domain size d = true ->
            de_jsons d = [].
Proof.
  induction listing as [|d rest IH]; intros H d0 Hin Hm; [destruct Hin|].
  cbn [find_trajectory] in H.
  destruct Hin as [<-|Hin].
  - rewrite Hm in H. destruct (de_jsons d); [reflexivity|discriminate].
  - apply IH; try assumption.
    destruct (matches_config lower key domain size d); [|exact H].
    destruct (de_jsons d); [exact H|discriminate].
Qed.

Lemma sublist_skip (x : pystr) (l l' : list pystr) :
  ~ In x l -> sublist pystr_eqb l l' = true ->
  sublist pystr_eqb l (x :: l') = true.
Proof.
  intros Hx H. destruct l as [|y r]; [reflexivity|].
  cbn [sublist].
  destruct (pystr_eqb y x) eqn:E; [|exact H].
  apply pystr_eqb_eq in E. subst. exfalso. apply Hx. now left.
Qed.

Lemma sublist_pick {A} (name : A -> pystr) (f : A -> option pystr)
  (cs : list A) :
  NoDup (map name cs) ->
  sublist pystr_eqb
    (map snd (flat_map (fun c => match f c with
                                 | Some p => [(p, name c)]
                                 | None => []
                                 end) cs))
    (map name cs) = true.
Proof.
  induction cs as [|c cs IH]; intros Hnd; [reflexivity|].
  inversion Hnd as [|x l Hx Hnd']; subst.
  specialize (IH Hnd').
  cbn [flat_map map].
  assert (Hsub : forall n,
    In n (map snd (flat_map (fun c => match f c with
                                      | Some p => [(p, name c)]
                                      | None => []
                                      end) cs)) -> In n (map name cs)).
  { intros n Hn. apply in_map_iff in Hn as ((p & n') & <- & Hn).
    apply in_flat_map in Hn as (c' & Hc' & Hn).
    destruct (f c'); [|destruct Hn].
    destruct Hn as [Hn|[]]. injection Hn as _ <-.
    cbn [snd]. now apply (in_map name). }
  destruct (f c) as [p|].
  - cbn [app map snd sublist]. now rewrite pystr_eqb_refl.
  - cbn [app]. apply sublist_skip; [|exact IH].
    intros Hin. apply Hx. now apply Hsub.
Qed.

Lemma config_names_NoDup (size : pystr) : NoDup (config_names size).
Proof.
  unfold config_names, config_name, configurations. cbn.
  repeat constructor; cbn; intros H;
    repeat (destruct H as [H|H]; [apply app_inv_head in H; discriminate H|]);
    exact H.
Qed.

Lemma discover_files_configurations (listing : list dir_entry) (size : pystr) :
  discover_files lower (Some listing) size
  = flat_map (fun c => match find_trajectory lower (fst (fst c)) (snd c) size listing with
                       | Some p => [(p, config_name size c)]
                       | None => []
                       end) configurations.
Proof.
  unfold discover_files, configurations, config_name.
  cbn [flat_map strategies domains map app fst snd].
  rewrite !app_nil_r, <- !app_assoc. reflexivity.
Qed.

Lemma flat_map_pick_length {A B} (f : A -> option B) (cs : list A) :
  (length (flat_map (fun c => match f c with Some p => [p] | None => [] end) cs)
   <= length cs)%nat.
Proof.
  induction cs as [|c cs IH]; [apply Nat.le_refl|].
  cbn [flat_map]. rewrite length_app. destruct (f c); cbn; lia.
Qed.

Lemma first_match_find (c : (pystr * pystr) * pystr) (size : pystr)
  (listing : list dir_entry) (d : dir_entry) (path : pystr) :
  first_match lower c size listing d path ->
  find_trajectory lower (fst (fst c)) (snd c) size listing = Some path.
Proof.
  intros (before & after & -> & Hm & (more & Hj) & Hb).
  induction before as [|d' before IH]; cbn [app find_trajectory].
  - now rewrite Hm, Hj.
  - destruct (matches_config lower (fst (fst c)) (snd c) size d') eqn:Hm'.
    + rewrite (Hb d' (or_introl eq_refl) Hm').
      apply IH. intros d0 Hin. apply Hb. now right.
    + apply IH. intros d0 Hin. apply Hb. now right.
Qed.

Lemma NoDup_map_In_inj {A B} (f : A -> B) (l : list A) (x y : A) :
  NoDup (map f l) -> In x l -> In y l -> f x = f y -> x = y.
Proof.
  induction l as [|a l IH]; intros Hnd Hx Hy E; [destruct Hx|].
  inversion Hnd as [|? ? Ha Hnd']; subst.
  destruct Hx as [<-|Hx], Hy as [<-|Hy]; try reflexivity.
  - exfalso. apply Ha. rewrite E. now apply in_map.
  - exfalso. apply Ha. rewrite <- E. now apply in_map.
  - now apply IH.
Qed.

Lemma sublist_length (l l' : list pystr) :
  sublist pystr_eqb l l' = true -> (length l <= length l')%nat.
Proof.
  revert l. induction l' as [|y l' IH]; intros [|x l] H; cbn in *;
    try lia; try discriminate.
  destruct (pystr_eqb x y).
  - apply IH in H. lia.
  - apply IH in H. cbn in H. lia.
Qed.

(** X24. Of the directory of trajectories, [discover_files] returns
    nothing when it does not exist, and otherwise at most six files,
    named by the configurations of the model size in the fixed order
    of strategy and domain, each name at most once.  The file returned
    for a configuration is the first JSON file of the first
    subdirectory, in the sorted listing, that is a directory, whose
    lowered name starts with the strategy, the domain and their
    underscores and has the lowered model size somewhere in it, and
    that holds a JSON file; a configuration without such a
    subdirectory is left out. *)
Theorem discover_files_takes_first_match
  (listing : list dir_entry) (model_size : pystr) :
  discover_files lower None model_size = []
  /\ sublist pystr_eqb (map snd (discover_files lower (Some listing) model_size))
       (config_names model_size) = true
  /\ (length (discover_files lower (Some listing) model_size) <= 6)%nat
  /\ forall c path,
       In c configurations ->
       (In (path, config_name model_size c)
           (discover_files lower (Some listing) model_size)
        <-> exists d, first_match lower c model_size listing d path).
Proof.
  assert (Hsub : sublist pystr_eqb
                   (map snd (discover_files lower (Some listing) model_size))
                   (config_names model_size) = true).
  { rewrite discover_files_configurations.
    apply (sublist_pick (config_name model_size)
             (fun c => find_trajectory lower (fst (fst c)) (snd c) model_size listing)).
    apply config_names_NoDup. }
  split; [reflexivity|]. split; [exact Hsub|]. split.
  - apply sublist_length in Hsub. rewrite length_map in Hsub.
    exact Hsub.
  - intros c path Hc. rewrite discover_files_configurations. split.
    + intros H. apply in_flat_map in H as (c' & Hc' & H).
      destruct (find_trajectory lower (fst (fst c')) (snd c') model_size listing)
        as [p|] eqn:E; [|destruct H].
      destruct H as [H|[]]. injection H as -> Hn.
      assert (c' = c) as ->.
      { apply (NoDup_map_In_inj (config_name model_size) configurations);
          try assumption.
        apply config_names_NoDup. }
      destruct c as [[key label] domain].
      exact (@find_trajectory_Some key label domain model_size listing path E).
    + intros (d & H). apply first_match_find in H.
      apply in_flat_map. exists c. split; [exact Hc|].
      rewrite H. now left.
Qed.

End DiscoverFiles.

(* ------------------------------------------------------------------ *)
(** ** classify_errors.py: [aggregate_all] *)
(* ------------------------------------------------------------------ *)

Lemma aggregate_step_result (combined : dict) (k : pystr) (result : json) :
  result = JNull \/ (exists o, result = JObj o) ->
  ~ In k (map fst combined) ->
  aggregate_step combined (k, result)
  = Ok (combined ++ match summary_of result with
                    | Some s => [(k, s)]
                    | None => []
                    end).
Proof.
  intros [-> | [o ->]] Hk; cbn [aggregate_step truthy summary_of].
  - now rewrite app_nil_r.
  - destruct o as [|kv o]; [cbn; now rewrite app_nil_r|].
    cbn [py_in py_getitem rbind].
    destruct (dict_lookup (str "summary") (kv :: o)) as [s|];
      cbn [rbind].
    + now rewrite dict_set_fresh.
    + now rewrite app_nil_r.
Qed.

Lemma summaries_keys (all_results : dict) (k : pystr) :
  In k (map fst (summaries all_results)) -> In k (map fst all_results).
Proof.
  unfold summaries. intros H.
  apply in_map_iff in H as ((k' & s) & <- & H).
  apply in_flat_map in H as ((k0 & r) & Hin & H).
  cbn [fst snd] in H. destruct (summary_of r); [|destruct H].
  destruct H as [H|[]]. injection H as <- _.
  apply in_map_iff. now exists (k0, r).
Qed.

Lemma aggregate_fold (all_results : dict) :
  forall combined,
    NoDup (map fst combined ++ map fst all_results) ->
    Forall (fun kv => snd kv = JNull \/ exists o, snd kv = JObj o)
      all_results ->
    fold_left (fun acc kv => (a <- acc ;; aggregate_step a kv)%res)
      all_results (Ok combined)
    = Ok (combined ++ summaries all_results).
Proof.
  induction all_results as [|[k r] l IH]; intros combined Hnd Hall.
  - cbn. now rewrite app_nil_r.
  - inversion Hall as [|? ? Hr Hl]; subst. cbn [snd] in Hr.
    cbn [fold_left rbind].
    rewrite aggregate_step_result; [|exact Hr|].
    + rewrite IH; [|
        |exact Hl].
      * unfold summaries. cbn [flat_map fst snd]. now rewrite app_assoc.
      * cbn [map fst] in Hnd. rewrite map_app.
        destruct (summary_of r) as [s|].
        -- cbn [map fst]. rewrite <- app_assoc. cbn [app]. exact Hnd.
        -- cbn [map]. rewrite app_nil_r.
           apply NoDup_remove_1 in Hnd. exact Hnd.
    + cbn [map fst] in Hnd. apply NoDup_remove_2 in Hnd.
      intros Hin. apply Hnd. apply in_or_app. now left.
Qed.

(** X25. For results of which each is [None] or a dict, under distinct
    configuration names, [aggregate_all] raises nothing and returns,
    in the order of the results, one entry for each result that has a
    summary: the configuration name with that summary.  A result that
    is [None], or a dict without the key [summary], is left out. *)
Theorem aggregate_all_collects_summaries (all_results : dict) :
  NoDup (map fst all_results) ->
  Forall (fun kv => snd kv = JNull \/ exists o, snd kv = JObj o) all_results ->
  aggregate_all all_results = Ok (summaries all_results).
Proof.
  intros Hnd Hall. unfold aggregate_all.
  now rewrite aggregate_fold.
Qed.

Lemma aggregate_all_collects_summaries_witness :
  aggregate_all
    [(str "14b_ACT_airline", JObj [(str "summary", JInt 1)]);
     (str "14b_ACT_retail", JNull);
     (str "14b_FC_retail", JObj [(str "config", JInt 2)])]
  = Ok [(str "14b_ACT_airline", JInt 1)].
Proof.
  apply (@aggregate_all_collects_summaries
           [(str "14b_ACT_airline", JObj [(str "summary", JInt 1)]);
            (str "14b_ACT_retail", JNull);
            (str "14b_FC_retail", JObj [(str "config", JInt 2)])]).
  - repeat constructor; cbn; intros H;
      repeat (destruct H as [H|H]; [discriminate H|]); exact H.
  - constructor; [right; eexists; reflexivity|].
    constructor; [left; reflexivity|].
    constructor; [right; eexists; reflexivity|].
    constructor.
Defined.

(* ------------------------------------------------------------------ *)
(** ** classify_errors.py: [extract_examples] *)
(* ------------------------------------------------------------------ *)

Lemma Qeq_bool_sym (p q : Q) : Qeq_bool p q = Qeq_bool q p.
Proof.
  destruct (Qeq_bool p q) eqn:E.
  - symmetry. apply Qeq_bool_iff. apply Qeq_bool_iff in E. now symmetry.
  - symmetry. destruct (Qeq_bool q p) eqn:E'; [|reflexivity].
    apply Qeq_bool_iff in E'. symmetry in E'. apply Qeq_bool_iff in E'.
    congruence.
Qed.

Lemma key_eqb_sym (a b : json) : key_eqb a b = key_eqb b a.
Proof.
  unfold key_eqb.
  destruct (num_value a) as [p|] eqn:Ha, (num_value b) as [q|] eqn:Hb;
    try reflexivity.
  - apply Qeq_bool_sym.
  - destruct a, b; try reflexivity; try discriminate.
    + destruct x, x0; reflexivity.
    + apply pystr_eqb_sym.
Qed.

Lemma key_eqb_refl (a : json) : hashable a = true -> key_eqb a a = true.
Proof.
  unfold key_eqb. intros Hh.
  destruct (num_value a) as [p|] eqn:Ha.
  - apply Qeq_bool_iff. reflexivity.
  - destruct a; try discriminate; try reflexivity.
    + destruct x; reflexivity.
    + apply pystr_eqb_refl.
Qed.

Lemma key_eqb_trans (a b c : json) :
  key_eqb a b = true -> key_eqb b c = true -> key_eqb a c = true.
Proof.
  unfold key_eqb.
  destruct (num_value a) as [p|] eqn:Ha, (num_value b) as [q|] eqn:Hb,
    (num_value c) as [r|] eqn:Hc; try discriminate.
  - intros H1 H2. apply Qeq_bool_iff in H1, H2. apply Qeq_bool_iff.
    now rewrite H1.
  - destruct a, b; try discriminate; destruct c; try discriminate;
      try reflexivity.
    + destruct x, x0; try discriminate; destruct x1; try discriminate;
        reflexivity.
    + intros H1 H2. apply pystr_eqb_eq in H1, H2. subst.
      apply pystr_eqb_refl.
Qed.

Lemma group_append_cases (cat x : json) (g : groups) :
  (exists g1 k l g2,
      g = g1 ++ (k, l) :: g2
      /\ key_eqb k cat = true
      /\ group_append cat x g = g1 ++ (k, l ++ [x]) :: g2)
  \/ ((forall e, In e g -> key_eqb (fst e) cat = false)
      /\ group_append cat x g = g ++ [(cat, [x])]).
Proof.
  induction g as [|[k l] g IH]; cbn [group_append].
  - right. split; [intros e []|reflexivity].
  - destruct (key_eqb k cat) eqn:E.
    + left. exists [], k, l, g. now repeat split.
    + destruct IH as [(g1 & k' & l' & g2 & -> & Hk & ->) | [Hall ->]].
      * left. exists ((k, l) :: g1), k', l', g2. now repeat split.
      * right. split; [|reflexivity].
        intros e [<- | Hin]; [exact E | now apply Hall].
Qed.

Lemma distinct_keys_middle (k1 : list json) (k : json) (k2 : list json) :
  distinct_keys (k1 ++ k :: k2) ->
  forall k', In k' (k1 ++ k2) -> key_eqb k k' = false.
Proof.
  unfold distinct_keys. induction k1 as [|a k1 IH]; cbn [app]; intros H k' Hin.
  - inversion H as [|? ? _ Hall]; subst.
    rewrite Forall_forall in Hall. now apply Hall.
  - inversion H as [|? ? Hs Hall]; subst.
    destruct Hin as [<- | Hin].
    + rewrite Forall_forall in Hall. rewrite key_eqb_sym.
      apply Hall. apply in_or_app. right. now left.
    + now apply IH.
Qed.

Lemma distinct_keys_snoc (ks : list json) (k : json) :
  distinct_keys ks -> (forall k', In k' ks -> key_eqb k' k = false) ->
  distinct_keys (ks ++ [k]).
Proof.
  unfold distinct_keys. induction 1 as [|a ks Hs IH Hall]; intros Hk; cbn [app].
  - repeat constructor.
  - constructor.
    + apply IH. intros k' Hin. apply Hk. now right.
    + apply Forall_app. split; [exact Hall|].
      constructor; [|constructor]. apply Hk. now left.
Qed.

Lemma group_append_grouped (P : json -> json -> Prop) (g : groups)
  (cat x : json) :
  hashable cat = true -> grouped P g ->
  grouped (fun c y => P c y \/ (c = cat /\ y = x)) (group_append cat x g).
Proof.
  intros Hh (Hd & Hg & Hp).
  destruct (group_append_cases cat x g)
    as [(g1 & k & l & g2 & -> & Hk & ->) | [Hall ->]].
  - assert (Hother : forall k' l', In (k', l') (g1 ++ g2) ->
                                   key_eqb k' cat = false).
    { intros k' l' Hin.
      assert (Hkk : key_eqb k k' = false).
      { rewrite map_app in Hd. cbn [map fst] in Hd.
        apply (distinct_keys_middle _ _ _ Hd).
        rewrite <- map_app. now apply (in_map fst _ (k', l')). }
      destruct (key_eqb k' cat) eqn:E; [|reflexivity].
      rewrite (key_eqb_sym k' cat) in E.
      rewrite (key_eqb_trans _ _ _ Hk E) in Hkk. discriminate. }
    split; [|split].
    + rewrite map_app in *. exact Hd.
    + intros k' l' Hin.
      apply in_app_or in Hin as [Hin | [Hin | Hin]].
      * destruct (Hg k' l') as [Hne Hl]; [apply in_or_app; now left|].
        split; [exact Hne|]. intros y. rewrite Hl. split.
        -- intros (c & Hc & Hkc). exists c. split; [now left | exact Hkc].
        -- intros (c & [Hc | [-> ->]] & Hkc); [now exists c|].
           rewrite (Hother k' l') in Hkc; [discriminate|].
           apply in_or_app. now left.
      * injection Hin as <- <-.
        destruct (Hg k l) as [Hne Hl]; [apply in_or_app; right; now left|].
        split; [now destruct l|].
        intros y. rewrite in_app_iff, Hl. split.
        -- intros [(c & Hc & Hkc) | [<- | []]].
           ++ exists c. split; [now left | exact Hkc].
           ++ exists cat. split; [now right | exact Hk].
        -- intros (c & [Hc | [-> ->]] & Hkc).
           ++ left. now exists c.
           ++ right. now left.
      * destruct (Hg k' l') as [Hne Hl];
          [apply in_or_app; right; now right|].
        split; [exact Hne|]. intros y. rewrite Hl. split.
        -- intros (c & Hc & Hkc). exists c. split; [now left | exact Hkc].
        -- intros (c & [Hc | [-> ->]] & Hkc); [now exists c|].
           rewrite (Hother k' l') in Hkc; [discriminate|].
           apply in_or_app. now right.
    + intros c y [Hc | [-> ->]].
      * destruct (Hp c y Hc) as (k' & l' & Hin & Hkc).
        apply in_app_or in Hin as [Hin | [Hin | Hin]].
        -- exists k', l'. split; [apply in_or_app; now left | exact Hkc].
        -- injection Hin as <- <-. exists k, (l ++ [x]).
           split; [apply in_or_app; right; now left | exact Hkc].
        -- exists k', l'.
           split; [apply in_or_app; right; now right | exact Hkc].
      * exists k, (l ++ [x]).
        split; [apply in_or_app; right; now left | exact Hk].
  - split; [|split].
    + rewrite map_app. cbn [map fst]. apply distinct_keys_snoc; [exact Hd|].
      intros k' Hin. apply in_map_iff in Hin as (e & <- & Hin).
      now apply Hall.
    + intros k' l' Hin. apply in_app_or in Hin as [Hin | [Hin | []]].
      * destruct (Hg k' l' Hin) as [Hne Hl].
        split; [exact Hne|]. intros y. rewrite Hl. split.
        -- intros (c & Hc & Hkc). exists c. split; [now left | exact Hkc].
        -- intros (c & [Hc | [-> ->]] & Hkc); [now exists c|].
           pose proof (Hall (k', l') Hin) as Hf. cbn [fst] in Hf.
           rewrite Hf in Hkc. discriminate.
      * injection Hin as <- <-. split; [discriminate|].
        intros y. split.
        -- intros [<- | []]. exists cat.
           split; [now right | now apply key_eqb_refl].
        -- intros (c & [Hc | [-> ->]] & Hkc); [|now left].
           destruct (Hp c y Hc) as (k' & l' & Hin & Hkc').
           rewrite (key_eqb_sym cat c) in Hkc.
           pose proof (Hall (k', l') Hin) as Hf. cbn [fst] in Hf.
           rewrite (key_eqb_trans _ _ _ Hkc' Hkc) in Hf. discriminate Hf.
    + intros c y [Hc | [-> ->]].
      * destruct (Hp c y Hc) as (k' & l' & Hin & Hkc).
        exists k', l'. split; [apply in_or_app; now left | exact Hkc].
      * exists cat, [x].
        split; [apply in_or_app; right; now left | now apply key_eqb_refl].
Qed.

Lemma grouped_ext (P Q : json -> json -> Prop) (g : groups) :
  (forall c x, P c x <-> Q c x) -> grouped P g -> grouped Q g.
Proof.
  intros HPQ (Hd & Hg & Hp). split; [exact Hd|]. split.
  - intros k l Hin. destruct (Hg k l Hin) as [Hne Hl].
    split; [exact Hne|]. intros x. rewrite Hl. split.
    + intros (c & Hc & Hk). exists c. split; [now apply HPQ | exact Hk].
    + intros (c & Hc & Hk). exists c. split; [now apply HPQ | exact Hk].
  - intros c x Hc. apply (Hp c x). now apply HPQ.
Qed.

Section FoldPrefix.
Variables (A S : Type) (step : S -> A -> res S).
Variable Inv : list A -> S -> Prop.

(** An invariant that speaks of the elements visited so far. *)
Lemma fold_res_prefix :
  (forall pre x s s', Inv pre s -> step s x = Ok s' -> Inv (pre ++ [x]) s') ->
  forall l pre s r,
    Inv pre s ->
    fold_left (fun acc x => (a <- acc ;; step a x)%res) l (Ok s) = Ok r ->
    Inv (pre ++ l) r.
Proof.
  intros Hstep. induction l as [|x l IH]; intros pre s r Hs H.
  - apply Ok_inj in H. subst r. now rewrite app_nil_r.
  - cbn [fold_left rbind] in H. destruct (step s x) as [s'|e] eqn:E.
    + replace (pre ++ x :: l) with ((pre ++ [x]) ++ l)
        by (rewrite <- app_assoc; reflexivity).
      eapply IH; [|exact H]. eapply Hstep; eauto.
    + rewrite fold_res_Raise in H. discriminate.
Qed.
End FoldPrefix.

Lemma example_step_inv (config_name : pystr) (g g' : groups) (cls : json) :
  example_step config_name g cls = Ok g' ->
  exists cat x,
    primary_category cls = Ok cat /\ hashable cat = true
    /\ example_record config_name cls = Ok x
    /\ g' = group_append cat x g.
Proof.
  unfold example_step. intros H.
  destruct (primary_category cls) as [cat|] eqn:Hc; [|discriminate].
  cbn [rbind] in H. destruct (hashable cat) eqn:Hh; [|discriminate].
  destruct (example_record config_name cls) as [x|] eqn:Hx; [|discriminate].
  cbn [rbind] in H. apply Ok_inj in H. subst g'.
  now exists cat, x.
Qed.

Lemma examples_of_classifications (done : dict) (config_name : pystr)
  (l : list json) (g g' : groups) :
  grouped (recorded done) g ->
  fold_left (fun acc cls => (a <- acc ;; example_step config_name a cls)%res)
    l (Ok g) = Ok g' ->
  grouped (fun c x => recorded done c x
                      \/ exists cls, In cls l
                                     /\ primary_category cls = Ok c
                                     /\ example_record config_name cls = Ok x)
    g'.
Proof.
  intros Hg H.
  apply (@fold_res_prefix _ _ (example_step config_name)
           (fun pre s =>
              grouped (fun c x =>
                         recorded done c x
                         \/ exists cls, In cls pre
                                        /\ primary_category cls = Ok c
                                        /\ example_record config_name cls = Ok x)
                s)) with (pre := []) (l := l) (s := g).
  - intros pre cls s s' Hs Hstep.
    apply example_step_inv in Hstep as (cat & x & Hc & Hh & Hx & ->).
    eapply grouped_ext; [|exact (@group_append_grouped _ s cat x Hh Hs)].
    intros c y. cbn beta. split.
    + intros [[Hr | (cls' & Hin & Hc' & Hx')] | [-> ->]].
      * now left.
      * right. exists cls'. split; [apply in_or_app; now left | now split].
      * right. exists cls. split; [apply in_or_app; right; now left | now split].
    + intros [Hr | (cls' & Hin & Hc' & Hx')]; [left; now left|].
      apply in_app_or in Hin as [Hin | [<- | []]].
      * left. right. now exists cls'.
      * right. split; congruence.
  - eapply grouped_ext; [|exact Hg].
    intros c y. split; [now left|]. intros [Hr | (cls & [] & _)]. exact Hr.
  - exact H.
Qed.

Lemma recorded_snoc (done : dict) (config_name : pystr) (result c x : json) :
  recorded (done ++ [(config_name, result)]) c x
  <-> recorded done c x
      \/ (truthy result = true
          /\ exists cs l cls,
               py_get result (str "classifications") (JArr []) = Ok cs
               /\ py_iter cs = Ok l
               /\ In cls l
               /\ primary_category cls = Ok c
               /\ example_record config_name cls = Ok x).
Proof.
  unfold recorded. split.
  - intros (n & r & cs & l & cls & Hin & Ht & Hcs & Hl & Hcls & Hc & Hx).
    apply in_app_or in Hin as [Hin | [Hin | []]].
    + left. exists n, r, cs, l, cls. now repeat split.
    + injection Hin as <- <-. right. split; [exact Ht|].
      exists cs, l, cls. now repeat split.
  - intros [(n & r & cs & l & cls & Hin & Ht & Hcs & Hl & Hcls & Hc & Hx)
           | (Ht & cs & l & cls & Hcs & Hl & Hcls & Hc & Hx)].
    + exists n, r, cs, l, cls. split; [apply in_or_app; now left|].
      now repeat split.
    + exists config_name, result, cs, l, cls.
      split; [apply in_or_app; right; now left|]. now repeat split.
Qed.

Lemma examples_of_config_grouped (done : dict) (kv : pystr * json)
  (g g' : groups) :
  grouped (recorded done) g ->
  examples_of_config g kv = Ok g' ->
  grouped (recorded (done ++ [kv])) g'.
Proof.
  destruct kv as [config_name result]. intros Hg H.
  unfold examples_of_config in H.
  destruct (truthy result) eqn:Ht; cbn [negb] in H.
  - destruct (py_get result (str "classifications") (JArr [])) as [cs|] eqn:Hcs;
      [|discriminate].
    cbn [rbind] in H. destruct (py_iter cs) as [l|] eqn:Hl; [|discriminate].
    cbn [rbind] in H.
    eapply grouped_ext; [|exact (@examples_of_classifications done config_name l g g' Hg H)].
    intros c x. cbn beta. rewrite recorded_snoc. split.
    + intros [Hr | (cls & Hin & Hc & Hx)]; [now left|].
      right. split; [exact Ht|]. now exists cs, l, cls.
    + intros [Hr | (_ & cs' & l' & cls & Hcs' & Hl' & Hin & Hc & Hx)];
        [now left|].
      right. exists cls. rewrite Hcs' in Hcs. apply Ok_inj in Hcs. subst cs'.
      rewrite Hl' in Hl. apply Ok_inj in Hl. subst l'. now repeat split.
  - apply Ok_inj in H. subst g'.
    eapply grouped_ext; [|exact Hg].
    intros c x. rewrite recorded_snoc. split; [now left|].
    intros [Hr | (Ht' & _)]; [exact Hr | congruence].
Qed.

Lemma by_category_grouped (all_results : dict) (g : groups) :
  fold_left (fun acc kv => (a <- acc ;; examples_of_config a kv)%res)
    all_results (Ok []) = Ok g ->
  grouped (recorded all_results) g.
Proof.
  intros H.
  apply (@fold_res_prefix _ _ examples_of_config
           (fun pre s => grouped (recorded pre) s))
    with (pre := []) (l := all_results) (s := []).
  - intros pre kv s s' Hs Hstep.
    exact (@examples_of_config_grouped pre kv s s' Hs Hstep).
  - split; [constructor|]. split.
    + intros k l [].
    + intros c x (n & r & cs & l & cls & [] & _).
  - exact H.
Qed.

Lemma insert_keyed_perm (x : nat * json) (l : list (nat * json)) :
  Permutation (insert_keyed x l) (x :: l).
Proof.
  induction l as [|y l IH]; cbn [insert_keyed]; [reflexivity|].
  destruct (fst x <? fst y)%nat; [reflexivity|].
  rewrite IH. apply perm_swap.
Qed.

Lemma insert_keyed_sorted (x : nat * json) (l : list (nat * json)) :
  StronglySorted (fun a b => (fst a <= fst b)%nat) l ->
  StronglySorted (fun a b => (fst a <= fst b)%nat) (insert_keyed x l).
Proof.
  induction 1 as [|y l Hs IH Hy]; cbn [insert_keyed].
  - repeat constructor.
  - destruct (fst x <? fst y)%nat eqn:Hlt.
    + apply Nat.ltb_lt in Hlt. constructor; [now constructor|].
      constructor; [lia|].
      rewrite Forall_forall in *. intros z Hz. specialize (Hy z Hz). lia.
    + apply Nat.ltb_ge in Hlt. constructor; [exact IH|].
      rewrite Forall_forall in *. intros z Hz.
      apply (Permutation_in _ (insert_keyed_perm x l)) in Hz.
      destruct Hz as [<- | Hz]; [exact Hlt | now apply Hy].
Qed.

Lemma sort_keyed_spec (l : list (nat * json)) :
  Permutation (sort_keyed l) l
  /\ StronglySorted (fun a b => (fst a <= fst b)%nat) (sort_keyed l).
Proof.
  unfold sort_keyed.
  assert (G : forall acc,
             StronglySorted (fun a b => (fst a <= fst b)%nat) acc ->
             Permutation (fold_left (fun a x => insert_keyed x a) l acc)
               (acc ++ l)
             /\ StronglySorted (fun a b => (fst a <= fst b)%nat)
                  (fold_left (fun a x => insert_keyed x a) l acc)).
  { induction l as [|x l IH]; intros acc Hacc; cbn [fold_left].
    - rewrite app_nil_r. now split.
    - destruct (IH (insert_keyed x acc) (insert_keyed_sorted x Hacc))
        as [Hp Hs].
      split; [|exact Hs].
      rewrite Hp, insert_keyed_perm. cbn [app]. apply Permutation_middle. }
  destruct (G [] (SSorted_nil _)) as [Hp Hs]. now split.
Qed.

Lemma rmap_combine {A B} (f : A -> res B) (l : list A) (ys : list B) :
  rmap f l = Ok ys ->
  map snd (combine ys l) = l
  /\ forall p, In p (combine ys l) -> f (snd p) = Ok (fst p).
Proof.
  revert ys. induction l as [|x l IH]; intros ys H.
  - apply Ok_inj in H. subst ys. split; [reflexivity | intros p []].
  - cbn [rmap] in H. destruct (f x) as [y|] eqn:Hfx; [|discriminate].
    destruct (rmap f l) as [bs|]; [|discriminate].
    apply Ok_inj in H. subst ys. destruct (IH _ eq_refl) as [Hm Hall].
    cbn [combine map snd]. split; [now rewrite Hm|].
    intros p [<- | Hin]; [exact Hfx | now apply Hall].
Qed.

Lemma sort_by_explanation_spec (items sorted : list json) :
  sort_by_explanation items = Ok sorted ->
  Permutation sorted items /\ StronglySorted not_longer sorted.
Proof.
  unfold sort_by_explanation. intros H.
  destruct (rmap explanation_length items) as [keys|] eqn:Hk; [|discriminate].
  cbn [rbind] in H. apply Ok_inj in H. subst sorted.
  destruct (rmap_combine _ _ Hk) as [Hm Hall].
  destruct (sort_keyed_spec (combine keys items)) as [Hp Hs].
  split.
  - rewrite <- Hm at 2. now apply Permutation_map.
  - assert (Hall' : forall p, In p (sort_keyed (combine keys items)) ->
                              explanation_length (snd p) = Ok (fst p)).
    { intros p Hp'. apply Hall. now apply (Permutation_in _ Hp). }
    clear Hp Hall Hm Hk.
    induction Hs as [|p l Hs IH Hp]; cbn [map]; constructor.
    + apply IH. intros q Hq. apply Hall'. now right.
    + rewrite Forall_forall in *. intros y Hy.
      apply in_map_iff in Hy as (q & <- & Hq).
      exists (fst p), (fst q). split; [apply Hall'; now left|].
      split; [apply Hall'; now right|]. now apply Hp.
Qed.

Lemma slice_upto_prefix {A} (n : Z) (l : list A) :
  exists m, slice_upto n l = firstn m l /\ (0 <= n -> m = Z.to_nat n).
Proof.
  unfold slice_upto. destruct (0 <=? n) eqn:E.
  - exists (Z.to_nat n). now split.
  - exists (length l - Z.to_nat (- n))%nat. split; [reflexivity|].
    apply Z.leb_gt in E. lia.
Qed.

Lemma sorted_prefix (m : nat) (l : list json) :
  StronglySorted not_longer l ->
  StronglySorted not_longer (firstn m l)
  /\ forall y, In y l ->
       In y (firstn m l) \/ Forall (fun x => not_longer x y) (firstn m l).
Proof.
  intros Hs. rewrite <- (firstn_skipn m l) in Hs.
  split.
  - revert Hs. generalize (skipn m l). generalize (firstn m l).
    induction l0 as [|a l0 IH]; cbn [app]; intros l1 H; [constructor|].
    inversion H as [|? ? Hs' Ha]; subst.
    constructor; [now apply (IH l1)|].
    apply Forall_app in Ha. tauto.
  - intros y Hy. rewrite <- (firstn_skipn m l) in Hy.
    apply in_app_or in Hy as [Hy | Hy]; [now left|]. right.
    revert Hs Hy. generalize (skipn m l). generalize (firstn m l).
    induction l0 as [|a l0 IH]; cbn [app]; intros l1 H Hy; [constructor|].
    inversion H as [|? ? Hs' Ha]; subst.
    constructor; [|now apply (IH l1)].
    rewrite Forall_forall in Ha. apply Ha. apply in_or_app. now right.
Qed.

Lemma extract_examples_entries (n : Z) (by_category : groups) :
  forall examples,
    rmap (fun ci => (items <- sort_by_explanation (snd ci) ;;
                     Ok (fst ci, slice_upto n items))%res) by_category
    = Ok examples ->
    map fst examples = map fst by_category
    /\ forall cat items, In (cat, items) examples ->
         exists l sorted m,
           In (cat, l) by_category
           /\ Permutation sorted l
           /\ StronglySorted not_longer sorted
           /\ items = firstn m sorted
           /\ (0 <= n -> m = Z.to_nat n).
Proof.
  induction by_category as [|[k l] g IH]; intros examples H.
  - apply Ok_inj in H. subst examples. split; [reflexivity | intros ? ? []].
  - cbn [rmap snd fst] in H.
    destruct (sort_by_explanation l) as [sorted|] eqn:Hs; [|discriminate].
    cbn [rbind] in H.
    destruct (rmap (fun ci => (items <- sort_by_explanation (snd ci) ;;
                               Ok (fst ci, slice_upto n items))%res) g)
      as [rest|] eqn:Hr; [|discriminate].
    apply Ok_inj in H. subst examples.
    destruct (IH _ eq_refl) as [Hk Hrest].
    split; [cbn [map fst]; now rewrite Hk|].
    intros cat items [Hin | Hin].
    + injection Hin as <- <-.
      destruct (sort_by_explanation_spec _ Hs) as [Hp Hsorted].
      destruct (slice_upto_prefix n sorted) as (m & Hm & Hn).
      exists l, sorted, m. split; [now left|]. now repeat split.
    + destruct (Hrest cat items Hin) as (l' & sorted' & m & Hin' & Hrest').
      exists l', sorted', m. split; [now right | exact Hrest'].
Qed.

(** X26. When [extract_examples] returns, its dict has one entry for
    each category that occurs among the classifications of the results
    that are not empty, under keys that differ from each other.  The
    list of a category holds examples of classifications of that
    category only, in ascending order of the length of the explanation,
    and an example of the category that is not in it has an explanation
    at least as long as each one that is: the examples with the shortest
    explanations are the ones kept.  For a count [n] that is not
    negative no list is longer than [n], and for a positive one no list
    is empty. *)
Theorem extract_examples_keeps_shortest
  (all_results : dict) (n : Z) (examples : groups) :
  extract_examples all_results n = Ok examples ->
  distinct_keys (map fst examples)
  /\ (forall c x, recorded all_results c x ->
        exists cat items, In (cat, items) examples /\ key_eqb cat c = true)
  /\ forall cat items, In (cat, items) examples ->
       (0 <= n -> (length items <= Z.to_nat n)%nat)
       /\ (0 < n -> items <> [])
       /\ StronglySorted not_longer items
       /\ (forall x, In x items -> example_of all_results cat x)
       /\ (forall y, example_of all_results cat y ->
             In y items \/ Forall (fun x => not_longer x y) items).
Proof.
  unfold extract_examples. intros H.
  destruct (fold_left (fun acc kv => (a <- acc ;; examples_of_config a kv)%res)
              all_results (Ok [])) as [g|] eqn:Hg; [|discriminate].
  cbn [rbind] in H.
  apply by_category_grouped in Hg. destruct Hg as (Hd & Hgr & Hp).
  destruct (extract_examples_entries _ _ H) as [Hk Hentries].
  split; [now rewrite Hk|]. split.
  - intros c x Hr. destruct (Hp c x Hr) as (k & l & Hin & Hkc).
    assert (Hin' : In k (map fst examples)).
    { rewrite Hk. now apply (in_map fst _ (k, l)). }
    apply in_map_iff in Hin' as ((k' & items) & Hk' & Hin').
    cbn [fst] in Hk'. subst k'. now exists k, items.
  - intros cat items Hin.
    destruct (Hentries cat items Hin)
      as (l & sorted & m & Hin' & Hperm & Hsorted & -> & Hm).
    destruct (Hgr cat l Hin') as [Hne Hl].
    destruct (sorted_prefix m Hsorted) as [Hpre Hshort].
    split; [|split; [|split; [|split]]].
    + intros Hn. rewrite (Hm Hn). apply firstn_le_length.
    + intros Hn. rewrite (Hm (Z.lt_le_incl _ _ Hn)).
      destruct sorted as [|a sorted].
      * apply Permutation_nil in Hperm. congruence.
      * destruct (Z.to_nat n) eqn:E; [lia|]. discriminate.
    + exact Hpre.
    + intros x Hx. apply firstn_In in Hx.
      apply (Permutation_in _ Hperm) in Hx. now apply Hl.
    + intros y Hy. apply Hshort.
      apply (Permutation_in _ (Permutation_sym Hperm)). now apply Hl.
Qed.

Lemma extract_examples_keeps_shortest_witness :
  exists examples,
    extract_examples
      [(str "14b_ACT_airline",
        JObj [(str "classifications",
               JArr [JObj [(str "task_id", JInt 1);
                           (str "instruction", JStr (str "I"));
                           (str "ground_truth_actions", JArr []);
                           (str "agent_actions", JArr []);
                           (str "classification", example_verdict)];
                     JObj [(str "task_id", JInt 2);
                           (str "instruction", JStr (str "J"));
                           (str "ground_truth_actions", JArr []);
                           (str "agent_actions", JArr []);
                           (str "classification", braces_verdict)]])])] 1
    = Ok examples
    /\ distinct_keys (map fst examples)
    /\ forall cat items, In (cat, items) examples ->
         (length items <= 1)%nat.
Proof.
  destruct (extract_examples
      [(str "14b_ACT_airline",
        JObj [(str "classifications",
               JArr [JObj [(str "task_id", JInt 1);
                           (str "instruction", JStr (str "I"));
                           (str "ground_truth_actions", JArr []);
                           (str "agent_actions", JArr []);
                           (str "classification", example_verdict)];
                     JObj [(str "task_id", JInt 2);
                           (str "instruction", JStr (str "J"));
                           (str "ground_truth_actions", JArr []);
                           (str "agent_actions", JArr []);
                           (str "classification", braces_verdict)]])])] 1)
    as [examples|e] eqn:E; [|vm_compute in E; discriminate E].
  exists examples. split; [reflexivity|].
  destruct (extract_examples_keeps_shortest _ _ E) as (Hd & _ & Hitems).
  split; [exact Hd|].
  intros cat items Hin.
  destruct (Hitems cat items Hin) as (Hlen & _).
  apply Hlen. lia.
Defined.
